(* ===== verification/_CoqProject ===== *)
-Q . S2P
Prelude.v
GoStrings.v
TopicFilter.v
Acl.v
Topics.v
GoTime.v
Errors.v
Metrics.v
Mq.v
MqProps.v
Model.v
Message.v
Codec.v
Registry.v
PeerRegistry.v
PeerRegistryProps.v
Replicas.v
PeerList.v
Catalog.v
DataService.v
DataServiceProps.v
Streams.v
Config.v
MqttConnect.v
Route.v
Crypto.v
Auth.v
Discovery.v
Coap.v
Bridges.v
HttpBridge.v
CoapBridge.v
Router.v
ProtocolIndex.v
IndexProps.v
Api.v
ApiHandlers.v
Main.v
Process.v
ApiProps.v
EndToEnd.v
Node.v
NodeCalls.v
NodeServices.v
NodeSim.v
NodeWait.v
NodeProps.v
NodeAcl.v
NodeTransfer.v
