(* ===== verification/Prelude.v ===== *)
(** * dd-core: a verified model of a data-distribution node

    dd-core (Go, under src/) is a node that moves data between peers: an HTTP API
    accepts transfers, a message queue (MQTT) carries them, bridges forward them to
    HTTP, CoAP or MQTT targets, and a registry knows which peer provides which
    resource.  This library models the node's own code and proves what makes it
    correct.  Each file below opens with what it holds; definitions keep the names of
    the source.

    ** Conventions

    - A Go map is a [gmap]; every loop over a map takes a [ranger] (an arbitrary
      iteration order), so a theorem about it holds for all orders.
    - [int] and [int64] are [Z]; an operation that can overflow is followed by
      [wrap64].  A slice expression or an index out of range, a send on a closed
      channel and the like are [Panic] of the result type [go] of GoStrings.
    - The clock is an argument: each operation takes the readings it makes.
    - What every service shares is the [World]: the message-queue client and the
      observations made on the metrics.  An operation is a function from the world and
      its service to the new ones and its result.
    - The interfaces of the program are classes with laws: [MqClient] (mq.Client),
      [Store] (registry.Store), [JsonCodec] (encoding/json on one struct) and [Gzip].
      MockClient and MemoryStore are instances; [table_codec] and [gzip_store] are
      concrete codecs for the witnesses.  A JSON round trip is only assumed of values
      whose strings are valid UTF-8 ([json_valid]).
    - Only ASCII white space is trimmed by [TrimSpace].
    - The values given to the labels of a metric are constants, or come from JSON
      documents and are valid UTF-8, so that observing them cannot fail; the path of an
      HTTP request is neither, and the middleware that observes it can panic
      ([WithLabelValues] of Router).

    ** The parts, from the bottom up

    - Prelude, GoStrings, GoTime: automation, lists and 64-bit arithmetic; [strings];
      [time].
    - TopicFilter, Acl, Topics: the relation that MQTT filters stand for;
      service/topic_acl_service.go; service/topics.go.  The index loop of
      [matchMQTTTopic] decides the relation, deny overrides allow, and the response
      subscriptions of a node accept the responses of its tenant.
    - Errors, Metrics: model/dd_errors.go; observability/metrics.go.
    - Mq, MqProps, MqttConnect: internal/mq.  A handler is named by the method it calls.
      [MockClient] is the in-memory broker; of [MqttClient] connecting with its TLS
      settings, the QoS, the aliases and the waiting, over the paho library.
    - Model, Message, Codec: internal/model.  [Normalize] and [Validate] of the
      envelope, and the (compressed) encoding with its round trip.
    - Registry, PeerRegistry, PeerRegistryProps, PeerList: registry/memory_store.go,
      service/peer_registry_service.go, service/peer_list_service.go.  The handlers of
      heartbeats and reports are two operations, the reading and the writing of the
      peer, between which others can come.  The invariant of all registries that these
      reach, merging of the providers' schemas, paging, its overflow and its want of an
      order.
    - Replicas: the registries of several nodes, each with its own clock, pace and order
      of messages; a publication can fail after the store was written.  What a node has
      stored is what an abstract registry makes of the messages in the order in which
      that node has handled them; when that makes two nodes agree, and when they differ.
    - Catalog: service/resource_catalog.go, refined to a relation between resources
      and peers.
    - DataService, DataServiceProps: service/dd_data_service.go.  [SendSync] is cut
      where it gives up its lock or blocks; [sys_step] interleaves any number of calls,
      responses, publications and sweeps.  Safety and progress of the calls, where the
      responses of the idempotency cache come from; [SendAsync]; the idempotency sweep.
    - Streams: service/stream_service.go, with the sessions as shared objects of a heap.
    - Config: internal/config.  The layers of the configuration and the command line;
      the file, the environment and the YAML/JSON parsers are parameters.
    - Route, Crypto, Auth, Discovery: service/route_decision.go, auth_peer_service.go,
      hub_discovery.go.  SHA-256, HMAC and base64 are executable and checked against
      published test vectors.
    - Coap, Bridges, HttpBridge, CoapBridge: internal/adapter.  CoAP packets (the two
      builders and parsers of the program), the circuit breaker, the MQTT mapping, the
      handlers of both bridges, and the queue of the CoAP bridge with its workers and
      its shutdown as the step relation [coap_step], in which the two selects of
      [enqueueTask] and the two closes of [Stop] are steps of their own.
    - ProtocolIndex, IndexProps: service/protocol_resource_index.go.
    - Router, Api, ApiHandlers, ApiProps: api/router.go and api/handler.go, from the
      decoded request to the reply, and the logging middleware.  Every handler is a
      definition; [handleTransferSync], which blocks, is two.
    - Main, Process: cmd/main.go up to the running node, from its configuration, and
      from the command line, the files and the environment.
    - EndToEnd: one sync transfer through the API of a node, the broker, the HTTP bridge
      of another and back.
    - Node: the running node, the state of all services together, and [node_event]: a
      message from the broker (one constructor per subscription), a request to the API
      (one per route), a wake-up of a waiting transfer, the tickers, the second select of
      [enqueueTask], a CoAP worker and the shutdown.  What an event reads from outside
      (clock, iteration order, network) comes with it in [env].  [serve_event] adds the
      logging middleware around the requests.
    - NodeCalls, NodeServices, NodeSim, NodeWait: the simulation [node_sim] between the
      node and its components.  Each event is classified once ([background],
      [request_result]); the invariants, the absence of panics and the fate of a waiting
      transfer follow from the classification.
    - NodeProps, NodeAcl: the properties of the running node.
    - NodeTransfer: the transfer of EndToEnd on running nodes, one of which asks and
      waits, while the HTTP bridge of another one answers.

    ** The theorems

    The numbered comments (C1 to C40) mark the properties, the most important first:
    the end-to-end transfer (C1), the running node (C2-C7, C36), the safety and progress
    of concurrent calls (C8, C9), the registries of several nodes (C10), access control
    and topics (C11-C13), the envelope (C14-C16), the registry and its queries (C17-C22),
    async transfers and the caches (C23, C24), startup (C25), streams (C26, C27),
    configuration (C28), authentication (C29), the process from its command line, with
    TLS (C30), CoAP packets and the bridges
    (C31-C37), and the API (C38-C40).  Some of them state a defect as the code has it:
    C4, C19, C21, C27, C37, C40.  Theorems without a number show further defects:
    [heartbeat_undoes_unregister], [reordered_diverges], [unpublished_diverges],
    [pages_repeat], [cached_response_crosses], [serve_keeps_reply], [node_stop_race].
    A theorem with hypotheses is followed by a witness, which applies it to a concrete
    run.

    ** What is atomic

    The source holds a mutex for a part of an operation only, and the model is cut where
    that can be told apart.  C8 and C9 interleave the sync calls and the handlers of
    responses at the grain of locks and channels; C10 and C17 the registry's handlers
    between their reading and their writing of a peer; C35 and C37 the calls of
    [enqueueTask], the workers and the closes of [Stop].  A running node (C1 to C7, C36)
    takes its events one at a time, an event being a whole handler or request but for
    three: a sync transfer waits between two events, so does [enqueueTask] between its
    two selects, and the two closes of [Stop] are one event.  C5 embeds the runs of a
    node in the finer systems of the registry, the streams and the data service.

    ** Fuel and bounds

    The CoAP parsers run on the length of the packet plus one, and C32 shows that this
    always suffices; the eviction of the idempotency cache runs on the number of its
    entries, and C24 that it then is small enough; [fetch_pages] asks one page more
    than there are elements.  All other recursion is structural.

    ** Not modelled

    The paho library, disconnecting from the broker, sockets, the HTTP listener, log
    output and the delivery of signals.  A ticker is an event that may come at any time,
    with the operation that it repeats; the shutdown is an event as well, and closing
    the listener is not part of it, so requests may still follow.  The body of a request
    is taken as already decoded, and a path as already cleaned by the multiplexer.  The
    sleeps between attempts of a bridge are omitted, and the error texts of net and
    net/http are parameters.
    The tests and their utilities under src/test are left out. *)
From Stdlib Require Import Ascii NArith.
From stdpp Require Export base sorting numbers strings gmap fin_maps.
From stdpp Require Export list.

Open Scope Z_scope.

(** * Automation of the development *)

Create HintDb ddcore discriminated.
Create Rewrite HintDb ddcore_rw.

(** Case analysis on every [match]/[if] of the goal or of the hypotheses. *)
Ltac break_match :=
  repeat (case_match; simplify_eq/=).

(** Unfold-and-decide: splits [bool_decide] tests into propositions. *)
Ltac break_decide :=
  repeat (case_bool_decide || case_decide); simplify_eq/=.

(** Evaluates a decidable closed proposition. *)
Ltac by_compute :=
  match goal with
  | |- ?P => apply (bool_decide_eq_true_1 P); vm_compute; reflexivity
  end.

(** * Code that can panic *)

(** A Go statement either continues with a value or panics at run time (index
    or slice bounds out of range). *)
Inductive go (A : Type) :=
| Ret (x : A)
| Panic (why : string).
Arguments Ret {A} _.
Arguments Panic {A} _.

Definition go_bind {A B} (m : go A) (k : A → go B) : go B :=
  match m with Ret x => k x | Panic w => Panic w end.

Declare Scope go_scope.
Delimit Scope go_scope with go.
Notation "'let?' x := m 'in' k" := (go_bind m (λ x, k))
  (at level 10, x pattern, m at level 200, k at level 200)
  : go_scope.

Lemma go_bind_ret {A B} (x : A) (k : A → go B) : go_bind (Ret x) k = k x.
Proof. done. Qed.

(** The slice expression [l[lo:hi]]: Go panics unless [0 <= lo <= hi <= cap(l)].
    The bound used is the length: no slice expression of the program reaches
    beyond it without the program's own guard having excluded that. *)
Definition slice {A} (l : list A) (lo hi : Z) : go (list A) :=
  if decide (0 ≤ lo ∧ lo ≤ hi ∧ hi ≤ Z.of_nat (length l))
  then Ret (take (Z.to_nat (hi - lo)) (drop (Z.to_nat lo) l))
  else Panic "slice bounds out of range".

Lemma slice_ret {A} (l : list A) lo hi :
  0 ≤ lo → lo ≤ hi → hi ≤ Z.of_nat (length l) →
  slice l lo hi = Ret (take (Z.to_nat (hi - lo)) (drop (Z.to_nat lo) l)).
Proof. intros. unfold slice. by rewrite decide_True by lia. Qed.

(** The index expression [l[i]]. *)
Definition index {A} (l : list A) (i : Z) : go A :=
  if decide (i < 0) then Panic "index out of range"
  else match l !! Z.to_nat i with
       | Some x => Ret x
       | None => Panic "index out of range"
       end.

Lemma index_ret {A} (l : list A) i x :
  0 ≤ i → l !! Z.to_nat i = Some x → index l i = Ret x.
Proof. intros Hi Hx. unfold index. rewrite decide_False by lia. by rewrite Hx. Qed.

#[export] Instance go_eq_dec {A} `{EqDecision A} : EqDecision (go A).
Proof. solve_decision. Defined.

(** * Machine integers *)

(** Go's [int] (on the 64-bit platforms the program targets) and [int64]
    arithmetic wraps around modulo 2^64. *)
Definition int64_min : Z := - 2 ^ 63.
Definition int64_max : Z := 2 ^ 63 - 1.
Definition int64_range (z : Z) : Prop := int64_min ≤ z ≤ int64_max.
Definition wrap64 (z : Z) : Z := (z + 2 ^ 63) mod 2 ^ 64 - 2 ^ 63.

#[export] Instance int64_range_dec z : Decision (int64_range z).
Proof. unfold int64_range. apply _. Defined.

Lemma wrap64_small z : int64_range z → wrap64 z = z.
Proof.
  unfold int64_range, int64_min, int64_max, wrap64. intros Hz.
  rewrite Z.mod_small by lia. lia.
Qed.

Lemma wrap64_range z : int64_range (wrap64 z).
Proof.
  unfold int64_range, int64_min, int64_max, wrap64.
  pose proof (Z.mod_pos_bound (z + 2 ^ 63) (2 ^ 64) ltac:(lia)). lia.
Qed.

(** A sum that exceeds the range once comes out negative. *)
Lemma wrap64_over z : int64_max < z → z < 2 ^ 63 + 2 ^ 64 → wrap64 z = z - 2 ^ 64.
Proof.
  unfold int64_max, wrap64. intros H1 H2.
  replace ((z + 2 ^ 63) mod 2 ^ 64) with (z + 2 ^ 63 - 2 ^ 64); [lia|].
  apply Z.mod_unique with 1; lia.
Qed.

#[export] Hint Resolve wrap64_range : ddcore.

(** stdpp keeps [+:+] from reducing; the topic and codec proofs compute with it. *)
#[global] Arguments String.append !_ _ / : simpl nomatch.

(** * Bytes *)

(** A Go [byte]; [[]byte] is a list of them and a Go [string] is the standard
    [string] of characters. *)
Abbreviation byte := Ascii.ascii.
Abbreviation bytes := (list Ascii.ascii).

Definition byte_to_Z (b : byte) : Z := Z.of_N (N_of_ascii b).
(** The conversion [byte(z)] keeps the low eight bits. *)
Definition byte_of_Z (z : Z) : byte := ascii_of_N (Z.to_N (z mod 256)).

Lemma byte_to_Z_range b : 0 ≤ byte_to_Z b < 256.
Proof. unfold byte_to_Z. pose proof (N_ascii_bounded b). lia. Qed.

Lemma byte_to_of_Z z : byte_to_Z (byte_of_Z z) = z mod 256.
Proof.
  unfold byte_to_Z, byte_of_Z.
  pose proof (Z.mod_pos_bound z 256 ltac:(lia)).
  rewrite N_ascii_embedding by lia. lia.
Qed.

Lemma byte_of_to_Z b : byte_of_Z (byte_to_Z b) = b.
Proof.
  unfold byte_of_Z. rewrite Z.mod_small by apply byte_to_Z_range.
  unfold byte_to_Z. rewrite N2Z.id. apply ascii_N_embedding.
Qed.

#[export] Hint Rewrite byte_to_of_Z byte_of_to_Z : ddcore_rw.

Fixpoint to_bytes (s : string) : bytes :=
  match s with EmptyString => [] | String c s' => c :: to_bytes s' end.
Fixpoint of_bytes (b : bytes) : string :=
  match b with [] => EmptyString | c :: b' => String c (of_bytes b') end.

Lemma of_to_bytes s : of_bytes (to_bytes s) = s.
Proof. induction s; simpl; congruence. Qed.
Lemma to_of_bytes b : to_bytes (of_bytes b) = b.
Proof. induction b; simpl; congruence. Qed.
Lemma length_to_bytes s : length (to_bytes s) = String.length s.
Proof. induction s; simpl; congruence. Qed.

(** * Maps and their iteration order *)

(** Go ranges over a map in an unspecified order.  A [ranger] is one choice of
    order for every map; the operations take it as an argument, so that a theorem
    about an operation holds for every order and two calls may use two orders. *)
Record ranger := {
  range : ∀ {V : Type}, gmap string V → list (string * V);
  range_perm : ∀ {V : Type} (m : gmap string V), range m ≡ₚ map_to_list m
}.

Lemma range_lookup (ρ : ranger) {V} (m : gmap string V) k v :
  (k, v) ∈ range ρ m ↔ m !! k = Some v.
Proof. by rewrite range_perm, elem_of_map_to_list. Qed.

Lemma range_length (ρ : ranger) {V} (m : gmap string V) : length (range ρ m) = size m.
Proof. by rewrite range_perm, length_map_to_list. Qed.

Lemma range_NoDup_fst (ρ : ranger) {V} (m : gmap string V) : NoDup (range ρ m).*1.
Proof. rewrite range_perm. apply NoDup_fst_map_to_list. Qed.

Lemma range_NoDup (ρ : ranger) {V} (m : gmap string V) : NoDup (range ρ m).
Proof. rewrite range_perm. apply NoDup_map_to_list. Qed.

(** The order of the maps' own enumeration, used to evaluate examples. *)
Definition ranger_std : ranger :=
  {| range V m := map_to_list m; range_perm V m := reflexivity _ |}.

(** The values of a map, in iteration order. *)
Definition range_values (ρ : ranger) {V} (m : gmap string V) : list V := (range ρ m).*2.

Lemma elem_of_range_values (ρ : ranger) {V} (m : gmap string V) v :
  v ∈ range_values ρ m ↔ ∃ k, m !! k = Some v.
Proof.
  unfold range_values. rewrite list_elem_of_fmap. split.
  - intros ([k w] & -> & H). exists k. by apply range_lookup in H.
  - intros [k H]. exists (k, v). split; [done|]. by apply range_lookup.
Qed.

Lemma length_range_values (ρ : ranger) {V} (m : gmap string V) :
  length (range_values ρ m) = size m.
Proof. unfold range_values. by rewrite length_fmap, range_length. Qed.

(** * Lists *)

Lemma foldl_ext_all {A B} (f g : A → B → A) (l : list B) a :
  (∀ a b, f a b = g a b) → foldl f a l = foldl g a l.
Proof. intros H. revert a. induction l as [|b l IH]; intros a; simpl; [done|]. by rewrite H, IH. Qed.

(** A loop that rewrites each entry of the map it ranges over is a map of the
    entries, whatever the order. *)
Lemma foldl_insert_lookup {V} (f : string → V → option V) (l : list (string * V))
    (m : gmap string V) k :
  NoDup l.*1 →
  (∀ k v, (k, v) ∈ l → m !! k = Some v) →
  foldl (λ m '(k, v), match f k v with Some v' => <[k := v']> m | None => m end) m l !! k =
  match m !! k with
  | Some v => if decide (k ∈ l.*1) then Some (default v (f k v)) else Some v
  | None => None
  end.
Proof.
  revert m. induction l as [|[k1 v1] l IH]; intros m Hnd Hin; simpl.
  - by destruct (m !! k).
  - apply NoDup_cons in Hnd as [Hk1 Hnd].
    assert (m !! k1 = Some v1) as Hm1 by (apply Hin; left).
    rewrite IH; [|done|].
    + destruct (decide (k = k1)) as [->|Hne].
      * rewrite Hm1, decide_True by left.
        destruct (f k1 v1); rewrite ?lookup_insert_eq, ?Hm1, decide_False by done; done.
      * replace ((match f k1 v1 with Some v' => <[k1:=v']> m | None => m end) !! k)
          with (m !! k) by (destruct (f k1 v1); by rewrite ?lookup_insert_ne).
        destruct (m !! k); [|done]. apply decide_ext. rewrite elem_of_cons. tauto.
    + intros k2 v2 H2. assert (k2 ≠ k1).
      { intros ->. apply Hk1. apply list_elem_of_fmap. by exists (k1, v2). }
      destruct (f k1 v1); rewrite ?lookup_insert_ne by done; apply Hin; by right.
Qed.

(** A loop that deletes entries of the map it ranges over keeps the others. *)
Lemma foldl_delete_lookup {V} (f : string → V → bool) (ρ : ranger) (m : gmap string V) key :
  foldl (λ m' '(k, v), if f k v then delete k m' else m') m (range ρ m) !! key =
  match m !! key with
  | Some v => if f key v then None else Some v
  | None => None
  end.
Proof.
  assert (∀ (l : list (string * V)) (m' : gmap string V),
    foldl (λ m' '(k, v), if f k v then delete k m' else m') m' l !! key =
    if decide (Exists (λ kv, kv.1 = key ∧ f kv.1 kv.2 = true) l) then None
    else m' !! key) as Hl.
  { induction l as [|[k v] l IH]; intros m'; cbn [foldl].
    - rewrite decide_False; [done|]. by inversion 1.
    - rewrite IH. destruct (decide (Exists _ l)) as [He|He].
      + by rewrite decide_True by (by apply Exists_cons; right).
      + destruct (f k v) eqn:Ef.
        * rewrite lookup_delete. apply decide_ext. rewrite Exists_cons. simpl.
          split; [by intros ->; left|]. by intros [[? _]|?].
        * rewrite decide_False; [done|]. rewrite Exists_cons. simpl.
          intros [[_ ?]|?]; congruence. }
  rewrite Hl. destruct (m !! key) as [v|] eqn:E; [|by case_decide].
  destruct (f key v) eqn:Ef.
  - rewrite decide_True; [done|]. apply Exists_exists. exists (key, v). simpl.
    split; [by apply range_lookup|done].
  - rewrite decide_False; [done|]. rewrite Exists_exists. intros ([k w] & Hin & Hk & Hw).
    simpl in *. subst. apply range_lookup in Hin. congruence.
Qed.

(** * Tuples and results: injectivity without reducing the components *)

Lemma pair3_inj {A B C} (a a' : A) (b b' : B) (c c' : C) :
  (a, b, c) = (a', b', c') → a = a' ∧ b = b' ∧ c = c'.
Proof. intros E. split_and!; congruence. Qed.
Lemma pair4_inj {A B C D} (a a' : A) (b b' : B) (c c' : C) (d d' : D) :
  (a, b, c, d) = (a', b', c', d') → a = a' ∧ b = b' ∧ c = c' ∧ d = d'.
Proof. intros E. split_and!; congruence. Qed.
Lemma Ret_inj {A} (a a' : A) : Ret a = Ret a' → a = a'.
Proof. congruence. Qed.

(** * Bits *)

(** Two bytes put together. *)
Lemma lor_shiftl8 a b : 0 ≤ b < 256 → Z.lor (Z.shiftl a 8) b = a * 256 + b.
Proof.
  intros Hb.
  assert (Z.land (Z.shiftl a 8) b = 0) as Hland.
  { apply Z.bits_inj'. intros i Hi. rewrite Z.land_spec, Z.shiftl_spec, Z.bits_0 by lia.
    destruct (decide (i < 8)).
    - by rewrite Z.testbit_neg_r by lia.
    - rewrite (Z.bits_above_log2 b i); [by rewrite andb_false_r|lia|].
      destruct (decide (b = 0)) as [->|]; [simpl; lia|].
      assert (Z.log2 b < 8); [|lia]. apply Z.log2_lt_pow2; lia. }
  rewrite <- Z.lxor_lor by done. rewrite <- Z.add_nocarry_lxor by done.
  rewrite Z.shiftl_mul_pow2 by lia. lia.
Qed.

(** Two nibbles put together. *)
Lemma lor_shiftl4 a b : 0 ≤ b < 16 → Z.lor (Z.shiftl a 4) b = a * 16 + b.
Proof.
  intros Hb.
  assert (Z.land (Z.shiftl a 4) b = 0) as Hland.
  { apply Z.bits_inj'. intros i Hi. rewrite Z.land_spec, Z.shiftl_spec, Z.bits_0 by lia.
    destruct (decide (i < 4)).
    - by rewrite Z.testbit_neg_r by lia.
    - rewrite (Z.bits_above_log2 b i); [by rewrite andb_false_r|lia|].
      destruct (decide (b = 0)) as [->|]; [simpl; lia|].
      assert (Z.log2 b < 4); [|lia]. apply Z.log2_lt_pow2; lia. }
  rewrite <- Z.lxor_lor by done. rewrite <- Z.add_nocarry_lxor by done.
  rewrite Z.shiftl_mul_pow2 by lia. lia.
Qed.
