(* ===== verification/GoStrings.v ===== *)
(** The part of Go's [strings], [strconv] and [sort] packages the program uses,
    on byte strings, with the lemmas the components share. *)
From S2P Require Import Prelude.
From Stdlib Require Import Ascii.
From stdpp Require Import pretty.

Open Scope string_scope.
Open Scope list_scope.
Open Scope Z_scope.

(** * [strings.Split] by a one-byte separator *)

Fixpoint Split (sep : ascii) (s : string) : list string :=
  match s with
  | EmptyString => [""]
  | String c s' =>
      if Ascii.eqb c sep then "" :: Split sep s'
      else match Split sep s' with
           | [] => [String c ""]
           | x :: xs => String c x :: xs
           end
  end.

(** [sep] does not occur in [s]. *)
Definition free_of (sep : ascii) (s : string) : Prop := sep ∉ to_bytes s.

#[export] Instance free_of_dec sep s : Decision (free_of sep s).
Proof. unfold free_of. apply _. Defined.

Lemma Split_nonempty sep s : Split sep s ≠ [].
Proof. destruct s; simpl; [done|]. by repeat case_match. Qed.

Lemma Split_free sep s : free_of sep s → Split sep s = [s].
Proof.
  unfold free_of. induction s as [|c s IH]; simpl; [done|].
  rewrite not_elem_of_cons. intros [? ?].
  destruct (Ascii.eqb_spec c sep); [done|]. by rewrite IH.
Qed.

Lemma Split_sep sep s1 s2 :
  free_of sep s1 → Split sep (s1 +:+ String sep s2) = s1 :: Split sep s2.
Proof.
  unfold free_of. induction s1 as [|c s IH]; simpl; [by rewrite Ascii.eqb_refl|].
  rewrite not_elem_of_cons. intros [? ?].
  destruct (Ascii.eqb_spec c sep); [done|]. by rewrite IH.
Qed.

(** Joining the levels back gives the string: [Split] loses nothing. *)
Fixpoint Join (sep : ascii) (l : list string) : string :=
  match l with
  | [] => ""
  | [x] => x
  | x :: l' => x +:+ String sep (Join sep l')
  end.

Lemma Join_Split sep s : Join sep (Split sep s) = s.
Proof.
  induction s as [|c s IH]; simpl; [done|].
  pose proof (Split_nonempty sep s).
  destruct (Ascii.eqb_spec c sep); destruct (Split sep s) as [|x [|y xs]]; simpl in *; by subst.
Qed.

Lemma Split_inj sep s1 s2 : Split sep s1 = Split sep s2 → s1 = s2.
Proof. intros H. by rewrite <- (Join_Split sep s1), H, Join_Split. Qed.

Lemma Split_levels_free sep s l : l ∈ Split sep s → free_of sep l.
Proof.
  unfold free_of. revert l. induction s as [|c s IH]; simpl; intros l.
  - rewrite list_elem_of_singleton. intros ->. apply not_elem_of_nil.
  - destruct (Ascii.eqb_spec c sep).
    + rewrite elem_of_cons. intros [->|Hl]; [apply not_elem_of_nil|by apply IH].
    + pose proof (Split_nonempty sep s). destruct (Split sep s) as [|x xs]; [done|].
      rewrite elem_of_cons. intros [->|Hl].
      * simpl. rewrite not_elem_of_cons. split; [congruence|]. apply IH. left.
      * apply IH. by right.
Qed.

(** * Prefixes, suffixes, substrings *)

Fixpoint HasPrefix (s pre : string) {struct pre} : bool :=
  match pre, s with
  | EmptyString, _ => true
  | String a pre', String b s' => if decide (a = b) then HasPrefix s' pre' else false
  | String _ _, EmptyString => false
  end.

Fixpoint drop_string (n : nat) (s : string) : string :=
  match n, s with
  | O, _ => s
  | S n', EmptyString => ""
  | S n', String _ s' => drop_string n' s'
  end.

Fixpoint Contains (s sub : string) : bool :=
  HasPrefix s sub ||
  match s with EmptyString => false | String _ s' => Contains s' sub end.

(** [strings.Replace(s, old, new, 1)]: the first occurrence only. *)
Fixpoint Replace1 (s old new : string) : string :=
  if HasPrefix s old then new +:+ drop_string (String.length old) s
  else match s with
       | EmptyString => ""
       | String c s' => String c (Replace1 s' old new)
       end.

(** [strings.TrimSuffix]: one occurrence at the end, if there is one. *)
Fixpoint TrimSuffix (s suf : string) : string :=
  if decide (s = suf) then ""
  else match s with
       | EmptyString => ""
       | String c s' => String c (TrimSuffix s' suf)
       end.

Lemma HasPrefix_spec s pre : HasPrefix s pre = true ↔ ∃ r, s = pre +:+ r.
Proof.
  revert s. induction pre as [|a pre IH]; intros s; simpl.
  - split; [by exists s|done].
  - destruct s as [|b s]; [split; [done|by intros [r ?]]|].
    case_decide; subst.
    + rewrite IH. split; intros [r Hr]; exists r; [by subst|]. by inversion Hr.
    + split; [done|]. intros [r Hr]. by inversion Hr.
Qed.

Lemma HasPrefix_app pre r : HasPrefix (pre +:+ r) pre = true.
Proof. apply HasPrefix_spec. by exists r. Qed.

Lemma drop_string_app pre r : drop_string (String.length pre) (pre +:+ r) = r.
Proof. induction pre; simpl; done. Qed.

Lemma Replace1_prefix pre r new : Replace1 (pre +:+ r) pre new = new +:+ r.
Proof.
  destruct (pre +:+ r) eqn:E; simpl; rewrite <- E, HasPrefix_app, drop_string_app; done.
Qed.

Lemma string_app_nil_r s : s +:+ "" = s.
Proof. induction s; simpl; congruence. Qed.

Lemma string_app_assoc s1 s2 s3 : s1 +:+ (s2 +:+ s3) = (s1 +:+ s2) +:+ s3.
Proof. induction s1; simpl; congruence. Qed.

Lemma TrimSuffix_app s suf : suf ≠ "" → TrimSuffix (s +:+ suf) suf = s.
Proof.
  intros Hne. induction s as [|c s IH]; simpl.
  - destruct suf; [done|]. simpl. by rewrite decide_True.
  - rewrite decide_False.
    + by rewrite IH.
    + intros E. apply (f_equal String.length) in E. simpl in E.
      assert (∀ a b, String.length (a +:+ b) = (String.length a + String.length b)%nat)
        as Hlen by (intros a b; induction a; simpl; congruence).
      rewrite Hlen in E. lia.
Qed.

Lemma Contains_app s1 s2 sub : Contains s2 sub = true → Contains (s1 +:+ s2) sub = true.
Proof.
  intros H. induction s1 as [|c s1 IH]; simpl; [done|].
  rewrite IH. by rewrite orb_true_r.
Qed.

Lemma Contains_prefix s sub : HasPrefix s sub = true → Contains s sub = true.
Proof. intros H. destruct s; simpl; by rewrite H. Qed.

(** A one-character needle. *)
Lemma Contains_char s c : Contains s (String c "") = true ↔ c ∈ to_bytes s.
Proof.
  induction s as [|a s IH]; simpl.
  - split; [done|]. by rewrite elem_of_nil.
  - rewrite orb_true_iff, IH, elem_of_cons.
    case_decide; subst; [tauto|]. split; [intros [?|?]; [done|by right]|].
    intros [?|?]; [by subst|by right].
Qed.

Lemma Contains_free s c : free_of c s → Contains s (String c "") = false.
Proof. intros H. apply not_true_is_false. by rewrite Contains_char. Qed.

Lemma to_bytes_app s1 s2 : to_bytes (s1 +:+ s2) = (to_bytes s1 ++ to_bytes s2)%list.
Proof. induction s1; simpl; congruence. Qed.

Lemma free_of_app c s1 s2 : free_of c (s1 +:+ s2) ↔ free_of c s1 ∧ free_of c s2.
Proof. unfold free_of. rewrite to_bytes_app, not_elem_of_app. done. Qed.

Lemma string_app_inj_l s r1 r2 : s +:+ r1 = s +:+ r2 → r1 = r2.
Proof. induction s; simpl; [done|]. intros E. inversion E. auto. Qed.

Lemma string_app_length (a b : string) :
  String.length (a +:+ b) = (String.length a + String.length b)%nat.
Proof. induction a as [|x a IH]; cbn; [done|]. by rewrite IH. Qed.

Lemma string_app_inj_length (a b c d : string) :
  String.length b = String.length d → a +:+ b = c +:+ d → a = c ∧ b = d.
Proof.
  intros Hl. revert c. induction a as [|x a IH]; intros [|y c]; cbn; intros E.
  - done.
  - exfalso. apply (f_equal String.length) in E. cbn in E.
    rewrite string_app_length in E. lia.
  - exfalso. apply (f_equal String.length) in E. cbn in E.
    rewrite string_app_length in E. lia.
  - injection E as -> E. by destruct (IH c E) as [-> ->].
Qed.

(** * Case folding, decimal text *)

Definition lower_ascii (c : ascii) : ascii :=
  let n := byte_to_Z c in
  if decide (65 ≤ n ≤ 90) then byte_of_Z (n + 32) else c.

(** [strings.ToLower] on ASCII text. *)
Fixpoint ToLower (s : string) : string :=
  match s with EmptyString => "" | String c s' => String (lower_ascii c) (ToLower s') end.

(** [strconv.Itoa] and the [%d] verb. *)
Definition Itoa (z : Z) : string := pretty z.

(** JSON texts are written with single quotes in the examples. *)
Fixpoint json_text (s : string) : string :=
  match s with
  | EmptyString => ""
  | String c s' => String (if decide (c = "'"%char) then byte_of_Z 34 else c) (json_text s')
  end.

(** * [strings.TrimSpace] on ASCII text *)

Definition is_space (c : ascii) : bool :=
  let n := byte_to_Z c in bool_decide (n = 32 ∨ 9 ≤ n ≤ 13).

Fixpoint trim_left (s : string) : string :=
  match s with
  | EmptyString => ""
  | String c s' => if is_space c then trim_left s' else s
  end.

Fixpoint trim_right (s : string) : string :=
  match s with
  | EmptyString => ""
  | String c s' =>
      match trim_right s' with
      | EmptyString => if is_space c then "" else String c ""
      | t => String c t
      end
  end.

Definition TrimSpace (s : string) : string := trim_right (trim_left s).

Lemma trim_right_free s : (∀ c, c ∈ to_bytes s → is_space c = false) → trim_right s = s.
Proof.
  induction s as [|c s IH]; intros H; simpl; [done|].
  rewrite IH by (intros c' ?; apply H; simpl; by right).
  rewrite (H c) by (simpl; left). by destruct s.
Qed.

Lemma TrimSpace_free s : (∀ c, c ∈ to_bytes s → is_space c = false) → TrimSpace s = s.
Proof.
  intros H. unfold TrimSpace. destruct s as [|c s]; [done|]. simpl trim_left.
  rewrite (H c) by (simpl; left). by apply trim_right_free.
Qed.

(** * Sorting

    The order of Go strings is the order of their bytes.  [sort.Strings] and
    [sort.Slice] give a sorted permutation; where the keys are all different there
    is one. *)

Definition string_le (a b : string) : Prop := String.leb a b = true.

#[export] Instance string_le_dec : RelDecision string_le.
Proof. intros a b. unfold string_le. apply _. Defined.

Lemma ascii_compare_lt a b : Ascii.compare a b = Lt ↔ (N_of_ascii a < N_of_ascii b)%N.
Proof. unfold Ascii.compare. apply N.compare_lt_iff. Qed.

Lemma string_compare_trans a b c :
  String.compare a b ≠ Gt → String.compare b c ≠ Gt → String.compare a c ≠ Gt.
Proof.
  revert b c. induction a as [|x a IH]; intros [|y b] [|z c]; simpl; try done.
  intros H1 H2.
  destruct (Ascii.compare x y) eqn:E1; [|destruct (Ascii.compare y z) eqn:E2|done].
  - apply Ascii.compare_eq_iff in E1 as ->.
    destruct (Ascii.compare y z); [|done..]. by eapply IH.
  - apply Ascii.compare_eq_iff in E2 as ->. by rewrite E1.
  - apply ascii_compare_lt in E1, E2.
    assert (Ascii.compare x z = Lt) as ->; [|done]. apply ascii_compare_lt. etrans; [exact E1|exact E2].
  - done.
Qed.

#[export] Instance string_le_trans : Transitive string_le.
Proof.
  intros a b c. unfold string_le, String.leb. intros H1 H2.
  assert (String.compare a c ≠ Gt) as H.
  { apply string_compare_trans with b; by intros E; rewrite E in *. }
  by destruct (String.compare a c).
Qed.

#[export] Instance string_le_total : Total string_le.
Proof. intros a b. apply String.leb_total. Qed.

#[export] Instance string_le_antisymm : AntiSymm (=) string_le.
Proof. intros a b. apply String.leb_antisym. Qed.

Definition sort_Strings (l : list string) : list string := merge_sort string_le l.

(** * [utf8.ValidString] *)

(** The continuation bytes that may follow a first byte of three or four. *)
Definition utf8_second (b0 b1 : Z) : bool :=
  bool_decide ((if decide (b0 = 224) then 160 else if decide (b0 = 240) then 144 else 128) ≤ b1 ≤
               (if decide (b0 = 237) then 159 else if decide (b0 = 244) then 143 else 191)).
Definition utf8_cont (b : Z) : bool := bool_decide (128 ≤ b ≤ 191).

Fixpoint utf8_Valid (l : list Z) : bool :=
  match l with
  | [] => true
  | b0 :: l0 =>
      if decide (b0 < 128) then utf8_Valid l0
      else match l0 with
      | [] => false
      | b1 :: l1 =>
          if decide (194 ≤ b0 ≤ 223) then utf8_cont b1 && utf8_Valid l1
          else match l1 with
          | [] => false
          | b2 :: l2 =>
              if decide (224 ≤ b0 ≤ 239) then utf8_second b0 b1 && utf8_cont b2 && utf8_Valid l2
              else match l2 with
              | [] => false
              | b3 :: l3 =>
                  bool_decide (240 ≤ b0 ≤ 244) && utf8_second b0 b1 && utf8_cont b2 &&
                  utf8_cont b3 && utf8_Valid l3
              end
          end
      end
  end.

Definition utf8_ValidString (s : string) : bool := utf8_Valid (byte_to_Z <$> to_bytes s).

Lemma utf8_Valid_app l l' : Forall (λ b, b < 128) l → utf8_Valid (l ++ l') = utf8_Valid l'.
Proof. induction 1 as [|b l Hb _ IH]; [done|]. cbn. by rewrite decide_True. Qed.

(** Text in front that is ASCII does not matter. *)
Lemma utf8_ValidString_app s s' :
  Forall (λ b, b < 128) (byte_to_Z <$> to_bytes s) →
  utf8_ValidString (s +:+ s') = utf8_ValidString s'.
Proof.
  intros Hs. unfold utf8_ValidString.
  rewrite to_bytes_app, fmap_app. by apply utf8_Valid_app.
Qed.

(** The euro sign, and its first two bytes. *)
Example utf8_euro : utf8_Valid [226; 130; 172] = true ∧ utf8_Valid [226; 130] = false ∧
  utf8_Valid [255] = false ∧ utf8_Valid [237; 160; 128] = false.
Proof. by vm_compute. Qed.
