(* ===== verification/TopicFilter.v ===== *)
(** The abstract specification of MQTT topic filters, shared by the access
    control list ([Acl]) and by the in-memory broker ([Mq]): the relation
    between the levels of a filter and the levels of a topic. *)
From S2P Require Import Prelude GoStrings.
From Stdlib Require Import Ascii.

Open Scope string_scope.
Open Scope list_scope.
Open Scope Z_scope.

Definition slash : ascii := "/".

(** [filter_matches wild pp tp]: the filter levels [pp] accept the topic levels
    [tp], where [wild] tells which levels stand for any single level. *)
Inductive filter_matches (wild : string → bool) : list string → list string → Prop :=
| fm_end : filter_matches wild [] []
| fm_hash pp tp : filter_matches wild ("#" :: pp) tp
| fm_wild p pp t tp :
    wild p = true → filter_matches wild pp tp → filter_matches wild (p :: pp) (t :: tp)
| fm_level p pp tp :
    filter_matches wild pp tp → filter_matches wild (p :: pp) (p :: tp).

#[export] Hint Constructors filter_matches : ddcore.

(** MQTT's own single-level wildcard. *)
Definition wild_plus (p : string) : bool := bool_decide (p = "+").

Lemma filter_matches_refl wild l : filter_matches wild l l.
Proof. induction l; eauto with ddcore. Qed.

Lemma filter_matches_mono (w1 w2 : string → bool) pp tp :
  (∀ p, w1 p = true → w2 p = true) →
  filter_matches w1 pp tp → filter_matches w2 pp tp.
Proof. intros Hw. induction 1; eauto with ddcore. Qed.

Lemma filter_matches_cons_inv wild p pp tp :
  p ≠ "#" → filter_matches wild (p :: pp) tp →
  ∃ t tp', tp = t :: tp' ∧ (wild p = true ∨ p = t) ∧ filter_matches wild pp tp'.
Proof. intros Hp H. inversion H; subst; naive_solver. Qed.

(** Without a multi-level wildcard the numbers of levels agree. *)
Lemma filter_matches_length wild pp tp :
  "#" ∉ pp → filter_matches wild pp tp → length pp = length tp.
Proof.
  intros Hn H. induction H; simpl; try (rewrite IHfilter_matches; [done|]); set_solver.
Qed.

(** Lifted to whole topics. *)
Definition topic_accepts (wild : string → bool) (pattern topic : string) : Prop :=
  filter_matches wild (Split slash pattern) (Split slash topic).

(** A name that may stand for one level of a topic: no separator. *)
Definition level_name (s : string) : Prop := free_of slash s.

#[export] Instance level_name_dec s : Decision (level_name s).
Proof. unfold level_name. apply _. Defined.

#[export] Hint Unfold level_name : ddcore.

(** Splits a topic written as literals around level names. *)
Ltac split_levels :=
  unfold level_name in *;
  repeat first
    [ rewrite Split_sep by (assumption || (by vm_compute))
    | rewrite Split_free by (assumption || (by vm_compute))
    | progress simpl Split ].
