(* ===== verification/Acl.v ===== *)
(** The topic access-control list (internal/service/topic_acl_service.go):
    rules per peer, action and topic filter, deny overriding allow, deny by
    default. *)
From S2P Require Import Prelude GoStrings TopicFilter.

Open Scope string_scope.
Open Scope list_scope.
Open Scope Z_scope.

(** [AclAction] is a Go string type with two constants. *)
Definition AclAction := string.
Definition AclActionPub : AclAction := "pub".
Definition AclActionSub : AclAction := "sub".

Record TopicAclRule := {
  r_PeerId : string;
  r_Action : AclAction;
  r_Pattern : string;
  r_Allow : bool
}.

#[export] Instance TopicAclRule_eq_dec : EqDecision TopicAclRule.
Proof. solve_decision. Defined.

Record TopicAclService := { rules : list TopicAclRule }.

Definition NewTopicAclService : TopicAclService := {| rules := [] |}.

Definition SetRules (s : TopicAclService) (rs : list TopicAclRule) : TopicAclService :=
  {| rules := rs |}.

(** The loop of [matchMQTTTopic] over the remaining filter levels, at topic
    level [i]; [None] when it runs to its end without a verdict. *)
Fixpoint matchMQTTTopic_loop (pp : list string) (i : nat) (tp : list string) : option bool :=
  match pp with
  | [] => None
  | p :: pp' =>
      if decide (p = "#") then Some true
      else match tp !! i with
           | None => Some false
           | Some t =>
               if decide (p = "+") then matchMQTTTopic_loop pp' (S i) tp
               else if decide (p ≠ t) then Some false
               else matchMQTTTopic_loop pp' (S i) tp
           end
  end.

Definition matchMQTTTopic (pattern topic : string) : bool :=
  let pp := Split slash pattern in
  let tp := Split slash topic in
  match matchMQTTTopic_loop pp 0 tp with
  | Some b => b
  | None => bool_decide (length pp = length tp)
  end.

(** The loop of [Authorize], with its accumulator [allowed]. *)
Fixpoint Authorize_loop (rs : list TopicAclRule) (peerID : string) (action : AclAction)
    (topic : string) (allowed : bool) : bool :=
  match rs with
  | [] => allowed
  | rule :: rs' =>
      if decide (r_PeerId rule ≠ peerID ∨ r_Action rule ≠ action)
      then Authorize_loop rs' peerID action topic allowed
      else if negb (matchMQTTTopic (r_Pattern rule) topic)
      then Authorize_loop rs' peerID action topic allowed
      else if negb (r_Allow rule) then false
      else Authorize_loop rs' peerID action topic true
  end.

Definition Authorize (s : TopicAclService) (peerID : string) (action : AclAction)
    (topic : string) : bool :=
  Authorize_loop (rules s) peerID action topic false.

(** * Matching *)

Lemma matchMQTTTopic_loop_spec pp i tp :
  (i ≤ length tp)%nat →
  match matchMQTTTopic_loop pp i tp with
  | Some b => b
  | None => bool_decide (i + length pp = length tp)%nat
  end = true ↔ filter_matches wild_plus pp (drop i tp).
Proof.
  revert i. induction pp as [|p pp IH]; intros i Hi; simpl.
  - rewrite bool_decide_eq_true. split.
    + intros E. rewrite drop_ge by lia. constructor.
    + intros H. destruct (drop i tp) eqn:E; [|by inversion H].
      apply (f_equal length) in E. rewrite length_drop in E. simpl in E. lia.
  - case_decide as Hh; [subst; split; [constructor|done]|].
    destruct (tp !! i) as [t|] eqn:Ht.
    + pose proof (lookup_lt_Some _ _ _ Ht).
      rewrite (drop_S _ t) by done.
      specialize (IH (S i) ltac:(lia)).
      replace (i + S (length pp))%nat with (S i + length pp)%nat by lia.
      destruct (decide (p = "+")) as [->|Hp]; [|destruct (decide (p ≠ t)) as [Hpt|Hpt]].
      * rewrite IH. split; [by constructor|]. intros Hm. by inversion Hm.
      * split; [done|]. intros Hm. apply filter_matches_cons_inv in Hm; [|done].
        destruct Hm as (?&?&?&[Hw|?]&?); simplify_eq.
        unfold wild_plus in Hw. by rewrite bool_decide_eq_true in Hw.
      * apply dec_stable in Hpt as ->. rewrite IH.
        split; [by constructor|]. intros Hm. by inversion Hm.
    + apply lookup_ge_None in Ht. rewrite drop_ge by done. split; [done|].
      intros Hm. by inversion Hm.
Qed.

Lemma matchMQTTTopic_accepts pattern topic :
  matchMQTTTopic pattern topic = true ↔ topic_accepts wild_plus pattern topic.
Proof.
  unfold matchMQTTTopic, topic_accepts.
  pose proof (matchMQTTTopic_loop_spec (Split slash pattern) 0 (Split slash topic)
    ltac:(lia)) as H.
  by rewrite drop_0 in H.
Qed.

Lemma matchMQTTTopic_refl t : matchMQTTTopic t t = true.
Proof. apply matchMQTTTopic_accepts, filter_matches_refl. Qed.

#[export] Hint Resolve matchMQTTTopic_refl : ddcore.

(** * Authorisation *)

(** A rule concerns a request when peer and action agree and the pattern
    accepts the topic. *)
Definition applies (rule : TopicAclRule) (peerID : string) (action : AclAction)
    (topic : string) : Prop :=
  r_PeerId rule = peerID ∧ r_Action rule = action ∧
  topic_accepts wild_plus (r_Pattern rule) topic.

Lemma applies_match rule peerID action topic :
  applies rule peerID action topic ↔
  r_PeerId rule = peerID ∧ r_Action rule = action ∧
  matchMQTTTopic (r_Pattern rule) topic = true.
Proof. unfold applies. by rewrite matchMQTTTopic_accepts. Qed.

Lemma Authorize_loop_spec rs peerID action topic allowed :
  Authorize_loop rs peerID action topic allowed = true ↔
  (allowed = true ∨ Exists (λ rule, applies rule peerID action topic) rs) ∧
  Forall (λ rule, applies rule peerID action topic → r_Allow rule = true) rs.
Proof.
  revert allowed. induction rs as [|r rs IH]; intros allowed; simpl.
  - split; [intros ->; auto|]. intros [[->|H] _]; [done|inversion H].
  - rewrite Exists_cons, Forall_cons, (applies_match r).
    case_decide as Hd; [rewrite IH; tauto|].
    assert (r_PeerId r = peerID ∧ r_Action r = action) as [-> ->]
      by (split; apply dec_stable; tauto).
    destruct (matchMQTTTopic (r_Pattern r) topic), (r_Allow r); simpl;
      rewrite ?IH; intuition congruence.
Qed.

Lemma Authorize_iff s peerID action topic :
  Authorize s peerID action topic = true ↔
  (∃ rule, rule ∈ rules s ∧ applies rule peerID action topic) ∧
  (∀ rule, rule ∈ rules s → applies rule peerID action topic → r_Allow rule = true).
Proof.
  unfold Authorize. rewrite Authorize_loop_spec, Exists_exists, Forall_forall.
  intuition congruence.
Qed.

(** A rule written for another peer name, the literal ["*"] included, never
    concerns a peer. *)
Lemma Authorize_no_rule s peerID action topic :
  (∀ rule, rule ∈ rules s → r_PeerId rule ≠ peerID) →
  Authorize s peerID action topic = false.
Proof.
  intros H. apply not_true_is_false. rewrite Authorize_iff.
  intros [(rule & Hin & Hp & _) _]. by apply (H rule).
Qed.

(** * Properties *)

(** C11: the index loop of [matchMQTTTopic] decides exactly the MQTT filter
    relation between the levels of the pattern and the levels of the topic:
    ["+"] stands for one level, ["#"] for any number of remaining levels (the
    parent level included), every other level for itself. *)
Theorem matchMQTTTopic_decides_filter pattern topic :
  matchMQTTTopic pattern topic = true ↔
  filter_matches wild_plus (Split slash pattern) (Split slash topic).
Proof. apply matchMQTTTopic_accepts. Qed.

(** C12: [Authorize] grants a request iff some rule for that peer and action
    accepts the topic and every such rule allows it: deny overrides allow
    whatever the order of the rules, and nothing is allowed by default. *)
Theorem Authorize_deny_overrides s peerID action topic :
  Authorize s peerID action topic = true ↔
  (∃ rule, rule ∈ rules s ∧ applies rule peerID action topic) ∧
  (∀ rule, rule ∈ rules s → applies rule peerID action topic → r_Allow rule = true).
Proof. apply Authorize_iff. Qed.
