(* ===== verification/Topics.v ===== *)
(** The topic names of internal/service/topics.go, and what the filters the
    program subscribes with accept among them. *)
From S2P Require Import Prelude GoStrings TopicFilter Acl.

Open Scope string_scope.
Open Scope list_scope.

Record TopicSet := {
  t_PeerRegister : string;
  t_PeerHeartbeat : string;
  t_PeerQuery : string;
  t_PeerResourceReport : string;
  t_PeerUnregister : string;
  t_HubBroadcast : string;
  t_AuthBroadcast : string;
  t_PeerResourceRegister : string;
  t_PeerAuthVerify : string;
  t_PeerListQuery : string;
  t_tenant : string
}.

Definition NewDefaultTopicSet (tenant : string) : TopicSet :=
  let base := "dd/" +:+ tenant in
  {| t_PeerRegister := base +:+ "/peer/register";
     t_PeerHeartbeat := base +:+ "/peer/heartbeat";
     t_PeerQuery := base +:+ "/peer/query";
     t_PeerResourceReport := base +:+ "/peer/resource/report";
     t_PeerUnregister := base +:+ "/peer/unregister";
     t_HubBroadcast := base +:+ "/peer/hub/broadcast";
     t_AuthBroadcast := base +:+ "/peer/auth/broadcast";
     t_PeerResourceRegister := base +:+ "/peer/resource/register";
     t_PeerAuthVerify := base +:+ "/peer/auth/verify";
     t_PeerListQuery := base +:+ "/peer/list/query";
     t_tenant := tenant |}.

Section topics.
Context (t : TopicSet).

Definition TransferRequest (resource : string) : string :=
  "dd/" +:+ t_tenant t +:+ "/transfer/" +:+ resource +:+ "/request".
Definition TransferResponse (resource : string) : string :=
  "dd/" +:+ t_tenant t +:+ "/transfer/" +:+ resource +:+ "/response".
Definition TransferResponseByRequest (requestID : string) : string :=
  "dd/" +:+ t_tenant t +:+ "/transfer/response/" +:+ requestID.
Definition TransferResponseStream : string :=
  "dd/" +:+ t_tenant t +:+ "/transfer/+/response".
Definition TransferResponseByRequestStream : string :=
  "dd/" +:+ t_tenant t +:+ "/transfer/response/+".
Definition EventPublish (resource : string) : string :=
  "dd/" +:+ t_tenant t +:+ "/event/" +:+ resource +:+ "/publish".
Definition StreamOpen (resource : string) : string :=
  "dd/" +:+ t_tenant t +:+ "/stream/" +:+ resource +:+ "/open".
Definition StreamClose (resource : string) : string :=
  "dd/" +:+ t_tenant t +:+ "/stream/" +:+ resource +:+ "/close".
Definition DlqBridge : string :=
  "dd/" +:+ t_tenant t +:+ "/dlq/bridge".

(** * The levels of the topics *)

Context (Hten : level_name (t_tenant t)).

Lemma levels_TransferRequest r : level_name r →
  Split slash (TransferRequest r) = ["dd"; t_tenant t; "transfer"; r; "request"].
Proof using Hten. intros. unfold TransferRequest. simpl. by split_levels. Qed.

Lemma levels_TransferResponse r : level_name r →
  Split slash (TransferResponse r) = ["dd"; t_tenant t; "transfer"; r; "response"].
Proof using Hten. intros. unfold TransferResponse. simpl. by split_levels. Qed.

Lemma levels_TransferResponseByRequest r : level_name r →
  Split slash (TransferResponseByRequest r) = ["dd"; t_tenant t; "transfer"; "response"; r].
Proof using Hten. intros. unfold TransferResponseByRequest. simpl. by split_levels. Qed.

Lemma levels_TransferResponseStream :
  Split slash TransferResponseStream = ["dd"; t_tenant t; "transfer"; "+"; "response"].
Proof using Hten. unfold TransferResponseStream. simpl. by split_levels. Qed.

Lemma levels_TransferResponseByRequestStream :
  Split slash TransferResponseByRequestStream =
  ["dd"; t_tenant t; "transfer"; "response"; "+"].
Proof using Hten. unfold TransferResponseByRequestStream. simpl. by split_levels. Qed.

Lemma levels_EventPublish r : level_name r →
  Split slash (EventPublish r) = ["dd"; t_tenant t; "event"; r; "publish"].
Proof using Hten. intros. unfold EventPublish. simpl. by split_levels. Qed.

Lemma levels_StreamOpen r : level_name r →
  Split slash (StreamOpen r) = ["dd"; t_tenant t; "stream"; r; "open"].
Proof using Hten. intros. unfold StreamOpen. simpl. by split_levels. Qed.

Lemma levels_StreamClose r : level_name r →
  Split slash (StreamClose r) = ["dd"; t_tenant t; "stream"; r; "close"].
Proof using Hten. intros. unfold StreamClose. simpl. by split_levels. Qed.

End topics.

Create Rewrite HintDb topic_levels.
#[export] Hint Rewrite levels_TransferRequest levels_TransferResponse
  levels_TransferResponseByRequest levels_TransferResponseStream
  levels_TransferResponseByRequestStream levels_EventPublish levels_StreamOpen
  levels_StreamClose using assumption : topic_levels.

(** A name usable as an exact level of a filter. *)
Definition plain_level (s : string) : Prop := level_name s ∧ s ≠ "+" ∧ s ≠ "#".

#[export] Instance plain_level_dec s : Decision (plain_level s).
Proof. unfold plain_level. apply _. Defined.

(** Decides a match between two explicit lists of levels. *)
Lemma filter_level_iff wild p pp t tp : p ≠ "#" →
  filter_matches wild (p :: pp) (t :: tp) ↔
  (wild p = true ∨ p = t) ∧ filter_matches wild pp tp.
Proof.
  intros Hp. split.
  - intros H. apply filter_matches_cons_inv in H; [|done]. naive_solver.
  - intros [[? | ->] ?]; eauto with ddcore.
Qed.

Lemma filter_nil_iff wild tp : filter_matches wild [] tp ↔ tp = [].
Proof. split; [by inversion 1|intros ->; constructor]. Qed.

Lemma wild_plus_false p : p ≠ "+" → wild_plus p = false.
Proof. intros. by apply bool_decide_eq_false. Qed.

(** Reduces a match of explicit levels to equations between the names. *)
Ltac solve_levels :=
  repeat (rewrite filter_level_iff by (done || congruence));
  rewrite ?filter_nil_iff;
  change (wild_plus "+") with true;
  rewrite ?wild_plus_false by (done || congruence);
  intuition congruence.

(** C13: a node's two response subscriptions accept every sync response of its own
    tenant and only those of its tenant, and no event; a request is accepted by one of
    them only when its resource is named "response", whose request topic has the form
    of a response topic. *)
Theorem response_subscriptions t1 t2 r :
  plain_level (t_tenant t1) → level_name (t_tenant t2) → level_name r →
  (matchMQTTTopic (TransferResponseByRequestStream t1) (TransferResponseByRequest t2 r) = true
     ↔ t_tenant t1 = t_tenant t2) ∧
  (matchMQTTTopic (TransferResponseStream t1) (TransferResponse t2 r) = true
     ↔ t_tenant t1 = t_tenant t2) ∧
  (matchMQTTTopic (TransferResponseByRequestStream t1) (TransferRequest t2 r) = true
     ↔ t_tenant t1 = t_tenant t2 ∧ r = "response") ∧
  matchMQTTTopic (TransferResponseStream t1) (TransferRequest t2 r) = false ∧
  matchMQTTTopic (TransferResponseStream t1) (EventPublish t2 r) = false ∧
  matchMQTTTopic (TransferResponseByRequestStream t1) (EventPublish t2 r) = false.
Proof.
  intros (Hn1 & Hp1 & Hh1) Hn2 Hr.
  rewrite <- !not_true_iff_false, !matchMQTTTopic_accepts. unfold topic_accepts.
  autorewrite with topic_levels. split_and!; solve_levels.
Qed.

Lemma response_subscriptions_witness :
  let t := NewDefaultTopicSet "default" in
  plain_level (t_tenant t) ∧
  matchMQTTTopic (TransferResponseStream t) (TransferRequest t "order") = false.
Proof.
  split; [by_compute|].
  apply (response_subscriptions (NewDefaultTopicSet "default")
           (NewDefaultTopicSet "default") "order"); by_compute.
Defined.
