(* ===== verification/GoTime.v ===== *)
(** Instants and durations of Go's [time] package, as the program uses them.

    A [time.Time] is the number of nanoseconds since Go's zero time (January 1,
    year 1, UTC), so the zero value is [0]; a [time.Duration] is a 64-bit count of
    nanoseconds.  Monotonic clock readings are not distinguished from wall
    readings. *)
From S2P Require Import Prelude.

Open Scope Z_scope.

Abbreviation Time := Z.
Abbreviation Duration := Z.

Definition Millisecond : Duration := 1000000.
Definition Second : Duration := 1000 * Millisecond.
Definition Minute : Duration := 60 * Second.

Definition time_zero : Time := 0.
Definition IsZero (t : Time) : bool := bool_decide (t = time_zero).
Definition Before (t u : Time) : bool := bool_decide (t < u).
Definition After (t u : Time) : bool := bool_decide (u < t).
Definition Add (t : Time) (d : Duration) : Time := t + d.

(** [Time.Sub] saturates at the bounds of [Duration]. *)
Definition Sub (t u : Time) : Duration := Z.max int64_min (Z.min int64_max (t - u)).

(** [time.Duration(n) * unit]: a 64-bit product. *)
Definition dur_mul (a b : Z) : Duration := wrap64 (a * b).

(** [Duration.Milliseconds] truncates towards zero. *)
Definition Milliseconds (d : Duration) : Z := Z.quot d Millisecond.

Lemma Sub_gt t u d : int64_range d → d < Sub t u ↔ (d < t - u ∧ d < int64_max).
Proof. unfold int64_range, Sub, int64_min, int64_max. lia. Qed.

Lemma Sub_le t u d : 0 ≤ d < int64_max → Sub t u ≤ d ↔ t - u ≤ d.
Proof. unfold Sub, int64_min, int64_max. lia. Qed.

Lemma Sub_small t u : int64_range (t - u) → Sub t u = t - u.
Proof. unfold int64_range, Sub, int64_min, int64_max. lia. Qed.

Lemma dur_mul_small a b : int64_range (a * b) → dur_mul a b = a * b.
Proof. apply wrap64_small. Qed.

Lemma dur_mul_range a b : int64_range (dur_mul a b).
Proof. apply wrap64_range. Qed.

#[export] Hint Resolve dur_mul_range : ddcore.
