(* ===== verification/Errors.v ===== *)
(** Error values: the DD-xxxx error codes of internal/model/dd_errors.go, and the
    Go [error] interface with the two shapes of error the program tells apart. *)
From S2P Require Import Prelude GoStrings.

Open Scope string_scope.
Open Scope list_scope.

Definition DdErrorCode := string.

Definition ErrInvalidEnvelope : DdErrorCode := "DD-4001".
Definition ErrUnauthorizedPeer : DdErrorCode := "DD-4002".
Definition ErrRouteNotFound : DdErrorCode := "DD-4041".
Definition ErrSyncTimeout : DdErrorCode := "DD-4081".
Definition ErrRetryExhausted : DdErrorCode := "DD-4091".
Definition ErrStreamNotFound : DdErrorCode := "DD-4092".
Definition ErrStreamIdleTimeout : DdErrorCode := "DD-4093".
Definition ErrInternal : DdErrorCode := "DD-5001".
Definition ErrDuplicateRequest : DdErrorCode := "DD-4003".
Definition ErrAclDenied : DdErrorCode := "DD-4004".
Definition ErrPeerNotFound : DdErrorCode := "DD-4042".
Definition ErrPeerOffline : DdErrorCode := "DD-4043".
Definition ErrInvalidConfig : DdErrorCode := "DD-5002".

Record DdError := { e_Code : DdErrorCode; e_Message : string }.

#[export] Instance DdError_eq_dec : EqDecision DdError.
Proof. solve_decision. Defined.

(** A Go [error]: a [*DdError], or any other error, known by its text. *)
Inductive error :=
| EDd (e : DdError)
| EText (msg : string).

#[export] Instance error_eq_dec : EqDecision error.
Proof. solve_decision. Defined.

Definition DdError_Error (e : DdError) : string :=
  "[" +:+ e_Code e +:+ "] " +:+ e_Message e.

(** [err.Error()]. *)
Definition error_text (e : error) : string :=
  match e with EDd d => DdError_Error d | EText s => s end.

Definition NewDdError (code : DdErrorCode) (msg : string) : DdError :=
  {| e_Code := code; e_Message := msg |}.

Definition ErrInvalidEnvelopeMsg (msg : string) : DdError :=
  NewDdError ErrInvalidEnvelope msg.
Definition ErrUnauthorizedPeerMsg (peerId : string) : DdError :=
  NewDdError ErrUnauthorizedPeer ("peer " +:+ peerId +:+ " unauthorized").
Definition ErrSyncTimeoutMsg (requestId : string) : DdError :=
  NewDdError ErrSyncTimeout ("sync timeout: request_id=" +:+ requestId).
Definition ErrDuplicateRequestMsg (requestId : string) : DdError :=
  NewDdError ErrDuplicateRequest ("duplicate request_id: " +:+ requestId).
Definition ErrAclDeniedMsg (peerId action topic : string) : DdError :=
  NewDdError ErrAclDenied
    ("acl denied: peer=" +:+ peerId +:+ " action=" +:+ action +:+ " topic=" +:+ topic).
Definition ErrPeerNotFoundMsg (peerId : string) : DdError :=
  NewDdError ErrPeerNotFound ("peer not found: " +:+ peerId).

(** The pair [(value, error)] of a Go function that returns its value only when
    the error is nil. *)
Inductive result (A : Type) :=
| Ok (a : A)
| Fail (e : error).
Arguments Ok {A} _.
Arguments Fail {A} _.

#[export] Instance result_eq_dec `{EqDecision A} : EqDecision (result A).
Proof. solve_decision. Defined.

Lemma Ok_inj {A} (a b : A) : Ok a = Ok b → a = b.
Proof. congruence. Qed.

Lemma NewDdError_code code msg : e_Code (NewDdError code msg) = code.
Proof. done. Qed.
