(* ===== verification/Metrics.v ===== *)
(** The Prometheus collectors of internal/observability, as the sequence of
    observations the program makes on them, and the state the services share: the
    message-queue client and that sequence. *)
From S2P Require Import Prelude.

Open Scope string_scope.
Open Scope list_scope.
Open Scope Z_scope.

(** One observation: a counter increment with its label values, a histogram
    sample, or a gauge assignment. *)
Inductive metric :=
| Inc (collector : string) (labels : list string)
| Observe (collector : string) (labels : list string) (value : Z)
| SetGauge (collector : string) (value : Z).

#[export] Instance metric_eq_dec : EqDecision metric.
Proof. solve_decision. Defined.

Definition SyncRequestsTotal := "dd_sync_requests_total".
Definition SyncLatencyMs := "dd_sync_latency_ms".
Definition AsyncPublishedTotal := "dd_async_published_total".
Definition AsyncBatchRequestsTotal := "dd_async_batch_requests_total".
Definition PeerActiveCount := "dd_peer_active_count".
Definition PeerStaleCount := "dd_peer_stale_count".
Definition TimeoutTotal := "dd_timeout_total".
Definition AclDeniedTotal := "dd_acl_denied_total".
Definition BridgeRequestsTotal := "dd_bridge_requests_total".
Definition BridgeLatencyMs := "dd_bridge_latency_ms".
Definition BridgeRetriesTotal := "dd_bridge_retries_total".
Definition ResourceMetaValidateTotal := "dd_resource_meta_validate_total".
Definition RouteDecisionTotal := "dd_route_decision_total".
Definition ProtocolResourceQueryTotal := "dd_protocol_resource_query_total".

(** What every service holds a pointer to: the message-queue client, and the
    process-wide collectors. *)
Record World (C : Type) := {
  w_mq : C;
  w_metrics : list metric
}.
Arguments w_mq {C} _.
Arguments w_metrics {C} _.

Definition set_mq {C} (w : World C) (c : C) : World C :=
  {| w_mq := c; w_metrics := w_metrics w |}.
Definition observe {C} (w : World C) (m : metric) : World C :=
  {| w_mq := w_mq w; w_metrics := (w_metrics w ++ [m])%list |}.

Lemma observe_mq {C} (w : World C) m : w_mq (observe w m) = w_mq w.
Proof. done. Qed.
Lemma set_mq_mq {C} (w : World C) c : w_mq (set_mq w c) = c.
Proof. done. Qed.

(** observability/middleware.go: the label of a status code. *)
Definition fmtStatusClass (code : Z) : string :=
  if decide (code >= 500) then "5xx"
  else if decide (code >= 400) then "4xx"
  else if decide (code >= 300) then "3xx"
  else if decide (code >= 200) then "2xx"
  else "1xx".
