(* ===== verification/Mq.v ===== *)
(** The message-queue client (internal/mq): the [Client] interface as a class with
    its laws, the in-memory [MockClient] with its wildcard matcher, and the paho
    [MqttClient] with its QoS layering and topic aliases. *)
From S2P Require Import Prelude GoStrings TopicFilter Acl Errors.
From Stdlib Require Import Ascii.

Open Scope string_scope.
Open Scope list_scope.
Open Scope Z_scope.

(** * Handlers

    A subscription carries a Go closure; here it carries the name of the method
    the closure calls. *)
Inductive MessageHandler :=
| hRegister | hHeartbeat | hQuery | hResourceReport | hUnregister
| hSyncResponse
| hStreamOpen | hStreamClose
| hHubBroadcast | hAuthBroadcast
| hVerifyReq
| hPeerListQuery
| hHttpSyncRequest | hHttpAsyncEvent
| hCoapSyncRequest | hCoapAsyncEvent
| hMqttForward (mapping : nat).

#[export] Instance MessageHandler_eq_dec : EqDecision MessageHandler.
Proof. solve_decision. Defined.

(** * The [Client] interface *)

(** [mq_sent] is what the client has handed to its transport and [mq_wire] the
    name under which a topic goes to it. *)
Class MqClient (C : Type) := {
  mq_Publish : C → string → bytes → C * option error;
  mq_Subscribe : C → string → MessageHandler → C * option error;
  mq_sent : C → list (string * bytes);
  mq_wire : C → string → string
}.

(** What the services rely on: a successful [Publish] sends exactly that payload
    once, a failed one at most once, a [Subscribe] nothing. *)
Class MqClientLaws (C : Type) `{MqClient C} := {
  mq_publish_ok c t p c' :
    mq_Publish c t p = (c', None) → mq_sent c' = mq_sent c ++ [(mq_wire c t, p)];
  mq_publish_err c t p c' e :
    mq_Publish c t p = (c', Some e) →
    mq_sent c' = mq_sent c ∨ mq_sent c' = mq_sent c ++ [(mq_wire c t, p)];
  mq_publish_wire c t p : mq_wire (mq_Publish c t p).1 = mq_wire c;
  mq_subscribe_sent c t h : mq_sent (mq_Subscribe c t h).1 = mq_sent c
}.

(** A publication extends what was sent by at most the one message. *)
Lemma mq_publish_sent `{MqClientLaws C} c t p :
  mq_sent (mq_Publish c t p).1 = mq_sent c ∨
  mq_sent (mq_Publish c t p).1 = mq_sent c ++ [(mq_wire c t, p)].
Proof.
  destruct (mq_Publish c t p) as [c' [e|]] eqn:E; simpl.
  - by eapply mq_publish_err.
  - right. by eapply mq_publish_ok.
Qed.

(** The [Start] methods subscribe a sequence of topics and give up at the first
    error. *)
Fixpoint Subscribe_all `{MqClient C} (c : C) (subs : list (string * MessageHandler))
    : C * option error :=
  match subs with
  | [] => (c, None)
  | (topic, handler) :: rest =>
      match mq_Subscribe c topic handler with
      | (c, Some err) => (c, Some err)
      | (c, None) => Subscribe_all c rest
      end
  end.

Lemma Subscribe_all_sent `{MqClientLaws C} c subs :
  mq_sent (Subscribe_all c subs).1 = mq_sent c.
Proof.
  revert c. induction subs as [|[t h] subs IH]; intros c; simpl; [done|].
  pose proof (mq_subscribe_sent c t h) as E.
  destruct (mq_Subscribe c t h) as [c' [e|]]; simpl in *; [done|]. by rewrite IH.
Qed.

(** * The in-memory client (mock_client.go) *)

(** The loop of [matchLevels]: [pi] and [ti] advance together, so the remaining
    pattern levels and the topic index suffice; [None] when the loop ends. *)
Fixpoint matchLevels_loop (pp : list string) (ti : nat) (tp : list string) : option bool :=
  match pp with
  | [] => None
  | p :: pp' =>
      if decide (p = "#") then Some true
      else match tp !! ti with
           | None => Some false
           | Some t =>
               if decide (p = "+" ∨ p = "*") then matchLevels_loop pp' (S ti) tp
               else if decide (p ≠ t) then Some false
               else matchLevels_loop pp' (S ti) tp
           end
  end.

Definition matchLevels (pp tp : list string) : bool :=
  match matchLevels_loop pp 0 tp with
  | Some b => b
  | None => bool_decide (length pp = length tp)
  end.

Definition matchMQTTTopicWildcard (pattern topic : string) : bool :=
  if decide (pattern = topic) then true
  else matchLevels (Split slash pattern) (Split slash topic).

Record PublishedMessage := { pub_Topic : string; pub_Payload : bytes }.

(** [m_invoked] records the handler calls that [Publish] and [Emit] make, in the
    order they make them: (handler, topic, payload). *)
Record MockClient := {
  m_subscribers : gmap string (list MessageHandler);
  m_published : list PublishedMessage;
  m_failPublish : option error;
  m_failSubscribe : option error;
  m_invoked : list (MessageHandler * string * bytes)
}.

Definition NewMockClient : MockClient :=
  {| m_subscribers := ∅; m_published := []; m_failPublish := None;
     m_failSubscribe := None; m_invoked := [] |}.

Definition matchingHandlers (ρ : ranger) (m : MockClient) (topic : string)
    : list MessageHandler :=
  foldl (λ handlers '(pattern, subs),
           if matchMQTTTopicWildcard pattern topic then handlers ++ subs else handlers)
    [] (range ρ (m_subscribers m)).

Definition MockClient_Publish (ρ : ranger) (m : MockClient) (topic : string)
    (payload : bytes) : MockClient * option error :=
  match m_failPublish m with
  | Some e => (m, Some e)
  | None =>
      let handlers := matchingHandlers ρ m topic in
      ({| m_subscribers := m_subscribers m;
          m_published := m_published m ++ [{| pub_Topic := topic; pub_Payload := payload |}];
          m_failPublish := m_failPublish m;
          m_failSubscribe := m_failSubscribe m;
          m_invoked := m_invoked m ++ ((λ h, (h, topic, payload)) <$> handlers) |},
       None)
  end.

Definition MockClient_Subscribe (m : MockClient) (topic : string) (handler : MessageHandler)
    : MockClient * option error :=
  match m_failSubscribe m with
  | Some e => (m, Some e)
  | None =>
      ({| m_subscribers :=
            <[topic := default [] (m_subscribers m !! topic) ++ [handler]]> (m_subscribers m);
          m_published := m_published m;
          m_failPublish := m_failPublish m;
          m_failSubscribe := m_failSubscribe m;
          m_invoked := m_invoked m |}, None)
  end.

Definition MockClient_Emit (ρ : ranger) (m : MockClient) (topic : string) (payload : bytes)
    : MockClient :=
  {| m_subscribers := m_subscribers m;
     m_published := m_published m;
     m_failPublish := m_failPublish m;
     m_failSubscribe := m_failSubscribe m;
     m_invoked := m_invoked m ++
       ((λ h, (h, topic, payload)) <$> matchingHandlers ρ m topic) |}.

Definition SetPublishError (m : MockClient) (e : option error) : MockClient :=
  {| m_subscribers := m_subscribers m; m_published := m_published m;
     m_failPublish := e; m_failSubscribe := m_failSubscribe m;
     m_invoked := m_invoked m |}.
Definition SetSubscribeError (m : MockClient) (e : option error) : MockClient :=
  {| m_subscribers := m_subscribers m; m_published := m_published m;
     m_failPublish := m_failPublish m; m_failSubscribe := e;
     m_invoked := m_invoked m |}.

#[export] Instance MockClient_client (ρ : ranger) : MqClient MockClient := {|
  mq_Publish := MockClient_Publish ρ;
  mq_Subscribe := MockClient_Subscribe;
  mq_sent m := (λ p, (pub_Topic p, pub_Payload p)) <$> m_published m;
  mq_wire _ t := t
|}.

#[export] Instance MockClient_laws (ρ : ranger) :
  @MqClientLaws MockClient (MockClient_client ρ).
Proof.
  split; simpl; unfold MockClient_Publish, MockClient_Subscribe.
  - intros c t p c' E. case_match; simplify_eq/=. by rewrite fmap_app.
  - intros c t p c' e E. case_match; simplify_eq/=. by left.
  - done.
  - intros. by case_match.
Qed.

(** * The paho client (mqtt_client.go) *)

Fixpoint containsAny (s : string) (parts : list string) : bool :=
  match parts with
  | [] => false
  | p :: ps => if negb (bool_decide (p = "")) && Contains s p then true else containsAny s ps
  end.

Definition qosForTopic (topic : string) : Z :=
  if containsAny topic
       ["/event/"; "/peer/heartbeat"; "/peer/resource/report";
        "/peer/hub/broadcast"; "/peer/auth/broadcast"]
  then 0 else 1.

(** FNV-1a, 64 bits: [hash/fnv.New64a]. *)
Definition fnv_offset : Z := 14695981039346656037.
Definition fnv_prime : Z := 1099511628211.
Definition fnv_step (h : Z) (b : byte) : Z :=
  (Z.lxor h (byte_to_Z b) * fnv_prime) mod 2 ^ 64.
Definition fnv64a (data : bytes) : Z := foldl fnv_step fnv_offset data.

(** [h.Sum(nil)]: the eight bytes, most significant first. *)
Definition fnv_Sum (h : Z) : bytes :=
  (λ i, byte_of_Z (Z.shiftr h (8 * i))) <$> [7; 6; 5; 4; 3; 2; 1; 0].

Definition hex_digit (n : Z) : ascii := byte_of_Z (if decide (n < 10) then n + 48 else n + 87).
Fixpoint hex_EncodeToString (b : bytes) : string :=
  match b with
  | [] => ""
  | c :: b' =>
      String (hex_digit (Z.shiftr (byte_to_Z c) 4))
        (String (hex_digit (Z.land (byte_to_Z c) 15)) (hex_EncodeToString b'))
  end.

Definition aliasTopic (topicAliasEnabled : bool) (topic : string) : string :=
  if negb topicAliasEnabled || bool_decide (topic = "") then topic
  else if Contains topic "#" || Contains topic "+" || negb (HasPrefix topic "dd/")
  then topic
  else if negb (Contains topic "/transfer/") then topic
  else match Split slash topic with
       | _ :: tenant :: _ :: _ =>
           "dd/" +:+ tenant +:+ "/ta/" +:+
             hex_EncodeToString (fnv_Sum (fnv64a (to_bytes topic)))
       | _ => topic
       end.

(** [waitWithContext]: the context ends first, or the token completes. *)
Inductive wait_outcome :=
| CtxDone (err : error)
| TokenDone.

Definition waitWithContext (o : wait_outcome) : option error :=
  match o with CtxDone e => Some e | TokenDone => None end.

Section paho.
(** The paho library: a client state, its [Publish] (topic, QoS, retained,
    payload) and [Subscribe] with what became of the token, and what it sent. *)
Context {P : Type}
  (paho_Publish : P → string → Z → bool → bytes → P * (wait_outcome * option error))
  (paho_Subscribe : P → string → Z → MessageHandler → P * (wait_outcome * option error))
  (paho_sent : P → list (string * bytes)).

Record MqttClient := { mc_client : P; mc_topicAliasEnabled : bool }.

Definition MqttClient_Publish (m : MqttClient) (topic : string) (payload : bytes)
    : MqttClient * option error :=
  let alias := aliasTopic (mc_topicAliasEnabled m) topic in
  let '(client, (wait, terr)) :=
    paho_Publish (mc_client m) alias (qosForTopic alias) false payload in
  let m' := {| mc_client := client; mc_topicAliasEnabled := mc_topicAliasEnabled m |} in
  match waitWithContext wait with
  | Some err => (m', Some err)
  | None => (m', terr)
  end.

Definition MqttClient_Subscribe (m : MqttClient) (topic : string) (handler : MessageHandler)
    : MqttClient * option error :=
  let alias := aliasTopic (mc_topicAliasEnabled m) topic in
  let '(client, (wait, terr)) := paho_Subscribe (mc_client m) alias 1 handler in
  let m' := {| mc_client := client; mc_topicAliasEnabled := mc_topicAliasEnabled m |} in
  match waitWithContext wait with
  | Some err => (m', Some err)
  | None => (m', terr)
  end.

#[local] Instance MqttClient_client : MqClient MqttClient := {|
  mq_Publish := MqttClient_Publish;
  mq_Subscribe := MqttClient_Subscribe;
  mq_sent m := paho_sent (mc_client m);
  mq_wire m := aliasTopic (mc_topicAliasEnabled m)
|}.

(** The documented behaviour of paho: a completed token without error means the
    message went out, once; otherwise it went out at most once; subscribing sends
    no message. *)
Context
  (paho_publish_ok : ∀ c t q r p c',
    paho_Publish c t q r p = (c', (TokenDone, None)) →
    paho_sent c' = paho_sent c ++ [(t, p)])
  (paho_publish_any : ∀ c t q r p,
    paho_sent (paho_Publish c t q r p).1 = paho_sent c ∨
    paho_sent (paho_Publish c t q r p).1 = paho_sent c ++ [(t, p)])
  (paho_subscribe_sent : ∀ c t q h, paho_sent (paho_Subscribe c t q h).1 = paho_sent c).

Lemma MqttClient_laws : @MqClientLaws MqttClient MqttClient_client.
Proof using All.
  split; simpl; unfold MqttClient_Publish, MqttClient_Subscribe.
  - intros c t p c' E.
    destruct (paho_Publish _ _ _ _ _) as [client [[e|] terr]] eqn:Ep; simplify_eq/=.
    by eapply paho_publish_ok.
  - intros c t p c' e E.
    pose proof (paho_publish_any (mc_client c) (aliasTopic (mc_topicAliasEnabled c) t)
      (qosForTopic (aliasTopic (mc_topicAliasEnabled c) t)) false p) as Hany.
    destruct (paho_Publish _ _ _ _ _) as [client [[e'|] terr]] eqn:Ep; by simplify_eq/=.
  - intros c t p. by destruct (paho_Publish _ _ _ _ _) as [client [[e'|] terr]].
  - intros c t h.
    pose proof (paho_subscribe_sent (mc_client c) (aliasTopic (mc_topicAliasEnabled c) t) 1 h).
    by destruct (paho_Subscribe _ _ _ _) as [client [[e'|] terr]].
Qed.
End paho.
