(* ===== verification/MqProps.v ===== *)
(** Properties of the message-queue layer: the in-memory broker against the MQTT
    filter relation, and the names the topic aliases put on the wire. *)
From S2P Require Import Prelude GoStrings TopicFilter Acl Topics Errors Mq.
From Stdlib Require Import Ascii.

Open Scope string_scope.
Open Scope list_scope.
Open Scope Z_scope.

(** * The in-memory broker *)


(** Away from ["*"] the broker's loop is the access-control list's. *)
Lemma matchLevels_loop_eq pp ti tp :
  "*" ∉ pp → matchLevels_loop pp ti tp = matchMQTTTopic_loop pp ti tp.
Proof.
  revert ti. induction pp as [|p pp IH]; intros ti Hn; simpl; [done|].
  apply not_elem_of_cons in Hn as [Hp Hn]. rewrite !IH by done.
  case_decide; [done|]. destruct (tp !! ti) as [t|]; [|done].
  destruct (decide (p = "+")), (decide (p = "+" ∨ p = "*")); naive_solver.
Qed.

Lemma matchMQTTTopicWildcard_eq pattern topic :
  "*" ∉ Split slash pattern →
  matchMQTTTopicWildcard pattern topic = matchMQTTTopic pattern topic.
Proof.
  intros Hn. unfold matchMQTTTopicWildcard.
  case_decide as E; [subst; symmetry; apply matchMQTTTopic_refl|].
  unfold matchLevels, matchMQTTTopic. by rewrite matchLevels_loop_eq.
Qed.

Lemma matchingHandlers_aux (l : list (string * list MessageHandler)) topic acc h :
  h ∈ foldl (λ handlers '(pattern, subs),
        if matchMQTTTopicWildcard pattern topic then handlers ++ subs else handlers) acc l ↔
  h ∈ acc ∨ Exists (λ '(pattern, subs),
                h ∈ subs ∧ matchMQTTTopicWildcard pattern topic = true) l.
Proof.
  revert acc. induction l as [|[p s] l IH]; intros acc; simpl.
  - rewrite Exists_nil. tauto.
  - rewrite IH, Exists_cons.
    destruct (matchMQTTTopicWildcard p topic); rewrite ?elem_of_app; intuition congruence.
Qed.

Lemma elem_of_matchingHandlers ρ m topic h :
  h ∈ matchingHandlers ρ m topic ↔
  ∃ pattern subs, m_subscribers m !! pattern = Some subs ∧ h ∈ subs ∧
    matchMQTTTopicWildcard pattern topic = true.
Proof.
  unfold matchingHandlers. rewrite matchingHandlers_aux, elem_of_nil, Exists_exists.
  split.
  - intros [[]|([p s] & Hin & ?)]. exists p, s. by rewrite <- (range_lookup ρ).
  - intros (p & s & Hm & ?). right. exists (p, s). by rewrite range_lookup.
Qed.

(** * Names on the wire *)

Lemma hex_digit_not_slash n : 0 ≤ n < 16 → hex_digit n ≠ slash.
Proof.
  intros Hn E. apply (f_equal byte_to_Z) in E. unfold hex_digit in E.
  rewrite byte_to_of_Z in E. change (byte_to_Z slash) with 47 in E.
  case_decide; rewrite Z.mod_small in E; lia.
Qed.

Lemma byte_nibbles b :
  0 ≤ Z.shiftr (byte_to_Z b) 4 < 16 ∧ 0 ≤ Z.land (byte_to_Z b) 15 < 16.
Proof.
  pose proof (byte_to_Z_range b). rewrite Z.shiftr_div_pow2 by lia.
  change 15 with (Z.ones 4). rewrite Z.land_ones by lia.
  change (2 ^ 4) with 16. split; [|apply Z.mod_pos_bound; lia].
  split; [apply Z.div_pos; lia|apply Z.div_lt_upper_bound; lia].
Qed.

Lemma hex_level_name b : level_name (hex_EncodeToString b).
Proof.
  unfold level_name, free_of. induction b as [|c b IH]; simpl; [apply not_elem_of_nil|].
  destruct (byte_nibbles c). rewrite !not_elem_of_cons.
  split_and!; [| |done]; apply not_eq_sym; by apply hex_digit_not_slash.
Qed.

(** A name whose characters are none of the MQTT special ones. *)
Definition safe_name (s : string) : Prop :=
  free_of "/" s ∧ free_of "+" s ∧ free_of "#" s.

#[export] Instance safe_name_dec s : Decision (safe_name s).
Proof. unfold safe_name. apply _. Defined.

Lemma no_hash_levels ten l :
  safe_name ten → "#" ∉ l → "#" ∉ "dd" :: ten :: "transfer" :: l.
Proof.
  intros (_ & _ & Hh) Hl. rewrite !not_elem_of_cons. split_and!; try done.
  intros E. apply Hh. rewrite <- E. left.
Qed.

Lemma aliasTopic_transfer t rest l :
  safe_name (t_tenant t) → free_of "+" rest → free_of "#" rest →
  Split slash ("dd/" +:+ t_tenant t +:+ "/transfer/" +:+ rest) =
    "dd" :: t_tenant t :: "transfer" :: l →
  ∃ h, level_name h ∧
    aliasTopic true ("dd/" +:+ t_tenant t +:+ "/transfer/" +:+ rest) =
    "dd/" +:+ t_tenant t +:+ "/ta/" +:+ h.
Proof.
  intros (Hs & Hp & Hh) Hrp Hrh Hl. eexists. split; [apply hex_level_name|].
  unfold aliasTopic.
  rewrite bool_decide_eq_false_2 by done. cbn [negb orb].
  rewrite !Contains_free by (rewrite !free_of_app; split_and!; done || by_compute).
  rewrite HasPrefix_app. cbn [negb orb].
  rewrite (Contains_app "dd/").
  - cbn [negb]. by rewrite Hl.
  - apply Contains_app, Contains_prefix, HasPrefix_app.
Qed.

Lemma aliasTopic_wildcard b t r : aliasTopic b (t +:+ String "+" r) = t +:+ String "+" r.
Proof.
  unfold aliasTopic. destruct (negb b || _); [done|].
  rewrite (Contains_app t (String "+" r) "+") by (apply Contains_prefix; done).
  by rewrite orb_true_r.
Qed.

Lemma alias_levels ten h : level_name ten → level_name h →
  Split slash ("dd/" +:+ ten +:+ "/ta/" +:+ h) = ["dd"; ten; "ta"; h].
Proof. intros. simpl. by split_levels. Qed.

(** * Properties *)

(** On patterns without the broker-only ["*"] level, the in-memory broker the
    tests run on accepts exactly what the access-control list accepts; its
    shortcut for a pattern equal to the topic changes nothing. *)
Theorem mock_matcher_agrees pattern topic :
  "*" ∉ Split slash pattern →
  matchMQTTTopicWildcard pattern topic = matchMQTTTopic pattern topic.
Proof. apply matchMQTTTopicWildcard_eq. Qed.

Lemma mock_matcher_agrees_witness :
  "*" ∉ Split slash "dd/+/transfer/#" ∧
  matchMQTTTopicWildcard "dd/+/transfer/#" "dd/a/transfer/x/request" =
  matchMQTTTopic "dd/+/transfer/#" "dd/a/transfer/x/request".
Proof. split; [by_compute|]. apply mock_matcher_agrees. by_compute. Defined.

(** A successful publication on the in-memory broker appends exactly one
    message and calls, with that topic and payload, exactly the handlers
    subscribed under an accepting pattern, after all earlier calls. *)
Theorem MockClient_Publish_delivers ρ m topic payload m' :
  MockClient_Publish ρ m topic payload = (m', None) →
  m_published m' = m_published m ++ [{| pub_Topic := topic; pub_Payload := payload |}] ∧
  m_subscribers m' = m_subscribers m ∧
  ∃ calls, m_invoked m' = m_invoked m ++ calls ∧
    ∀ h t p, (h, t, p) ∈ calls ↔
      t = topic ∧ p = payload ∧
      ∃ pattern subs, m_subscribers m !! pattern = Some subs ∧ h ∈ subs ∧
        matchMQTTTopicWildcard pattern topic = true.
Proof.
  unfold MockClient_Publish. intros E. case_match; simplify_eq/=.
  split_and!; [done..|]. eexists. split; [done|]. intros h t p.
  rewrite list_elem_of_fmap. setoid_rewrite elem_of_matchingHandlers. naive_solver.
Qed.

Lemma MockClient_Publish_delivers_witness :
  let m := (MockClient_Subscribe NewMockClient "dd/+/peer/register" hRegister).1 in
  let m' := (MockClient_Publish ranger_std m "dd/a/peer/register" []).1 in
  MockClient_Publish ranger_std m "dd/a/peer/register" [] = (m', None) ∧
  m_subscribers m' = m_subscribers m.
Proof.
  split; [vm_compute; reflexivity|].
  eapply (MockClient_Publish_delivers ranger_std _ "dd/a/peer/register" []).
  vm_compute; reflexivity.
Defined.

(** With topic aliases enabled, the reply topic of a sync request leaves for
    the broker under a name that neither response subscription of the node
    accepts (wildcard filters are not aliased), although both accept the
    unaliased name. *)
Theorem alias_hides_sync_responses t id :
  safe_name (t_tenant t) → safe_name id →
  matchMQTTTopic (aliasTopic false (TransferResponseByRequestStream t))
    (aliasTopic false (TransferResponseByRequest t id)) = true ∧
  matchMQTTTopic (aliasTopic true (TransferResponseByRequestStream t))
    (aliasTopic true (TransferResponseByRequest t id)) = false ∧
  matchMQTTTopic (aliasTopic true (TransferResponseStream t))
    (aliasTopic true (TransferResponse t id)) = false.
Proof.
  intros Ht Hid. pose proof Ht as (Hts & Htp & Hth). destruct Hid as (His & Hip & Hih).
  split_and!; [apply matchMQTTTopic_accepts|apply not_true_is_false..].
  - unfold topic_accepts, aliasTopic. cbn [negb orb].
    rewrite levels_TransferResponseByRequestStream, levels_TransferResponseByRequest by done.
    do 4 apply fm_level. by apply fm_wild; [|constructor].
  - rewrite matchMQTTTopic_accepts. unfold topic_accepts.
    destruct (aliasTopic_transfer t ("response/" +:+ id) ["response"; id]) as (h & Hh & E);
      [done|by rewrite free_of_app; split; [by_compute|]..| |].
    { change ("/transfer/" +:+ ("response/" +:+ id)) with ("/transfer/response/" +:+ id).
      by apply levels_TransferResponseByRequest. }
    change ("/transfer/" +:+ ("response/" +:+ id)) with ("/transfer/response/" +:+ id) in E.
    unfold TransferResponseByRequest. rewrite E, alias_levels by done.
    replace (aliasTopic true (TransferResponseByRequestStream t))
      with (TransferResponseByRequestStream t).
    2:{ unfold TransferResponseByRequestStream.
        change "/transfer/response/+" with ("/transfer/response/" +:+ String "+" "").
        by rewrite !string_app_assoc, aliasTopic_wildcard. }
    rewrite levels_TransferResponseByRequestStream by done.
    intros Hm. apply filter_matches_length in Hm; [done|].
    apply no_hash_levels; [done|by_compute].
  - rewrite matchMQTTTopic_accepts. unfold topic_accepts.
    destruct (aliasTopic_transfer t (id +:+ "/response") [id; "response"]) as (h & Hh & E);
      [done|by rewrite free_of_app; split; [|by_compute]..| |].
    { by apply levels_TransferResponse. }
    unfold TransferResponse. rewrite E, alias_levels by done.
    replace (aliasTopic true (TransferResponseStream t)) with (TransferResponseStream t).
    2:{ unfold TransferResponseStream.
        change "/transfer/+/response" with ("/transfer/" +:+ String "+" "/response").
        by rewrite !string_app_assoc, aliasTopic_wildcard. }
    rewrite levels_TransferResponseStream by done.
    intros Hm. apply filter_matches_length in Hm; [done|].
    apply no_hash_levels; [done|by_compute].
Qed.

Lemma alias_hides_sync_responses_witness :
  let t := NewDefaultTopicSet "default" in
  safe_name (t_tenant t) ∧ safe_name "req-1" ∧
  matchMQTTTopic (aliasTopic true (TransferResponseByRequestStream t))
    (aliasTopic true (TransferResponseByRequest t "req-1")) = false.
Proof.
  split_and!; [by_compute..|].
  apply (alias_hides_sync_responses (NewDefaultTopicSet "default") "req-1"); by_compute.
Defined.
