(* ===== verification/Model.v ===== *)
(** The data of internal/model: the message envelope, peers and their events,
    stream sessions, transfer records.  A Go map is a [gmap] ([nil] and the empty
    map, which the program never tells apart, are both the empty one), a slice a
    list, an instant a [Time]. *)
From S2P Require Import Prelude GoStrings GoTime Errors.

Open Scope string_scope.
Open Scope list_scope.
Open Scope Z_scope.

(** * dd_message.go *)

Definition DdTransferMode := string.
Definition DdTransferModeSync : DdTransferMode := "sync".
Definition DdTransferModeAsync : DdTransferMode := "async".

Definition DdProtocol := string.
Definition DdProtocolHttp : DdProtocol := "http".
Definition DdProtocolMq : DdProtocol := "mq".
Definition DdProtocolSocket : DdProtocol := "socket".
Definition DdProtocolStream : DdProtocol := "stream".
Definition DdProtocolCoap : DdProtocol := "coap".

Definition DdMessageVersionV1 : string := "v1".

Record DdHeader := {
  h_RequestId : string;
  h_CorrelationId : string;
  h_ReplyTo : string;
  h_TimeoutMs : Z;
  h_SourcePeerId : string;
  h_TargetPeerId : string;
  h_Tenant : string;
  h_TraceId : string;
  h_IdempotencyKey : string
}.

#[export] Instance DdHeader_eq_dec : EqDecision DdHeader.
Proof. solve_decision. Defined.

Definition zero_header : DdHeader :=
  {| h_RequestId := ""; h_CorrelationId := ""; h_ReplyTo := ""; h_TimeoutMs := 0;
     h_SourcePeerId := ""; h_TargetPeerId := ""; h_Tenant := ""; h_TraceId := "";
     h_IdempotencyKey := "" |}.

Record DdMessage := {
  msg_Version : string;
  msg_Mode : DdTransferMode;
  msg_Protocol : DdProtocol;
  msg_Resource : string;
  msg_Header : DdHeader;
  msg_Meta : DdHeader;
  msg_Headers : gmap string string;
  msg_ProtocolMeta : gmap string (gmap string string);
  msg_Payload : bytes;
  msg_CreatedAt : Time
}.

#[export] Instance DdMessage_eq_dec : EqDecision DdMessage.
Proof. solve_decision. Defined.

(** Assignments to the fields of a message or of its header. *)
Definition set_Version (m : DdMessage) v := {|
  msg_Version := v; msg_Mode := msg_Mode m; msg_Protocol := msg_Protocol m;
  msg_Resource := msg_Resource m; msg_Header := msg_Header m; msg_Meta := msg_Meta m;
  msg_Headers := msg_Headers m; msg_ProtocolMeta := msg_ProtocolMeta m;
  msg_Payload := msg_Payload m; msg_CreatedAt := msg_CreatedAt m |}.
Definition set_Mode (m : DdMessage) v := {|
  msg_Version := msg_Version m; msg_Mode := v; msg_Protocol := msg_Protocol m;
  msg_Resource := msg_Resource m; msg_Header := msg_Header m; msg_Meta := msg_Meta m;
  msg_Headers := msg_Headers m; msg_ProtocolMeta := msg_ProtocolMeta m;
  msg_Payload := msg_Payload m; msg_CreatedAt := msg_CreatedAt m |}.
Definition set_Header (m : DdMessage) v := {|
  msg_Version := msg_Version m; msg_Mode := msg_Mode m; msg_Protocol := msg_Protocol m;
  msg_Resource := msg_Resource m; msg_Header := v; msg_Meta := msg_Meta m;
  msg_Headers := msg_Headers m; msg_ProtocolMeta := msg_ProtocolMeta m;
  msg_Payload := msg_Payload m; msg_CreatedAt := msg_CreatedAt m |}.
Definition set_Meta (m : DdMessage) v := {|
  msg_Version := msg_Version m; msg_Mode := msg_Mode m; msg_Protocol := msg_Protocol m;
  msg_Resource := msg_Resource m; msg_Header := msg_Header m; msg_Meta := v;
  msg_Headers := msg_Headers m; msg_ProtocolMeta := msg_ProtocolMeta m;
  msg_Payload := msg_Payload m; msg_CreatedAt := msg_CreatedAt m |}.
Definition set_Headers (m : DdMessage) v := {|
  msg_Version := msg_Version m; msg_Mode := msg_Mode m; msg_Protocol := msg_Protocol m;
  msg_Resource := msg_Resource m; msg_Header := msg_Header m; msg_Meta := msg_Meta m;
  msg_Headers := v; msg_ProtocolMeta := msg_ProtocolMeta m;
  msg_Payload := msg_Payload m; msg_CreatedAt := msg_CreatedAt m |}.
Definition set_ProtocolMeta (m : DdMessage) v := {|
  msg_Version := msg_Version m; msg_Mode := msg_Mode m; msg_Protocol := msg_Protocol m;
  msg_Resource := msg_Resource m; msg_Header := msg_Header m; msg_Meta := msg_Meta m;
  msg_Headers := msg_Headers m; msg_ProtocolMeta := v;
  msg_Payload := msg_Payload m; msg_CreatedAt := msg_CreatedAt m |}.
Definition set_CreatedAt (m : DdMessage) v := {|
  msg_Version := msg_Version m; msg_Mode := msg_Mode m; msg_Protocol := msg_Protocol m;
  msg_Resource := msg_Resource m; msg_Header := msg_Header m; msg_Meta := msg_Meta m;
  msg_Headers := msg_Headers m; msg_ProtocolMeta := msg_ProtocolMeta m;
  msg_Payload := msg_Payload m; msg_CreatedAt := v |}.

Definition set_ReplyTo (h : DdHeader) v := {|
  h_RequestId := h_RequestId h; h_CorrelationId := h_CorrelationId h; h_ReplyTo := v;
  h_TimeoutMs := h_TimeoutMs h; h_SourcePeerId := h_SourcePeerId h;
  h_TargetPeerId := h_TargetPeerId h; h_Tenant := h_Tenant h; h_TraceId := h_TraceId h;
  h_IdempotencyKey := h_IdempotencyKey h |}.
Definition set_TimeoutMs (h : DdHeader) v := {|
  h_RequestId := h_RequestId h; h_CorrelationId := h_CorrelationId h;
  h_ReplyTo := h_ReplyTo h; h_TimeoutMs := v; h_SourcePeerId := h_SourcePeerId h;
  h_TargetPeerId := h_TargetPeerId h; h_Tenant := h_Tenant h; h_TraceId := h_TraceId h;
  h_IdempotencyKey := h_IdempotencyKey h |}.
Definition set_TraceId (h : DdHeader) v := {|
  h_RequestId := h_RequestId h; h_CorrelationId := h_CorrelationId h;
  h_ReplyTo := h_ReplyTo h; h_TimeoutMs := h_TimeoutMs h;
  h_SourcePeerId := h_SourcePeerId h; h_TargetPeerId := h_TargetPeerId h;
  h_Tenant := h_Tenant h; h_TraceId := v; h_IdempotencyKey := h_IdempotencyKey h |}.

(** * dd_peer_info.go *)

Definition PeerStatusRegistering : string := "registering".
Definition PeerStatusActive : string := "active".
Definition PeerStatusStale : string := "stale".
Definition PeerStatusOffline : string := "offline".

Record ResourceMetaConstraint := {
  c_Min : option Z;
  c_Max : option Z;
  c_Enum : list string
}.

#[export] Instance ResourceMetaConstraint_eq_dec : EqDecision ResourceMetaConstraint.
Proof. solve_decision. Defined.

Record ResourceMetaSchema := {
  s_Required : list string;
  s_Optional : list string;
  s_Constraints : gmap string ResourceMetaConstraint;
  s_ProtocolMetaRequired : list string
}.

#[export] Instance ResourceMetaSchema_eq_dec : EqDecision ResourceMetaSchema.
Proof. solve_decision. Defined.

Definition zero_schema : ResourceMetaSchema :=
  {| s_Required := []; s_Optional := []; s_Constraints := ∅; s_ProtocolMetaRequired := [] |}.

Record DdPeerInfo := {
  p_Id : string;
  p_Name : string;
  p_Role : string;
  p_Key : string;
  p_Secret : string;
  p_Status : string;
  p_Resources : list string;
  p_Capabilities : list string;
  p_ResourceSchemas : gmap string ResourceMetaSchema;
  p_Tags : gmap string string;
  p_LastHeartbeatAt : Time;
  p_CreatedAt : Time;
  p_UpdatedAt : Time
}.

#[export] Instance DdPeerInfo_eq_dec : EqDecision DdPeerInfo.
Proof. solve_decision. Defined.

Definition zero_peer : DdPeerInfo :=
  {| p_Id := ""; p_Name := ""; p_Role := ""; p_Key := ""; p_Secret := ""; p_Status := "";
     p_Resources := []; p_Capabilities := []; p_ResourceSchemas := ∅; p_Tags := ∅;
     p_LastHeartbeatAt := 0; p_CreatedAt := 0; p_UpdatedAt := 0 |}.

(** Assignments to the fields of a peer. *)
Definition set_peer_Status (p : DdPeerInfo) v := {|
  p_Id := p_Id p; p_Name := p_Name p; p_Role := p_Role p; p_Key := p_Key p;
  p_Secret := p_Secret p; p_Status := v; p_Resources := p_Resources p;
  p_Capabilities := p_Capabilities p; p_ResourceSchemas := p_ResourceSchemas p;
  p_Tags := p_Tags p; p_LastHeartbeatAt := p_LastHeartbeatAt p;
  p_CreatedAt := p_CreatedAt p; p_UpdatedAt := p_UpdatedAt p |}.
Definition set_peer_Resources (p : DdPeerInfo) v := {|
  p_Id := p_Id p; p_Name := p_Name p; p_Role := p_Role p; p_Key := p_Key p;
  p_Secret := p_Secret p; p_Status := p_Status p; p_Resources := v;
  p_Capabilities := p_Capabilities p; p_ResourceSchemas := p_ResourceSchemas p;
  p_Tags := p_Tags p; p_LastHeartbeatAt := p_LastHeartbeatAt p;
  p_CreatedAt := p_CreatedAt p; p_UpdatedAt := p_UpdatedAt p |}.
Definition set_peer_ResourceSchemas (p : DdPeerInfo) v := {|
  p_Id := p_Id p; p_Name := p_Name p; p_Role := p_Role p; p_Key := p_Key p;
  p_Secret := p_Secret p; p_Status := p_Status p; p_Resources := p_Resources p;
  p_Capabilities := p_Capabilities p; p_ResourceSchemas := v; p_Tags := p_Tags p;
  p_LastHeartbeatAt := p_LastHeartbeatAt p; p_CreatedAt := p_CreatedAt p;
  p_UpdatedAt := p_UpdatedAt p |}.
Definition set_peer_LastHeartbeatAt (p : DdPeerInfo) v := {|
  p_Id := p_Id p; p_Name := p_Name p; p_Role := p_Role p; p_Key := p_Key p;
  p_Secret := p_Secret p; p_Status := p_Status p; p_Resources := p_Resources p;
  p_Capabilities := p_Capabilities p; p_ResourceSchemas := p_ResourceSchemas p;
  p_Tags := p_Tags p; p_LastHeartbeatAt := v; p_CreatedAt := p_CreatedAt p;
  p_UpdatedAt := p_UpdatedAt p |}.
Definition set_peer_CreatedAt (p : DdPeerInfo) v := {|
  p_Id := p_Id p; p_Name := p_Name p; p_Role := p_Role p; p_Key := p_Key p;
  p_Secret := p_Secret p; p_Status := p_Status p; p_Resources := p_Resources p;
  p_Capabilities := p_Capabilities p; p_ResourceSchemas := p_ResourceSchemas p;
  p_Tags := p_Tags p; p_LastHeartbeatAt := p_LastHeartbeatAt p; p_CreatedAt := v;
  p_UpdatedAt := p_UpdatedAt p |}.
Definition set_peer_UpdatedAt (p : DdPeerInfo) v := {|
  p_Id := p_Id p; p_Name := p_Name p; p_Role := p_Role p; p_Key := p_Key p;
  p_Secret := p_Secret p; p_Status := p_Status p; p_Resources := p_Resources p;
  p_Capabilities := p_Capabilities p; p_ResourceSchemas := p_ResourceSchemas p;
  p_Tags := p_Tags p; p_LastHeartbeatAt := p_LastHeartbeatAt p;
  p_CreatedAt := p_CreatedAt p; p_UpdatedAt := v |}.

(** * dd_peer_events.go *)

Record DdPeerRegisterEvent := { re_Peer : DdPeerInfo }.

Record DdPeerHeartbeatEvent := { hb_PeerId : string; hb_Timestamp : Time }.

Record DdPeerResourceReportEvent := {
  rr_PeerId : string;
  rr_Role : string;
  rr_Timestamp : Time;
  rr_Apis : list (gmap string string);
  rr_Topics : list (gmap string string);
  rr_Streams : list (gmap string string);
  rr_ResourceSchemas : gmap string ResourceMetaSchema
}.

Record DdPeerQueryRequest := { q_RequestId : string; q_ReplyTo : string; q_Resource : string }.

Record DdPeerQueryResponse := { qr_RequestId : string; qr_Peers : list DdPeerInfo }.

#[export] Instance DdPeerRegisterEvent_eq_dec : EqDecision DdPeerRegisterEvent.
Proof. solve_decision. Defined.
#[export] Instance DdPeerHeartbeatEvent_eq_dec : EqDecision DdPeerHeartbeatEvent.
Proof. solve_decision. Defined.
#[export] Instance DdPeerResourceReportEvent_eq_dec : EqDecision DdPeerResourceReportEvent.
Proof. solve_decision. Defined.
#[export] Instance DdPeerQueryRequest_eq_dec : EqDecision DdPeerQueryRequest.
Proof. solve_decision. Defined.
#[export] Instance DdPeerQueryResponse_eq_dec : EqDecision DdPeerQueryResponse.
Proof. solve_decision. Defined.

(** * dd_resource_events.go *)

Record HubBroadcast := {
  hub_HubId : string;
  hub_HubName : string;
  hub_RegisterTopic : string;
  hub_AuthTopic : string;
  hub_QueryTopic : string;
  hub_TtlSec : Z;
  hub_Timestamp : Time
}.

Record AuthBroadcast := {
  auth_AuthId : string;
  auth_AuthName : string;
  auth_VerifyTopic : string;
  auth_PublicKey : string;
  auth_TtlSec : Z;
  auth_Timestamp : Time
}.

Record PeerAuthRequest := {
  par_RequestId : string;
  par_PeerId : string;
  par_Key : string;
  par_Secret : string;
  par_ReplyTo : string
}.

Record PeerAuthResponse := {
  pas_RequestId : string;
  pas_PeerId : string;
  pas_Granted : bool;
  pas_AuthToken : string;
  pas_TtlSec : Z;
  pas_Reason : string
}.

Record PeerListQuery := {
  plq_RequestId : string;
  plq_SourcePeerId : string;
  plq_ResourceFilter : string;
  plq_RoleFilter : string;
  plq_StatusFilter : string;
  plq_PageSize : Z;
  plq_PageOffset : Z;
  plq_ReplyTo : string
}.

(** [Peers] has no [omitempty]: a nil slice ([None]) and an empty one are
    different documents. *)
Record PeerListResponse := {
  plr_RequestId : string;
  plr_CorrelationId : string;
  plr_Peers : option (list DdPeerInfo);
  plr_TotalCount : Z;
  plr_PageOffset : Z;
  plr_HasMore : bool
}.

#[export] Instance HubBroadcast_eq_dec : EqDecision HubBroadcast.
Proof. solve_decision. Defined.
#[export] Instance AuthBroadcast_eq_dec : EqDecision AuthBroadcast.
Proof. solve_decision. Defined.
#[export] Instance PeerAuthRequest_eq_dec : EqDecision PeerAuthRequest.
Proof. solve_decision. Defined.
#[export] Instance PeerAuthResponse_eq_dec : EqDecision PeerAuthResponse.
Proof. solve_decision. Defined.
#[export] Instance PeerListQuery_eq_dec : EqDecision PeerListQuery.
Proof. solve_decision. Defined.
#[export] Instance PeerListResponse_eq_dec : EqDecision PeerListResponse.
Proof. solve_decision. Defined.

(** * dd_stream.go *)

Definition StreamProfileFull : string := "full".
Definition StreamProfileMinimal : string := "minimal".
Definition StreamProfileZero : string := "zero".

Definition StreamStatusOpening : string := "opening".
Definition StreamStatusActive : string := "active".
Definition StreamStatusClosing : string := "closing".
Definition StreamStatusClosed : string := "closed".
Definition StreamStatusTimeout : string := "timeout".
Definition StreamStatusError : string := "error".

Record StreamSession := {
  ss_StreamId : string;
  ss_Resource : string;
  ss_Profile : string;
  ss_SourcePeerId : string;
  ss_TargetPeerIds : list string;
  ss_Status : string;
  ss_IdleTimeoutMs : Z;
  ss_OpenedAt : Time;
  ss_ClosedAt : Time;
  ss_LastActiveAt : Time
}.

Record StreamOpenEvent := {
  so_StreamId : string;
  so_Resource : string;
  so_Profile : string;
  so_SourcePeerId : string;
  so_TargetPeerIds : list string;
  so_IdleTimeoutMs : Z
}.

Record StreamCloseEvent := { sc_StreamId : string; sc_Reason : string }.

#[export] Instance StreamSession_eq_dec : EqDecision StreamSession.
Proof. solve_decision. Defined.
#[export] Instance StreamOpenEvent_eq_dec : EqDecision StreamOpenEvent.
Proof. solve_decision. Defined.
#[export] Instance StreamCloseEvent_eq_dec : EqDecision StreamCloseEvent.
Proof. solve_decision. Defined.

(** Assignments to the fields of a session. *)
Definition set_session_Profile (s : StreamSession) v := {|
  ss_StreamId := ss_StreamId s; ss_Resource := ss_Resource s; ss_Profile := v;
  ss_SourcePeerId := ss_SourcePeerId s; ss_TargetPeerIds := ss_TargetPeerIds s;
  ss_Status := ss_Status s; ss_IdleTimeoutMs := ss_IdleTimeoutMs s;
  ss_OpenedAt := ss_OpenedAt s; ss_ClosedAt := ss_ClosedAt s;
  ss_LastActiveAt := ss_LastActiveAt s |}.
Definition set_session_Status (s : StreamSession) v := {|
  ss_StreamId := ss_StreamId s; ss_Resource := ss_Resource s; ss_Profile := ss_Profile s;
  ss_SourcePeerId := ss_SourcePeerId s; ss_TargetPeerIds := ss_TargetPeerIds s;
  ss_Status := v; ss_IdleTimeoutMs := ss_IdleTimeoutMs s; ss_OpenedAt := ss_OpenedAt s;
  ss_ClosedAt := ss_ClosedAt s; ss_LastActiveAt := ss_LastActiveAt s |}.
Definition set_session_IdleTimeoutMs (s : StreamSession) v := {|
  ss_StreamId := ss_StreamId s; ss_Resource := ss_Resource s; ss_Profile := ss_Profile s;
  ss_SourcePeerId := ss_SourcePeerId s; ss_TargetPeerIds := ss_TargetPeerIds s;
  ss_Status := ss_Status s; ss_IdleTimeoutMs := v; ss_OpenedAt := ss_OpenedAt s;
  ss_ClosedAt := ss_ClosedAt s; ss_LastActiveAt := ss_LastActiveAt s |}.
Definition set_session_ClosedAt (s : StreamSession) v := {|
  ss_StreamId := ss_StreamId s; ss_Resource := ss_Resource s; ss_Profile := ss_Profile s;
  ss_SourcePeerId := ss_SourcePeerId s; ss_TargetPeerIds := ss_TargetPeerIds s;
  ss_Status := ss_Status s; ss_IdleTimeoutMs := ss_IdleTimeoutMs s;
  ss_OpenedAt := ss_OpenedAt s; ss_ClosedAt := v; ss_LastActiveAt := ss_LastActiveAt s |}.

(** * dd_transfer_status.go *)

Definition TransferStatusAccepted : string := "accepted".
Definition TransferStatusRouted : string := "routed".
Definition TransferStatusDelivered : string := "delivered".
Definition TransferStatusResponded : string := "responded".
Definition TransferStatusTimeout : string := "timeout".
Definition TransferStatusFailed : string := "failed".

Record TransferRecord := {
  tr_RequestId : string;
  tr_Resource : string;
  tr_Protocol : DdProtocol;
  tr_Mode : DdTransferMode;
  tr_SourcePeerId : string;
  tr_TargetPeerId : string;
  tr_Status : string;
  tr_LatencyMs : Z;
  tr_CreatedAt : Time;
  tr_UpdatedAt : Time
}.

#[export] Instance TransferRecord_eq_dec : EqDecision TransferRecord.
Proof. solve_decision. Defined.
