(* ===== verification/Message.v ===== *)
(** The message envelope (internal/model/dd_message.go): normalisation of the old
    and new envelope fields into each other, and validation. *)
From S2P Require Import Prelude GoStrings GoTime Errors Model.
From Stdlib Require Import Ascii.

Open Scope string_scope.
Open Scope list_scope.
Open Scope Z_scope.

Definition isHeaderZero (h : DdHeader) : bool := bool_decide (h = zero_header).

(** [cloneMap] copies a map; the model's maps are values, so the copy is the map
    itself. *)
Definition cloneMap (m : gmap string string) : gmap string string := m.

(** [Normalize] mutates the message in five steps, one per [if] of the code. *)
Definition normalize_version (m : DdMessage) : DdMessage :=
  if decide (msg_Version m = "") then set_Version m DdMessageVersionV1 else m.
Definition normalize_meta (m : DdMessage) : DdMessage :=
  if isHeaderZero (msg_Meta m) && negb (isHeaderZero (msg_Header m))
  then set_Meta m (msg_Header m) else m.
Definition normalize_header (m : DdMessage) : DdMessage :=
  if isHeaderZero (msg_Header m) && negb (isHeaderZero (msg_Meta m))
  then set_Header m (msg_Meta m) else m.
Definition normalize_protocol_meta (m : DdMessage) : DdMessage :=
  if decide (msg_ProtocolMeta m = ∅ ∧ msg_Headers m ≠ ∅)
  then set_ProtocolMeta m {[ msg_Protocol m := cloneMap (msg_Headers m) ]} else m.
Definition normalize_headers (m : DdMessage) : DdMessage :=
  if decide (msg_Headers m = ∅ ∧ msg_ProtocolMeta m ≠ ∅)
  then match msg_ProtocolMeta m !! msg_Protocol m with
       | Some pm => set_Headers m (cloneMap pm)
       | None => m
       end
  else m.

Definition Normalize (m : DdMessage) : DdMessage :=
  let m := normalize_version m in
  let m := normalize_meta m in
  let m := normalize_header m in
  let m := normalize_protocol_meta m in
  normalize_headers m.

(** [ProtocolFields] normalises the message too. *)
Definition ProtocolFields (m : DdMessage) : DdMessage * gmap string string :=
  let m := Normalize m in
  match msg_ProtocolMeta m !! msg_Protocol m with
  | Some pm => (m, pm)
  | None => (m, msg_Headers m)
  end.

(** The table [allowed] of [validateProtocolMeta]. *)
Definition allowed_fields (p : DdProtocol) : option (list string) :=
  if decide (p = DdProtocolHttp) then
    Some ["method"; "path"; "query"; "content-type"; "content_type"]
  else if decide (p = DdProtocolCoap) then
    Some ["method"; "path"; "content_format"; "token"; "observe"]
  else if decide (p = DdProtocolMq) then
    Some ["topic"; "qos"; "retain"; "partition_key"]
  else if decide (p = DdProtocolStream) then
    Some ["stream_id"; "profile"; "subproto"; "chunk_seq"]
  else if decide (p = DdProtocolSocket) then Some []
  else None.

(** One field name is acceptable for a protocol; HTTP passes any name with a
    hyphen through. *)
Definition field_allowed (p : DdProtocol) (allow : list string) (k : string) : bool :=
  bool_decide (k ∈ allow) || (bool_decide (p = DdProtocolHttp) && Contains k "-").

(** The loop over the fields, in iteration order: the first offending name. *)
Fixpoint validateProtocolMeta_loop (p : DdProtocol) (allow : list string)
    (fields : list (string * string)) : option error :=
  match fields with
  | [] => None
  | (k, _) :: rest =>
      if field_allowed p allow k then validateProtocolMeta_loop p allow rest
      else Some (EText ("invalid protocol_meta field: " +:+ k))
  end.

Definition validateProtocolMeta (ρ : ranger) (m : DdMessage) : DdMessage * option error :=
  let '(m, fields) := ProtocolFields m in
  if bool_decide (fields = ∅) then (m, None)
  else match allowed_fields (msg_Protocol m) with
       | None => (m, None)
       | Some allow => (m, validateProtocolMeta_loop (msg_Protocol m) allow (range ρ fields))
       end.

Definition known_protocol (p : DdProtocol) : bool :=
  bool_decide (p ∈ [DdProtocolHttp; DdProtocolMq; DdProtocolSocket; DdProtocolStream;
                    DdProtocolCoap]).

(** [Validate] on a message that is not nil: the mutated message and the error. *)
Definition Validate_msg (ρ : ranger) (m : DdMessage) : DdMessage * option error :=
  let m := Normalize m in
  if decide (msg_Mode m ≠ DdTransferModeSync ∧ msg_Mode m ≠ DdTransferModeAsync)
  then (m, Some (EText "invalid mode"))
  else if negb (known_protocol (msg_Protocol m))
  then (m, Some (EText "invalid protocol"))
  else if decide (msg_Resource m = "")
  then (m, Some (EText "resource is required"))
  else
    let '(m, err) := validateProtocolMeta ρ m in
    match err with
    | Some e => (m, Some e)
    | None =>
        if decide (msg_Mode m = DdTransferModeSync) then
          if decide (h_RequestId (msg_Header m) = "")
          then (m, Some (EText "sync request_id is required"))
          else if decide (h_TimeoutMs (msg_Header m) ≤ 0)
          then (m, Some (EText "sync timeout_ms must be > 0"))
          else (m, None)
        else (m, None)
    end.

(** The pointer may be nil. *)
Definition Validate (ρ : ranger) (m : option DdMessage) : option DdMessage * option error :=
  match m with
  | None => (None, Some (EText "message is nil"))
  | Some m => let '(m', e) := Validate_msg ρ m in (Some m', e)
  end.

(** * Normalisation *)

Lemma isHeaderZero_zero : isHeaderZero zero_header = true.
Proof. by apply bool_decide_eq_true. Qed.

(** Each step is an assignment to one field. *)
Lemma normalize_version_eq m :
  normalize_version m =
  set_Version m (if decide (msg_Version m = "") then DdMessageVersionV1 else msg_Version m).
Proof. unfold normalize_version. by case_decide; destruct m. Qed.

Lemma normalize_meta_eq m :
  normalize_meta m =
  set_Meta m (if isHeaderZero (msg_Meta m) then msg_Header m else msg_Meta m).
Proof.
  unfold normalize_meta, isHeaderZero. destruct m; simpl.
  repeat case_bool_decide; simpl; unfold set_Meta; simpl; congruence.
Qed.

Lemma normalize_header_eq m :
  normalize_header m =
  set_Header m (if isHeaderZero (msg_Header m) then msg_Meta m else msg_Header m).
Proof.
  unfold normalize_header, isHeaderZero. destruct m; simpl.
  repeat case_bool_decide; simpl; unfold set_Header; simpl; congruence.
Qed.

Lemma normalize_protocol_meta_eq m :
  normalize_protocol_meta m =
  set_ProtocolMeta m (if decide (msg_ProtocolMeta m = ∅ ∧ msg_Headers m ≠ ∅)
    then {[ msg_Protocol m := msg_Headers m ]} else msg_ProtocolMeta m).
Proof. unfold normalize_protocol_meta. by case_decide; destruct m. Qed.

Lemma normalize_headers_eq m :
  normalize_headers m =
  set_Headers m (if decide (msg_Headers m = ∅)
    then default ∅ (msg_ProtocolMeta m !! msg_Protocol m) else msg_Headers m).
Proof.
  unfold normalize_headers, cloneMap. destruct m as [v mo pr r h me hs pm pl ca]; simpl.
  destruct (decide (hs = ∅)) as [->|Hh].
  - destruct (decide (pm = ∅)) as [->|Hp].
    + rewrite decide_False by tauto. by rewrite lookup_empty.
    + rewrite decide_True by done. by destruct (pm !! pr).
  - by rewrite decide_False by tauto.
Qed.

(** The header after normalisation is the old one, or [meta] when that was empty,
    and so on for every field. *)
Lemma Normalize_eq m :
  Normalize m =
  let pm := if decide (msg_ProtocolMeta m = ∅ ∧ msg_Headers m ≠ ∅)
            then {[ msg_Protocol m := msg_Headers m ]} else msg_ProtocolMeta m in
  let meta := if isHeaderZero (msg_Meta m) then msg_Header m else msg_Meta m in
  {| msg_Version := if decide (msg_Version m = "") then DdMessageVersionV1 else msg_Version m;
     msg_Mode := msg_Mode m;
     msg_Protocol := msg_Protocol m;
     msg_Resource := msg_Resource m;
     msg_Header := if isHeaderZero (msg_Header m) then meta else msg_Header m;
     msg_Meta := meta;
     msg_Headers := if decide (msg_Headers m = ∅)
                    then default ∅ (pm !! msg_Protocol m) else msg_Headers m;
     msg_ProtocolMeta := pm;
     msg_Payload := msg_Payload m;
     msg_CreatedAt := msg_CreatedAt m |}.
Proof.
  unfold Normalize. cbv zeta.
  by rewrite normalize_version_eq, normalize_meta_eq, normalize_header_eq,
    normalize_protocol_meta_eq, normalize_headers_eq.
Qed.

Lemma Normalize_Mode m : msg_Mode (Normalize m) = msg_Mode m.
Proof. by rewrite Normalize_eq. Qed.
Lemma Normalize_Protocol m : msg_Protocol (Normalize m) = msg_Protocol m.
Proof. by rewrite Normalize_eq. Qed.
Lemma Normalize_Resource m : msg_Resource (Normalize m) = msg_Resource m.
Proof. by rewrite Normalize_eq. Qed.
Lemma Normalize_Payload m : msg_Payload (Normalize m) = msg_Payload m.
Proof. by rewrite Normalize_eq. Qed.
Lemma Normalize_CreatedAt m : msg_CreatedAt (Normalize m) = msg_CreatedAt m.
Proof. by rewrite Normalize_eq. Qed.

Lemma Normalize_Header m :
  msg_Header (Normalize m) =
  if isHeaderZero (msg_Header m) then msg_Meta m else msg_Header m.
Proof.
  rewrite Normalize_eq. simpl. unfold isHeaderZero. repeat case_bool_decide; congruence.
Qed.

#[export] Hint Rewrite Normalize_Mode Normalize_Protocol Normalize_Resource
  Normalize_Payload Normalize_CreatedAt : ddcore_rw.

Lemma DdMessage_ext m1 m2 :
  msg_Version m1 = msg_Version m2 → msg_Mode m1 = msg_Mode m2 →
  msg_Protocol m1 = msg_Protocol m2 → msg_Resource m1 = msg_Resource m2 →
  msg_Header m1 = msg_Header m2 → msg_Meta m1 = msg_Meta m2 →
  msg_Headers m1 = msg_Headers m2 → msg_ProtocolMeta m1 = msg_ProtocolMeta m2 →
  msg_Payload m1 = msg_Payload m2 → msg_CreatedAt m1 = msg_CreatedAt m2 → m1 = m2.
Proof. destruct m1, m2; simpl. by intros -> -> -> -> -> -> -> -> -> ->. Qed.

Lemma Normalize_idemp m : Normalize (Normalize m) = Normalize m.
Proof.
  rewrite (Normalize_eq (Normalize m)), (Normalize_eq m). cbv zeta. simpl.
  destruct m as [v mo pr r h me hs pm pl ca]; simpl.
  f_equal; unfold isHeaderZero; try (repeat (case_bool_decide || case_decide); congruence).
  destruct (decide (pm = ∅ ∧ hs ≠ ∅)) as [[-> Hh]|Hn].
  - rewrite decide_False; [done|]. intros [Hs _]. by apply map_non_empty_singleton in Hs.
  - rewrite decide_False; [done|]. intros [-> H]. apply H.
    destruct (decide (hs = ∅)); [by rewrite lookup_empty|]. tauto.
Qed.

#[export] Hint Rewrite Normalize_idemp : ddcore_rw.

Lemma ProtocolFields_msg m : (ProtocolFields m).1 = Normalize m.
Proof. unfold ProtocolFields. by case_match. Qed.

Lemma ProtocolFields_Normalize m : ProtocolFields (Normalize m) = ProtocolFields m.
Proof. unfold ProtocolFields. by rewrite Normalize_idemp. Qed.

(** * Validation *)

Lemma validateProtocolMeta_loop_None p allow fields :
  validateProtocolMeta_loop p allow fields = None ↔
  Forall (λ kv, field_allowed p allow kv.1 = true) fields.
Proof.
  induction fields as [|[k v] l IH]; simpl; [by rewrite Forall_nil|].
  rewrite Forall_cons. simpl. destruct (field_allowed p allow k); [rewrite IH; tauto|].
  split; [done|]. by intros [? _].
Qed.

(** Every protocol field of the message is one the protocol knows. *)
Definition fields_valid (m : DdMessage) : Prop :=
  ∀ allow, allowed_fields (msg_Protocol m) = Some allow →
  ∀ k v, (ProtocolFields m).2 !! k = Some v →
  k ∈ allow ∨ (msg_Protocol m = DdProtocolHttp ∧ Contains k "-" = true).

Lemma field_allowed_true p allow k :
  field_allowed p allow k = true ↔
  k ∈ allow ∨ (p = DdProtocolHttp ∧ Contains k "-" = true).
Proof.
  unfold field_allowed. by rewrite orb_true_iff, andb_true_iff, !bool_decide_eq_true.
Qed.

Lemma validateProtocolMeta_msg ρ m : (validateProtocolMeta ρ m).1 = Normalize m.
Proof.
  unfold validateProtocolMeta. pose proof (ProtocolFields_msg m) as E.
  destruct (ProtocolFields m) as [m' fields]; simpl in *. subst. by repeat case_match.
Qed.

Lemma validateProtocolMeta_None ρ m :
  (validateProtocolMeta ρ m).2 = None ↔ fields_valid m.
Proof.
  unfold validateProtocolMeta, fields_valid. pose proof (ProtocolFields_msg m) as E.
  destruct (ProtocolFields m) as [m' fields]; simpl in *. subst.
  rewrite Normalize_Protocol.
  case_bool_decide as Hf.
  { subst. split; [|done]. intros _ allow _ k v. by rewrite lookup_empty. }
  destruct (allowed_fields (msg_Protocol m)) as [allow|]; simpl; [|naive_solver].
  rewrite validateProtocolMeta_loop_None, Forall_forall. setoid_rewrite field_allowed_true.
  split.
  - intros H allow' [= <-] k v Hk. apply (H (k, v)). by apply range_lookup.
  - intros H [k v] Hk. apply range_lookup in Hk. by eapply (H allow).
Qed.

(** The declarative envelope: what [Validate] accepts. *)
Record envelope_ok (m : DdMessage) : Prop := {
  ok_mode : msg_Mode m = DdTransferModeSync ∨ msg_Mode m = DdTransferModeAsync;
  ok_protocol : msg_Protocol m ∈ [DdProtocolHttp; DdProtocolMq; DdProtocolSocket;
                                  DdProtocolStream; DdProtocolCoap];
  ok_resource : msg_Resource m ≠ "";
  ok_fields : fields_valid m;
  ok_sync : msg_Mode m = DdTransferModeSync →
    h_RequestId (msg_Header m) ≠ "" ∧ 0 < h_TimeoutMs (msg_Header m)
}.

Lemma Validate_msg_normalizes ρ m : (Validate_msg ρ m).1 = Normalize m.
Proof.
  unfold Validate_msg. do 3 (case_match; [done|]).
  pose proof (validateProtocolMeta_msg ρ (Normalize m)) as E.
  destruct (validateProtocolMeta ρ (Normalize m)) as [m' err]; simpl in *.
  rewrite E, Normalize_idemp. by repeat case_match.
Qed.

Lemma fields_valid_Normalize m : fields_valid (Normalize m) ↔ fields_valid m.
Proof. unfold fields_valid. by rewrite ProtocolFields_Normalize, Normalize_Protocol. Qed.

Lemma Validate_msg_None ρ m :
  (Validate_msg ρ m).2 = None ↔ envelope_ok (Normalize m).
Proof.
  unfold Validate_msg.
  pose proof (validateProtocolMeta_msg ρ (Normalize m)) as E.
  pose proof (validateProtocolMeta_None ρ (Normalize m)) as Hv.
  rewrite Normalize_idemp in E. revert E Hv.
  generalize (Normalize m) as n. clear m. intros n E Hv.
  case_decide as Hm.
  { split; [done|]. intros [[?|?] _ _ _ _]; destruct Hm; contradiction. }
  unfold known_protocol. case_bool_decide as Hp; simpl.
  2:{ split; [done|]. by intros []. }
  case_decide as Hr. { split; [done|]. by intros []. }
  destruct (validateProtocolMeta ρ n) as [m' [e|]]; simpl in *; subst m'.
  { split; [done|]. intros [_ _ _ Hf _]. by apply Hv in Hf. }
  assert (fields_valid n) as Hf by (by apply Hv).
  assert (msg_Mode n = DdTransferModeSync ∨ msg_Mode n = DdTransferModeAsync) as Hmode.
  { destruct (decide (msg_Mode n = DdTransferModeSync)) as [|H1]; [by left|].
    destruct (decide (msg_Mode n = DdTransferModeAsync)) as [|H2]; [by right|].
    by destruct Hm. }
  case_decide as Hs.
  - case_decide as Hid.
    { split; [done|]. intros [_ _ _ _ Ho]. by destruct (Ho Hs). }
    case_decide.
    { split; [done|]. intros [_ _ _ _ Ho]. destruct (Ho Hs). lia. }
    split; [|done]. intros _. split; try done. intros _. split; [done|lia].
  - split; [|done]. intros _. by split.
Qed.

(** * Properties *)

(** C16: [Normalize] is idempotent and reconciles the old and new envelope fields:
    the version is set, an empty [header] or [meta] takes the other's value, so
    both are empty or none is, and non-empty ones are left alone; mode, protocol,
    resource and payload never change. *)
Theorem Normalize_reconciles m :
  let n := Normalize m in
  Normalize n = n ∧
  msg_Version n ≠ "" ∧
  (msg_Header n = zero_header ↔ msg_Meta n = zero_header) ∧
  (msg_Header m ≠ zero_header → msg_Header n = msg_Header m) ∧
  (msg_Meta m ≠ zero_header → msg_Meta n = msg_Meta m) ∧
  (msg_Headers m = ∅ → msg_Headers n = default ∅ (msg_ProtocolMeta m !! msg_Protocol m)) ∧
  (msg_Headers m ≠ ∅ → msg_ProtocolMeta m = ∅ →
     msg_ProtocolMeta n = {[ msg_Protocol m := msg_Headers m ]}) ∧
  (msg_Mode n, msg_Protocol n, msg_Resource n, msg_Payload n) =
  (msg_Mode m, msg_Protocol m, msg_Resource m, msg_Payload m).
Proof.
  cbv zeta. split; [apply Normalize_idemp|]. rewrite Normalize_eq. simpl.
  unfold isHeaderZero. split_and!.
  - by case_decide.
  - repeat case_bool_decide; naive_solver congruence.
  - intros. by rewrite bool_decide_eq_false_2.
  - intros. by rewrite bool_decide_eq_false_2.
  - intros E. rewrite decide_True by done. rewrite decide_False; [done|].
    intros [_ H]. by apply H.
  - intros H1 H2. by rewrite decide_True.
  - done.
Qed.

Definition msg_sample : DdMessage := {|
  msg_Version := ""; msg_Mode := DdTransferModeSync; msg_Protocol := DdProtocolHttp;
  msg_Resource := "order"; msg_Header := set_TimeoutMs zero_header 10;
  msg_Meta := zero_header; msg_Headers := {[ "method" := "GET" ]};
  msg_ProtocolMeta := ∅; msg_Payload := []; msg_CreatedAt := 0 |}.

(** C15: [Validate] accepts a message iff its normalised form is a well-formed
    envelope (known mode and protocol, a resource, only protocol fields the
    protocol knows, and for a sync call a request id and a positive timeout), and
    whatever the verdict leaves the normalised message behind; the verdict does
    not depend on the iteration order of the fields. *)
Theorem Validate_decides_envelope ρ m :
  (Validate ρ (Some m)).1 = Some (Normalize m) ∧
  ((Validate ρ (Some m)).2 = None ↔ envelope_ok (Normalize m)).
Proof.
  unfold Validate. pose proof (Validate_msg_normalizes ρ m) as E.
  rewrite <- (Validate_msg_None ρ m).
  destruct (Validate_msg ρ m) as [m' e]; simpl in *. by subst.
Qed.
