(* ===== verification/Codec.v ===== *)
(** Wire formats: JSON documents, gzip, and the envelope codec of
    internal/model/dd_message_codec.go.

    [encoding/json] and [compress/gzip] are interfaces here: a codec is a pair of
    functions with the documented laws (a document that [Marshal] produced of
    valid UTF-8 strings unmarshals to the value it came from; a struct is marshalled to an object; what
    was compressed decompresses to itself).  [table_codec] is a concrete codec that
    knows finitely many documents; the examples use it with literal JSON texts. *)
From S2P Require Import Prelude GoStrings GoTime Errors Model Message.
From Stdlib Require Import Ascii.

Open Scope string_scope.
Open Scope list_scope.
Open Scope Z_scope.

(** * JSON *)

Class JsonCodec (A : Type) := {
  json_Marshal : A → result bytes;
  json_Unmarshal : bytes → result A
}.

(** [json_valid] holds of the values that the format represents exactly: encoding/json
    replaces the bytes of a string that are not UTF-8. *)
Class JsonLaws (A : Type) `{JsonCodec A} := {
  json_valid : A → Prop;
  json_roundtrip (x : A) b : json_valid x → json_Marshal x = Ok b → json_Unmarshal b = Ok x;
  json_object (x : A) b : json_Marshal x = Ok b → head b = Some "{"%char
}.

(** A codec that knows the documents of a table. *)
Definition table_Marshal {A} `{EqDecision A} (t : list (A * string)) (x : A) : result bytes :=
  match list_find (λ e, e.1 = x) t with
  | Some (_, (_, doc)) => Ok (to_bytes doc)
  | None => Fail (EText "json: unsupported value")
  end.

Definition table_Unmarshal {A} (t : list (A * string)) (b : bytes) : result A :=
  match list_find (λ e, e.2 = of_bytes b) t with
  | Some (_, (x, _)) => Ok x
  | None => Fail (EText "invalid character")
  end.

Definition table_codec {A} `{EqDecision A} (t : list (A * string)) : JsonCodec A :=
  {| json_Marshal := table_Marshal t; json_Unmarshal := table_Unmarshal t |}.

Lemma table_codec_laws {A} `{EqDecision A} (t : list (A * string)) :
  NoDup t.*2 → Forall (λ e, HasPrefix e.2 "{" = true) t →
  @JsonLaws A (table_codec t).
Proof.
  intros Hnd Hobj. exists (λ _, True); simpl; unfold table_Marshal, table_Unmarshal;
    [intros x b _ E|intros x b E].
  - case_match eqn:Hf; [|done]. destruct p as [i [y doc]]. simplify_eq/=.
    apply list_find_Some in Hf as (Hi & Hx & _). simpl in Hx. subst y.
    rewrite of_to_bytes.
    assert (list_find (λ e, e.2 = doc) t = Some (i, (x, doc))) as ->; [|done].
    apply list_find_Some. split_and!; [done..|]. intros j [z doc'] Hj Hlt. simpl.
    intros ->. assert (j = i); [|lia].
    eapply (NoDup_lookup t.*2); [done| |]; rewrite list_lookup_fmap.
    + by rewrite Hj.
    + by rewrite Hi.
  - case_match eqn:Hf; [|done]. destruct p as [i [y doc]]. simplify_eq/=.
    apply list_find_Some in Hf as (Hi & _ & _).
    rewrite Forall_forall in Hobj.
    assert (HasPrefix doc "{" = true) as Hd
      by (apply (Hobj (y, doc)); by eapply list_elem_of_lookup_2).
    destruct doc as [|c doc]; [done|]. simpl in *. by case_decide; subst.
Defined.

(** * Gzip *)

Class Gzip := {
  gzip_compress : bytes → bytes;
  gzip_decompress : bytes → result bytes
}.

Class GzipLaws `{Gzip} := {
  gzip_roundtrip b : gzip_decompress (gzip_compress b) = Ok b
}.

(** A concrete compressor that stores its input. *)
Definition gzip_store : Gzip :=
  {| gzip_compress b := b; gzip_decompress b := Ok b |}.
Lemma gzip_store_laws : @GzipLaws gzip_store.
Proof. by split. Qed.

(** * The envelope codec *)

Definition gzipMagic : bytes := byte_of_Z <$> [0x44; 0x44; 0x47; 0x5a; 0x31].

(** The loop of [isGzipEnvelope] over the positions of the magic number. *)
Fixpoint isGzipEnvelope_loop (magic : bytes) (i : nat) (data : bytes) : bool :=
  match magic with
  | [] => true
  | g :: magic' =>
      if bool_decide (data !! i = Some g) then isGzipEnvelope_loop magic' (S i) data
      else false
  end.

Definition isGzipEnvelope (data : bytes) : bool :=
  if decide (length data < length gzipMagic)%nat then false
  else isGzipEnvelope_loop gzipMagic 0 data.

Section codec.
Context `{JsonCodec DdMessage} `{Gzip}.

(** The message is normalised in place before it is marshalled; writing to the
    in-memory buffer cannot fail. *)
Definition EncodeDdMessage (msg : DdMessage) (compress : bool) : DdMessage * result bytes :=
  let msg := Normalize msg in
  match json_Marshal msg with
  | Fail e => (msg, Fail e)
  | Ok raw =>
      if negb compress then (msg, Ok raw)
      else (msg, Ok (gzipMagic ++ gzip_compress raw))
  end.

(** Decodes into a fresh message. *)
Definition DecodeDdMessage (data : bytes) : result DdMessage :=
  let payload :=
    if isGzipEnvelope data
    then gzip_decompress (drop (length gzipMagic) data)
    else Ok data in
  match payload with
  | Fail e => Fail e
  | Ok payload =>
      match json_Unmarshal payload with
      | Fail e => Fail e
      | Ok out => Ok (Normalize out)
      end
  end.

Lemma isGzipEnvelope_loop_prefix magic i data :
  isGzipEnvelope_loop magic i data = true ↔ magic `prefix_of` drop i data.
Proof using Type.
  revert i. induction magic as [|g magic IH]; intros i; simpl.
  - split; [|done]. intros _. apply prefix_nil.
  - case_bool_decide as Hi.
    + rewrite IH, (drop_S _ g i) by done. split; [apply prefix_cons|].
      intros Hp. by apply prefix_cons_inv_2 in Hp.
    + split; [done|]. intros [k Hk]. destruct Hi.
      pose proof (lookup_drop data i 0) as Hl. rewrite Nat.add_0_r in Hl.
      by rewrite <- Hl, Hk.
Qed.

Lemma isGzipEnvelope_prefix data :
  isGzipEnvelope data = true ↔ gzipMagic `prefix_of` data.
Proof using Type.
  unfold isGzipEnvelope. case_decide as Hl.
  - split; [done|]. intros Hp. apply prefix_length in Hp. lia.
  - rewrite isGzipEnvelope_loop_prefix. by rewrite drop_0.
Qed.

Lemma EncodeDdMessage_msg msg compress :
  (EncodeDdMessage msg compress).1 = Normalize msg.
Proof using Type. unfold EncodeDdMessage. by repeat case_match. Qed.

Context `{!JsonLaws DdMessage} `{!GzipLaws}.

Lemma Decode_Encode msg compress data :
  json_valid (Normalize msg) →
  (EncodeDdMessage msg compress).2 = Ok data →
  DecodeDdMessage data = Ok (Normalize msg).
Proof using All.
  unfold EncodeDdMessage, DecodeDdMessage. intros Hv.
  destruct (json_Marshal (Normalize msg)) as [raw|] eqn:Hm; [|done].
  destruct compress; cbn [negb snd]; intros E; apply Ok_inj in E; subst data.
  - assert (isGzipEnvelope (gzipMagic ++ gzip_compress raw) = true) as ->.
    { apply isGzipEnvelope_prefix. by exists (gzip_compress raw). }
    rewrite drop_app_length.
    rewrite gzip_roundtrip, (json_roundtrip _ _ Hv Hm). by rewrite Normalize_idemp.
  - assert (isGzipEnvelope raw = false) as ->.
    { apply not_true_is_false. rewrite isGzipEnvelope_prefix. intros [k ->].
      apply json_object in Hm. by inversion Hm. }
    rewrite (json_roundtrip _ _ Hv Hm). by rewrite Normalize_idemp.
Qed.

(** C14: what [EncodeDdMessage] produces, compressed or not, [DecodeDdMessage]
    turns back into the normalised message (its strings being valid UTF-8): the
    receiver tells the two forms apart by the magic number, which no JSON object
    starts with. *)
Theorem Decode_inverts_Encode msg compress data :
  json_valid (Normalize msg) →
  (EncodeDdMessage msg compress).2 = Ok data →
  DecodeDdMessage data = Ok (Normalize msg) ∧
  (isGzipEnvelope data = true ↔ compress = true).
Proof using All.
  intros Hv E. split; [by eapply Decode_Encode|].
  unfold EncodeDdMessage in E.
  destruct (json_Marshal (Normalize msg)) as [raw|] eqn:Hm; [|done].
  rewrite isGzipEnvelope_prefix.
  destruct compress; cbn [negb snd] in E; apply Ok_inj in E; subst data.
  - split; [done|]. intros _. by exists (gzip_compress raw).
  - split; [|done]. intros [k ->]. apply json_object in Hm. by inversion Hm.
Qed.
End codec.

(** One message and its JSON text. *)
Definition json_sample : JsonCodec DdMessage :=
  table_codec [(Normalize msg_sample, json_text
    "{'version':'v1','mode':'sync','protocol':'http','resource':'order','header':{'timeout_ms':10},'meta':{'timeout_ms':10},'headers':{'method':'GET'},'protocol_meta':{'http':{'method':'GET'}},'created_at':'0001-01-01T00:00:00Z'}")].

Lemma json_sample_laws : @JsonLaws DdMessage json_sample.
Proof. apply table_codec_laws; [by_compute|]. by repeat constructor. Defined.

Lemma Decode_inverts_Encode_witness :
  ∃ data, (@EncodeDdMessage json_sample gzip_store msg_sample true).2 = Ok data ∧
  @DecodeDdMessage json_sample gzip_store data = Ok (Normalize msg_sample).
Proof.
  eexists. split; [vm_compute; reflexivity|].
  eapply (@Decode_inverts_Encode json_sample gzip_store json_sample_laws gzip_store_laws
    msg_sample true); [exact I|]. vm_compute. reflexivity.
Defined.
