(* ===== verification/Registry.v ===== *)
(** The peer store (internal/registry/memory_store.go): the [Store] interface as a
    class with its laws, and [MemoryStore] as an instance. *)
From S2P Require Import Prelude GoStrings GoTime Errors Model.

Open Scope string_scope.
Open Scope list_scope.
Open Scope Z_scope.

(** * The [Store] interface *)

Class Store (S : Type) := {
  store_Get : S → string → option DdPeerInfo;
  store_Set : S → string → DdPeerInfo → S;
  store_Delete : S → string → S;
  store_List : ranger → S → list DdPeerInfo;
  store_SweepStale : ranger → S → Time → Duration → S
}.

(** What sweeping does to one peer: a peer that has been heard of, and not within
    the lease, becomes stale. *)
Definition sweep_peer (now : Time) (leaseTTL : Duration) (peer : DdPeerInfo) : DdPeerInfo :=
  if IsZero (p_LastHeartbeatAt peer) then peer
  else if decide (Sub now (p_LastHeartbeatAt peer) > leaseTTL)
       then set_peer_UpdatedAt (set_peer_Status peer PeerStatusStale) now
       else peer.

(** What the services rely on: a map of peers by id, listed once each. *)
Class StoreLaws (S : Type) `{Store S} := {
  store_get_set s k p k' :
    store_Get (store_Set s k p) k' = if decide (k = k') then Some p else store_Get s k';
  store_get_delete s k k' :
    store_Get (store_Delete s k) k' = if decide (k = k') then None else store_Get s k';
  store_elem_of_list ρ s p : p ∈ store_List ρ s ↔ ∃ k, store_Get s k = Some p;
  store_get_sweep ρ s now ttl k :
    store_Get (store_SweepStale ρ s now ttl) k = sweep_peer now ttl <$> store_Get s k;
  store_list_nodup ρ s :
    (∀ k p, store_Get s k = Some p → p_Id p = k) → NoDup (p_Id <$> store_List ρ s)
}.

(** * [MemoryStore] *)

Record MemoryStore := { peers : gmap string DdPeerInfo }.

Definition NewMemoryStore : MemoryStore := {| peers := ∅ |}.

Definition MemoryStore_Get (s : MemoryStore) (peerID : string) : option DdPeerInfo :=
  peers s !! peerID.
Definition MemoryStore_Set (s : MemoryStore) (peerID : string) (peer : DdPeerInfo)
    : MemoryStore := {| peers := <[peerID := peer]> (peers s) |}.
Definition MemoryStore_Delete (s : MemoryStore) (peerID : string) : MemoryStore :=
  {| peers := delete peerID (peers s) |}.
Definition MemoryStore_List (ρ : ranger) (s : MemoryStore) : list DdPeerInfo :=
  foldl (λ out '(_, p), out ++ [p]) [] (range ρ (peers s)).

(** The loop writes the swept peers back while it ranges over the map. *)
Definition MemoryStore_SweepStale (ρ : ranger) (s : MemoryStore) (now : Time)
    (leaseTTL : Duration) : MemoryStore :=
  {| peers :=
       foldl (λ m '(id, peer),
         if IsZero (p_LastHeartbeatAt peer) then m
         else if decide (Sub now (p_LastHeartbeatAt peer) > leaseTTL)
              then <[id := set_peer_UpdatedAt (set_peer_Status peer "stale") now]> m
              else m)
         (peers s) (range ρ (peers s)) |}.

#[export] Instance MemoryStore_store : Store MemoryStore := {|
  store_Get := MemoryStore_Get;
  store_Set := MemoryStore_Set;
  store_Delete := MemoryStore_Delete;
  store_List := MemoryStore_List;
  store_SweepStale := MemoryStore_SweepStale
|}.

Lemma foldl_append_values {A B} (l : list (A * B)) acc :
  foldl (λ out '(_, p), out ++ [p]) acc l = acc ++ l.*2.
Proof.
  revert acc. induction l as [|[a b] l IH]; intros acc; simpl; [by rewrite app_nil_r|].
  by rewrite IH, <- app_assoc.
Qed.

Lemma MemoryStore_List_values ρ s : MemoryStore_List ρ s = range_values ρ (peers s).
Proof. unfold MemoryStore_List. by rewrite foldl_append_values. Qed.

Lemma MemoryStore_SweepStale_lookup ρ s now ttl k :
  peers (MemoryStore_SweepStale ρ s now ttl) !! k = sweep_peer now ttl <$> peers s !! k.
Proof.
  unfold MemoryStore_SweepStale. simpl.
  pose (f := λ (_ : string) peer,
    if IsZero (p_LastHeartbeatAt peer) then None
    else if decide (Sub now (p_LastHeartbeatAt peer) > ttl)
         then Some (set_peer_UpdatedAt (set_peer_Status peer "stale") now) else None).
  rewrite (foldl_ext_all _
    (λ m '(k, v), match f k v with Some v' => <[k := v']> m | None => m end)).
  2:{ intros m [id peer]. unfold f. by repeat case_match. }
  rewrite foldl_insert_lookup; [|apply range_NoDup_fst|apply range_lookup].
  destruct (peers s !! k) as [p|] eqn:Hp; simpl; [|done].
  rewrite decide_True.
  - f_equal. unfold f, sweep_peer. by repeat case_match.
  - apply list_elem_of_fmap. exists (k, p). by rewrite range_lookup.
Qed.

#[export] Instance MemoryStore_laws : StoreLaws MemoryStore.
Proof.
  split; simpl.
  - intros s k p k'. unfold MemoryStore_Get. simpl. by rewrite lookup_insert.
  - intros s k k'. unfold MemoryStore_Get. simpl. by rewrite lookup_delete.
  - intros ρ s p. by rewrite MemoryStore_List_values, elem_of_range_values.
  - intros ρ s now ttl k. apply MemoryStore_SweepStale_lookup.
  - intros ρ s Hid. rewrite MemoryStore_List_values. unfold range_values.
    rewrite <- list_fmap_compose.
    rewrite (list_fmap_ext _ fst (range ρ (peers s))); [apply range_NoDup_fst|].
    intros i [k p] Hi. simpl. apply Hid, (range_lookup ρ).
    by eapply list_elem_of_lookup_2.
Qed.

(** * Properties *)

(** [SweepStale], which rewrites the map while it ranges over it, marks
    exactly the peers whose last heartbeat is older than the lease, stamps them with
    the sweep's time and touches nothing else, in every iteration order; a peer never
    heard of is left alone. *)
Theorem SweepStale_exact ρ s now ttl id :
  MemoryStore_Get (MemoryStore_SweepStale ρ s now ttl) id =
  match MemoryStore_Get s id with
  | None => None
  | Some p =>
      Some (if decide (p_LastHeartbeatAt p ≠ 0 ∧ Sub now (p_LastHeartbeatAt p) > ttl)
            then set_peer_UpdatedAt (set_peer_Status p PeerStatusStale) now else p)
  end.
Proof.
  unfold MemoryStore_Get. rewrite MemoryStore_SweepStale_lookup.
  destruct (peers s !! id) as [p|]; simpl; [|done]. unfold sweep_peer, IsZero, time_zero.
  f_equal. repeat (case_bool_decide || case_decide); tauto.
Qed.
