(* ===== verification/PeerRegistry.v ===== *)
(** The peer registry (internal/service/peer_registry_service.go): registration,
    heartbeats, resource reports and leases over the [Store] interface, and the
    merging of the resource schemas peers declare. *)
From S2P Require Import Prelude GoStrings GoTime Errors Metrics Acl Topics Mq Model.
From S2P Require Import Codec Registry.

Open Scope string_scope.
Open Scope list_scope.
Open Scope Z_scope.

Fixpoint containsString (arr : list string) (v : string) : bool :=
  match arr with
  | [] => false
  | s :: arr' => if decide (s = v) then true else containsString arr' v
  end.

Lemma containsString_elem arr v : containsString arr v = true ↔ v ∈ arr.
Proof.
  induction arr as [|s arr IH]; simpl; [by rewrite elem_of_nil|].
  rewrite elem_of_cons. case_decide; [by subst; intuition|]. rewrite IH. intuition congruence.
Qed.

(** * Constraints and schemas *)

(** [out.Enum] keeps the values of [a] that [b] has too. *)
Definition enum_inter (a b : list string) : list string :=
  foldl (λ inter v, if decide (v ∈ b) then inter ++ [v] else inter) [] a.

Definition merge_min (a b : option Z) : option Z :=
  match b with
  | None => a
  | Some vb => match a with
               | None => Some vb
               | Some va => if decide (vb > va) then Some vb else Some va
               end
  end.

Definition merge_max (a b : option Z) : option Z :=
  match b with
  | None => a
  | Some vb => match a with
               | None => Some vb
               | Some va => if decide (vb < va) then Some vb else Some va
               end
  end.

Definition mergeConstraint (a b : ResourceMetaConstraint) : ResourceMetaConstraint :=
  let omin := merge_min (c_Min a) (c_Min b) in
  let omax := merge_max (c_Max a) (c_Max b) in
  if decide (0 < length (c_Enum a) ∧ 0 < length (c_Enum b))%nat
  then {| c_Min := omin; c_Max := omax; c_Enum := enum_inter (c_Enum a) (c_Enum b) |}
  else if decide (length (c_Enum a) = 0 ∧ 0 < length (c_Enum b))%nat
  then {| c_Min := omin; c_Max := omax; c_Enum := c_Enum b |}
  else {| c_Min := omin; c_Max := omax; c_Enum := c_Enum a |}.

(** One [for _, f := range schema.X] loop: the names seen and the merged list. *)
Definition merge_names (st : gset string * list string) (names : list string)
    : gset string * list string :=
  foldl (λ '(seen, merged) f,
           if decide (f ∈ seen) then (seen, merged) else ({[f]} ∪ seen, merged ++ [f]))
    st names.

Definition merge_constraints (ρ : ranger) (merged cs : gmap string ResourceMetaConstraint)
    : gmap string ResourceMetaConstraint :=
  foldl (λ merged '(field, c),
           match merged !! field with
           | None => <[field := c]> merged
           | Some existing => <[field := mergeConstraint existing c]> merged
           end) merged (range ρ cs).

(** The state of the loop of [GetResourceMetaSchema]. *)
Record schema_acc := {
  a_Required : gset string * list string;
  a_Optional : gset string * list string;
  a_Proto : gset string * list string;
  a_Constraints : gmap string ResourceMetaConstraint;
  a_found : bool
}.

Definition schema_acc0 : schema_acc :=
  {| a_Required := (∅, []); a_Optional := (∅, []); a_Proto := (∅, []);
     a_Constraints := ∅; a_found := false |}.

Definition merge_schema (ρ : ranger) (a : schema_acc) (schema : ResourceMetaSchema)
    : schema_acc :=
  {| a_Required := merge_names (a_Required a) (s_Required schema);
     a_Optional := merge_names (a_Optional a) (s_Optional schema);
     a_Proto := merge_names (a_Proto a) (s_ProtocolMetaRequired schema);
     a_Constraints := merge_constraints ρ (a_Constraints a) (s_Constraints schema);
     a_found := true |}.

(** The schema a peer contributes for a resource: only peers that declare the
    capability are considered. *)
Definition peer_schema (p : DdPeerInfo) (resource : string) : option ResourceMetaSchema :=
  if negb (containsString (p_Capabilities p) "resource_meta_schema_v1") then None
  else p_ResourceSchemas p !! resource.

Fixpoint GetResourceMetaSchema_loop (ρ : ranger) (ps : list DdPeerInfo) (resource : string)
    (a : schema_acc) : schema_acc :=
  match ps with
  | [] => a
  | p :: ps' =>
      match peer_schema p resource with
      | None => GetResourceMetaSchema_loop ρ ps' resource a
      | Some schema => GetResourceMetaSchema_loop ρ ps' resource (merge_schema ρ a schema)
      end
  end.

(** * The service *)

Record PeerRegistryService (S : Type) := {
  pr_topics : TopicSet;
  pr_leaseTtl : Duration;
  pr_store : S;
  pr_aclService : option TopicAclService
}.
Arguments pr_topics {S} _.
Arguments pr_leaseTtl {S} _.
Arguments pr_store {S} _.
Arguments pr_aclService {S} _.

Definition set_store {S} (s : PeerRegistryService S) (st : S) : PeerRegistryService S :=
  {| pr_topics := pr_topics s; pr_leaseTtl := pr_leaseTtl s; pr_store := st;
     pr_aclService := pr_aclService s |}.

(** The service of [NewPeerRegistryService] with the default store. *)
Definition NewPeerRegistryService (topics : TopicSet) (leaseTtl : Duration)
    (acl : option TopicAclService) : PeerRegistryService MemoryStore :=
  {| pr_topics := topics; pr_leaseTtl := leaseTtl; pr_store := NewMemoryStore;
     pr_aclService := acl |}.

(** The JSON documents the service exchanges. *)
Class RegistryCodecs := {
  #[global] codec_register :: JsonCodec DdPeerRegisterEvent;
  #[global] codec_heartbeat :: JsonCodec DdPeerHeartbeatEvent;
  #[global] codec_report :: JsonCodec DdPeerResourceReportEvent;
  #[global] codec_query :: JsonCodec DdPeerQueryRequest;
  #[global] codec_query_response :: JsonCodec DdPeerQueryResponse
}.

Section registry.
Context {S C : Type} `{StoreLaws S} `{MqClient C} `{RegistryCodecs}.

Implicit Types (s : PeerRegistryService S) (w : World C).

Definition Registry_Start w s : World C * option error :=
  let '(c, err) := Subscribe_all (w_mq w)
    [(t_PeerRegister (pr_topics s), hRegister);
     (t_PeerHeartbeat (pr_topics s), hHeartbeat);
     (t_PeerQuery (pr_topics s), hQuery);
     (t_PeerResourceReport (pr_topics s), hResourceReport);
     (t_PeerUnregister (pr_topics s), hUnregister)] in
  (set_mq w c, err).

(** The two counters of the metrics: active and stale peers. *)
Definition count_status (ps : list DdPeerInfo) : Z * Z :=
  foldl (λ '(active, stale) p,
    if decide (p_Status p = PeerStatusActive ∨ p_Status p = PeerStatusRegistering)
    then (active + 1, stale)
    else if decide (p_Status p = PeerStatusStale) then (active, stale + 1)
    else (active, stale)) (0, 0) ps.

Definition syncPeerMetrics (ρ : ranger) w s : World C :=
  let '(active, stale) := count_status (store_List ρ (pr_store s)) in
  observe (observe w (SetGauge PeerActiveCount active)) (SetGauge PeerStaleCount stale).

Definition handleRegister (ρ : ranger) (now : Time) w s (payload : bytes)
    : World C * PeerRegistryService S :=
  match json_Unmarshal (A := DdPeerRegisterEvent) payload with
  | Fail _ => (w, s)
  | Ok evt =>
      let peer := re_Peer evt in
      let peer := set_peer_Status peer PeerStatusRegistering in
      let peer := set_peer_LastHeartbeatAt peer now in
      let peer := if IsZero (p_CreatedAt peer) then set_peer_CreatedAt peer now else peer in
      let peer := set_peer_UpdatedAt peer now in
      let s := set_store s (store_Set (pr_store s) (p_Id peer) peer) in
      (syncPeerMetrics ρ w s, s)
  end.

(** The peer that a heartbeat writes, from the one it has read.  [now1] is read when the
    event carries no timestamp, [now2] for [UpdatedAt]. *)
Definition heartbeat_peer (now1 now2 : Time) (evt : DdPeerHeartbeatEvent) (peer : DdPeerInfo)
    : DdPeerInfo :=
  let peer := set_peer_LastHeartbeatAt peer (hb_Timestamp evt) in
  let peer := if IsZero (p_LastHeartbeatAt peer)
              then set_peer_LastHeartbeatAt peer now1 else peer in
  let peer := set_peer_Status peer PeerStatusActive in
  set_peer_UpdatedAt peer now2.

(** The store is locked for the reading and for the writing, not in between: a handler
    is cut there into what it has read and what it writes. *)
Inductive registry_update :=
| UpdateHeartbeat (evt : DdPeerHeartbeatEvent) (peer : DdPeerInfo)
| UpdateReport (evt : DdPeerResourceReportEvent) (peer : DdPeerInfo).

Definition handleHeartbeat_read s (payload : bytes) : option registry_update :=
  match json_Unmarshal (A := DdPeerHeartbeatEvent) payload with
  | Fail _ => None
  | Ok evt =>
      match store_Get (pr_store s) (hb_PeerId evt) with
      | None => None
      | Some peer => Some (UpdateHeartbeat evt peer)
      end
  end.

(** The names of one list of a resource report. *)
Definition report_names (entries : list (gmap string string)) : list string :=
  omap (λ e, match e !! "name" with
             | Some n => if decide (n ≠ "") then Some n else None
             | None => None
             end) entries.

(** The peer that a report writes. *)
Definition report_peer (now : Time) (evt : DdPeerResourceReportEvent) (peer : DdPeerInfo)
    : DdPeerInfo :=
  let resources := report_names (rr_Apis evt) ++ report_names (rr_Topics evt)
                   ++ report_names (rr_Streams evt) in
  let peer := set_peer_Resources peer resources in
  let peer := if decide (0 < size (rr_ResourceSchemas evt))%nat
              then set_peer_ResourceSchemas peer (rr_ResourceSchemas evt) else peer in
  set_peer_UpdatedAt peer now.

Definition handleResourceReport_read s (payload : bytes) : option registry_update :=
  match json_Unmarshal (A := DdPeerResourceReportEvent) payload with
  | Fail _ => None
  | Ok evt =>
      match store_Get (pr_store s) (rr_PeerId evt) with
      | None => None
      | Some peer => Some (UpdateReport evt peer)
      end
  end.

(** The second half of either handler. *)
Definition registry_write (now1 now2 : Time) s (u : registry_update) : PeerRegistryService S :=
  match u with
  | UpdateHeartbeat evt peer =>
      set_store s (store_Set (pr_store s) (hb_PeerId evt) (heartbeat_peer now1 now2 evt peer))
  | UpdateReport evt peer =>
      set_store s (store_Set (pr_store s) (rr_PeerId evt) (report_peer now2 evt peer))
  end.

(** The handlers when nothing comes between their halves. *)
Definition handleHeartbeat (now1 now2 : Time) s (payload : bytes) : PeerRegistryService S :=
  match handleHeartbeat_read s payload with
  | Some u => registry_write now1 now2 s u
  | None => s
  end.

Definition handleResourceReport (now : Time) s (payload : bytes) : PeerRegistryService S :=
  match handleResourceReport_read s payload with
  | Some u => registry_write now now s u
  | None => s
  end.

(** The loop of [GetPeers]. *)
Fixpoint GetPeers_loop (ps : list DdPeerInfo) (now : Time) (leaseTtl : Duration)
    (resource : string) (out : list DdPeerInfo) : list DdPeerInfo :=
  match ps with
  | [] => out
  | peer :: ps' =>
      if decide (p_Status peer = PeerStatusOffline ∨ p_Status peer = PeerStatusStale)
      then GetPeers_loop ps' now leaseTtl resource out
      else if negb (IsZero (p_LastHeartbeatAt peer)) &&
              bool_decide (Sub now (p_LastHeartbeatAt peer) > leaseTtl)
      then GetPeers_loop ps' now leaseTtl resource out
      else if negb (bool_decide (resource = "")) &&
              negb (containsString (p_Resources peer) resource)
      then GetPeers_loop ps' now leaseTtl resource out
      else GetPeers_loop ps' now leaseTtl resource (out ++ [peer])
  end.

Definition GetPeers (ρ : ranger) (now : Time) s (resource : string) : list DdPeerInfo :=
  GetPeers_loop (store_List ρ (pr_store s)) now (pr_leaseTtl s) resource [].

Definition handleQuery (ρ : ranger) (now : Time) w s (payload : bytes) : World C :=
  match json_Unmarshal (A := DdPeerQueryRequest) payload with
  | Fail _ => w
  | Ok req =>
      let resp := {| qr_RequestId := q_RequestId req;
                     qr_Peers := GetPeers ρ now s (q_Resource req) |} in
      match json_Marshal resp with
      | Fail _ => w
      | Ok data =>
          let replyTopic := q_ReplyTo req in
          if decide (replyTopic = "") then w
          else set_mq w (mq_Publish (w_mq w) replyTopic data).1
      end
  end.

Definition handleUnregister s (payload : bytes) : PeerRegistryService S :=
  match json_Unmarshal (A := DdPeerHeartbeatEvent) payload with
  | Fail _ => s
  | Ok evt => set_store s (store_Delete (pr_store s) (hb_PeerId evt))
  end.

Definition SweepStale (ρ : ranger) (now : Time) s : PeerRegistryService S :=
  set_store s (store_SweepStale ρ (pr_store s) now (pr_leaseTtl s)).

(** Publishes a marshalled event, or returns the marshalling error. *)
Definition publish_event {A} `{JsonCodec A} w (topic : string) (evt : A)
    : World C * option error :=
  match json_Marshal evt with
  | Fail err => (w, Some err)
  | Ok data => let '(c, err) := mq_Publish (w_mq w) topic data in (set_mq w c, err)
  end.

Definition RegisterPeer (now : Time) w s (peer : DdPeerInfo)
    : World C * PeerRegistryService S * option error :=
  let peer := if IsZero (p_CreatedAt peer) then set_peer_CreatedAt peer now else peer in
  let peer := set_peer_Status peer PeerStatusRegistering in
  let peer := set_peer_LastHeartbeatAt peer now in
  let peer := set_peer_UpdatedAt peer now in
  let s := set_store s (store_Set (pr_store s) (p_Id peer) peer) in
  let '(w, err) := publish_event w (t_PeerRegister (pr_topics s)) {| re_Peer := peer |} in
  (w, s, err).

Definition HeartbeatPeer (now : Time) w s (peerId : string) : World C * option error :=
  publish_event w (t_PeerHeartbeat (pr_topics s))
    {| hb_PeerId := peerId; hb_Timestamp := now |}.

Definition UnregisterPeer (now : Time) w s (peerId : string)
    : World C * PeerRegistryService S * option error :=
  let s := set_store s (store_Delete (pr_store s) peerId) in
  let '(w, err) := publish_event w (t_PeerUnregister (pr_topics s))
                     {| hb_PeerId := peerId; hb_Timestamp := now |} in
  (w, s, err).

(** [stamp] is the formatted clock of the request id. *)
Definition QueryPeers (stamp : string) w s (resource replyTo : string)
    : World C * option error :=
  publish_event w (t_PeerQuery (pr_topics s))
    {| q_RequestId := "q-" +:+ stamp; q_ReplyTo := replyTo; q_Resource := resource |}.

Definition GetResourceMetaSchema (ρ : ranger) (now : Time) s (resource : string)
    : ResourceMetaSchema * bool :=
  let a := GetResourceMetaSchema_loop ρ (GetPeers ρ now s resource) resource schema_acc0 in
  if negb (a_found a) then (zero_schema, false)
  else ({| s_Required := (a_Required a).2;
           s_Optional := (a_Optional a).2;
           s_Constraints := a_Constraints a;
           s_ProtocolMetaRequired := (a_Proto a).2 |}, true).

End registry.
