(* ===== verification/PeerRegistryProps.v ===== *)
(** Correctness of the peer registry: the invariant of every reachable store, what
    [GetPeers] lists, leases, and the merging of resource schemas. *)
From S2P Require Import Prelude GoStrings GoTime Errors Metrics Acl Topics Mq Model.
From S2P Require Import Codec Registry PeerRegistry.
From stdpp Require Import relations.

Open Scope string_scope.
Open Scope list_scope.
Open Scope Z_scope.

(** * Constraints *)

(** A number within the bounds of a constraint. *)
Definition in_bounds (c : ResourceMetaConstraint) (v : Z) : Prop :=
  (∀ m, c_Min c = Some m → m ≤ v) ∧ (∀ m, c_Max c = Some m → v ≤ m).

(** A text its enumeration admits; an empty enumeration admits every text. *)
Definition enum_admits (c : ResourceMetaConstraint) (v : string) : Prop :=
  c_Enum c = [] ∨ v ∈ c_Enum c.

Lemma merge_min_spec a b v :
  (∀ m, merge_min a b = Some m → m ≤ v) ↔
  (∀ m, a = Some m → m ≤ v) ∧ (∀ m, b = Some m → m ≤ v).
Proof.
  unfold merge_min. destruct a as [va|], b as [vb|]; try case_decide;
    (split; [intros Hm; split; intros m E|intros [Ha Hb] m E]; simplify_eq;
     try specialize (Hm _ eq_refl); try specialize (Ha _ eq_refl);
     try specialize (Hb _ eq_refl); lia).
Qed.

Lemma merge_max_spec a b v :
  (∀ m, merge_max a b = Some m → v ≤ m) ↔
  (∀ m, a = Some m → v ≤ m) ∧ (∀ m, b = Some m → v ≤ m).
Proof.
  unfold merge_max. destruct a as [va|], b as [vb|]; try case_decide;
    (split; [intros Hm; split; intros m E|intros [Ha Hb] m E]; simplify_eq;
     try specialize (Hm _ eq_refl); try specialize (Ha _ eq_refl);
     try specialize (Hb _ eq_refl); lia).
Qed.

Lemma mergeConstraint_min a b :
  c_Min (mergeConstraint a b) = merge_min (c_Min a) (c_Min b).
Proof. unfold mergeConstraint. by repeat case_decide. Qed.
Lemma mergeConstraint_max a b :
  c_Max (mergeConstraint a b) = merge_max (c_Max a) (c_Max b).
Proof. unfold mergeConstraint. by repeat case_decide. Qed.

Lemma mergeConstraint_bounds a b v :
  in_bounds (mergeConstraint a b) v ↔ in_bounds a v ∧ in_bounds b v.
Proof.
  unfold in_bounds. rewrite mergeConstraint_min, mergeConstraint_max,
    merge_min_spec, merge_max_spec. tauto.
Qed.

Lemma enum_inter_aux (a b acc : list string) v :
  v ∈ foldl (λ inter v, if decide (v ∈ b) then inter ++ [v] else inter) acc a ↔
  v ∈ acc ∨ (v ∈ a ∧ v ∈ b).
Proof.
  revert acc. induction a as [|x a IH]; intros acc; simpl.
  - rewrite elem_of_nil. tauto.
  - rewrite IH, elem_of_cons. case_decide.
    + rewrite elem_of_app, list_elem_of_singleton. split; [|naive_solver].
      intros [[?| ->]|[??]]; auto.
    + split; [tauto|]. intros [?|[[->|?]?]]; auto. done.
Qed.

Lemma elem_of_enum_inter (a b : list string) v : v ∈ enum_inter a b ↔ v ∈ a ∧ v ∈ b.
Proof. unfold enum_inter. rewrite enum_inter_aux, elem_of_nil. tauto. Qed.

Lemma mergeConstraint_enum a b :
  c_Enum (mergeConstraint a b) =
  match c_Enum a, c_Enum b with
  | [], _ => c_Enum b
  | _, [] => c_Enum a
  | _, _ => enum_inter (c_Enum a) (c_Enum b)
  end.
Proof.
  unfold mergeConstraint. destruct (c_Enum a) eqn:Ea, (c_Enum b) eqn:Eb; simpl;
    repeat case_decide; simpl; rewrite ?Ea, ?Eb; try done; naive_solver lia.
Qed.

(** * Merging lists of names *)

Lemma merge_names_spec st names :
  (∀ f, f ∈ st.1 ↔ f ∈ st.2) → NoDup st.2 →
  let st' := merge_names st names in
  (∀ f, f ∈ st'.1 ↔ f ∈ st'.2) ∧ NoDup st'.2 ∧
  (∀ f, f ∈ st'.2 ↔ f ∈ st.2 ∨ f ∈ names).
Proof.
  revert st. induction names as [|x names IH]; intros [seen merged] Hs Hnd; simpl in *.
  - split_and!; [done..|]. intros f. rewrite elem_of_nil. tauto.
  - unfold merge_names in *. simpl. case_decide as Hx.
    + destruct (IH (seen, merged)) as (H1 & H2 & H3); [done..|].
      split_and!; [done..|]. intros f. rewrite H3, elem_of_cons. simpl.
      split; [tauto|]. intros [?|[->|?]]; auto. left. by apply Hs.
    + destruct (IH ({[x]} ∪ seen, merged ++ [x])) as (H1 & H2 & H3); simpl.
      * intros f. specialize (Hs f). set_solver.
      * apply NoDup_app. split_and!; [done| |apply NoDup_singleton].
        intros y Hy. rewrite list_elem_of_singleton. intros ->. by apply Hx, Hs.
      * split_and!; [done..|]. intros f. rewrite H3. set_solver.
Qed.

(** * Merging schemas *)

Lemma merge_constraints_lookup ρ merged cs field :
  merge_constraints ρ merged cs !! field =
  match merged !! field, cs !! field with
  | Some e, Some c => Some (mergeConstraint e c)
  | Some e, None => Some e
  | None, o => o
  end.
Proof.
  unfold merge_constraints.
  assert (∀ l : list (string * ResourceMetaConstraint), NoDup l.*1 →
    ∀ merged : gmap string ResourceMetaConstraint, foldl (λ merged '(field, c),
           match merged !! field with
           | None => <[field := c]> merged
           | Some existing => <[field := mergeConstraint existing c]> merged
           end) merged l !! field =
    match merged !! field, (list_to_map l : gmap string _) !! field with
    | Some e, Some c => Some (mergeConstraint e c)
    | Some e, None => Some e
    | None, o => o
    end) as Hl.
  { clear merged. induction l as [|[k c] l IH]; intros Hnd merged; simpl.
    - rewrite lookup_empty. by destruct (merged !! field).
    - simpl in Hnd. apply NoDup_cons in Hnd as [Hk Hnd]. rewrite IH by done.
      destruct (decide (k = field)) as [->|Hne].
      + rewrite (not_elem_of_list_to_map_1 (M := gmap string) l field) by done.
        rewrite lookup_insert_eq.
        destruct (merged !! field); by rewrite lookup_insert_eq.
      + rewrite (lookup_insert_ne _ k field) by done.
        destruct (merged !! k); by rewrite lookup_insert_ne. }
  rewrite Hl by apply range_NoDup_fst.
  assert ((list_to_map (range ρ cs) : gmap string _) = cs) as ->; [|done].
  rewrite (list_to_map_proper (range ρ cs) (map_to_list cs));
    [apply list_to_map_to_list|apply range_NoDup_fst|apply range_perm].
Qed.

Lemma forall_Some_eq {A} (P : A → Prop) x : (∀ y, Some x = Some y → P y) ↔ P x.
Proof. split; [auto|]. by intros Hx y [= <-]. Qed.
Lemma forall_None_eq {A} (P : A → Prop) : (∀ y, None = Some y → P y) ↔ True.
Proof. done. Qed.

(** The schemas merged so far. *)
Record acc_ok (contribs : list ResourceMetaSchema) (a : schema_acc) : Prop := {
  ok_req_seen f : f ∈ (a_Required a).1 ↔ f ∈ (a_Required a).2;
  ok_req_nodup : NoDup (a_Required a).2;
  ok_req f : f ∈ (a_Required a).2 ↔ Exists (λ c, f ∈ s_Required c) contribs;
  ok_opt_seen f : f ∈ (a_Optional a).1 ↔ f ∈ (a_Optional a).2;
  ok_opt_nodup : NoDup (a_Optional a).2;
  ok_opt f : f ∈ (a_Optional a).2 ↔ Exists (λ c, f ∈ s_Optional c) contribs;
  ok_proto_seen f : f ∈ (a_Proto a).1 ↔ f ∈ (a_Proto a).2;
  ok_proto_nodup : NoDup (a_Proto a).2;
  ok_proto f : f ∈ (a_Proto a).2 ↔ Exists (λ c, f ∈ s_ProtocolMetaRequired c) contribs;
  ok_bounds field v :
    (∀ c, a_Constraints a !! field = Some c → in_bounds c v) ↔
    Forall (λ sc, ∀ c, s_Constraints sc !! field = Some c → in_bounds c v) contribs;
  ok_found : a_found a = true ↔ contribs ≠ []
}.

Lemma acc_ok_init : acc_ok [] schema_acc0.
Proof.
  split; simpl; try setoid_rewrite Exists_nil; try setoid_rewrite elem_of_nil;
    try setoid_rewrite elem_of_empty; try done; try constructor; try done.
Qed.

Lemma acc_ok_step ρ contribs a schema :
  acc_ok contribs a → acc_ok (contribs ++ [schema]) (merge_schema ρ a schema).
Proof.
  intros [Rs Rn R Os On O Ps Pn P B F].
  destruct (merge_names_spec (a_Required a) (s_Required schema)) as (?&?&HR); [done..|].
  destruct (merge_names_spec (a_Optional a) (s_Optional schema)) as (?&?&HO); [done..|].
  destruct (merge_names_spec (a_Proto a) (s_ProtocolMetaRequired schema)) as (?&?&HP);
    [done..|].
  split; simpl; try done.
  - intros f. rewrite HR, R, Exists_app, Exists_cons, Exists_nil. tauto.
  - intros f. rewrite HO, O, Exists_app, Exists_cons, Exists_nil. tauto.
  - intros f. rewrite HP, P, Exists_app, Exists_cons, Exists_nil. tauto.
  - intros field v. rewrite Forall_app, Forall_singleton, <- B.
    rewrite merge_constraints_lookup.
    destruct (a_Constraints a !! field) as [e|], (s_Constraints schema !! field) as [c|];
      rewrite ?forall_Some_eq, ?forall_None_eq, ?mergeConstraint_bounds; tauto.
  - split; [|done]. intros _. by destruct contribs.
Qed.

Lemma GetResourceMetaSchema_loop_ok ρ ps resource contribs a :
  acc_ok contribs a →
  acc_ok (contribs ++ omap (λ p, peer_schema p resource) ps)
    (GetResourceMetaSchema_loop ρ ps resource a).
Proof.
  revert contribs a. induction ps as [|p ps IH]; intros contribs a Ha; simpl.
  - by rewrite app_nil_r.
  - destruct (peer_schema p resource) as [sc|]; simpl; [|by apply IH].
    rewrite cons_middle, app_assoc. by apply IH, acc_ok_step.
Qed.

(** * Listing *)

(** A peer that [GetPeers] lists: not known to be gone, heard of within its lease,
    and offering the resource asked for, if one is. *)
Definition listed (now : Time) (ttl : Duration) (resource : string) (p : DdPeerInfo) : Prop :=
  p_Status p ≠ PeerStatusOffline ∧ p_Status p ≠ PeerStatusStale ∧
  (p_LastHeartbeatAt p = 0 ∨ Sub now (p_LastHeartbeatAt p) ≤ ttl) ∧
  (resource = "" ∨ resource ∈ p_Resources p).

#[export] Instance listed_dec now ttl resource p : Decision (listed now ttl resource p).
Proof. unfold listed. apply _. Defined.

Lemma GetPeers_loop_filter ps now ttl resource out :
  GetPeers_loop ps now ttl resource out = out ++ filter (listed now ttl resource) ps.
Proof.
  revert out. induction ps as [|p ps IH]; intros out; simpl; [by rewrite app_nil_r|].
  rewrite filter_cons. unfold listed at 1, IsZero, time_zero.
  pose proof (containsString_elem (p_Resources p) resource) as Hc.
  destruct (containsString (p_Resources p) resource), (decide (resource = ""));
    repeat (case_bool_decide || case_decide); simpl; rewrite ?IH, <- ?app_assoc; simpl;
    (done || (exfalso; intuition (done || lia))).
Qed.

Lemma Before_Sub now now' t : now' ≤ now → Sub now' t ≤ Sub now t.
Proof. unfold Sub, int64_min, int64_max. lia. Qed.

Section registry_props.
Context {S C : Type} `{StoreLaws S} `{MqClient C} `{RegistryCodecs}.
Implicit Types (s : PeerRegistryService S) (w : World C).

Lemma GetPeers_filter ρ now s resource :
  GetPeers ρ now s resource =
  filter (listed now (pr_leaseTtl s) resource) (store_List ρ (pr_store s)).
Proof. unfold GetPeers. by rewrite GetPeers_loop_filter. Qed.

Lemma elem_of_GetPeers ρ now s resource p :
  p ∈ GetPeers ρ now s resource ↔
  (∃ id, store_Get (pr_store s) id = Some p) ∧ listed now (pr_leaseTtl s) resource p.
Proof. rewrite GetPeers_filter, list_elem_of_filter, store_elem_of_list. tauto. Qed.

(** * The steps of a running registry

    A step is one handler or one service call, at an instant of a clock that has
    started. *)
Inductive registry_step : PeerRegistryService S → PeerRegistryService S → Prop :=
| step_handleRegister ρ now w s payload :
    now ≠ 0 → registry_step s (handleRegister ρ now w s payload).2
| step_handleHeartbeat now1 now2 s payload :
    now1 ≠ 0 → registry_step s (handleHeartbeat now1 now2 s payload)
| step_handleResourceReport now s payload :
    registry_step s (handleResourceReport now s payload)
| step_handleUnregister s payload :
    registry_step s (handleUnregister s payload)
| step_RegisterPeer now w s peer :
    now ≠ 0 → registry_step s (RegisterPeer now w s peer).1.2
| step_UnregisterPeer now w s id :
    registry_step s (UnregisterPeer now w s id).1.2
| step_SweepStale ρ now s :
    registry_step s (SweepStale ρ now s).

(** The two handlers without their halves. *)
Lemma handleHeartbeat_eq now1 now2 s payload :
  handleHeartbeat now1 now2 s payload =
  match json_Unmarshal (A := DdPeerHeartbeatEvent) payload with
  | Fail _ => s
  | Ok evt =>
      match store_Get (pr_store s) (hb_PeerId evt) with
      | None => s
      | Some peer => set_store s (store_Set (pr_store s) (hb_PeerId evt)
                                    (heartbeat_peer now1 now2 evt peer))
      end
  end.
Proof.
  unfold handleHeartbeat, handleHeartbeat_read.
  destruct (json_Unmarshal payload) as [evt|]; [|done].
  by destruct (store_Get (pr_store s) (hb_PeerId evt)).
Qed.

Lemma handleResourceReport_eq now s payload :
  handleResourceReport now s payload =
  match json_Unmarshal (A := DdPeerResourceReportEvent) payload with
  | Fail _ => s
  | Ok evt =>
      match store_Get (pr_store s) (rr_PeerId evt) with
      | None => s
      | Some peer => set_store s (store_Set (pr_store s) (rr_PeerId evt)
                                    (report_peer now evt peer))
      end
  end.
Proof.
  unfold handleResourceReport, handleResourceReport_read.
  destruct (json_Unmarshal payload) as [evt|]; [|done].
  by destruct (store_Get (pr_store s) (rr_PeerId evt)).
Qed.

(** What is true of every peer a registry keeps under an id. *)
Record peer_ok (id : string) (p : DdPeerInfo) : Prop := {
  ok_id : p_Id p = id;
  ok_status : p_Status p ∈ [PeerStatusRegistering; PeerStatusActive; PeerStatusStale];
  ok_heard : p_LastHeartbeatAt p ≠ 0;
  ok_created : p_CreatedAt p ≠ 0
}.

Definition registry_ok s : Prop :=
  ∀ id p, store_Get (pr_store s) id = Some p → peer_ok id p.

Lemma registry_ok_set s id p :
  registry_ok s → peer_ok id p → registry_ok (set_store s (store_Set (pr_store s) id p)).
Proof.
  intros Hs Hp id' p'. simpl. rewrite store_get_set. case_decide; [|apply Hs].
  intros [= <-]. by subst.
Qed.

Lemma registry_ok_delete s id :
  registry_ok s → registry_ok (set_store s (store_Delete (pr_store s) id)).
Proof.
  intros Hs id' p'. simpl. rewrite store_get_delete. case_decide; [done|apply Hs].
Qed.

Lemma registered_ok now peer : now ≠ 0 →
  peer_ok (p_Id peer) (set_peer_UpdatedAt (set_peer_LastHeartbeatAt (set_peer_Status
    (if IsZero (p_CreatedAt peer) then set_peer_CreatedAt peer now else peer)
    PeerStatusRegistering) now) now).
Proof.
  intros Hn. unfold IsZero, time_zero.
  split; case_bool_decide; simpl; try done; left.
Qed.

(** A handler between its halves holds a peer that was in the store. *)
Definition update_ok (u : registry_update) : Prop :=
  match u with
  | UpdateHeartbeat evt p => peer_ok (hb_PeerId evt) p
  | UpdateReport evt p => peer_ok (rr_PeerId evt) p
  end.

Lemma heartbeat_read_ok s payload u :
  registry_ok s → handleHeartbeat_read s payload = Some u → update_ok u.
Proof.
  unfold handleHeartbeat_read. intros Hs. destruct (json_Unmarshal payload) as [evt|]; [|done].
  destruct (store_Get _ _) as [p|] eqn:Hp; [|done]. intros [= <-]. by apply Hs.
Qed.

Lemma report_read_ok s payload u :
  registry_ok s → handleResourceReport_read s payload = Some u → update_ok u.
Proof.
  unfold handleResourceReport_read. intros Hs.
  destruct (json_Unmarshal payload) as [evt|]; [|done].
  destruct (store_Get _ _) as [p|] eqn:Hp; [|done]. intros [= <-]. by apply Hs.
Qed.

Lemma registry_write_ok now1 now2 s u :
  now1 ≠ 0 → registry_ok s → update_ok u → registry_ok (registry_write now1 now2 s u).
Proof.
  intros Hn Hs Hu. destruct u as [evt p|evt p]; (apply registry_ok_set; [done|]).
  - destruct Hu as [Hid _ _ Hc]. unfold heartbeat_peer, IsZero, time_zero.
    cbv zeta. case_bool_decide; split; simpl in *; try done; right; left.
  - destruct Hu. unfold report_peer. split; by case_decide.
Qed.

Lemma registry_step_ok s s' : registry_step s s' → registry_ok s → registry_ok s'.
Proof.
  intros Hstep Hs. destruct Hstep as
    [ρ now w s payload Hn|now1 now2 s payload Hn|now s payload|s payload
    |now w s peer Hn|now w s id|ρ now s].
  - unfold handleRegister. destruct (json_Unmarshal payload) as [[peer]|]; [|done].
    apply registry_ok_set; [done|]. simpl. pose proof (registered_ok now peer Hn) as Hr.
    revert Hr. unfold IsZero, time_zero. simpl.
    case_bool_decide; intros []; split; done.
  - unfold handleHeartbeat. destruct (handleHeartbeat_read s payload) as [u|] eqn:Eu; [|done].
    apply registry_write_ok; [done..|]. by eapply heartbeat_read_ok.
  - rewrite handleResourceReport_eq. destruct (json_Unmarshal payload) as [evt|]; [|done].
    destruct (store_Get (pr_store s) (rr_PeerId evt)) as [p|] eqn:Hp; [|done].
    apply (registry_write_ok 1 now s (UpdateReport evt p)); [done..|]. by apply Hs.
  - unfold handleUnregister. destruct (json_Unmarshal payload); [|done].
    by apply registry_ok_delete.
  - unfold RegisterPeer. destruct (publish_event _ _ _) as [w' err]. simpl.
    apply registry_ok_set; [done|].
    pose proof (registered_ok now peer Hn) as Hr.
    revert Hr. by case_match.
  - unfold UnregisterPeer. destruct (publish_event _ _ _) as [w' err]. simpl.
    by apply registry_ok_delete.
  - intros id p. simpl. rewrite store_get_sweep.
    destruct (store_Get (pr_store s) id) as [p0|] eqn:Hp; simpl; [|done].
    intros [= <-]. apply Hs in Hp as []. unfold sweep_peer.
    repeat case_match; split; simpl; try done. right; right; left.
Qed.

Lemma registry_reachable_ok s s' :
  rtc registry_step s s' → registry_ok s → registry_ok s'.
Proof. induction 1; eauto using registry_step_ok. Qed.

(** * Handlers that overlap

    The registry with the handlers that have read a peer and not written it yet, which
    anything else can come between. *)
Record registry_state := {
  rs_registry : PeerRegistryService S;
  rs_updates : list registry_update
}.

Inductive registry_fine_step : registry_state → registry_state → Prop :=
| fine_step s s' us :
    registry_step s s' →
    registry_fine_step {| rs_registry := s; rs_updates := us |}
                       {| rs_registry := s'; rs_updates := us |}
| fine_read s payload u us :
    handleHeartbeat_read s payload = Some u ∨ handleResourceReport_read s payload = Some u →
    registry_fine_step {| rs_registry := s; rs_updates := us |}
                       {| rs_registry := s; rs_updates := us ++ [u] |}
| fine_write now1 now2 s us1 u us2 :
    now1 ≠ 0 →
    registry_fine_step {| rs_registry := s; rs_updates := us1 ++ u :: us2 |}
                       {| rs_registry := registry_write now1 now2 s u;
                          rs_updates := us1 ++ us2 |}.

Definition registry_state_ok (σ : registry_state) : Prop :=
  registry_ok (rs_registry σ) ∧ Forall update_ok (rs_updates σ).

Lemma registry_fine_step_ok σ σ' :
  registry_fine_step σ σ' → registry_state_ok σ → registry_state_ok σ'.
Proof.
  intros [s s' us Hst|s payload u us Hu|now1 now2 s us1 u us2 Hn] [Hs Hus];
    split; cbn [rs_registry rs_updates] in *; try done.
  - by eapply registry_step_ok.
  - apply Forall_app. split; [done|]. apply Forall_singleton.
    destruct Hu; [by eapply heartbeat_read_ok|by eapply report_read_ok].
  - apply Forall_app in Hus as [_ [Hu _]%Forall_cons]. by apply registry_write_ok.
  - apply Forall_app in Hus as [? [_ ?]%Forall_cons]. by apply Forall_app.
Qed.

Lemma registry_fine_reachable_ok σ σ' :
  rtc registry_fine_step σ σ' → registry_state_ok σ → registry_state_ok σ'.
Proof. induction 1; eauto using registry_fine_step_ok. Qed.

End registry_props.

(** * A concrete registry *)

(** A peer, and the documents of its registration and of its heartbeat. *)
Definition peer_sample : DdPeerInfo :=
  set_peer_Resources (set_peer_CreatedAt
    {| p_Id := "edge-1"; p_Name := "edge"; p_Role := "edge"; p_Key := ""; p_Secret := "";
       p_Status := PeerStatusRegistering; p_Resources := []; p_Capabilities := [];
       p_ResourceSchemas := ∅; p_Tags := ∅; p_LastHeartbeatAt := 7; p_CreatedAt := 0;
       p_UpdatedAt := 7 |} 7) ["temp"].

Definition register_table : list (DdPeerRegisterEvent * string) :=
  [({| re_Peer := peer_sample |}, json_text "{'peer':{'id':'edge-1'}}")].

Definition heartbeat_table : list (DdPeerHeartbeatEvent * string) :=
  [({| hb_PeerId := "edge-1"; hb_Timestamp := 9 |},
    json_text "{'peer_id':'edge-1','timestamp':9}")].

#[local] Instance sample_codecs : RegistryCodecs := {|
  codec_register := table_codec register_table;
  codec_heartbeat := table_codec heartbeat_table;
  codec_report := table_codec [];
  codec_query := table_codec [];
  codec_query_response := table_codec []
|}.

#[local] Instance register_laws : JsonLaws DdPeerRegisterEvent.
Proof. apply table_codec_laws; by_compute. Qed.

#[local] Instance mock_std : MqClient MockClient := MockClient_client ranger_std.

Definition world0 : World MockClient := {| w_mq := NewMockClient; w_metrics := [] |}.

Definition registry0 : PeerRegistryService MemoryStore :=
  NewPeerRegistryService (NewDefaultTopicSet "default") (30 * Second) None.

Definition registered0 : World MockClient * PeerRegistryService MemoryStore * option error :=
  RegisterPeer 7 world0 registry0 peer_sample.

(** * Properties *)

Section registry_claims.
Context {S C : Type} `{StoreLaws S} `{MqClient C} `{RegistryCodecs}.
Implicit Types (s : PeerRegistryService S) (w : World C).

(** C17: in every state that registrations, heartbeats, reports, removals and sweeps lead
    to from an empty store, also when handlers overlap between their reading and their
    writing of a peer, each peer is kept under its own id with a live or stale status,
    a heartbeat and a creation time; and a query lists exactly the stored peers that are
    registering or active, heard of within the lease, and offer the resource, each once. *)
Theorem registry_reachable s0 s us ρ now resource :
  (∀ id, store_Get (pr_store s0) id = None) →
  rtc registry_fine_step {| rs_registry := s0; rs_updates := [] |}
    {| rs_registry := s; rs_updates := us |} →
  registry_ok s ∧
  NoDup (p_Id <$> GetPeers ρ now s resource) ∧
  (∀ p, p ∈ GetPeers ρ now s resource ↔
     store_Get (pr_store s) (p_Id p) = Some p ∧
     (p_Status p = PeerStatusRegistering ∨ p_Status p = PeerStatusActive) ∧
     Sub now (p_LastHeartbeatAt p) ≤ pr_leaseTtl s ∧
     (resource = "" ∨ resource ∈ p_Resources p)).
Proof.
  intros Hempty Hsteps.
  assert (registry_ok s) as Hok.
  { apply registry_fine_reachable_ok in Hsteps as [? _]; [done|].
    split; [|by apply Forall_nil_2]. intros id p Hp. cbn in Hp. by rewrite Hempty in Hp. }
  split_and!; [done| |].
  - rewrite GetPeers_filter.
    eapply sublist_NoDup; [|apply fmap_sublist, sublist_filter].
    apply store_list_nodup. intros id p Hp. by apply Hok in Hp as [].
  - intros p. rewrite elem_of_GetPeers. unfold listed. split.
    + intros [[id Hid] (_ & Hns & Hl & Hr)]. pose proof (Hok _ _ Hid) as [Hi Hst Hh _].
      rewrite !elem_of_cons, elem_of_nil in Hst. rewrite Hi. split_and!; [done|tauto| |done].
      by destruct Hl.
    + intros (Hid & Hst & Hl & Hr). split; [by eauto|]. split_and!; [| |by right|done];
        by destruct Hst as [-> | ->].
Qed.

(** A removal can be lost: while a heartbeat is between its reading and its writing, the
    peer can be unregistered; the heartbeat then puts it back, active. *)
Theorem heartbeat_undoes_unregister s payload evt p now1 now2 now w :
  json_Unmarshal payload = Ok evt → store_Get (pr_store s) (hb_PeerId evt) = Some p →
  now1 ≠ 0 →
  let σ s us := {| rs_registry := s; rs_updates := us |} in
  let s' := (UnregisterPeer now w s (hb_PeerId evt)).1.2 in
  let s2 := registry_write now1 now2 s' (UpdateHeartbeat evt p) in
  rtc registry_fine_step (σ s []) (σ s' [UpdateHeartbeat evt p]) ∧
  store_Get (pr_store s') (hb_PeerId evt) = None ∧
  registry_fine_step (σ s' [UpdateHeartbeat evt p]) (σ s2 []) ∧
  ∃ q, store_Get (pr_store s2) (hb_PeerId evt) = Some q ∧ p_Status q = PeerStatusActive.
Proof.
  intros E Hp Hn σ s' s2. split_and!.
  - eapply rtc_l; [|eapply rtc_once, fine_step, (step_UnregisterPeer now w s (hb_PeerId evt))].
    apply (fine_read s payload (UpdateHeartbeat evt p) []). left.
    unfold handleHeartbeat_read. by rewrite E, Hp.
  - unfold s', UnregisterPeer. destruct (publish_event _ _ _) as [w' err]. cbn.
    rewrite store_get_delete. by rewrite decide_True.
  - by apply (fine_write now1 now2 s' [] (UpdateHeartbeat evt p) []).
  - exists (heartbeat_peer now1 now2 evt p). split; [|done].
    cbn. rewrite store_get_set. by rewrite decide_True.
Qed.

(** C18: sweeping never changes what a later listing shows: a peer the sweep
    marks stale at [now'] has outlived its lease at every later [now] too.  The
    sweep only affects the metrics and the stored status. *)
Theorem SweepStale_unobservable ρ ρ' now now' s resource p :
  now' ≤ now →
  p ∈ GetPeers ρ now (SweepStale ρ' now' s) resource ↔ p ∈ GetPeers ρ now s resource.
Proof.
  intros Hle. rewrite !elem_of_GetPeers. simpl. setoid_rewrite store_get_sweep.
  assert (∀ q, Sub now' (p_LastHeartbeatAt q) > pr_leaseTtl s →
               Sub now (p_LastHeartbeatAt q) > pr_leaseTtl s) as Hmono.
  { intros q Hq. pose proof (Before_Sub now now' (p_LastHeartbeatAt q) Hle). lia. }
  split.
  - intros [[id Hid] Hl]. split; [|done]. exists id.
    destruct (store_Get (pr_store s) id) as [q|]; simpl in *; [|done].
    injection Hid as <-. revert Hl. unfold sweep_peer.
    repeat case_match; try done. intros (_ & Hs & _). by destruct Hs.
  - intros [[id Hid] Hl]. split; [|done]. exists id. rewrite Hid. simpl. f_equal.
    unfold sweep_peer, IsZero, time_zero. case_bool_decide; [done|].
    case_decide as Hq; [|done]. apply Hmono in Hq.
    destruct Hl as (_ & _ & [?|?] & _); [done|lia].
Qed.

(** A heartbeat of a known peer makes it active whatever its status was,
    and the peer is then listed exactly as long as the heartbeat's time stamp (or
    its arrival, when it carries none) is within the lease; other peers are not
    touched, and a heartbeat of an unknown peer changes nothing. *)
Theorem handleHeartbeat_renews ρ now1 now2 now s payload evt :
  registry_ok s → now1 ≠ 0 → json_Unmarshal payload = Ok evt →
  let s' := handleHeartbeat now1 now2 s payload in
  let t := if decide (hb_Timestamp evt = 0) then now1 else hb_Timestamp evt in
  (∀ id, id ≠ hb_PeerId evt → store_Get (pr_store s') id = store_Get (pr_store s) id) ∧
  (hb_PeerId evt ∈ (p_Id <$> GetPeers ρ now s' "") ↔
   is_Some (store_Get (pr_store s) (hb_PeerId evt)) ∧ Sub now t ≤ pr_leaseTtl s).
Proof.
  intros Hok Hn E s' t.
  assert (registry_ok s') as Hok' by (by apply (registry_step_ok s); [constructor|]).
  assert (hb_PeerId evt ∈ (p_Id <$> GetPeers ρ now s' "") ↔
    ∃ p, store_Get (pr_store s') (hb_PeerId evt) = Some p ∧
      listed now (pr_leaseTtl s') "" p) as ->.
  { rewrite list_elem_of_fmap. setoid_rewrite elem_of_GetPeers. split.
    - intros (p & -> & [id Hid] & Hl). exists p. split; [|done].
      by rewrite (ok_id _ _ (Hok' _ _ Hid)).
    - intros (p & Hp & Hl). exists p. split; [|eauto].
      symmetry. apply (ok_id _ _ (Hok' _ _ Hp)). }
  revert Hok'. unfold s'. rewrite handleHeartbeat_eq, E.
  destruct (store_Get (pr_store s) (hb_PeerId evt)) as [p|] eqn:Hp; simpl; intros Hok'.
  - setoid_rewrite store_get_set. split; [intros id Hid; by rewrite decide_False|].
    rewrite decide_True by done.
    unfold listed, heartbeat_peer, IsZero, time_zero, t. simpl.
    split.
    + intros (q & [= <-] & _ & _ & Hq & _). split; [done|].
      revert Hq. simpl. case_bool_decide; case_decide; simpl; try done; intros [?|?]; done.
    + intros [_ Hle]. eexists. split; [done|]. simpl.
      split_and!; try done; [|by left]. right.
      revert Hle. by case_bool_decide; case_decide.
  - split; [done|]. rewrite Hp. split; [|by intros [[? ?] _]].
    by intros (? & ? & _).
Qed.

(** [RegisterPeer] stores the peer and publishes one registration; a node
    that handles that registration stores the same peer, stamped with its own
    clock, and leaves its other peers alone. *)
Theorem RegisterPeer_replicates `{!MqClientLaws C} `{!JsonLaws DdPeerRegisterEvent}
    now w s peer w' s' :
  now ≠ 0 →
  RegisterPeer now w s peer = (w', s', None) →
  ∃ payload q,
    mq_sent (w_mq w') = mq_sent (w_mq w) ++
      [(mq_wire (w_mq w) (t_PeerRegister (pr_topics s)), payload)] ∧
    store_Get (pr_store s') (p_Id peer) = Some q ∧
    p_Status q = PeerStatusRegistering ∧
    (json_valid {| re_Peer := q |} → ∀ ρ now2 (w2 : World C) s2 id,
      store_Get (pr_store (handleRegister ρ now2 w2 s2 payload).2) id =
      if decide (id = p_Id peer)
      then Some (set_peer_UpdatedAt (set_peer_LastHeartbeatAt q now2) now2)
      else store_Get (pr_store s2) id).
Proof.
  intros Hn. unfold RegisterPeer, publish_event.
  set (q := set_peer_UpdatedAt _ _).
  destruct (json_Marshal {| re_Peer := q |}) as [data|e] eqn:Em; [|done].
  destruct (mq_Publish _ _ data) as [c err] eqn:Ep. intros [= <- <- ->].
  apply mq_publish_ok in Ep. exists data, q. simpl.
  assert (p_Id q = p_Id peer) as Hid by (unfold q; by case_match).
  assert (p_CreatedAt q ≠ 0) as Hc.
  { unfold q, IsZero, time_zero. simpl. by case_bool_decide. }
  assert (p_Status q = PeerStatusRegistering) as Hst by done.
  assert (p_Id (if IsZero (p_CreatedAt peer) then set_peer_CreatedAt peer now else peer)
          = p_Id peer) as Hid' by (by case_match).
  rewrite Hid'. clearbody q. split_and!; [done| |done|].
  - rewrite store_get_set. by rewrite decide_True.
  - intros Hv ρ now2 w2 s2 id. unfold handleRegister. rewrite (json_roundtrip _ _ Hv Em).
    cbn [re_Peer]. unfold IsZero, time_zero.
    rewrite bool_decide_eq_false_2 by done. simpl.
    rewrite store_get_set, Hid.
    destruct (decide (p_Id peer = id)) as [->|Hne]; [|by rewrite decide_False by congruence].
    rewrite decide_True by done. f_equal. by destruct q; simpl in *; subst.
Qed.

(** The merged schema of a resource exists iff some listed peer with the
    schema capability declares one; its required, optional and protocol fields are
    the unions of the declared ones, each once; its numeric bounds are the
    conjunction of the declared bounds. *)
Lemma GetResourceMetaSchema_merges ρ now s resource :
  let declared := omap (λ p, peer_schema p resource) (GetPeers ρ now s resource) in
  let '(m, found) := GetResourceMetaSchema ρ now s resource in
  (found = true ↔ declared ≠ []) ∧
  NoDup (s_Required m) ∧ NoDup (s_Optional m) ∧ NoDup (s_ProtocolMetaRequired m) ∧
  (∀ f, f ∈ s_Required m ↔ ∃ c, c ∈ declared ∧ f ∈ s_Required c) ∧
  (∀ f, f ∈ s_Optional m ↔ ∃ c, c ∈ declared ∧ f ∈ s_Optional c) ∧
  (∀ f, f ∈ s_ProtocolMetaRequired m ↔ ∃ c, c ∈ declared ∧ f ∈ s_ProtocolMetaRequired c) ∧
  (∀ field v,
    (∀ c, s_Constraints m !! field = Some c → in_bounds c v) ↔
    (∀ sc c, sc ∈ declared → s_Constraints sc !! field = Some c → in_bounds c v)).
Proof.
  cbv zeta. unfold GetResourceMetaSchema.
  pose proof (GetResourceMetaSchema_loop_ok ρ (GetPeers ρ now s resource) resource []
    schema_acc0 acc_ok_init) as Hok. simpl in Hok.
  revert Hok. generalize (GetResourceMetaSchema_loop ρ (GetPeers ρ now s resource)
    resource schema_acc0) as a.
  generalize (omap (λ p, peer_schema p resource) (GetPeers ρ now s resource)) as declared.
  intros declared a [Rs Rn R Os On O Ps Pn P B F].
  setoid_rewrite Exists_exists in R. setoid_rewrite Exists_exists in O.
  setoid_rewrite Exists_exists in P. setoid_rewrite Forall_forall in B.
  destruct (a_found a) eqn:Ef; simpl.
  - split_and!; try done. intros field v. rewrite B. naive_solver.
  - assert (declared = []) as ->.
    { destruct declared; [done|]. by destruct F as [_ F]; discriminate F. }
    split_and!; [by split|constructor..| | | |]; simpl.
    1-3: intros f; split; [by intros ?%elem_of_nil|by intros (?&?%elem_of_nil&?)].
    intros field v. rewrite lookup_empty. split; [|done].
    by intros _ sc c ?%elem_of_nil.
Qed.

End registry_claims.

(** C19: merging two enumerations: unless they are both non-empty and disjoint,
    the merged constraint admits exactly what both admit; two disjoint enumerations
    merge to the empty one, which admits every value although no value satisfies
    both peers. *)
Theorem mergeConstraint_enumerations a b v :
  (c_Enum a = [] ∨ c_Enum b = [] ∨ (∃ u, u ∈ c_Enum a ∧ u ∈ c_Enum b) →
   enum_admits (mergeConstraint a b) v ↔ enum_admits a v ∧ enum_admits b v) ∧
  (c_Enum a ≠ [] → c_Enum b ≠ [] → (∀ u, u ∈ c_Enum a → u ∉ c_Enum b) →
   enum_admits (mergeConstraint a b) v ∧ ¬ (enum_admits a v ∧ enum_admits b v)).
Proof.
  unfold enum_admits. rewrite mergeConstraint_enum.
  destruct (decide (c_Enum a = [])) as [->|Ha]; [split; [|done]; set_solver|].
  destruct (decide (c_Enum b = [])) as [Eb|Hb].
  { rewrite Eb. split; [|done]. destruct (c_Enum a); set_solver. }
  assert (match c_Enum a, c_Enum b with
    | [], _ => c_Enum b | _, [] => c_Enum a
    | _, _ => enum_inter (c_Enum a) (c_Enum b) end =
    enum_inter (c_Enum a) (c_Enum b)) as -> by (by destruct (c_Enum a), (c_Enum b)).
  assert (∀ l : list string, l ≠ [] → (l = [] ∨ v ∈ l) ↔ v ∈ l) as Hne
    by (intros l Hl; split; [by intros [?|?]|by right]).
  rewrite (Hne (c_Enum a)), (Hne (c_Enum b)) by done. split.
  - intros [?|[?|(u & Hu)]]; [done..|]. rewrite Hne, elem_of_enum_inter; [done|].
    apply elem_of_enum_inter in Hu. intros E. rewrite E in Hu. by apply elem_of_nil in Hu.
  - intros _ _ Hd. split; [left|intros [Hva Hvb]; by apply (Hd v)].
    destruct (enum_inter (c_Enum a) (c_Enum b)) as [|u l] eqn:E; [done|].
    assert (u ∈ enum_inter (c_Enum a) (c_Enum b)) as Hu by (rewrite E; left).
    apply elem_of_enum_inter in Hu as [??]. by destruct (Hd u).
Qed.

(** * The properties at a concrete registry *)

Lemma registered0_step : registry_step (C := MockClient) registry0 registered0.1.2.
Proof. unfold registered0. by constructor. Qed.

Lemma registered0_ok : registry_ok registered0.1.2.
Proof.
  apply (registry_step_ok (C := MockClient) registry0); [apply registered0_step|].
  intros id p Hp. change ((∅ : gmap string DdPeerInfo) !! id = Some p) in Hp.
  by rewrite lookup_empty in Hp.
Qed.

(** A heartbeat of the registered peer, between its halves. *)
Definition sample_update : registry_update :=
  UpdateHeartbeat {| hb_PeerId := "edge-1"; hb_Timestamp := 9 |}
    (default peer_sample (store_Get (pr_store registered0.1.2) "edge-1")).

Lemma registry_reachable_witness :
  let s := registry_write 9 10 registered0.1.2 sample_update in
  rtc (registry_fine_step (C := MockClient)) {| rs_registry := registry0; rs_updates := [] |}
    {| rs_registry := s; rs_updates := [] |} ∧
  ∃ p, p ∈ GetPeers ranger_std 20 s "temp" ∧ p_Status p = PeerStatusActive.
Proof.
  cbv zeta.
  assert (rtc (registry_fine_step (C := MockClient))
    {| rs_registry := registry0; rs_updates := [] |}
    {| rs_registry := registry_write 9 10 registered0.1.2 sample_update; rs_updates := [] |})
    as Hr.
  { eapply rtc_l; [apply fine_step, registered0_step|].
    eapply rtc_l; [|eapply rtc_once, (fine_write 9 10 _ [] sample_update []); done].
    apply (fine_read _ (to_bytes (json_text "{'peer_id':'edge-1','timestamp':9}")) sample_update []).
    left. vm_compute. reflexivity. }
  split; [exact Hr|].
  exists (heartbeat_peer 9 10 {| hb_PeerId := "edge-1"; hb_Timestamp := 9 |}
    (default peer_sample (store_Get (pr_store registered0.1.2) "edge-1"))).
  split; [|reflexivity].
  apply (registry_reachable (C := MockClient) registry0
    (registry_write 9 10 registered0.1.2 sample_update) [] ranger_std 20 "temp").
  - intros id; apply lookup_empty.
  - exact Hr.
  - split; [vm_compute; reflexivity|]. split; [right; reflexivity|].
    split; [by_compute|]. right. by_compute.
Defined.

(** The sweep at forty seconds marks the peer; a listing a second later misses it either
    way. *)
Lemma SweepStale_unobservable_witness :
  let s := registered0.1.2 in
  let swept := SweepStale ranger_std (40 * Second) s in
  let p := default peer_sample (store_Get (pr_store s) "edge-1") in
  p_Status p = PeerStatusRegistering ∧ p ∈ GetPeers ranger_std 8 s "temp" ∧
  p_Status <$> store_Get (pr_store swept) "edge-1" = Some PeerStatusStale ∧
  40 * Second ≤ 41 * Second ∧
  (p ∈ GetPeers ranger_std (41 * Second) swept "temp" ↔
   p ∈ GetPeers ranger_std (41 * Second) s "temp").
Proof.
  cbv zeta. split; [vm_compute; reflexivity|]. split; [by_compute|].
  split; [vm_compute; reflexivity|]. split; [by_compute|].
  apply SweepStale_unobservable. by_compute.
Defined.

Lemma handleHeartbeat_renews_witness :
  let payload := to_bytes (json_text "{'peer_id':'edge-1','timestamp':9}") in
  let s' := handleHeartbeat 9 9 registered0.1.2 payload in
  json_Unmarshal payload = Ok {| hb_PeerId := "edge-1"; hb_Timestamp := 9 |} ∧
  ("edge-1" ∈ (p_Id <$> GetPeers ranger_std 20 s' "") ↔
   is_Some (store_Get (pr_store registered0.1.2) "edge-1") ∧ Sub 20 9 ≤ 30 * Second).
Proof.
  split; [vm_compute; reflexivity|].
  apply (handleHeartbeat_renews (C := MockClient) ranger_std 9 9 20 registered0.1.2
    (to_bytes (json_text "{'peer_id':'edge-1','timestamp':9}"))
    {| hb_PeerId := "edge-1"; hb_Timestamp := 9 |}); [|done|vm_compute; reflexivity].
  apply registered0_ok.
Defined.

Lemma RegisterPeer_replicates_witness :
  7 ≠ 0 ∧
  RegisterPeer 7 world0 registry0 peer_sample =
    (registered0.1.1, registered0.1.2, None) ∧
  ∃ payload q,
    mq_sent (w_mq registered0.1.1) = [(t_PeerRegister (pr_topics registry0), payload)] ∧
    store_Get (pr_store registered0.1.2) "edge-1" = Some q.
Proof.
  split_and!; [done|vm_compute; reflexivity|].
  destruct (RegisterPeer_replicates 7 world0 registry0 peer_sample
    registered0.1.1 registered0.1.2) as (payload & q & H1 & H2 & _);
    [done|vm_compute; reflexivity|].
  exists payload, q. split; [exact H1|exact H2].
Defined.
