(* ===== verification/Replicas.v ===== *)
(** The peer registries of several nodes behind one broker: every registration and
    unregistration is written to the store of the node that makes it and published,
    and every node, that one too, handles the messages that reach it.

    Nothing is assumed of the order in which messages reach a node, nor that they all
    do: MQTT only orders the messages of one topic, and registrations, heartbeats,
    reports and unregistrations have a topic each.  A publication may also fail after
    the store was written.  What each of the two means for the registries is stated.

    A node calls the handlers of its messages one at a time, as the MQTT client does
    unless it is told that the order does not matter; its own writes and its sweep run
    beside them, also between the reading and the writing of a handler.

    Nodes read their own clocks, so they are compared by their views: what they store
    without the three times and the status, which the sweep sets by the clock. *)
From S2P Require Import Prelude GoStrings GoTime Errors Metrics Acl Topics Mq Model.
From S2P Require Import Codec Registry PeerRegistry PeerRegistryProps.
From stdpp Require Import relations.

Open Scope string_scope.
Open Scope list_scope.
Open Scope Z_scope.

(** A peer without what depends on the clock of the node. *)
Definition erase (p : DdPeerInfo) : DdPeerInfo :=
  set_peer_Status (set_peer_LastHeartbeatAt (set_peer_CreatedAt
    (set_peer_UpdatedAt p time_zero) time_zero) time_zero) "".

(** The views, as an abstract specification: what a message does to the entry of one
    peer.  [None]: nothing, the message is not decoded or not for the registry, or it is a
    heartbeat, which only moves times and status. *)
Abbreviation view := (string → option DdPeerInfo).

(** A message of the broker: the handler it is for, and its payload. *)
Abbreviation note := (MessageHandler * bytes)%type.

Section effect.
Context `{RegistryCodecs}.

Definition reported (evt : DdPeerResourceReportEvent) (p : DdPeerInfo) : DdPeerInfo :=
  let p := set_peer_Resources p (report_names (rr_Apis evt) ++ report_names (rr_Topics evt)
                                   ++ report_names (rr_Streams evt)) in
  if decide (0 < size (rr_ResourceSchemas evt))%nat
  then set_peer_ResourceSchemas p (rr_ResourceSchemas evt) else p.

Definition effect (m : note) : option (string * (option DdPeerInfo → option DdPeerInfo)) :=
  match m with
  | (hRegister, payload) =>
      match json_Unmarshal (A := DdPeerRegisterEvent) payload with
      | Ok evt => Some (p_Id (re_Peer evt),
          λ _, Some (erase (re_Peer evt)))
      | Fail _ => None
      end
  | (hResourceReport, payload) =>
      match json_Unmarshal (A := DdPeerResourceReportEvent) payload with
      | Ok evt => Some (rr_PeerId evt, fmap (reported evt))
      | Fail _ => None
      end
  | (hUnregister, payload) =>
      match json_Unmarshal (A := DdPeerHeartbeatEvent) payload with
      | Ok evt => Some (hb_PeerId evt, λ _, None)
      | Fail _ => None
      end
  | _ => None
  end.

(** The abstract registry: it applies the effect. *)
Definition abs_step (v : view) (m : note) : view :=
  match effect m with
  | Some (k, f) => λ id, if decide (k = id) then f (v id) else v id
  | None => v
  end.
Definition abs_run (v : view) (l : list note) : view := foldl abs_step v l.
End effect.

Section replicas.
Context {St C : Type} `{!Store St} `{!StoreLaws St} `{!MqClient C} `{!MqClientLaws C}.
Context `{!RegistryCodecs} `{!JsonLaws DdPeerRegisterEvent} `{!JsonLaws DdPeerHeartbeatEvent}.
Implicit Types (s : PeerRegistryService St) (w : World C).

Definition view_of s : view := λ id, erase <$> store_Get (pr_store s) id.

(** A node handles a message. *)
Definition handle_note (ρ : ranger) (now : Time) w s (m : note) : PeerRegistryService St :=
  match m with
  | (hRegister, payload) => (handleRegister ρ now w s payload).2
  | (hHeartbeat, payload) => handleHeartbeat now now s payload
  | (hResourceReport, payload) => handleResourceReport now s payload
  | (hUnregister, payload) => handleUnregister s payload
  | _ => s
  end.

Lemma view_of_set s k p id :
  view_of (set_store s (store_Set (pr_store s) k p)) id =
  if decide (k = id) then Some (erase p) else view_of s id.
Proof using StoreLaws0. unfold view_of. cbn. rewrite store_get_set. by case_decide. Qed.

Lemma view_of_delete s k id :
  view_of (set_store s (store_Delete (pr_store s) k)) id =
  if decide (k = id) then None else view_of s id.
Proof using StoreLaws0. unfold view_of. cbn. rewrite store_get_delete. by case_decide. Qed.

Lemma erase_Status p x : erase (set_peer_Status p x) = erase p.
Proof. by destruct p. Qed.
Lemma erase_LastHeartbeatAt p x : erase (set_peer_LastHeartbeatAt p x) = erase p.
Proof. by destruct p. Qed.
Lemma erase_CreatedAt p x : erase (set_peer_CreatedAt p x) = erase p.
Proof. by destruct p. Qed.
Lemma erase_UpdatedAt p x : erase (set_peer_UpdatedAt p x) = erase p.
Proof. by destruct p. Qed.
Lemma erase_reported evt p : erase (reported evt p) = reported evt (erase p).
Proof. unfold reported. by case_decide; destruct p. Qed.
Hint Rewrite erase_Status erase_LastHeartbeatAt erase_CreatedAt erase_UpdatedAt erase_reported
  : erase.

Lemma erase_heartbeat now1 now2 evt p : erase (heartbeat_peer now1 now2 evt p) = erase p.
Proof. unfold heartbeat_peer. cbv zeta. case_match; by autorewrite with erase. Qed.

Lemma erase_report now evt p : erase (report_peer now evt p) = reported evt (erase p).
Proof.
  unfold report_peer. cbv zeta. rewrite erase_UpdatedAt, <- erase_reported.
  unfold reported. by case_decide.
Qed.

Lemma erase_sweep now ttl p : erase (sweep_peer now ttl p) = erase p.
Proof. unfold sweep_peer. repeat case_match; by autorewrite with erase. Qed.

(** The peer that a handler has read, and its id. *)
Definition update_id (u : registry_update) : string :=
  match u with UpdateHeartbeat evt _ => hb_PeerId evt | UpdateReport evt _ => rr_PeerId evt end.
Definition update_peer (u : registry_update) : DdPeerInfo :=
  match u with UpdateHeartbeat _ p | UpdateReport _ p => p end.

(** What the second half of a handler does to the views. *)
Definition update_view (u : registry_update) (p : DdPeerInfo) : DdPeerInfo :=
  match u with UpdateHeartbeat _ _ => p | UpdateReport evt _ => reported evt p end.

Lemma registry_write_view now1 now2 s u id :
  view_of (registry_write now1 now2 s u) id =
  if decide (update_id u = id) then Some (update_view u (erase (update_peer u)))
  else view_of s id.
Proof using StoreLaws0.
  destruct u; cbn [registry_write update_id update_view update_peer]; rewrite view_of_set.
  - by rewrite erase_heartbeat.
  - by rewrite erase_report.
Qed.

(** The first half of a handler. *)
Definition read_note s (m : note) : option registry_update :=
  match m with
  | (hHeartbeat, payload) => handleHeartbeat_read s payload
  | (hResourceReport, payload) => handleResourceReport_read s payload
  | _ => None
  end.

(** The message is, for the views, the update. *)
Definition abs_update (u : registry_update) (m : note) : Prop :=
  ∀ (v : view) id,
    (update_id u ≠ id → abs_step v m id = v id) ∧
    (update_id u = id → v id = Some (erase (update_peer u)) →
     abs_step v m id = Some (update_view u (erase (update_peer u)))).

Lemma read_note_view s m u :
  read_note s m = Some u →
  store_Get (pr_store s) (update_id u) = Some (update_peer u) ∧ abs_update u m.
Proof using Type.
  destruct m as [h payload]. destruct h; try done; cbn [read_note].
  - unfold handleHeartbeat_read, abs_update, abs_step. cbn [effect].
    destruct (json_Unmarshal payload) as [evt|]; [|done].
    destruct (store_Get _ _) as [p|] eqn:Ep; [|done]. by intros <-%Some_inj.
  - unfold handleResourceReport_read, abs_update, abs_step. cbn [effect].
    destruct (json_Unmarshal payload) as [evt|]; [|done].
    destruct (store_Get _ _) as [p|] eqn:Ep; [|done]. intros <-%Some_inj.
    cbn [update_id update_view update_peer]. split; [done|]. intros v id. split.
    + intros ?. by rewrite decide_False.
    + intros -> E. rewrite decide_True by done. by rewrite E.
Qed.

(** The handlers implement the abstract registry, whatever the clock of the node. *)
Lemma handle_note_view ρ now w s m id :
  view_of (handle_note ρ now w s m) id = abs_step (view_of s) m id.
Proof using StoreLaws0.
  destruct (read_note s m) as [u|] eqn:Eu.
  { assert (handle_note ρ now w s m = registry_write now now s u) as ->.
    { destruct m as [h payload]. destruct h; try done; cbn [read_note handle_note] in *.
      - unfold handleHeartbeat. by rewrite Eu.
      - unfold handleResourceReport. by rewrite Eu. }
    destruct (read_note_view _ _ _ Eu) as [Hg Ha]. destruct (Ha (view_of s) id) as [Hne He].
    rewrite registry_write_view. case_decide as Hk; [|by rewrite Hne].
    symmetry. apply He; [done|]. subst id. unfold view_of. by rewrite Hg. }
  destruct m as [h payload]. unfold abs_step.
  destruct h; try done; cbn [handle_note effect read_note] in *.
  - unfold handleRegister. destruct (json_Unmarshal payload) as [[p]|]; [|done].
    cbn [re_Peer snd]. rewrite view_of_set.
    destruct (IsZero _); by autorewrite with erase.
  - unfold handleHeartbeat. by rewrite Eu.
  - unfold handleResourceReport. rewrite Eu. unfold handleResourceReport_read in Eu.
    destruct (json_Unmarshal payload) as [evt|]; [|done].
    destruct (store_Get (pr_store s) (rr_PeerId evt)) as [p|] eqn:Ep; [done|].
    case_decide as Hk; [|done]. subst id. unfold view_of. by rewrite Ep.
  - unfold handleUnregister. destruct (json_Unmarshal payload) as [evt|]; [|done].
    apply view_of_delete.
Qed.

Lemma sweep_view ρ now s id : view_of (SweepStale ρ now s) id = view_of s id.
Proof using StoreLaws0.
  unfold view_of, SweepStale. cbn. rewrite store_get_sweep.
  destruct (store_Get _ _) as [p|]; [|done]. cbn. by rewrite erase_sweep.
Qed.

(** * The nodes behind the broker *)

(** All messages published so far, each with the node that published it, if it is one
    of them; the messages that each node has handled, by their places in the log, in its
    own order; the one it is between reading and writing for; and the peers that a node
    has written without publishing it. *)
Record cluster := {
  cl_log : list (option nat * note);
  cl_node : nat → PeerRegistryService St;
  cl_got : nat → list nat;
  cl_reading : nat → option (nat * registry_update);
  cl_unpublished : nat → gset string
}.

Definition upd {A} (f : nat → A) (j : nat) (x : A) : nat → A := λ i, if decide (i = j) then x else f i.

Lemma upd_eq {A} (f : nat → A) j x : upd f j x j = x.
Proof. unfold upd. by rewrite decide_True. Qed.
Lemma upd_ne {A} (f : nat → A) j x i : i ≠ j → upd f j x i = f i.
Proof. intros Hne. unfold upd. by rewrite decide_False. Qed.

(** A message that settles the entry of a peer, whatever it was before. *)
Definition settled_by (m : note) : option string :=
  match m.1 with
  | hRegister | hUnregister => fst <$> effect m
  | _ => None
  end.
Definition settled_set (m : note) : gset string :=
  match settled_by m with Some id => {[id]} | None => ∅ end.

Definition set_log (cl : cluster) l : cluster :=
  {| cl_log := l; cl_node := cl_node cl; cl_got := cl_got cl; cl_reading := cl_reading cl;
     cl_unpublished := cl_unpublished cl |}.
Definition set_node (cl : cluster) j s : cluster :=
  {| cl_log := cl_log cl; cl_node := upd (cl_node cl) j s; cl_got := cl_got cl;
     cl_reading := cl_reading cl; cl_unpublished := cl_unpublished cl |}.
Definition set_got (cl : cluster) j l : cluster :=
  {| cl_log := cl_log cl; cl_node := cl_node cl; cl_got := upd (cl_got cl) j l;
     cl_reading := cl_reading cl; cl_unpublished := cl_unpublished cl |}.
Definition set_reading (cl : cluster) j o : cluster :=
  {| cl_log := cl_log cl; cl_node := cl_node cl; cl_got := cl_got cl;
     cl_reading := upd (cl_reading cl) j o; cl_unpublished := cl_unpublished cl |}.
Definition set_unpublished (cl : cluster) j u : cluster :=
  {| cl_log := cl_log cl; cl_node := cl_node cl; cl_got := cl_got cl;
     cl_reading := cl_reading cl; cl_unpublished := upd (cl_unpublished cl) j u |}.

(** [cluster_register], [cluster_unregister]: a node writes and publishes; what it
    publishes is what its client hands to the transport.  [cluster_lost]: it writes, and
    nothing is handed to the transport.  [cluster_sweep]: the sweep of a node.
    [cluster_message]: a heartbeat, a report, or a message of a stranger.
    [cluster_deliver]: a message reaches a node that has not handled it yet, and is
    handled at once; [cluster_read], [cluster_write]: its handler is cut in two. *)
Inductive cluster_step : cluster → cluster → Prop :=
| cluster_register cl j now w peer w' s' err topic data :
    RegisterPeer now w (cl_node cl j) peer = (w', s', err) →
    mq_sent (w_mq w') = mq_sent (w_mq w) ++ [(topic, data)] →
    (∀ q, store_Get (pr_store s') (p_Id peer) = Some q → json_valid {| re_Peer := q |}) →
    cluster_step cl (set_log (set_node cl j s') (cl_log cl ++ [(Some j, (hRegister, data))]))
| cluster_unregister cl j now w id w' s' err topic data :
    UnregisterPeer now w (cl_node cl j) id = (w', s', err) →
    mq_sent (w_mq w') = mq_sent (w_mq w) ++ [(topic, data)] →
    json_valid {| hb_PeerId := id; hb_Timestamp := now |} →
    cluster_step cl (set_log (set_node cl j s') (cl_log cl ++ [(Some j, (hUnregister, data))]))
| cluster_lost cl j now w id s' :
    (∃ peer w' err, id = p_Id peer ∧
       RegisterPeer now w (cl_node cl j) peer = (w', s', Some err) ∧
       mq_sent (w_mq w') = mq_sent (w_mq w)) ∨
    (∃ w' err, UnregisterPeer now w (cl_node cl j) id = (w', s', Some err) ∧
       mq_sent (w_mq w') = mq_sent (w_mq w)) →
    cluster_step cl (set_unpublished (set_node cl j s') j ({[id]} ∪ cl_unpublished cl j))
| cluster_sweep cl j ρ now :
    cluster_step cl (set_node cl j (SweepStale ρ now (cl_node cl j)))
| cluster_message cl m :
    cluster_step cl (set_log cl (cl_log cl ++ [(None, m)]))
| cluster_deliver cl j i who m ρ now w :
    cl_log cl !! i = Some (who, m) → i ∉ cl_got cl j → cl_reading cl j = None →
    cluster_step cl
      (set_unpublished (set_got (set_node cl j (handle_note ρ now w (cl_node cl j) m))
         j (cl_got cl j ++ [i])) j (cl_unpublished cl j ∖ settled_set m))
| cluster_read cl j i who m u :
    cl_log cl !! i = Some (who, m) → i ∉ cl_got cl j → cl_reading cl j = None →
    read_note (cl_node cl j) m = Some u →
    cluster_step cl (set_reading cl j (Some (i, u)))
| cluster_write cl j i u now1 now2 :
    cl_reading cl j = Some (i, u) →
    cluster_step cl
      (set_reading (set_got (set_node cl j (registry_write now1 now2 (cl_node cl j) u))
         j (cl_got cl j ++ [i])) j None).

(** Every node starts with the same view and has handled nothing. *)
Definition cluster_init (nodes : nat → PeerRegistryService St) : cluster :=
  {| cl_log := []; cl_node := nodes; cl_got := λ _, []; cl_reading := λ _, None;
     cl_unpublished := λ _, ∅ |}.

(** The messages a node has handled, and those about one peer. *)
Definition handled (cl : cluster) (j : nat) : list note :=
  omap (λ i, snd <$> cl_log cl !! i) (cl_got cl j).
Definition about (id : string) (m : note) : Prop := fst <$> effect m = Some id.
#[global] Instance about_dec id m : Decision (about id m).
Proof using Type. unfold about. apply _. Defined.
Definition handled_about (cl : cluster) (j : nat) (id : string) : list note :=
  filter (about id) (handled cl j).

(** * The invariant *)

Lemma abs_run_app v l m : abs_run v (l ++ [m]) = abs_step (abs_run v l) m.
Proof using Type. unfold abs_run. by rewrite foldl_app. Qed.

(** Only the messages about a peer matter to its entry. *)
Lemma abs_run_about v l id : abs_run v l id = abs_run v (filter (about id) l) id.
Proof using Type.
  induction l as [|m l IH] using rev_ind; [done|].
  rewrite abs_run_app, filter_app, filter_cons.
  destruct (decide (about id m)) as [Ha|Hna].
  - rewrite filter_nil, abs_run_app. unfold about in Ha. unfold abs_step.
    destruct (effect m) as [[k f]|]; [|done]. by rewrite IH.
  - rewrite filter_nil, app_nil_r, <- IH. unfold about in Hna. unfold abs_step.
    destruct (effect m) as [[k f]|]; [|done]. cbn in Hna. rewrite decide_False by congruence. done.
Qed.

(** What a settling message leaves. *)
Lemma settled_effect m id :
  settled_by m = Some id → ∃ f o, effect m = Some (id, f) ∧ ∀ x, f x = o.
Proof using Type.
  destruct m as [h payload]. unfold settled_by. cbn [fst].
  destruct h; try done; unfold effect;
    destruct (json_Unmarshal payload) as [evt|]; try done; intros [= <-]; eauto.
Qed.

Lemma abs_step_settled v v' m id : settled_by m = Some id → abs_step v m id = abs_step v' m id.
Proof using Type.
  intros (f & o & Ef & Hf)%settled_effect. unfold abs_step. rewrite Ef.
  rewrite !decide_True by done. by rewrite !Hf.
Qed.

(** A write of one entry that [m] settles. *)
Definition writes s s' (id : string) (o : option DdPeerInfo) : Prop :=
  ∀ k, view_of s' k = if decide (id = k) then o else view_of s k.

Lemma app_one_ne {A} (l : list A) x : l ≠ l ++ [x].
Proof using Type. intros E%(f_equal length). rewrite length_app in E. cbn in E. lia. Qed.

Lemma publish_payload (c : C) t p c' err topic data :
  mq_Publish c t p = (c', err) → mq_sent c' = mq_sent c ++ [(topic, data)] → p = data.
Proof using MqClientLaws0.
  intros E Hs. pose proof (mq_publish_sent c t p) as [Hp|Hp];
    rewrite E in Hp; cbn [fst] in Hp; rewrite Hp in Hs.
  - by apply app_one_ne in Hs.
  - apply app_inv_head in Hs. congruence.
Qed.

Lemma RegisterPeer_writes now w s peer w' s' err :
  RegisterPeer now w s peer = (w', s', err) → ∃ o, writes s s' (p_Id peer) o.
Proof using StoreLaws0.
  unfold RegisterPeer. set (q := set_peer_UpdatedAt _ _).
  assert (p_Id q = p_Id peer) as Hid by (unfold q; by destruct (IsZero _)).
  clearbody q. rewrite Hid. destruct (publish_event _ _ _) as [w1 e].
  intros (_ & <- & _)%pair3_inj. exists (Some (erase q)). intros id. apply view_of_set.
Qed.

Lemma UnregisterPeer_writes now w s id w' s' err :
  UnregisterPeer now w s id = (w', s', err) → ∃ o, writes s s' id o.
Proof using StoreLaws0.
  unfold UnregisterPeer. destruct (publish_event _ _ _) as [w1 e]. intros [= _ <- _].
  exists None. intros k. apply view_of_delete.
Qed.

(** What a node writes before it publishes is what the message settles. *)
Lemma RegisterPeer_settles now w s peer w' s' err topic data :
  RegisterPeer now w s peer = (w', s', err) →
  mq_sent (w_mq w') = mq_sent (w_mq w) ++ [(topic, data)] →
  (∀ q, store_Get (pr_store s') (p_Id peer) = Some q → json_valid {| re_Peer := q |}) →
  settled_by (hRegister, data) = Some (p_Id peer).
Proof using All.
  unfold RegisterPeer, publish_event. set (q := set_peer_UpdatedAt _ _).
  assert (p_Id q = p_Id peer) as Hid by (unfold q; by destruct (IsZero _)).
  clearbody q. rewrite Hid.
  destruct (json_Marshal {| re_Peer := q |}) as [data'|e] eqn:Em;
    [|by intros [= <- <- <-] ?%app_one_ne].
  destruct (mq_Publish _ _ data') as [c err'] eqn:Ep. intros [= <- <- <-] Hsent Hv.
  rewrite set_mq_mq in Hsent. apply publish_payload with (1 := Ep) in Hsent as <-.
  assert (json_valid {| re_Peer := q |}) as Hvq.
  { apply Hv. cbn. rewrite store_get_set. by rewrite decide_True. }
  unfold settled_by, effect. cbn [fst]. rewrite (json_roundtrip _ _ Hvq Em). cbn. by rewrite Hid.
Qed.

Lemma UnregisterPeer_settles now w s id w' s' err topic data :
  UnregisterPeer now w s id = (w', s', err) →
  mq_sent (w_mq w') = mq_sent (w_mq w) ++ [(topic, data)] →
  json_valid {| hb_PeerId := id; hb_Timestamp := now |} →
  settled_by (hUnregister, data) = Some id.
Proof using All.
  unfold UnregisterPeer, publish_event.
  destruct (json_Marshal _) as [data'|e] eqn:Em; [|by intros [= <- <- <-] ?%app_one_ne].
  destruct (mq_Publish _ _ data') as [c err'] eqn:Ep. intros [= <- <- <-] Hsent Hv.
  rewrite set_mq_mq in Hsent. apply publish_payload with (1 := Ep) in Hsent as <-.
  unfold settled_by, effect. cbn [fst]. by rewrite (json_roundtrip _ _ Hv Em).
Qed.

(** A node has heard of all that it wrote about a peer. *)
Definition own_unread (cl : cluster) (j : nat) (id : string) : Prop :=
  ∃ i m, cl_log cl !! i = Some (Some j, m) ∧ i ∉ cl_got cl j ∧ settled_by m = Some id.
Definition up_to_date (cl : cluster) (j : nat) (id : string) : Prop :=
  ¬ own_unread cl j id ∧ id ∉ cl_unpublished cl j.

(** Each node is the abstract registry after the messages it has handled, apart from the
    peers it has written to itself and not heard of; and so is what a handler has read. *)
Record cluster_ok (v0 : view) (cl : cluster) : Prop := {
  co_got j i : i ∈ cl_got cl j → (i < length (cl_log cl))%nat;
  co_view j id : up_to_date cl j id →
    view_of (cl_node cl j) id = abs_run v0 (handled cl j) id;
  co_reading j i u : cl_reading cl j = Some (i, u) →
    ∃ who m, cl_log cl !! i = Some (who, m) ∧ settled_by m = None ∧
      abs_update u m ∧
      (up_to_date cl j (update_id u) →
        view_of (cl_node cl j) (update_id u) = Some (erase (update_peer u)))
}.

(** Both hold for the entries of a node that a step does not touch. *)
Lemma cluster_ok_mono v0 cl cl' :
  cluster_ok v0 cl →
  (∀ i x, cl_log cl !! i = Some x → cl_log cl' !! i = Some x) →
  cl_got cl' = cl_got cl → cl_reading cl' = cl_reading cl →
  (∀ j id, up_to_date cl' j id → up_to_date cl j id ∧
     view_of (cl_node cl' j) id = view_of (cl_node cl j) id) →
  cluster_ok v0 cl'.
Proof using Type.
  intros [Hg Hv Hr] Hlog Hgot Hrd Hu. split.
  - intros j i. rewrite Hgot. intros Hi%Hg. apply lookup_lt_is_Some in Hi as [x Hx].
    by eapply lookup_lt_Some, Hlog.
  - intros j id [Hutd ->]%Hu. rewrite Hv by done. f_equal. unfold handled. rewrite Hgot.
    apply list_omap_ext, Forall_Forall2_diag, Forall_forall. intros i Hi.
    assert (is_Some (cl_log cl !! i)) as [x Hx] by (by eapply lookup_lt_is_Some, Hg).
    by rewrite Hx, (Hlog _ _ Hx).
  - intros j i u. rewrite Hrd. intros Hj. destruct (Hr _ _ _ Hj) as (who & m & Hm & Hs & Ha & Hp).
    exists who, m. split_and!; [by apply Hlog|done|done|]. intros [Hutd ->]%Hu. by apply Hp.
Qed.

(** A message at the end of the log, with what its publisher has written. *)
Lemma cluster_ok_publish v0 cl j m s' id o :
  cluster_ok v0 cl → settled_by m = Some id → writes (cl_node cl j) s' id o →
  cluster_ok v0 (set_log (set_node cl j s') (cl_log cl ++ [(Some j, m)])).
Proof using Type.
  intros Hok Hs Hw. apply (cluster_ok_mono _ cl); [done| |done..|]; cbn [cl_log set_log].
  - intros i x Hx. rewrite lookup_app_l; [done|by eapply lookup_lt_Some].
  - intros j' k [Hno Hun]. cbn [cl_unpublished set_log set_node cl_node] in *. split.
    + split; [|done]. intros (i & m' & Hi & Hni & Hs'). apply Hno. exists i, m'.
      cbn [cl_log cl_got set_log]. by rewrite lookup_app_l by (by eapply lookup_lt_Some).
    + destruct (decide (j' = j)) as [->|Hne]; [|by rewrite upd_ne].
      rewrite upd_eq, Hw. rewrite decide_False; [done|]. intros ->. apply Hno.
      exists (length (cl_log cl)), m. cbn [cl_log cl_got set_log set_node].
      rewrite list_lookup_middle by done. split_and!; [done| |done].
      intros Hin%(co_got _ _ Hok). lia.
Qed.

Lemma cluster_ok_message v0 cl m :
  cluster_ok v0 cl → cluster_ok v0 (set_log cl (cl_log cl ++ [(None, m)])).
Proof using Type.
  intros Hok. apply (cluster_ok_mono _ cl); [done| |done..|]; cbn [cl_log set_log].
  - intros i x Hx. rewrite lookup_app_l; [done|by eapply lookup_lt_Some].
  - intros j k [Hno Hun]. split; [|done]. split; [|done].
    intros (i & m' & Hi & Hni & Hs'). apply Hno. exists i, m'.
    cbn [cl_log cl_got set_log]. by rewrite lookup_app_l by (by eapply lookup_lt_Some).
Qed.

Lemma cluster_ok_lost v0 cl j s' id o :
  cluster_ok v0 cl → writes (cl_node cl j) s' id o →
  cluster_ok v0 (set_unpublished (set_node cl j s') j ({[id]} ∪ cl_unpublished cl j)).
Proof using All.
  intros Hok Hw. apply (cluster_ok_mono _ cl); [done..|].
  intros i k [Hno Hun]. cbn [cl_unpublished cl_node set_unpublished set_node] in *.
  change (k ∉ upd (cl_unpublished cl) j ({[id]} ∪ cl_unpublished cl j) i) in Hun.
  unfold upd in Hun |- *. destruct (decide (i = j)) as [->|Hij].
  - rewrite Hw, decide_False by set_solver. split; [|done]. split; [exact Hno|set_solver].
  - split; [|done]. by split.
Qed.

Lemma cluster_ok_sweep v0 cl j ρ now :
  cluster_ok v0 cl → cluster_ok v0 (set_node cl j (SweepStale ρ now (cl_node cl j))).
Proof using StoreLaws0.
  intros Hok. apply (cluster_ok_mono _ cl); [done..|]. intros i k Hutd. split; [exact Hutd|].
  cbn [cl_node set_node]. destruct (decide (i = j)) as [->|Hij]; [|by rewrite upd_ne].
  by rewrite upd_eq, sweep_view.
Qed.

Lemma cluster_ok_read v0 cl j i who m u :
  cluster_ok v0 cl → cl_log cl !! i = Some (who, m) → read_note (cl_node cl j) m = Some u →
  cluster_ok v0 (set_reading cl j (Some (i, u))).
Proof using Type.
  intros [Hg Hv Hr] Hm Hu. split; [done|done|]. intros j' i' u'. cbn [cl_reading set_reading].
  destruct (decide (j' = j)) as [->|Hne]; [|rewrite upd_ne by done; apply Hr].
  rewrite upd_eq. intros [= <- <-]. exists who, m. split; [done|]. split.
  { destruct m as [[] ?]; done. }
  apply read_note_view in Hu as [Hu Ha]. split; [done|]. intros _. cbn [cl_node set_reading].
  unfold view_of. by rewrite Hu.
Qed.

(** A message is handled, at once or by the end of its handler. *)
Lemma cluster_ok_handled v0 cl cl' j i who m s' :
  cluster_ok v0 cl → cl_log cl !! i = Some (who, m) →
  cl_log cl' = cl_log cl → cl_node cl' = upd (cl_node cl) j s' →
  cl_got cl' = upd (cl_got cl) j (cl_got cl j ++ [i]) →
  (∀ k, cl_reading cl' k = upd (cl_reading cl) j None k) →
  (∀ k, cl_unpublished cl' k =
        upd (cl_unpublished cl) j (cl_unpublished cl j ∖ settled_set m) k) →
  (∀ id, settled_by m = Some id ∨ up_to_date cl j id →
     view_of s' id = abs_step (abs_run v0 (handled cl j)) m id) →
  cluster_ok v0 cl'.
Proof using All.
  intros [Hg Hv Hr] Hm El En Eg Er Eu Hs'.
  assert (∀ j' id, j' ≠ j → up_to_date cl' j' id → up_to_date cl j' id) as Hother.
  { intros j' id Hne [Hno Hun]. rewrite Eu, upd_ne in Hun by done. split; [|done].
    intros (i' & m' & ? & ? & ?). apply Hno. exists i', m'. by rewrite El, Eg, upd_ne. }
  split.
  - intros j' i'. rewrite Eg, El. destruct (decide (j' = j)) as [->|Hne].
    + rewrite upd_eq, elem_of_app, list_elem_of_singleton.
      intros [?%Hg| ->]; [done|by eapply lookup_lt_Some].
    + rewrite upd_ne by done. apply Hg.
  - intros j' id Hutd. unfold handled. rewrite El, Eg, En.
    destruct (decide (j' = j)) as [->|Hne].
    2:{ rewrite !upd_ne by done. by apply Hv, Hother. }
    rewrite !upd_eq, omap_app. cbn [omap list_omap]. rewrite Hm.
    cbn [fmap option_fmap option_map snd]. rewrite abs_run_app. apply Hs'.
    destruct (decide (settled_by m = Some id)) as [Hs|Hs]; [by left|right].
    destruct Hutd as [Hno Hun]. rewrite Eu, upd_eq in Hun. split.
    + intros (i' & m' & Hl & Hni & Hsm). apply Hno. exists i', m'.
      rewrite El, Eg, upd_eq, not_elem_of_app, list_elem_of_singleton.
      split_and!; [done..| |done]. intros ->. congruence.
    + intros Hin. apply Hun. apply elem_of_difference. split; [done|].
      unfold settled_set. destruct (settled_by m) as [id'|]; [|set_solver].
      rewrite elem_of_singleton. congruence.
  - intros j' i' u. rewrite Er, El, En. destruct (decide (j' = j)) as [->|Hne].
    { by rewrite upd_eq. }
    rewrite !upd_ne by done. intros Hj. destruct (Hr _ _ _ Hj) as (who' & m' & ? & ? & ? & ?).
    exists who', m'. split_and!; eauto.
Qed.

Lemma cluster_step_ok v0 cl cl' : cluster_step cl cl' → cluster_ok v0 cl → cluster_ok v0 cl'.
Proof using All.
  intros Hstep Hok. destruct Hstep as [cl j now w peer w' s' err topic data E Hsent Hv
    |cl j now w id w' s' err topic data E Hsent Hv|cl j now w id s' Hl|cl j ρ now|cl m
    |cl j i who m ρ now w Hm Hi Hrd|cl j i who m u Hm Hi Hrd Hu|cl j i u now1 now2 Hu].
  - destruct (RegisterPeer_writes _ _ _ _ _ _ _ E) as [o Ho].
    eapply cluster_ok_publish; [done|by eapply RegisterPeer_settles|done].
  - destruct (UnregisterPeer_writes _ _ _ _ _ _ _ E) as [o Ho].
    eapply cluster_ok_publish; [done|by eapply UnregisterPeer_settles|done].
  - destruct Hl as [(peer & w' & err & -> & E & _)|(w' & err & E & _)].
    + apply RegisterPeer_writes in E as [o Ho]. by eapply cluster_ok_lost.
    + apply UnregisterPeer_writes in E as [o Ho]. by eapply cluster_ok_lost.
  - by apply cluster_ok_sweep.
  - by apply cluster_ok_message.
  - eapply cluster_ok_handled; [done|exact Hm|done..| |done|]; cbn.
    + intros k. unfold upd. case_decide; by subst.
    + intros id Hid. rewrite handle_note_view. destruct Hid as [Hs|Hu].
      * by apply abs_step_settled.
      * unfold abs_step. destruct (effect m) as [[k f]|]; by rewrite (co_view _ _ Hok) by done.
  - by eapply cluster_ok_read.
  - destruct (co_reading _ _ Hok _ _ _ Hu) as (who & m & Hm & Hs & Ha & Hp).
    eapply cluster_ok_handled; [done|exact Hm|done..| |]; cbn.
    + intros k. unfold upd, settled_set. rewrite Hs. case_decide; [|done]. subst k. set_solver.
    + intros id [?|Hutd]; [congruence|]. rewrite registry_write_view.
      destruct (Ha (abs_run v0 (handled cl j)) id) as [Hne He].
      pose proof (co_view _ _ Hok _ _ Hutd) as Hv. case_decide as Hk; [|by rewrite Hne].
      symmetry. apply He; [done|]. subst id. rewrite <- Hv. by apply Hp.
Qed.

Lemma cluster_reachable_ok v0 cl cl' :
  rtc cluster_step cl cl' → cluster_ok v0 cl → cluster_ok v0 cl'.
Proof using All. induction 1; eauto using cluster_step_ok. Qed.

(** C10: when the registries of two nodes agree.  However nodes register, unregister and
    sweep peers, others publish heartbeats and reports, and messages reach each node in an
    order and at a time of its own: what a node stores about a peer is the result of the
    messages about that peer in the order in which it has handled them, unless a write of
    its own is still on its way back to it or was never published.  So two nodes that
    have handled the same registrations, reports and unregistrations of a peer in the same
    order store the same about it, apart from times and status.  Neither condition can be
    left out: see [reordered_diverges] and [unpublished_diverges]. *)
Theorem registries_converge nodes v0 cl j k id :
  (∀ i id, view_of (nodes i) id = v0 id) → rtc cluster_step (cluster_init nodes) cl →
  up_to_date cl j id → up_to_date cl k id → handled_about cl j id = handled_about cl k id →
  view_of (cl_node cl j) id = abs_run v0 (handled_about cl j id) id ∧
  view_of (cl_node cl j) id = view_of (cl_node cl k) id.
Proof using All.
  intros Hinit Hr Hj Hk Heq.
  assert (cluster_ok v0 cl) as [_ Hv _].
  { eapply cluster_reachable_ok; [exact Hr|]. split; [|intros i id' _; cbn; by rewrite Hinit|done].
    by intros ?? ?%elem_of_nil. }
  rewrite !Hv, (abs_run_about _ (handled cl j)), (abs_run_about _ (handled cl k)) by done.
  split; [done|]. unfold handled_about in Heq. by rewrite Heq.
Qed.
End replicas.

(** * Three nodes, one peer *)

#[local] Existing Instance sample_codecs.
#[local] Existing Instance mock_std.
#[local] Instance register_valid : JsonLaws DdPeerRegisterEvent.
Proof. apply table_codec_laws; by_compute. Defined.
#[local] Instance heartbeat_valid : JsonLaws DdPeerHeartbeatEvent.
Proof. apply table_codec_laws; by_compute. Defined.

Abbreviation steps := (rtc (cluster_step (St := MemoryStore) (C := MockClient))).
Abbreviation three_nodes := (cluster_init (λ _, registry0)).

Definition registration : bytes := to_bytes (json_text "{'peer':{'id':'edge-1'}}").
Definition unregistration : bytes := to_bytes (json_text "{'peer_id':'edge-1','timestamp':9}").

(** A delivery, with the clock of the node. *)
Definition delivered (cl : cluster) (j i : nat) (m : note) (now : Time) : cluster :=
  set_unpublished (set_got (set_node cl j
      (handle_note (C := MockClient) ranger_std now world0 (cl_node cl j) m))
    j (cl_got cl j ++ [i])) j (cl_unpublished cl j ∖ settled_set m).

Lemma delivered_step cl j i who m now :
  cl_log cl !! i = Some (who, m) → i ∉ cl_got cl j → cl_reading cl j = None →
  cluster_step (C := MockClient) cl (delivered cl j i m now).
Proof. intros. by eapply cluster_deliver. Qed.

(** Node 0 registers the peer at 7, and, in [removed_cluster], removes it at 9. *)
Definition registered_cluster : cluster :=
  set_log (set_node three_nodes 0 registered0.1.2) [(Some 0%nat, (hRegister, registration))].

Lemma registered_cluster_reachable : steps three_nodes registered_cluster.
Proof.
  apply rtc_once. eapply (cluster_register three_nodes 0 7 world0 peer_sample
    registered0.1.1 registered0.1.2 None (t_PeerRegister (pr_topics registry0)) registration);
    [vm_compute; reflexivity|vm_compute; reflexivity|done].
Qed.

Definition removed0 := UnregisterPeer 9 world0 registered0.1.2 "edge-1".

Definition removed_cluster : cluster :=
  set_log (set_node registered_cluster 0 removed0.1.2)
    (cl_log registered_cluster ++ [(Some 0%nat, (hUnregister, unregistration))]).

Lemma removed_cluster_reachable : steps three_nodes removed_cluster.
Proof.
  eapply rtc_r; [exact registered_cluster_reachable|].
  eapply (cluster_unregister registered_cluster 0 9 world0 "edge-1" removed0.1.1 removed0.1.2
    None (t_PeerUnregister (pr_topics registry0)) unregistration);
    [vm_compute; reflexivity|vm_compute; reflexivity|done].
Qed.

(** Both nodes have handled the registration, at 8 and 9. *)
Definition converged_cluster : cluster :=
  delivered (delivered registered_cluster 0 0 (hRegister, registration) 8)
    1 0 (hRegister, registration) 9.

Lemma converged_cluster_reachable : steps three_nodes converged_cluster.
Proof.
  unfold converged_cluster.
  eapply rtc_r; [eapply rtc_r; [exact registered_cluster_reachable|]|];
    eapply delivered_step; (reflexivity || (vm_compute; by intros ?%elem_of_nil)).
Qed.

Lemma nothing_unread (cl : cluster (St := MemoryStore)) j id :
  Forall (λ i, i ∈ cl_got cl j) (seq 0 (length (cl_log cl))) → ¬ own_unread cl j id.
Proof.
  intros Hall (i & m & Hi & Hni & _). apply Hni. rewrite Forall_forall in Hall. apply Hall.
  apply elem_of_seq. apply lookup_lt_Some in Hi. lia.
Qed.

Lemma registries_converge_witness :
  steps three_nodes converged_cluster ∧
  view_of (cl_node converged_cluster 0) "edge-1" =
    view_of (cl_node converged_cluster 1) "edge-1" ∧
  is_Some (view_of (cl_node converged_cluster 1) "edge-1").
Proof.
  split; [exact converged_cluster_reachable|]. split; [|by_compute].
  apply (registries_converge (λ _, registry0) (view_of registry0) converged_cluster 0 1);
    [done|exact converged_cluster_reachable|split; [|by_compute]|split; [|by_compute]|reflexivity];
    apply nothing_unread; vm_compute; repeat constructor.
Defined.

(** The two conditions are not met on their own.  A registration and the removal that
    follows it go by different topics: a node that handles them in the other order, or
    misses the removal, keeps the peer, although every node is up to date. *)
Theorem reordered_diverges :
  ∃ cl, steps three_nodes cl ∧ up_to_date cl 1 "edge-1" ∧ up_to_date cl 2 "edge-1" ∧
    handled cl 1 ≡ₚ handled cl 2 ∧
    view_of (cl_node cl 1) "edge-1" = None ∧ is_Some (view_of (cl_node cl 2) "edge-1").
Proof.
  set (r := (hRegister, registration)). set (u := (hUnregister, unregistration)).
  exists (delivered (delivered (delivered (delivered removed_cluster 1 0 r 10) 1 1 u 11)
            2 1 u 10) 2 0 r 11).
  split.
  - do 4 (eapply rtc_r; [|eapply delivered_step;
      [reflexivity|by_compute|reflexivity]]).
    exact removed_cluster_reachable.
  - split_and!; [split; [|by_compute]..|apply Permutation_swap|by_compute|by_compute];
      apply nothing_unread; vm_compute; repeat constructor.
Qed.

(** A registration whose publication fails stays in the store of its node: the nodes
    differ although there is no message left to handle. *)
Theorem unpublished_diverges :
  ∃ cl, steps three_nodes cl ∧ cl_log cl = [] ∧
    is_Some (view_of (cl_node cl 0) "edge-1") ∧ view_of (cl_node cl 1) "edge-1" = None.
Proof.
  set (w := set_mq world0 (SetPublishError (w_mq world0) (Some (EText "broker down")))).
  set (r := RegisterPeer 7 w registry0 peer_sample).
  exists (set_unpublished (set_node three_nodes 0 r.1.2) 0 ({["edge-1"]} ∪ ∅)).
  split; [|split_and!; by_compute].
  apply rtc_once, (cluster_lost three_nodes 0 7 w "edge-1"). left.
  exists peer_sample, r.1.1, (EText "broker down"). split_and!; vm_compute; reflexivity.
Qed.
