(* ===== verification/PeerList.v ===== *)
(** The peer list service (internal/service/peer_list_service.go): who may see
    which peer, the role and status filters, and paging with Go's 64-bit [int]. *)
From S2P Require Import Prelude GoStrings GoTime Errors Metrics TopicFilter Acl Topics.
From S2P Require Import Mq Model Codec Registry PeerRegistry PeerRegistryProps.

Open Scope string_scope.
Open Scope list_scope.
Open Scope Z_scope.

(** The service; the registry it reads is passed to its operations. *)
Record PeerListService := {
  pl_topics : TopicSet;
  pl_aclService : option TopicAclService;
  pl_maxPageSize : Z
}.

Definition NewPeerListService (topics : TopicSet) (acl : option TopicAclService)
    (maxPageSize : Z) : PeerListService :=
  let maxPageSize := if decide (maxPageSize ≤ 0) then 100 else maxPageSize in
  {| pl_topics := topics; pl_aclService := acl; pl_maxPageSize := maxPageSize |}.

(** * The filters *)

(** The loop of [filterByAcl]. *)
Fixpoint filterByAcl_loop (topics : TopicSet) (acl : TopicAclService) (callerId : string)
    (peers : list DdPeerInfo) (result : list DdPeerInfo) : list DdPeerInfo :=
  match peers with
  | [] => result
  | peer :: peers' =>
      if Authorize acl callerId AclActionSub (TransferRequest topics (p_Id peer)) ||
         Authorize acl callerId AclActionPub (TransferRequest topics (p_Id peer))
      then filterByAcl_loop topics acl callerId peers' (result ++ [peer])
      else filterByAcl_loop topics acl callerId peers' result
  end.

Definition filterByAcl (s : PeerListService) (callerId : string) (peers : list DdPeerInfo)
    : list DdPeerInfo :=
  match pl_aclService s with
  | None => peers
  | Some acl =>
      if decide (callerId = "") then peers
      else filterByAcl_loop (pl_topics s) acl callerId peers []
  end.

Fixpoint filterByRole_loop (peers : list DdPeerInfo) (roleFilter : string)
    (result : list DdPeerInfo) : list DdPeerInfo :=
  match peers with
  | [] => result
  | peer :: peers' =>
      if decide (p_Role peer = roleFilter)
      then filterByRole_loop peers' roleFilter (result ++ [peer])
      else filterByRole_loop peers' roleFilter result
  end.

Definition filterByRole (peers : list DdPeerInfo) (roleFilter : string) : list DdPeerInfo :=
  if decide (roleFilter = "") then peers else filterByRole_loop peers roleFilter [].

Fixpoint filterByStatus_loop (peers : list DdPeerInfo) (statusFilter : string)
    (result : list DdPeerInfo) : list DdPeerInfo :=
  match peers with
  | [] => result
  | peer :: peers' =>
      if decide (p_Status peer = statusFilter)
      then filterByStatus_loop peers' statusFilter (result ++ [peer])
      else filterByStatus_loop peers' statusFilter result
  end.

Definition filterByStatus (peers : list DdPeerInfo) (statusFilter : string)
    : list DdPeerInfo :=
  if decide (statusFilter = "") then peers else filterByStatus_loop peers statusFilter [].

(** * Paging *)

Definition page_size (s : PeerListService) (pageSize : Z) : Z :=
  if decide (pageSize ≤ 0 ∨ pageSize > pl_maxPageSize s) then 20 else pageSize.

Definition page_offset (offset : Z) : Z := if decide (offset < 0) then 0 else offset.

(** The page of [filtered] (nil, [None], beyond its end) and whether more follow. *)
Definition page {A} (filtered : list A) (offset pageSize : Z) : go (option (list A) * bool) :=
  let totalCount := Z.of_nat (length filtered) in
  if decide (wrap64 (offset + pageSize) < totalCount) then
    (let? p := slice filtered offset (wrap64 (offset + pageSize)) in Ret (Some p, true))%go
  else if decide (offset < totalCount) then
    (let? p := slice filtered offset totalCount in Ret (Some p, false))%go
  else Ret (None, false).

Section peer_list.
Context {S C : Type} `{StoreLaws S} `{MqClient C} `{RegistryCodecs}.
Context `{JsonCodec PeerListQuery} `{JsonCodec PeerListResponse}.
Implicit Types (registry : PeerRegistryService S) (w : World C).

Definition PeerList_Start w (s : PeerListService) : World C * option error :=
  let '(c, err) := mq_Subscribe (w_mq w) (t_PeerListQuery (pl_topics s)) hPeerListQuery in
  (set_mq w c,
   match err with
   | Some e => Some (EText ("subscribe peer list query topic: " +:+ error_text e))
   | None => None
   end).

(** The three filters of [handleQuery], in the code's order. *)
Definition list_filtered (ρ : ranger) (now : Time) registry (s : PeerListService)
    (req : PeerListQuery) : list DdPeerInfo :=
  let allPeers := GetPeers ρ now registry (plq_ResourceFilter req) in
  let filtered := filterByAcl s (plq_SourcePeerId req) allPeers in
  let filtered := filterByRole filtered (plq_RoleFilter req) in
  filterByStatus filtered (plq_StatusFilter req).

Definition list_response (ρ : ranger) (now : Time) registry (s : PeerListService)
    (req : PeerListQuery) : go PeerListResponse :=
  let filtered := list_filtered ρ now registry s req in
  let pageSize := page_size s (plq_PageSize req) in
  let offset := page_offset (plq_PageOffset req) in
  (let? (peers, hasMore) := page filtered offset pageSize in
   Ret {| plr_RequestId := plq_RequestId req;
          plr_CorrelationId := plq_RequestId req;
          plr_Peers := peers;
          plr_TotalCount := Z.of_nat (length filtered);
          plr_PageOffset := offset;
          plr_HasMore := hasMore |})%go.

Definition PeerList_handleQuery (ρ : ranger) (now : Time) w registry (s : PeerListService)
    (payload : bytes) : go (World C) :=
  match json_Unmarshal (A := PeerListQuery) payload with
  | Fail _ => Ret w
  | Ok req =>
      (let? resp := list_response ρ now registry s req in
       match json_Marshal resp with
       | Fail _ => Ret w
       | Ok data =>
           if decide (plq_ReplyTo req ≠ "")
           then Ret (set_mq w (mq_Publish (w_mq w) (plq_ReplyTo req) data).1)
           else Ret w
       end)%go
  end.

End peer_list.

(** * The filters keep exactly the visible peers *)

(** The access-control list lets the caller see a peer. *)
Definition may_see (s : PeerListService) (callerId : string) (p : DdPeerInfo) : Prop :=
  match pl_aclService s with
  | None => True
  | Some acl =>
      callerId = "" ∨
      Authorize acl callerId AclActionSub (TransferRequest (pl_topics s) (p_Id p)) = true ∨
      Authorize acl callerId AclActionPub (TransferRequest (pl_topics s) (p_Id p)) = true
  end.

#[export] Instance may_see_dec s callerId p : Decision (may_see s callerId p).
Proof. unfold may_see. destruct (pl_aclService s); apply _. Defined.

Definition has_role (r : string) (p : DdPeerInfo) : Prop := r = "" ∨ p_Role p = r.
Definition has_status (r : string) (p : DdPeerInfo) : Prop := r = "" ∨ p_Status p = r.
#[export] Instance has_role_dec r p : Decision (has_role r p).
Proof. unfold has_role. apply _. Defined.
#[export] Instance has_status_dec r p : Decision (has_status r p).
Proof. unfold has_status. apply _. Defined.

Lemma filter_all {A} (P : A → Prop) `{!∀ x, Decision (P x)} (l : list A) :
  (∀ x, P x) → filter P l = l.
Proof.
  intros HP. induction l as [|x l IH]; [done|]. by rewrite filter_cons_True, IH by apply HP.
Qed.

Lemma filter_step {A} (P : A → Prop) `{!∀ x, Decision (P x)} x l out :
  out ++ filter P (x :: l) =
  (if decide (P x) then (out ++ [x]) ++ filter P l else out ++ filter P l).
Proof. rewrite filter_cons. case_decide; [|done]. by rewrite <- app_assoc. Qed.

Lemma filterByAcl_filter s callerId peers :
  filterByAcl s callerId peers = filter (may_see s callerId) peers.
Proof.
  unfold filterByAcl. destruct (pl_aclService s) as [acl|] eqn:Ea.
  2:{ rewrite filter_all; [done|]. intros p. unfold may_see. by rewrite Ea. }
  case_decide as Hc.
  { rewrite filter_all; [done|]. intros p. unfold may_see. rewrite Ea. by left. }
  change (filter (may_see s callerId) peers) with ([] ++ filter (may_see s callerId) peers).
  generalize (@nil DdPeerInfo) as out.
  induction peers as [|p peers IH]; intros out; simpl; [by rewrite app_nil_r|].
  rewrite filter_step. destruct (_ || _) eqn:Eo; rewrite IH.
  - rewrite decide_True; [done|]. unfold may_see. rewrite Ea. right.
    by apply orb_true_iff in Eo.
  - rewrite decide_False; [done|]. unfold may_see. rewrite Ea.
    apply orb_false_iff in Eo as [E1 E2]. rewrite E1, E2. by intros [?|[?|?]].
Qed.

Lemma filterByRole_filter peers r : filterByRole peers r = filter (has_role r) peers.
Proof.
  unfold filterByRole. case_decide as Hr.
  { rewrite filter_all; [done|]. by left. }
  change (filter (has_role r) peers) with ([] ++ filter (has_role r) peers).
  generalize (@nil DdPeerInfo) as out.
  induction peers as [|p peers IH]; intros out; simpl; [by rewrite app_nil_r|].
  rewrite filter_step. case_decide as E; rewrite IH.
  - by rewrite decide_True by (by right).
  - by rewrite decide_False by (by intros [?|?]).
Qed.

Lemma filterByStatus_filter peers r : filterByStatus peers r = filter (has_status r) peers.
Proof.
  unfold filterByStatus. case_decide as Hr.
  { rewrite filter_all; [done|]. by left. }
  change (filter (has_status r) peers) with ([] ++ filter (has_status r) peers).
  generalize (@nil DdPeerInfo) as out.
  induction peers as [|p peers IH]; intros out; simpl; [by rewrite app_nil_r|].
  rewrite filter_step. case_decide as E; rewrite IH.
  - by rewrite decide_True by (by right).
  - by rewrite decide_False by (by intros [?|?]).
Qed.

(** * One page *)

Lemma page_size_pos s n : 0 < page_size s n.
Proof. unfold page_size. case_decide; lia. Qed.

Lemma page_offset_nonneg n : 0 ≤ page_offset n.
Proof. unfold page_offset. case_decide; lia. Qed.

Lemma page_ok {A} (l : list A) offset pageSize :
  0 ≤ offset → 0 < pageSize → offset + pageSize ≤ int64_max →
  ∃ p, page l offset pageSize =
         Ret (p, bool_decide (offset + pageSize < Z.of_nat (length l))) ∧
    default [] p = take (Z.to_nat pageSize) (drop (Z.to_nat offset) l) ∧
    (p = None ↔ Z.of_nat (length l) ≤ offset).
Proof.
  intros Ho Hp Hs. unfold page.
  rewrite wrap64_small by (unfold int64_range, int64_min, int64_max in *; lia).
  case_decide as H1.
  - rewrite slice_ret by lia. rewrite bool_decide_eq_true_2 by lia. eexists. split; [done|].
    simpl. split; [f_equal; lia|]. split; [done|lia].
  - rewrite bool_decide_eq_false_2 by done. case_decide as H2.
    + rewrite slice_ret by lia. eexists. split; [done|]. simpl.
      split; [|split; [done|lia]].
      rewrite !take_ge; [done|rewrite length_drop; lia..].
    + eexists. split; [done|]. simpl. rewrite drop_ge by lia. rewrite take_nil.
      split; [done|]. split; [lia|done].
Qed.

(** What a client does: ask for page after page while more are announced. *)
Fixpoint fetch_pages {A} (fuel : nat) (l : list A) (offset pageSize : Z) : option (list A) :=
  match fuel with
  | O => None
  | S fuel' =>
      match page l offset pageSize with
      | Ret (p, true) =>
          rest ← fetch_pages fuel' l (offset + pageSize) pageSize;
          Some (default [] p ++ rest)
      | Ret (p, false) => Some (default [] p)
      | Panic _ => None
      end
  end.
Lemma fetch_pages_drop {A} (l : list A) pageSize fuel offset :
  0 < pageSize → Z.of_nat (length l) + pageSize ≤ int64_max →
  0 ≤ offset ≤ Z.of_nat (length l) →
  Z.of_nat (length l) - offset < Z.of_nat fuel →
  fetch_pages fuel l offset pageSize = Some (drop (Z.to_nat offset) l).
Proof.
  intros Hp Hmax. revert offset. induction fuel as [|fuel IH]; intros offset Ho Hf; [lia|].
  simpl. destruct (page_ok l offset pageSize) as (p & -> & Hd & _); [lia..|].
  case_bool_decide as Hm.
  - rewrite IH by lia. simpl. rewrite Hd. f_equal.
    rewrite Z2Nat.inj_add by lia.
    by rewrite <- drop_drop, take_drop.
  - f_equal. rewrite Hd, take_ge; [done|]. rewrite length_drop. lia.
Qed.

(** * Properties *)

Section claims.
Context {S C : Type} `{StoreLaws S} `{MqClient C} `{RegistryCodecs}.
Context `{JsonCodec PeerListQuery} `{JsonCodec PeerListResponse}.
Implicit Types (registry : PeerRegistryService S) (w : World C).

(** C20: the answer to one peer list query, as long as the page's end fits Go's
    [int]: it lists, at the position asked for, at most a page of the peers that
    are listed for the resource, to whose own request topic the access-control list
    lets the caller publish or subscribe, and that have the role and status asked for;
    it counts all of those, and announces more exactly when some remain.

    The position is one in the iteration order [ρ] of this query.  The design asks for a
    sort before the cut, and for a filter by the peer's resource; the code has neither,
    and the pages of two queries need not fit together: see [pages_repeat]. *)
Theorem list_response_exact ρ now registry s req :
  let offset := page_offset (plq_PageOffset req) in
  let pageSize := page_size s (plq_PageSize req) in
  let visible := filter (λ p, may_see s (plq_SourcePeerId req) p ∧
                              has_role (plq_RoleFilter req) p ∧
                              has_status (plq_StatusFilter req) p)
                   (GetPeers ρ now registry (plq_ResourceFilter req)) in
  offset + pageSize ≤ int64_max →
  ∃ resp, list_response ρ now registry s req = Ret resp ∧
    default [] (plr_Peers resp) =
      take (Z.to_nat pageSize) (drop (Z.to_nat offset) visible) ∧
    plr_TotalCount resp = Z.of_nat (length visible) ∧
    (plr_HasMore resp = true ↔ offset + pageSize < Z.of_nat (length visible)) ∧
    plr_RequestId resp = plq_RequestId req ∧ plr_PageOffset resp = offset.
Proof.
  intros offset pageSize visible Hmax. unfold list_response.
  assert (list_filtered ρ now registry s req = visible) as ->.
  { unfold list_filtered, visible.
    rewrite filterByStatus_filter, filterByRole_filter, filterByAcl_filter.
    rewrite !list_filter_filter. apply list_filter_iff. tauto. }
  cbv zeta. fold offset pageSize. destruct (page_ok visible offset pageSize) as (p & -> & Hd & _);
    [apply page_offset_nonneg|apply page_size_pos|done|].
  eexists. split; [done|]. simpl. rewrite bool_decide_eq_true. done.
Qed.

(** C21: a page offset so large that the page's end overflows Go's [int] makes
    the handler panic: the overflowed end is negative, passes the guard that there
    is more to come, and is used as a slice bound.  Any caller can send one. *)
Theorem PeerList_handleQuery_overflow ρ now w registry s payload req :
  json_Unmarshal payload = Ok req →
  plq_PageOffset req ≤ int64_max →
  pl_maxPageSize s ≤ int64_max →
  int64_max < plq_PageOffset req + page_size s (plq_PageSize req) →
  PeerList_handleQuery ρ now w registry s payload = Panic "slice bounds out of range".
Proof.
  intros E Ho Hm Hover. unfold PeerList_handleQuery. rewrite E. unfold list_response.
  assert (page_size s (plq_PageSize req) ≤ int64_max) as Hs.
  { unfold page_size, int64_max in *. case_decide; lia. }
  assert (page_offset (plq_PageOffset req) = plq_PageOffset req) as ->.
  { unfold page_offset. rewrite decide_False; [done|]. lia. }
  pose proof (page_size_pos s (plq_PageSize req)) as Hp.
  unfold page.
  assert (wrap64 (plq_PageOffset req + page_size s (plq_PageSize req)) < 0) as Hneg
    by (rewrite wrap64_over; unfold int64_max in *; lia).
  rewrite decide_True by lia. unfold slice. by rewrite decide_False by lia.
Qed.

End claims.

(** * The pages of two queries *)

Definition set_offset (req : PeerListQuery) (offset : Z) : PeerListQuery :=
  {| plq_RequestId := plq_RequestId req; plq_SourcePeerId := plq_SourcePeerId req;
     plq_ResourceFilter := plq_ResourceFilter req; plq_RoleFilter := plq_RoleFilter req;
     plq_StatusFilter := plq_StatusFilter req; plq_PageSize := plq_PageSize req;
     plq_PageOffset := offset; plq_ReplyTo := plq_ReplyTo req |}.

Definition ranger_rev (ρ : ranger) : ranger :=
  {| range V m := reverse (range ρ m);
     range_perm V m := transitivity (reverse_Permutation (range ρ m)) (range_perm ρ m) |}.

(** The page that starts at the last position of a list. *)
Lemma page_last {A} (l : list A) x :
  Z.of_nat (length l) + 1 ≤ int64_max →
  page (l ++ [x]) (Z.of_nat (length l)) 1 = Ret (Some [x], false).
Proof.
  intros Hn. destruct (page_ok (l ++ [x]) (Z.of_nat (length l)) 1) as (p & -> & Hd & Hp); [lia..|].
  rewrite length_app in *. cbn [length] in *. rewrite bool_decide_eq_false_2 by lia.
  rewrite Nat2Z.id, drop_app_length in Hd. destruct p as [p|]; [by simplify_eq/=|].
  assert (Z.of_nat (length l + 1) ≤ Z.of_nat (length l)) by (by apply Hp). lia.
Qed.

Lemma page_first {A} (l : list A) x :
  (0 < length l)%nat → Z.of_nat (length (x :: l)) ≤ int64_max →
  page (x :: l) 0 1 = Ret (Some [x], true).
Proof.
  intros Hl Hn. destruct (page_ok (x :: l) 0 1) as (p & -> & Hd & Hp); [cbn in *; lia..|].
  rewrite bool_decide_eq_true_2 by (cbn [length]; lia).
  destruct p as [p|]; [by simplify_eq/=|].
  assert (Z.of_nat (length (x :: l)) ≤ 0) as ?%Z.lt_nge by (by apply Hp); cbn in *; lia.
Qed.

Lemma list_filtered_rev `{RegistryCodecs} ρ now (registry : PeerRegistryService MemoryStore) s req :
  list_filtered (ranger_rev ρ) now registry s req = reverse (list_filtered ρ now registry s req).
Proof.
  unfold list_filtered.
  rewrite !filterByStatus_filter, !filterByRole_filter, !filterByAcl_filter, !GetPeers_filter.
  cbn [store_List MemoryStore_store]. rewrite !MemoryStore_List_values.
  unfold range_values. cbn [range ranger_rev]. rewrite fmap_reverse, !filter_reverse. done.
Qed.

(** A client that reads two peers page by page can get one of them twice and never the
    other; in general the last page can repeat the first.  The store answers every query
    in an order of its own. *)
Theorem pages_repeat `{RegistryCodecs} ρ now (registry : PeerRegistryService MemoryStore) s req :
  let n := Z.of_nat (length (list_filtered ρ now registry s req)) in
  2 ≤ n < int64_max → page_size s (plq_PageSize req) = 1 →
  ∃ ρ' p first last,
    list_response ρ now registry s (set_offset req 0) = Ret first ∧
    list_response ρ' now registry s (set_offset req (n - 1)) = Ret last ∧
    plr_Peers first = Some [p] ∧ plr_HasMore first = true ∧
    plr_Peers last = Some [p] ∧ plr_HasMore last = false.
Proof.
  intros n Hn Hsize. exists (ranger_rev ρ).
  assert (∀ k, 0 ≤ k → page_offset k = k) as Hoff
    by (intros; unfold page_offset; by rewrite decide_False by lia).
  unfold list_response. cbv zeta.
  change (list_filtered ?r now registry s (set_offset req ?o))
    with (list_filtered r now registry s req).
  rewrite list_filtered_rev. cbn [plq_PageSize plq_PageOffset set_offset plq_RequestId].
  rewrite Hsize, !Hoff by lia. unfold n in *. clear n.
  destruct (list_filtered ρ now registry s req) as [|p l]; cbn [length] in *; [lia|].
  rewrite reverse_cons, page_first by (cbn [length]; lia).
  replace (Z.of_nat (S (length l)) - 1) with (Z.of_nat (length (reverse l)))
    by (rewrite length_reverse; lia).
  rewrite page_last by (rewrite length_reverse; lia).
  exists p. eexists _, _. split_and!; done.
Qed.

(** A client that asks for page after page, as long as more are announced,
    gets every element exactly once and in order, and stops: one more request than
    the list has elements is always enough. *)
Theorem fetch_pages_complete {A} (l : list A) pageSize :
  0 < pageSize → Z.of_nat (length l) + pageSize ≤ int64_max →
  fetch_pages (S (length l)) l 0 pageSize = Some l.
Proof.
  intros Hp Hmax. rewrite fetch_pages_drop by lia. by rewrite drop_0.
Qed.

Lemma fetch_pages_complete_witness :
  0 < 2 ∧ 3 + 2 ≤ int64_max ∧ fetch_pages 4 ["a"; "b"; "c"] 0 2 = Some ["a"; "b"; "c"].
Proof.
  split_and!; [lia|by_compute|]. apply (fetch_pages_complete ["a"; "b"; "c"] 2); by_compute.
Defined.

(** * The properties at a concrete hub *)

Definition list_query (offset : Z) : PeerListQuery :=
  {| plq_RequestId := "q1"; plq_SourcePeerId := "edge-1"; plq_ResourceFilter := "";
     plq_RoleFilter := "edge"; plq_StatusFilter := ""; plq_PageSize := 10;
     plq_PageOffset := offset; plq_ReplyTo := "dd/default/reply" |}.

#[local] Instance list_query_codec : JsonCodec PeerListQuery :=
  table_codec [(list_query int64_max, json_text "{'page_offset':9223372036854775807}")].
#[local] Instance list_response_codec : JsonCodec PeerListResponse := table_codec [].
#[local] Existing Instance sample_codecs.
#[local] Existing Instance mock_std.

Definition list_service : PeerListService :=
  NewPeerListService (NewDefaultTopicSet "default")
    (Some {| rules := [{| r_PeerId := "edge-1"; r_Action := AclActionPub;
                          r_Pattern := "dd/default/transfer/#"; r_Allow := true |}] |}) 50.

Definition hub_registry : PeerRegistryService MemoryStore :=
  set_store registry0 (MemoryStore_Set NewMemoryStore "edge-1" peer_sample).

Lemma list_response_exact_witness :
  page_offset 0 + page_size list_service 10 ≤ int64_max ∧
  ∃ resp, list_response ranger_std 20 hub_registry list_service (list_query 0) = Ret resp ∧
    plr_TotalCount resp = 1.
Proof.
  split; [by_compute|].
  destruct (list_response_exact ranger_std 20 hub_registry list_service (list_query 0))
    as (resp & E & _ & Ht & _); [by_compute|].
  exists resp. split; [exact E|]. rewrite Ht. vm_compute. reflexivity.
Defined.

Lemma PeerList_handleQuery_overflow_witness :
  let payload := to_bytes (json_text "{'page_offset':9223372036854775807}") in
  json_Unmarshal payload = Ok (list_query int64_max) ∧
  int64_max < int64_max + page_size list_service 10 ∧
  PeerList_handleQuery (C := MockClient)
    ranger_std 20 world0 hub_registry list_service payload = Panic "slice bounds out of range".
Proof.
  split_and!; [vm_compute; reflexivity|by_compute|].
  eapply (PeerList_handleQuery_overflow (C := MockClient)
    ranger_std 20 _ hub_registry list_service
    (to_bytes (json_text "{'page_offset':9223372036854775807}")) (list_query int64_max));
    [vm_compute; reflexivity|by_compute..].
Defined.
