(* ===== verification/Catalog.v ===== *)
(** The resource catalog (internal/service/resource_catalog.go): an index from
    resources to the peers that provide them, and its refinement of a relation. *)
From S2P Require Import Prelude GoStrings GoTime Errors Model.

Open Scope string_scope.
Open Scope list_scope.

Record ResourceCatalog := { cat_index : gmap string (list string) }.

Definition NewResourceCatalog : ResourceCatalog := {| cat_index := ∅ |}.

(** The search loop of [addProvider], then the append. *)
Fixpoint has_provider (providers : list string) (peerId : string) : bool :=
  match providers with
  | [] => false
  | pid :: rest => if decide (pid = peerId) then true else has_provider rest peerId
  end.

Definition addProvider (c : ResourceCatalog) (resource peerId : string) : ResourceCatalog :=
  let providers := default [] (cat_index c !! resource) in
  if has_provider providers peerId then c
  else {| cat_index := <[resource := providers ++ [peerId]]> (cat_index c) |}.

(** The inner loop of the removals. *)
Definition without_provider (providers : list string) (peerId : string) : list string :=
  foldl (λ filtered pid, if decide (pid ≠ peerId) then filtered ++ [pid] else filtered)
    [] providers.

(** The outer loop writes each filtered list back while it ranges over the map. *)
Definition remove_provider (ρ : ranger) (c : ResourceCatalog) (peerId : string)
    : ResourceCatalog :=
  {| cat_index := foldl (λ m '(resource, providers),
       <[resource := without_provider providers peerId]> m)
       (cat_index c) (range ρ (cat_index c)) |}.

Definition OnPeerRegistered (c : ResourceCatalog) (peer : DdPeerInfo) : ResourceCatalog :=
  foldl (λ c resource, addProvider c resource (p_Id peer)) c (p_Resources peer).

Definition OnPeerUnregistered (ρ : ranger) (c : ResourceCatalog) (peerId : string)
    : ResourceCatalog := remove_provider ρ c peerId.

Definition OnResourceReport (ρ : ranger) (c : ResourceCatalog) (peerId : string)
    (resources : list string) : ResourceCatalog :=
  let c := remove_provider ρ c peerId in
  foldl (λ c resource, addProvider c resource peerId) c resources.

Definition GetProviders (c : ResourceCatalog) (resource : string) : list string :=
  default [] (cat_index c !! resource).

Definition ListResources (ρ : ranger) (c : ResourceCatalog) : list string :=
  foldl (λ result '(resource, _), result ++ [resource]) [] (range ρ (cat_index c)).

(** * Lemmas *)

Lemma has_provider_elem providers peerId :
  has_provider providers peerId = true ↔ peerId ∈ providers.
Proof.
  induction providers as [|pid l IH]; simpl; [by rewrite elem_of_nil|].
  rewrite elem_of_cons. case_decide as E; [subst; tauto|]. rewrite IH.
  split; [by right|]. intros [->|?]; done.
Qed.

Lemma without_provider_aux (providers : list string) (peerId : string) (out : list string) :
  foldl (λ filtered pid, if decide (pid ≠ peerId) then filtered ++ [pid] else filtered)
    out providers = out ++ filter (λ pid, pid ≠ peerId) providers.
Proof.
  revert out. induction providers as [|p l IH]; intros out; simpl; [by rewrite app_nil_r|].
  rewrite IH, filter_cons. case_decide; [by rewrite <- app_assoc|done].
Qed.

Lemma without_provider_filter providers peerId :
  without_provider providers peerId = filter (λ pid, pid ≠ peerId) providers.
Proof. apply without_provider_aux. Qed.

Lemma addProvider_lookup c resource peerId r :
  GetProviders (addProvider c resource peerId) r =
  if decide (r = resource ∧ peerId ∉ GetProviders c resource)
  then GetProviders c r ++ [peerId] else GetProviders c r.
Proof.
  unfold addProvider, GetProviders.
  pose proof (has_provider_elem (default [] (cat_index c !! resource)) peerId) as Hh.
  destruct (has_provider _ _).
  - rewrite decide_False; [done|]. intros [_ H]. by apply H, Hh.
  - simpl. destruct (decide (r = resource)) as [->|Hne].
    + rewrite lookup_insert_eq, decide_True; [done|]. split; [done|].
      intros H. by apply Hh in H.
    + rewrite lookup_insert_ne by done. rewrite decide_False; [done|]. by intros [? _].
Qed.

Lemma remove_provider_lookup ρ c peerId r :
  GetProviders (remove_provider ρ c peerId) r =
  filter (λ pid, pid ≠ peerId) (GetProviders c r).
Proof.
  unfold remove_provider, GetProviders. simpl.
  pose proof (foldl_insert_lookup (λ _ v, Some (without_provider v peerId))
    (range ρ (cat_index c)) (cat_index c) r (range_NoDup_fst _ _)) as H.
  simpl in H. rewrite H by (intros k v; apply range_lookup). clear H.
  destruct (cat_index c !! r) as [l|] eqn:E; simpl; [|done].
  rewrite decide_True; [simpl; apply without_provider_filter|].
  apply list_elem_of_fmap. exists (r, l). by rewrite range_lookup.
Qed.

Lemma addProviders_spec c resources peerId r :
  NoDup (GetProviders c r) →
  let c' := foldl (λ c resource, addProvider c resource peerId) c resources in
  NoDup (GetProviders c' r) ∧
  (∀ p, p ∈ GetProviders c' r ↔ p ∈ GetProviders c r ∨ (p = peerId ∧ r ∈ resources)).
Proof.
  revert c. induction resources as [|x l IH]; intros c Hnd; simpl.
  - split; [done|]. intros p. rewrite elem_of_nil. tauto.
  - destruct (IH (addProvider c x peerId)) as [Hnd' Hin];
      rewrite addProvider_lookup in *.
    + case_decide as Hd; [|done]. destruct Hd as [-> Hni].
      apply NoDup_app. split_and!; [done| |apply NoDup_singleton].
      intros y Hy. rewrite list_elem_of_singleton. by intros ->.
    + split; [done|]. intros p. rewrite Hin, elem_of_cons. case_decide as Hd.
      * destruct Hd as [-> Hni]. rewrite elem_of_app, list_elem_of_singleton. tauto.
      * split; [tauto|]. intros [?|[-> [->|?]]]; auto. left.
        destruct (decide (peerId ∈ GetProviders c x)); [done|]. by destruct Hd.
Qed.

(** * The catalog as a relation *)

(** The events that reach a catalog; a removal ranges over the map in some order. *)
Inductive catalog_event :=
| EvRegistered (peer : DdPeerInfo)
| EvUnregistered (ρ : ranger) (peerId : string)
| EvReport (ρ : ranger) (peerId : string) (resources : list string).

Definition catalog_run (c : ResourceCatalog) (ev : catalog_event) : ResourceCatalog :=
  match ev with
  | EvRegistered peer => OnPeerRegistered c peer
  | EvUnregistered ρ peerId => OnPeerUnregistered ρ c peerId
  | EvReport ρ peerId resources => OnResourceReport ρ c peerId resources
  end.

(** The specification: a finite relation between resources and peers. *)
Definition provides_step (R : gset (string * string)) (ev : catalog_event)
    : gset (string * string) :=
  match ev with
  | EvRegistered peer => R ∪ list_to_set ((λ r, (r, p_Id peer)) <$> p_Resources peer)
  | EvUnregistered _ peerId => filter (λ rp, rp.2 ≠ peerId) R
  | EvReport _ peerId resources =>
      filter (λ rp, rp.2 ≠ peerId) R ∪ list_to_set ((λ r, (r, peerId)) <$> resources)
  end.

(** The catalog represents a relation: each pair once. *)
Definition represents (c : ResourceCatalog) (R : gset (string * string)) : Prop :=
  ∀ r, NoDup (GetProviders c r) ∧ ∀ p, p ∈ GetProviders c r ↔ (r, p) ∈ R.

Lemma elem_of_pairs (resources : list string) (peerId r p : string) :
  (r, p) ∈ (list_to_set ((λ r, (r, peerId)) <$> resources) : gset (string * string)) ↔
  p = peerId ∧ r ∈ resources.
Proof.
  rewrite elem_of_list_to_set, list_elem_of_fmap. split.
  - intros (x & [= -> ->] & Hx). done.
  - intros [-> Hr]. by exists r.
Qed.

Lemma catalog_run_represents c R ev :
  represents c R → represents (catalog_run c ev) (provides_step R ev).
Proof.
  intros Hc r. destruct (Hc r) as [Hnd Hin].
  destruct ev as [peer|ρ peerId|ρ peerId resources]; simpl.
  - unfold OnPeerRegistered.
    destruct (addProviders_spec c (p_Resources peer) (p_Id peer) r Hnd) as [? H2].
    split; [done|]. intros p. rewrite H2, Hin, elem_of_union, elem_of_pairs. done.
  - unfold OnPeerUnregistered. rewrite remove_provider_lookup.
    split; [by apply NoDup_filter|]. intros p.
    rewrite list_elem_of_filter, elem_of_filter, Hin. done.
  - unfold OnResourceReport.
    destruct (addProviders_spec (remove_provider ρ c peerId) resources peerId r) as [? H2].
    { rewrite remove_provider_lookup. by apply NoDup_filter. }
    split; [done|]. intros p.
    rewrite H2, remove_provider_lookup, list_elem_of_filter, Hin, elem_of_union,
      elem_of_filter, elem_of_pairs. done.
Qed.

(** * Properties *)

(** C22: the catalog refines a relation between resources and peers: after any
    sequence of registrations, removals and reports, the providers of a resource
    are exactly the related peers, each once; a report replaces everything its peer
    provided before, a registration only adds. *)
Theorem catalog_refines_relation (events : list catalog_event) resource :
  let c := foldl catalog_run NewResourceCatalog events in
  let R := foldl provides_step ∅ events in
  NoDup (GetProviders c resource) ∧
  ∀ p, p ∈ GetProviders c resource ↔ (resource, p) ∈ R.
Proof.
  assert (∀ c R, represents c R →
    represents (foldl catalog_run c events) (foldl provides_step R events)) as H.
  { induction events as [|ev events IH]; intros c R Hc; simpl; [done|].
    by apply IH, catalog_run_represents. }
  apply H. intros r. split; [constructor|]. intros p.
  unfold GetProviders. simpl. rewrite lookup_empty, elem_of_nil. set_solver.
Qed.
