(* ===== verification/DataService.v ===== *)
(** The transfer service (internal/service/dd_data_service.go): asynchronous
    publication, synchronous request/response over the message queue with pending
    calls, the idempotency cache, transfer records and their sweeps.

    A [chan *DdMessage] of capacity one is a cell of a heap of channels: the pending
    map holds the address, a waiting call and a response handler may hold it too.
    [SendSync] is cut where it gives up the lock of the pending map or touches its
    channel; the pieces are composed by [SendSync_begin] and by the step relation of
    DataServiceProps. *)
From S2P Require Import Prelude GoStrings GoTime Errors Metrics TopicFilter Acl Topics.
From S2P Require Import Mq Model Message Codec.

Open Scope string_scope.
Open Scope list_scope.
Open Scope Z_scope.

Definition maxIdempotentKeys : nat := 10000.

Record idempotentEntry := { ie_response : DdMessage; ie_expireAt : Time }.

(** A buffered channel of capacity one: empty, or holding one response. *)
Abbreviation channel := (option DdMessage).

Record DdDataService := {
  ds_defaultTimeout : Duration;
  ds_statusRetention : Duration;
  ds_compressThreshold : Z;
  ds_maxPendingRequests : Z;
  ds_aclService : option TopicAclService;
  ds_pendingRequests : gmap string nat;
  ds_channels : gmap nat channel;
  ds_idempotentKeys : gmap string idempotentEntry;
  ds_transferStatuses : gmap string TransferRecord
}.

Definition NewDdDataService (defaultTimeout : Duration) (acl : option TopicAclService)
    : DdDataService := {|
  ds_defaultTimeout := defaultTimeout;
  ds_statusRetention := 30 * Minute;
  ds_compressThreshold := 128;
  ds_maxPendingRequests := 1024;
  ds_aclService := acl;
  ds_pendingRequests := ∅;
  ds_channels := ∅;
  ds_idempotentKeys := ∅;
  ds_transferStatuses := ∅
|}.

Definition set_pending (s : DdDataService) v := {|
  ds_defaultTimeout := ds_defaultTimeout s; ds_statusRetention := ds_statusRetention s;
  ds_compressThreshold := ds_compressThreshold s;
  ds_maxPendingRequests := ds_maxPendingRequests s; ds_aclService := ds_aclService s;
  ds_pendingRequests := v; ds_channels := ds_channels s;
  ds_idempotentKeys := ds_idempotentKeys s; ds_transferStatuses := ds_transferStatuses s |}.
Definition set_channels (s : DdDataService) v := {|
  ds_defaultTimeout := ds_defaultTimeout s; ds_statusRetention := ds_statusRetention s;
  ds_compressThreshold := ds_compressThreshold s;
  ds_maxPendingRequests := ds_maxPendingRequests s; ds_aclService := ds_aclService s;
  ds_pendingRequests := ds_pendingRequests s; ds_channels := v;
  ds_idempotentKeys := ds_idempotentKeys s; ds_transferStatuses := ds_transferStatuses s |}.
Definition set_idempotent (s : DdDataService) v := {|
  ds_defaultTimeout := ds_defaultTimeout s; ds_statusRetention := ds_statusRetention s;
  ds_compressThreshold := ds_compressThreshold s;
  ds_maxPendingRequests := ds_maxPendingRequests s; ds_aclService := ds_aclService s;
  ds_pendingRequests := ds_pendingRequests s; ds_channels := ds_channels s;
  ds_idempotentKeys := v; ds_transferStatuses := ds_transferStatuses s |}.
Definition set_statuses (s : DdDataService) v := {|
  ds_defaultTimeout := ds_defaultTimeout s; ds_statusRetention := ds_statusRetention s;
  ds_compressThreshold := ds_compressThreshold s;
  ds_maxPendingRequests := ds_maxPendingRequests s; ds_aclService := ds_aclService s;
  ds_pendingRequests := ds_pendingRequests s; ds_channels := ds_channels s;
  ds_idempotentKeys := ds_idempotentKeys s; ds_transferStatuses := v |}.

(** * Transfer records *)

Definition recordStatus (now : Time) (s : DdDataService) (requestId : string)
    (msg : DdMessage) (status : string) (latencyMs : Z) : DdDataService :=
  let rec0 :=
    match ds_transferStatuses s !! requestId with
    | Some rec => rec
    | None => {| tr_RequestId := requestId; tr_Resource := msg_Resource msg;
                 tr_Protocol := msg_Protocol msg; tr_Mode := msg_Mode msg;
                 tr_SourcePeerId := h_SourcePeerId (msg_Header msg);
                 tr_TargetPeerId := h_TargetPeerId (msg_Header msg);
                 tr_Status := ""; tr_LatencyMs := 0; tr_CreatedAt := now;
                 tr_UpdatedAt := 0 |}
    end in
  let rec := {| tr_RequestId := tr_RequestId rec0; tr_Resource := tr_Resource rec0;
                tr_Protocol := tr_Protocol rec0; tr_Mode := tr_Mode rec0;
                tr_SourcePeerId := tr_SourcePeerId rec0;
                tr_TargetPeerId := tr_TargetPeerId rec0; tr_Status := status;
                tr_LatencyMs := latencyMs; tr_CreatedAt := tr_CreatedAt rec0;
                tr_UpdatedAt := now |} in
  set_statuses s (<[requestId := rec]> (ds_transferStatuses s)).

Definition GetTransferStatus (s : DdDataService) (requestId : string)
    : option TransferRecord := ds_transferStatuses s !! requestId.

(** One tick of [sweepTransferStatuses]. *)
Definition sweepTransferStatuses (ρ : ranger) (now : Time) (s : DdDataService)
    : DdDataService :=
  set_statuses s
    (foldl (λ m '(requestID, rec),
       if decide (Sub now (tr_UpdatedAt rec) > ds_statusRetention s)
       then delete requestID m else m)
     (ds_transferStatuses s) (range ρ (ds_transferStatuses s))).

(** * The idempotency cache *)

Definition lookupIdempotent (now : Time) (s : DdDataService) (msg : DdMessage)
    : option DdMessage :=
  if decide (h_IdempotencyKey (msg_Header msg) = "") then None
  else match ds_idempotentKeys s !! h_IdempotencyKey (msg_Header msg) with
       | Some entry =>
           if Before now (ie_expireAt entry) then Some (ie_response entry) else None
       | None => None
       end.

Definition storeIdempotent (now : Time) (s : DdDataService) (msg resp : DdMessage)
    : DdDataService :=
  if decide (h_IdempotencyKey (msg_Header msg) = "") then s
  else
    let ttl := dur_mul (dur_mul (h_TimeoutMs (msg_Header msg)) Millisecond) 5 in
    let ttl := if decide (ttl < Minute) then Minute else ttl in
    set_idempotent s
      (<[h_IdempotencyKey (msg_Header msg) :=
           {| ie_response := resp; ie_expireAt := Add now ttl |}]> (ds_idempotentKeys s)).

(** The first loop of [sweepIdempotent]: expired entries go. *)
Definition drop_expired (ρ : ranger) (now : Time) (m : gmap string idempotentEntry)
    : gmap string idempotentEntry :=
  foldl (λ m' '(key, entry),
    if After now (ie_expireAt entry) then delete key m' else m') m (range ρ m).

(** The search of the oldest entry: [first], [oldestKey], [oldestAt]. *)
Definition oldest_entry (ρ : ranger) (m : gmap string idempotentEntry)
    : bool * string * Time :=
  foldl (λ '(first, oldestKey, oldestAt) '(key, entry),
    if first || Before (ie_expireAt entry) oldestAt
    then (false, key, ie_expireAt entry) else (first, oldestKey, oldestAt))
    (true, "", time_zero) (range ρ m).

(** The eviction loop.  Each turn deletes one entry or breaks, so the size of the
    map is enough fuel; every search ranges over the map in an order of its own. *)
Fixpoint evict_loop (fuel : nat) (ρs : nat → ranger) (m : gmap string idempotentEntry)
    : gmap string idempotentEntry :=
  match fuel with
  | O => m
  | S fuel' =>
      if decide (maxIdempotentKeys < size m)%nat then
        let '(_, oldestKey, _) := oldest_entry (ρs fuel') m in
        if decide (oldestKey = "") then m
        else evict_loop fuel' ρs (delete oldestKey m)
      else m
  end.

(** One tick of [sweepIdempotent]. *)
Definition sweepIdempotent (ρ : ranger) (ρs : nat → ranger) (now : Time) (s : DdDataService)
    : DdDataService :=
  let m := drop_expired ρ now (ds_idempotentKeys s) in
  set_idempotent s (evict_loop (size m) ρs m).

(** * Channels *)

(** A [select] with a [default]: the send goes through when the buffer is empty. *)
Definition try_send (s : DdDataService) (ch : nat) (m : DdMessage) : DdDataService * bool :=
  match ds_channels s !! ch with
  | Some None => (set_channels s (<[ch := Some m]> (ds_channels s)), true)
  | _ => (s, false)
  end.

Definition try_recv (s : DdDataService) (ch : nat) : DdDataService * option DdMessage :=
  match ds_channels s !! ch with
  | Some (Some m) => (set_channels s (<[ch := None]> (ds_channels s)), Some m)
  | _ => (s, None)
  end.

Section data.
Context {C : Type} `{MqClient C} `{JsonCodec DdMessage} `{Gzip}.
Implicit Types (w : World C) (s : DdDataService).

Definition checkAcl w s (peerId action topic : string) : World C * option error :=
  match ds_aclService s with
  | None => (w, None)
  | Some acl =>
      if negb (Authorize acl peerId action topic)
      then (observe w (Inc AclDeniedTotal []), Some (EDd (ErrAclDeniedMsg peerId action topic)))
      else (w, None)
  end.

Definition shouldCompress s (msg : DdMessage) : bool :=
  bool_decide (Z.of_nat (length (msg_Payload msg)) >= ds_compressThreshold s).

(** * Asynchronous transfer *)

Definition set_created (now : Time) (msg : DdMessage) : DdMessage :=
  if IsZero (msg_CreatedAt msg) then set_CreatedAt msg now else msg.

Definition set_trace (msg : DdMessage) : DdMessage :=
  if decide (h_TraceId (msg_Header msg) = "")
  then set_Header msg (set_TraceId (msg_Header msg) (h_RequestId (msg_Header msg)))
  else msg.

(** [t_created] and [t_record] are the clock's readings.  The message pointed to is
    mutated, so it is returned; a nil pointer is rejected. *)
Definition SendAsync (ρ : ranger) (t_created t_record : Time) w s (topic : string)
    (msg : option DdMessage) : World C * DdDataService * option DdMessage * option error :=
  match msg with
  | None => (w, s, None, Some (EDd (ErrInvalidEnvelopeMsg "nil message")))
  | Some msg =>
      let msg := Normalize msg in
      let '(w, denied) := checkAcl w s (h_SourcePeerId (msg_Header msg)) "pub" topic in
      match denied with
      | Some err =>
          (observe w (Inc AsyncPublishedTotal [msg_Resource msg; "denied"]), s, Some msg,
           Some err)
      | None =>
          let msg := set_Mode msg DdTransferModeAsync in
          let msg := set_created t_created msg in
          let '(msg, invalid) := Validate_msg ρ msg in
          match invalid with
          | Some err =>
              (observe w (Inc AsyncPublishedTotal [msg_Resource msg; "invalid"]), s, Some msg,
               Some (EDd (ErrInvalidEnvelopeMsg (error_text err))))
          | None =>
              let msg := set_trace msg in
              let '(msg, data) := EncodeDdMessage msg (shouldCompress s msg) in
              match data with
              | Fail err => (w, s, Some msg, Some err)
              | Ok data =>
                  let '(c, err) := mq_Publish (w_mq w) topic data in
                  let w := set_mq w c in
                  match err with
                  | Some err =>
                      (observe w (Inc AsyncPublishedTotal [msg_Resource msg; "error"]),
                       recordStatus t_record s (h_RequestId (msg_Header msg)) msg
                         TransferStatusFailed 0,
                       Some msg, Some err)
                  | None =>
                      (observe w (Inc AsyncPublishedTotal [msg_Resource msg; "ok"]),
                       recordStatus t_record s (h_RequestId (msg_Header msg)) msg
                         TransferStatusAccepted 0,
                       Some msg, None)
                  end
              end
          end
      end
  end.

(** * Synchronous transfer *)

(** What a call has come to before it registers: an answer, from the cache or an
    error, or a request ready to register. *)
Inductive prepared :=
| PCached (resp : DdMessage)
| PFailed (err : error)
| PReady (msg : DdMessage).

Definition SendSync_prepare (ρ : ranger) (t_lookup t_created t_record : Time) w s
    (requestTopic : string) (msg : option DdMessage)
    : World C * DdDataService * prepared :=
  match msg with
  | None => (w, s, PFailed (EDd (ErrInvalidEnvelopeMsg "nil message")))
  | Some msg =>
      let msg := Normalize msg in
      let '(w, denied) := checkAcl w s (h_SourcePeerId (msg_Header msg)) "pub" requestTopic in
      match denied with
      | Some err =>
          (observe w (Inc SyncRequestsTotal [msg_Resource msg; "denied"]), s, PFailed err)
      | None =>
          match lookupIdempotent t_lookup s msg with
          | Some cached =>
              (observe w (Inc SyncRequestsTotal [msg_Resource msg; "idempotent"]), s,
               PCached cached)
          | None =>
              let msg := set_Mode msg DdTransferModeSync in
              let msg := set_created t_created msg in
              let msg :=
                if decide (h_TimeoutMs (msg_Header msg) ≤ 0)
                then set_Header msg (set_TimeoutMs (msg_Header msg)
                       (Milliseconds (ds_defaultTimeout s)))
                else msg in
              if decide (h_RequestId (msg_Header msg) = "")
              then (w, s, PFailed (EDd (ErrInvalidEnvelopeMsg "request_id is required")))
              else
                let msg := set_trace msg in
                let '(msg, invalid) := Validate_msg ρ msg in
                match invalid with
                | Some err =>
                    (w, s, PFailed (EDd (ErrInvalidEnvelopeMsg (error_text err))))
                | None =>
                    (w, recordStatus t_record s (h_RequestId (msg_Header msg)) msg
                          TransferStatusAccepted 0, PReady msg)
                end
          end
      end
  end.

(** [make(chan *DdMessage, 1)] and the section under [pendingMu]; the fresh channel
    is garbage when the call is refused. *)
Definition SendSync_register s (msg : DdMessage) : DdDataService * (error + nat) :=
  let waitCh := fresh (dom (ds_channels s)) in
  if decide (Z.of_nat (size (ds_pendingRequests s)) >= ds_maxPendingRequests s)
  then (s, inl (EDd (NewDdError ErrInternal "sync pending backpressure limit reached")))
  else match ds_pendingRequests s !! h_RequestId (msg_Header msg) with
       | Some _ => (s, inl (EDd (ErrDuplicateRequestMsg (h_RequestId (msg_Header msg)))))
       | None =>
           (set_channels
              (set_pending s
                 (<[h_RequestId (msg_Header msg) := waitCh]> (ds_pendingRequests s)))
              (<[waitCh := None]> (ds_channels s)),
            inr waitCh)
       end.

Definition SendSync_publish (t_routed t_failed : Time) w s (requestTopic : string)
    (msg : DdMessage) : World C * DdDataService * DdMessage * option error :=
  let s := recordStatus t_routed s (h_RequestId (msg_Header msg)) msg TransferStatusRouted 0 in
  let '(msg, data) := EncodeDdMessage msg (shouldCompress s msg) in
  match data with
  | Fail err =>
      (w, recordStatus t_failed s (h_RequestId (msg_Header msg)) msg TransferStatusFailed 0,
       msg, Some err)
  | Ok data =>
      let '(c, err) := mq_Publish (w_mq w) requestTopic data in
      let w := set_mq w c in
      match err with
      | Some err =>
          (observe w (Inc SyncRequestsTotal [msg_Resource msg; "error"]),
           recordStatus t_failed s (h_RequestId (msg_Header msg)) msg TransferStatusFailed 0,
           msg, Some err)
      | None => (w, s, msg, None)
      end
  end.

(** Why the [select] woke up: the context ended, the timer fired, or the channel
    has a response. *)
Inductive wakeup :=
| WakeDone (err : error)
| WakeTimer
| WakeResponse.

(** The [select] and its arms; [None] while the arm is not ready. *)
Definition SendSync_select (start t_end t_record t_store : Time) w s (msg : DdMessage)
    (ch : nat) (why : wakeup) : option (World C * DdDataService * result DdMessage) :=
  match why with
  | WakeDone err =>
      Some (observe w (Inc SyncRequestsTotal [msg_Resource msg; "cancelled"]), s, Fail err)
  | WakeTimer =>
      let w := observe w (Inc TimeoutTotal []) in
      let w := observe w (Inc SyncRequestsTotal [msg_Resource msg; "timeout"]) in
      Some (w, recordStatus t_record s (h_RequestId (msg_Header msg)) msg
                 TransferStatusTimeout 0,
            Fail (EDd (ErrSyncTimeoutMsg (h_RequestId (msg_Header msg)))))
  | WakeResponse =>
      match try_recv s ch with
      | (s, Some resp) =>
          let elapsed := Milliseconds (Sub t_end start) in
          let w := observe w (Observe SyncLatencyMs [msg_Resource msg] elapsed) in
          let w := observe w (Inc SyncRequestsTotal [msg_Resource msg; "ok"]) in
          let s := recordStatus t_record s (h_RequestId (msg_Header msg)) msg
                     TransferStatusResponded elapsed in
          Some (w, storeIdempotent t_store s msg resp, Ok resp)
      | (_, None) => None
      end
  end.

(** The deferred removal of the pending entry. *)
Definition SendSync_cleanup s (msg : DdMessage) : DdDataService :=
  set_pending s (delete (h_RequestId (msg_Header msg)) (ds_pendingRequests s)).

(** [SendSync] up to its [select]: it has returned, or waits on a channel. *)
Inductive begun :=
| Returned (res : result DdMessage)
| Waiting (msg : DdMessage) (ch : nat).

Definition SendSync_begin (ρ : ranger) (now : Time) w s (requestTopic : string)
    (msg : option DdMessage) : World C * DdDataService * begun :=
  match SendSync_prepare ρ now now now w s requestTopic msg with
  | (w, s, PCached resp) => (w, s, Returned (Ok resp))
  | (w, s, PFailed err) => (w, s, Returned (Fail err))
  | (w, s, PReady msg) =>
      match SendSync_register s msg with
      | (s, inl err) => (w, s, Returned (Fail err))
      | (s, inr ch) =>
          match SendSync_publish now now w s requestTopic msg with
          | (w, s, msg, Some err) => (w, SendSync_cleanup s msg, Returned (Fail err))
          | (w, s, msg, None) => (w, s, Waiting msg ch)
          end
      end
  end.

Definition SendSync_end (start now : Time) w s (msg : DdMessage) (ch : nat) (why : wakeup)
    : option (World C * DdDataService * result DdMessage) :=
  match SendSync_select start now now now w s msg ch why with
  | Some (w, s, res) => Some (w, SendSync_cleanup s msg, res)
  | None => None
  end.

Definition PendingRequestCount s : nat := size (ds_pendingRequests s).

(** * Responses *)

Definition SubscribeSyncResponses w (responseTopic : string) : World C * option error :=
  let '(c, err) := mq_Subscribe (w_mq w) responseTopic hSyncResponse in (set_mq w c, err).

(** The request a response answers. *)
Definition response_id (msg : DdMessage) : string :=
  if decide (h_CorrelationId (msg_Header msg) = "") then h_RequestId (msg_Header msg)
  else h_CorrelationId (msg_Header msg).

(** The handler up to the look-up under [pendingMu]. *)
Definition response_lookup s (payload : bytes) : option (nat * DdMessage) :=
  match DecodeDdMessage payload with
  | Fail _ => None
  | Ok msg =>
      if decide (response_id msg = "") then None
      else match ds_pendingRequests s !! response_id msg with
           | Some ch => Some (ch, msg)
           | None => None
           end
  end.

(** The nested [select]s: a full channel is drained and the newer response put in. *)
Definition deliver s (ch : nat) (msg : DdMessage) : DdDataService :=
  match try_send s ch msg with
  | (s, true) => s
  | (s, false) =>
      let '(s, _) := try_recv s ch in
      (try_send s ch msg).1
  end.

Definition handleSyncResponse s (payload : bytes) : DdDataService :=
  match response_lookup s payload with
  | Some (ch, msg) => deliver s ch msg
  | None => s
  end.

End data.
