(* ===== verification/DataServiceProps.v ===== *)
(** Correctness of the transfer service: the protocol of concurrent synchronous
    calls as a step relation with its invariant, the sequential behaviour of a call
    and of an asynchronous publication, and the sweeps of the caches. *)
From S2P Require Import Prelude GoStrings GoTime Errors Metrics TopicFilter Acl Topics.
From S2P Require Import Mq Model Message Codec DataService.
From stdpp Require Import relations fin_map_dom.

Open Scope string_scope.
Open Scope list_scope.
Open Scope Z_scope.

(** * What the pieces of a call leave alone *)

(** Two states with the same pending calls and channels. *)
Definition same_calls (s s' : DdDataService) : Prop :=
  ds_pendingRequests s' = ds_pendingRequests s ∧ ds_channels s' = ds_channels s ∧
  ds_maxPendingRequests s' = ds_maxPendingRequests s ∧ ds_aclService s' = ds_aclService s.

#[export] Instance same_calls_preorder : PreOrder same_calls.
Proof.
  split; [by intros s|].
  intros s1 s2 s3 (?&?&?&?) (?&?&?&?). split_and!; congruence.
Qed.

Lemma recordStatus_same now s id msg st l : same_calls s (recordStatus now s id msg st l).
Proof. done. Qed.
Lemma storeIdempotent_same now s msg resp : same_calls s (storeIdempotent now s msg resp).
Proof. unfold storeIdempotent. by case_decide. Qed.
#[export] Hint Resolve recordStatus_same storeIdempotent_same : ddcore.

Lemma header_nonzero h : h_RequestId h ≠ "" → h ≠ zero_header.
Proof. by intros Hh ->. Qed.

Lemma Normalize_RequestId msg :
  h_RequestId (msg_Header msg) ≠ "" →
  msg_Header (Normalize msg) = msg_Header msg.
Proof.
  intros Hid. rewrite Normalize_Header. unfold isHeaderZero.
  by rewrite bool_decide_eq_false_2 by (by apply header_nonzero).
Qed.

Section data.
Context {C : Type} `{MqClientLaws C} `{JsonCodec DdMessage} `{Gzip}.
Implicit Types (w : World C) (s : DdDataService).

Lemma set_trace_RequestId msg :
  h_RequestId (msg_Header (set_trace msg)) = h_RequestId (msg_Header msg).
Proof using Type. unfold set_trace. by case_decide. Qed.

Lemma set_trace_Mode msg : msg_Mode (set_trace msg) = msg_Mode msg.
Proof using Type. unfold set_trace. by case_decide. Qed.
Lemma set_trace_Resource msg : msg_Resource (set_trace msg) = msg_Resource msg.
Proof using Type. unfold set_trace. by case_decide. Qed.
Lemma set_trace_Payload msg : msg_Payload (set_trace msg) = msg_Payload msg.
Proof using Type. unfold set_trace. by case_decide. Qed.
Lemma set_created_Mode t msg : msg_Mode (set_created t msg) = msg_Mode msg.
Proof using Type. unfold set_created. by destruct (IsZero _). Qed.
Lemma set_created_Resource t msg : msg_Resource (set_created t msg) = msg_Resource msg.
Proof using Type. unfold set_created. by destruct (IsZero _). Qed.
Lemma set_created_Payload t msg : msg_Payload (set_created t msg) = msg_Payload msg.
Proof using Type. unfold set_created. by destruct (IsZero _). Qed.

Lemma checkAcl_mq w s peerId action topic :
  w_mq (checkAcl w s peerId action topic).1 = w_mq w.
Proof using Type. unfold checkAcl. by repeat case_match. Qed.

(** The idempotency key under which a call looks its request up. *)
Definition cache_key (msg : option DdMessage) : string :=
  match msg with Some m => h_IdempotencyKey (msg_Header (Normalize m)) | None => "" end.

(** What [SendSync_prepare] returns when it does not refuse the call. *)
Lemma SendSync_prepare_spec ρ t1 t2 t3 w s topic msg w' s' p :
  SendSync_prepare ρ t1 t2 t3 w s topic msg = (w', s', p) →
  same_calls s s' ∧ mq_sent (w_mq w') = mq_sent (w_mq w) ∧
  ds_idempotentKeys s' = ds_idempotentKeys s ∧
  (∀ m, p = PReady m → h_RequestId (msg_Header m) ≠ "" ∧ msg_Mode m = DdTransferModeSync ∧
    0 < h_TimeoutMs (msg_Header m) ∧
    s' = recordStatus t3 s (h_RequestId (msg_Header m)) m TransferStatusAccepted 0) ∧
  (∀ m, p = PCached m → cache_key msg ≠ "" ∧
    ∃ e, ds_idempotentKeys s !! cache_key msg = Some e ∧ ie_response e = m ∧ t1 < ie_expireAt e).
Proof using Type.
  unfold SendSync_prepare, cache_key. destruct msg as [msg|]; [|by intros [= <- <- <-]].
  cbv zeta. generalize (Normalize msg) as n. clear msg. intros n.
  pose proof (checkAcl_mq w s (h_SourcePeerId (msg_Header n)) "pub" topic) as Hw.
  destruct (checkAcl _ _ _ _ _) as [w1 [err|]]; simpl in Hw.
  { intros (<- & <- & <-)%pair3_inj. rewrite ?observe_mq. by rewrite Hw. }
  destruct (lookupIdempotent t1 s n) as [cached|] eqn:Ec.
  { intros (<- & <- & <-)%pair3_inj. rewrite observe_mq, Hw. split_and!; [done..|].
    intros m [= <-]. revert Ec. unfold lookupIdempotent. case_decide; [done|].
    destruct (ds_idempotentKeys s !! _) as [e|] eqn:Ee; [|done].
    unfold Before. case_bool_decide; [|done]. intros [= <-]. eauto 10. }
  match goal with |- context [if decide (h_RequestId (msg_Header ?x) = "") then _ else _] =>
    assert (msg_Mode x = DdTransferModeSync) as Hm1;
    [unfold set_created; by repeat case_match|]; revert Hm1; generalize x end.
  intros m1 Hm1.
  case_decide as Hid. { intros (<- & <- & <-)%pair3_inj. by rewrite Hw. }
  pose proof (Validate_msg_normalizes ρ (set_trace m1)) as Hn.
  pose proof (Validate_msg_None ρ (set_trace m1)) as Hok.
  destruct (Validate_msg ρ (set_trace m1)) as [m2 [err|]]; simpl in *; subst m2.
  { intros (<- & <- & <-)%pair3_inj. by rewrite Hw. }
  intros (<- & <- & <-)%pair3_inj. rewrite Hw. split_and!; try done. intros m Em.
  assert (∀ a b, PReady a = PReady b → a = b) as Hinj by congruence.
  apply Hinj in Em as <-.
  destruct Hok as [Hok _]. specialize (Hok eq_refl).
  assert (msg_Mode (Normalize (set_trace m1)) = DdTransferModeSync) as Hmode.
  { rewrite Normalize_Mode. unfold set_trace. by case_decide. }
  destruct (ok_sync _ Hok Hmode). done.
Qed.

Lemma SendSync_register_spec s msg s' r :
  SendSync_register s msg = (s', r) →
  match r with
  | inl _ => s' = s
  | inr ch =>
      ds_channels s !! ch = None ∧
      ds_pendingRequests s !! h_RequestId (msg_Header msg) = None ∧
      Z.of_nat (size (ds_pendingRequests s)) < ds_maxPendingRequests s ∧
      ds_pendingRequests s' =
        <[h_RequestId (msg_Header msg) := ch]> (ds_pendingRequests s) ∧
      ds_channels s' = <[ch := None]> (ds_channels s) ∧
      ds_maxPendingRequests s' = ds_maxPendingRequests s ∧
      ds_idempotentKeys s' = ds_idempotentKeys s ∧
      ds_aclService s' = ds_aclService s
  end.
Proof using Type.
  unfold SendSync_register. case_decide as Hs; [by intros [= <- <-]|].
  destruct (ds_pendingRequests s !! _) eqn:E; intros [= <- <-]; [done|].
  split_and!; try done; [|lia]. apply not_elem_of_dom, is_fresh.
Qed.

Lemma SendSync_publish_spec t1 t2 w s topic msg w' s' msg' err :
  h_RequestId (msg_Header msg) ≠ "" →
  SendSync_publish t1 t2 w s topic msg = (w', s', msg', err) →
  same_calls s s' ∧ msg_Header msg' = msg_Header msg ∧
  ds_idempotentKeys s' = ds_idempotentKeys s.
Proof using Type.
  intros Hid. unfold SendSync_publish.
  pose proof (EncodeDdMessage_msg msg (shouldCompress
    (recordStatus t1 s (h_RequestId (msg_Header msg)) msg TransferStatusRouted 0) msg)) as E.
  destruct (EncodeDdMessage _ _) as [m [data|e]]; simpl in E; subst m.
  - destruct (mq_Publish _ _ _) as [c [e|]]; intros (<- & <- & <- & <-)%pair4_inj;
      (split_and!; [done| |done]); by apply Normalize_RequestId.
  - intros (<- & <- & <- & <-)%pair4_inj. split_and!; [done| |done]. by apply Normalize_RequestId.
Qed.

(** * The system of concurrent calls

    A thread is a call of [SendSync] or a response handler, at the point where it
    next takes a lock or touches a channel. *)
Inductive thread :=
| SyncReady (topic : string) (msg : DdMessage)
| SyncRegistered (topic : string) (msg : DdMessage) (ch : nat)
| SyncWaiting (start : Time) (msg : DdMessage) (ch : nat)
| SyncLeaving (msg : DdMessage) (ch : nat) (res : result DdMessage)
| SyncDone (msg : DdMessage) (res : result DdMessage)
| SyncCached (key : string) (resp : DdMessage)
| SyncRefused (err : error)
| RespOffer (msg : DdMessage) (ch : nat)
| RespDrain (msg : DdMessage) (ch : nat)
| RespRetry (msg : DdMessage) (ch : nat)
| RespDone.

Record System := {
  sys_w : World C;
  sys_s : DdDataService;
  sys_threads : gmap nat thread
}.

Definition with_thread (σ : System) w s (tid : nat) (th : thread) : System :=
  {| sys_w := w; sys_s := s; sys_threads := <[tid := th]> (sys_threads σ) |}.

Definition init_system w (timeout : Duration) (acl : option TopicAclService) : System :=
  {| sys_w := w; sys_s := NewDdDataService timeout acl; sys_threads := ∅ |}.

Definition prepared_thread (topic : string) (msg : option DdMessage) (p : prepared) : thread :=
  match p with
  | PReady msg => SyncReady topic msg
  | PCached resp => SyncCached (cache_key msg) resp
  | PFailed err => SyncRefused err
  end.

Inductive sys_step : System → System → Prop :=
| step_call ρ t1 t2 t3 σ tid topic msg w s p :
    sys_threads σ !! tid = None →
    SendSync_prepare ρ t1 t2 t3 (sys_w σ) (sys_s σ) topic msg = (w, s, p) →
    sys_step σ (with_thread σ w s tid (prepared_thread topic msg p))
| step_refuse σ tid topic msg s err :
    sys_threads σ !! tid = Some (SyncReady topic msg) →
    SendSync_register (sys_s σ) msg = (s, inl err) →
    sys_step σ (with_thread σ (sys_w σ) s tid (SyncRefused err))
| step_register σ tid topic msg s ch :
    sys_threads σ !! tid = Some (SyncReady topic msg) →
    SendSync_register (sys_s σ) msg = (s, inr ch) →
    sys_step σ (with_thread σ (sys_w σ) s tid (SyncRegistered topic msg ch))
| step_publish_fail t1 t2 σ tid topic msg ch w s msg' err :
    sys_threads σ !! tid = Some (SyncRegistered topic msg ch) →
    SendSync_publish t1 t2 (sys_w σ) (sys_s σ) topic msg = (w, s, msg', Some err) →
    sys_step σ (with_thread σ w s tid (SyncLeaving msg' ch (Fail err)))
| step_publish start t1 t2 σ tid topic msg ch w s msg' :
    sys_threads σ !! tid = Some (SyncRegistered topic msg ch) →
    SendSync_publish t1 t2 (sys_w σ) (sys_s σ) topic msg = (w, s, msg', None) →
    sys_step σ (with_thread σ w s tid (SyncWaiting start msg' ch))
| step_select t1 t2 t3 σ tid start msg ch why w s res :
    sys_threads σ !! tid = Some (SyncWaiting start msg ch) →
    SendSync_select start t1 t2 t3 (sys_w σ) (sys_s σ) msg ch why = Some (w, s, res) →
    sys_step σ (with_thread σ w s tid (SyncLeaving msg ch res))
| step_cleanup σ tid msg ch res :
    sys_threads σ !! tid = Some (SyncLeaving msg ch res) →
    sys_step σ (with_thread σ (sys_w σ) (SendSync_cleanup (sys_s σ) msg) tid
      (SyncDone msg res))
| step_response σ tid payload ch msg :
    sys_threads σ !! tid = None →
    response_lookup (sys_s σ) payload = Some (ch, msg) →
    sys_step σ (with_thread σ (sys_w σ) (sys_s σ) tid (RespOffer msg ch))
| step_offer σ tid msg ch s :
    sys_threads σ !! tid = Some (RespOffer msg ch) →
    try_send (sys_s σ) ch msg = (s, true) →
    sys_step σ (with_thread σ (sys_w σ) s tid RespDone)
| step_offer_full σ tid msg ch s :
    sys_threads σ !! tid = Some (RespOffer msg ch) →
    try_send (sys_s σ) ch msg = (s, false) →
    sys_step σ (with_thread σ (sys_w σ) s tid (RespDrain msg ch))
| step_drain σ tid msg ch :
    sys_threads σ !! tid = Some (RespDrain msg ch) →
    sys_step σ (with_thread σ (sys_w σ) (try_recv (sys_s σ) ch).1 tid (RespRetry msg ch))
| step_retry σ tid msg ch :
    sys_threads σ !! tid = Some (RespRetry msg ch) →
    sys_step σ (with_thread σ (sys_w σ) (try_send (sys_s σ) ch msg).1 tid RespDone)
| step_async ρ t1 t2 σ topic msg w s msg' err :
    SendAsync ρ t1 t2 (sys_w σ) (sys_s σ) topic msg = (w, s, msg', err) →
    sys_step σ {| sys_w := w; sys_s := s; sys_threads := sys_threads σ |}
| step_sweep_idempotent ρ ρs now σ :
    sys_step σ {| sys_w := sys_w σ; sys_s := sweepIdempotent ρ ρs now (sys_s σ);
                  sys_threads := sys_threads σ |}
| step_sweep_statuses ρ now σ :
    sys_step σ {| sys_w := sys_w σ; sys_s := sweepTransferStatuses ρ now (sys_s σ);
                  sys_threads := sys_threads σ |}
| step_world w σ :
    sys_step σ {| sys_w := w; sys_s := sys_s σ; sys_threads := sys_threads σ |}.

(** The pending entry a thread owns: its request id and its channel. *)
Definition holds (th : thread) : option (string * nat) :=
  match th with
  | SyncRegistered _ msg ch | SyncWaiting _ msg ch | SyncLeaving msg ch _ =>
      Some (h_RequestId (msg_Header msg), ch)
  | _ => None
  end.

(** The channel a response handler is about to use, and the response. *)
Definition answers (th : thread) : option (DdMessage * nat) :=
  match th with
  | RespOffer msg ch | RespDrain msg ch | RespRetry msg ch => Some (msg, ch)
  | _ => None
  end.

(** What is true of one thread on its own. *)
Definition thread_ok (th : thread) : Prop :=
  match th with
  | SyncReady _ msg | SyncRegistered _ msg _ | SyncWaiting _ msg _ =>
      h_RequestId (msg_Header msg) ≠ ""
  | SyncLeaving msg _ res | SyncDone msg res =>
      h_RequestId (msg_Header msg) ≠ "" ∧
      ∀ resp, res = Ok resp → response_id resp = h_RequestId (msg_Header msg)
  | _ => True
  end.

Definition holder (T : gmap nat thread) (tid : nat) : option (string * nat) :=
  T !! tid ≫= holds.
Definition answerer (T : gmap nat thread) (tid : nat) : option (DdMessage * nat) :=
  T !! tid ≫= answers.

Record sys_ok (σ : System) : Prop := {
  inv_thread tid th : sys_threads σ !! tid = Some th → thread_ok th;
  inv_pending id ch :
    ds_pendingRequests (sys_s σ) !! id = Some ch ↔
    ∃ tid, holder (sys_threads σ) tid = Some (id, ch);
  inv_owner tid tid' id id' ch :
    holder (sys_threads σ) tid = Some (id, ch) →
    holder (sys_threads σ) tid' = Some (id', ch) → tid = tid';
  inv_alloc tid id ch :
    holder (sys_threads σ) tid = Some (id, ch) → is_Some (ds_channels (sys_s σ) !! ch);
  inv_answer_alloc tid msg ch :
    answerer (sys_threads σ) tid = Some (msg, ch) → is_Some (ds_channels (sys_s σ) !! ch);
  inv_buffer tid id ch msg :
    holder (sys_threads σ) tid = Some (id, ch) →
    ds_channels (sys_s σ) !! ch = Some (Some msg) → response_id msg = id;
  inv_answer tid id tid' msg ch :
    holder (sys_threads σ) tid = Some (id, ch) →
    answerer (sys_threads σ) tid' = Some (msg, ch) → response_id msg = id;
  inv_max : ds_maxPendingRequests (sys_s σ) = 1024;
  inv_bound : Z.of_nat (size (ds_pendingRequests (sys_s σ))) ≤ 1024
}.

Lemma init_system_ok w timeout acl : sys_ok (init_system w timeout acl).
Proof using Type.
  split; simpl; try done.
  intros id ch. rewrite lookup_empty. split; [done|]. by intros (tid & E).
Qed.

Lemma holder_insert T tid th tid' :
  holder (<[tid := th]> T) tid' = if decide (tid = tid') then holds th else holder T tid'.
Proof using Type.
  unfold holder. case_decide; [subst; by rewrite lookup_insert_eq|by rewrite lookup_insert_ne].
Qed.
Lemma answerer_insert T tid th tid' :
  answerer (<[tid := th]> T) tid' =
  if decide (tid = tid') then answers th else answerer T tid'.
Proof using Type.
  unfold answerer.
  case_decide; [subst; by rewrite lookup_insert_eq|by rewrite lookup_insert_ne].
Qed.

Lemma thread_ok_insert (T : gmap nat thread) tid th tid' th' :
  (∀ tid th, T !! tid = Some th → thread_ok th) → thread_ok th →
  <[tid := th]> T !! tid' = Some th' → thread_ok th'.
Proof using Type.
  intros HT Hth. rewrite lookup_insert. case_decide; [by intros [= <-]|apply HT].
Qed.

(** A step of a thread that keeps its pending entry, and puts into channels only
    what some handler was about to put there. *)
Lemma sys_ok_keep σ w s tid th :
  sys_ok σ →
  ds_pendingRequests s = ds_pendingRequests (sys_s σ) →
  ds_maxPendingRequests s = ds_maxPendingRequests (sys_s σ) →
  (∀ ch, is_Some (ds_channels (sys_s σ) !! ch) → is_Some (ds_channels s !! ch)) →
  (∀ ch msg, ds_channels s !! ch = Some (Some msg) →
     ds_channels (sys_s σ) !! ch = Some (Some msg) ∨
     answerer (sys_threads σ) tid = Some (msg, ch)) →
  thread_ok th →
  holds th = holder (sys_threads σ) tid →
  (∀ msg ch, answers th = Some (msg, ch) →
     answerer (sys_threads σ) tid = Some (msg, ch) ∨
     ds_pendingRequests (sys_s σ) !! response_id msg = Some ch) →
  sys_ok (with_thread σ w s tid th).
Proof using Type.
  intros Hok Hp Hm Hal Hbuf Hth Hh Ha.
  assert (∀ tid', holder (<[tid := th]> (sys_threads σ)) tid' =
                  holder (sys_threads σ) tid') as Hhold.
  { intros tid'. rewrite holder_insert. case_decide; [by subst|done]. }
  assert (∀ tid' msg ch, answerer (<[tid := th]> (sys_threads σ)) tid' = Some (msg, ch) →
    (∃ tid0, answerer (sys_threads σ) tid0 = Some (msg, ch)) ∨
    ds_pendingRequests (sys_s σ) !! response_id msg = Some ch) as Hans.
  { intros tid' msg ch. rewrite answerer_insert. case_decide; [|by eauto].
    intros E. destruct (Ha _ _ E); eauto. }
  split; simpl.
  - intros tid' th'. apply thread_ok_insert; [apply (inv_thread _ Hok)|done].
  - intros id ch. rewrite Hp. setoid_rewrite Hhold. apply (inv_pending _ Hok).
  - intros *. rewrite !Hhold. apply (inv_owner _ Hok).
  - intros *. rewrite Hhold. intros E. apply Hal. by eapply (inv_alloc _ Hok).
  - intros tid' msg ch E. apply Hal. destruct (Hans _ _ _ E) as [[tid0 E0]|E0].
    + by eapply (inv_answer_alloc _ Hok).
    + apply (inv_pending _ Hok) in E0 as [tid0 E0]. by eapply (inv_alloc _ Hok).
  - intros tid' id ch msg. rewrite Hhold. intros E1 E2. destruct (Hbuf _ _ E2) as [E3|E3].
    + by eapply (inv_buffer _ Hok).
    + by eapply (inv_answer _ Hok).
  - intros tid' id tid'' msg ch. rewrite Hhold. intros E1 E2.
    destruct (Hans _ _ _ E2) as [[tid0 E0]|E0]; [by eapply (inv_answer _ Hok)|].
    apply (inv_pending _ Hok) in E0 as [tid0 E0].
    assert (tid0 = tid') as -> by (by eapply (inv_owner _ Hok)). congruence.
  - rewrite Hm. apply (inv_max _ Hok).
  - rewrite Hp. apply (inv_bound _ Hok).
Qed.

Lemma sys_ok_same σ w s : sys_ok σ → same_calls (sys_s σ) s →
  sys_ok {| sys_w := w; sys_s := s; sys_threads := sys_threads σ |}.
Proof using Type.
  intros [] (Hp & Hc & Hm & _). by split; simpl; rewrite ?Hp, ?Hc, ?Hm.
Qed.

(** Registration: a fresh channel under a free request id. *)
Lemma sys_ok_register σ tid topic msg s ch :
  sys_ok σ → sys_threads σ !! tid = Some (SyncReady topic msg) →
  SendSync_register (sys_s σ) msg = (s, inr ch) →
  sys_ok (with_thread σ (sys_w σ) s tid (SyncRegistered topic msg ch)).
Proof using Type.
  intros Hok Ht E. apply SendSync_register_spec in E
    as (Hch & Hid & Hsz & Hp & Hc & Hm & _ & _).
  set (id := h_RequestId (msg_Header msg)) in *.
  assert (holds (SyncRegistered topic msg ch) = Some (id, ch)) as Hhs by done.
  assert (holder (sys_threads σ) tid = None) as Hnh by (unfold holder; by rewrite Ht).
  assert (∀ tid' msg', answerer (sys_threads σ) tid' ≠ Some (msg', ch)) as Hna.
  { intros tid' msg' Ea. apply (inv_answer_alloc _ Hok) in Ea. rewrite Hch in Ea.
    by destruct Ea. }
  assert (∀ tid' id', holder (sys_threads σ) tid' ≠ Some (id', ch)) as Hnc.
  { intros tid' id' Ea. apply (inv_alloc _ Hok) in Ea. rewrite Hch in Ea. by destruct Ea. }
  assert (∀ tid' msg' ch', answerer (<[tid := SyncRegistered topic msg ch]>
      (sys_threads σ)) tid' = Some (msg', ch') →
      answerer (sys_threads σ) tid' = Some (msg', ch')) as Hans.
  { intros tid' msg' ch'. rewrite answerer_insert. by case_decide. }
  split; simpl.
  - intros tid' th'. apply thread_ok_insert; [apply (inv_thread _ Hok)|].
    apply (inv_thread _ Hok) in Ht. done.
  - intros id' ch'. rewrite Hp. setoid_rewrite holder_insert.
    destruct (decide (id = id')) as [<-|Hne].
    + rewrite lookup_insert_eq. split.
      * intros [= <-]. exists tid. by rewrite decide_True.
      * intros [tid' E]. case_decide; [rewrite Hhs in E; congruence|].
        assert (ds_pendingRequests (sys_s σ) !! id = Some ch')
          by (apply (inv_pending _ Hok); eauto). congruence.
    + rewrite lookup_insert_ne, (inv_pending _ Hok) by done. split; intros [tid' E].
      * exists tid'. case_decide; [subst; congruence|done].
      * case_decide; [rewrite Hhs in E; congruence|eauto].
  - intros tid1 tid2 id1 id2 ch'. rewrite !holder_insert. do 2 case_decide; simpl.
    + congruence.
    + intros [= _ <-] E. by apply Hnc in E.
    + intros E [= _ <-]. by apply Hnc in E.
    + apply (inv_owner _ Hok).
  - intros tid' id' ch'. rewrite holder_insert, Hc, lookup_insert.
    case_decide; [intros [= _ <-]; rewrite decide_True by done; eauto|].
    intros E. case_decide; [eauto|]. by eapply (inv_alloc _ Hok).
  - intros tid' msg' ch' E. apply Hans in E. rewrite Hc, lookup_insert.
    case_decide; [eauto|]. by eapply (inv_answer_alloc _ Hok).
  - intros tid' id' ch' msg'. rewrite holder_insert, Hc, lookup_insert.
    intros E1. destruct (decide (ch = ch')) as [|Hd2]; [done|]. intros E2.
    case_decide; [rewrite Hhs in E1; congruence|]. by eapply (inv_buffer _ Hok).
  - intros tid1 id1 tid2 msg' ch'. rewrite holder_insert. intros E1 E2.
    apply Hans in E2. case_decide; [|by eapply (inv_answer _ Hok)].
    injection E1 as _ <-. by apply Hna in E2.
  - rewrite Hm. apply (inv_max _ Hok).
  - rewrite Hp, map_size_insert_None by done. rewrite (inv_max _ Hok) in Hsz. lia.
Qed.

(** Clean-up: the thread's own entry goes. *)
Lemma sys_ok_cleanup σ tid msg ch res :
  sys_ok σ → sys_threads σ !! tid = Some (SyncLeaving msg ch res) →
  sys_ok (with_thread σ (sys_w σ) (SendSync_cleanup (sys_s σ) msg) tid (SyncDone msg res)).
Proof using Type.
  intros Hok Ht. set (id := h_RequestId (msg_Header msg)).
  assert (holder (sys_threads σ) tid = Some (id, ch)) as Hh by (unfold holder; by rewrite Ht).
  assert (∀ tid' id' ch', holder (<[tid := SyncDone msg res]> (sys_threads σ)) tid' =
    Some (id', ch') → tid' ≠ tid ∧ holder (sys_threads σ) tid' = Some (id', ch')) as Hhold.
  { intros tid' id' ch'. rewrite holder_insert. by case_decide. }
  assert (∀ tid' msg' ch', answerer (<[tid := SyncDone msg res]> (sys_threads σ)) tid' =
    Some (msg', ch') → answerer (sys_threads σ) tid' = Some (msg', ch')) as Hans.
  { intros tid' msg' ch'. rewrite answerer_insert. by case_decide. }
  assert (∀ tid' ch', holder (sys_threads σ) tid' = Some (id, ch') → tid' = tid) as Huniq.
  { intros tid' ch' E.
    assert (ds_pendingRequests (sys_s σ) !! id = Some ch') as Hc1
      by (apply (inv_pending _ Hok); eauto).
    assert (ds_pendingRequests (sys_s σ) !! id = Some ch) as Hc2
      by (apply (inv_pending _ Hok); eauto).
    assert (ch' = ch) as -> by congruence. by eapply (inv_owner _ Hok). }
  split; simpl.
  - intros tid' th'. apply thread_ok_insert; [apply (inv_thread _ Hok)|].
    apply (inv_thread _ Hok) in Ht. done.
  - intros id' ch'. rewrite lookup_delete. case_decide as Hd.
    + split; [done|]. intros [tid' E]. apply Hhold in E as [Hne E].
      destruct Hne. apply (Huniq tid' ch'). by rewrite <- Hd in E.
    + rewrite (inv_pending _ Hok). split; intros [tid' E].
      * exists tid'. rewrite holder_insert. case_decide; [|done]. subst tid'.
        rewrite Hh in E. by injection E as ?.
      * apply Hhold in E as [_ E]. eauto.
  - intros tid1 tid2 id1 id2 ch' E1 E2. apply Hhold in E1 as [_ E1], E2 as [_ E2].
    by eapply (inv_owner _ Hok).
  - intros tid' id' ch' E. apply Hhold in E as [_ E]. by eapply (inv_alloc _ Hok).
  - intros tid' msg' ch' E. apply Hans in E. by eapply (inv_answer_alloc _ Hok).
  - intros tid' id' ch' msg' E. apply Hhold in E as [_ E]. by eapply (inv_buffer _ Hok).
  - intros tid1 id1 tid2 msg' ch' E1 E2. apply Hhold in E1 as [_ E1]. apply Hans in E2.
    by eapply (inv_answer _ Hok).
  - apply (inv_max _ Hok).
  - pose proof (inv_bound _ Hok).
    assert (size (delete id (ds_pendingRequests (sys_s σ))) ≤
            size (ds_pendingRequests (sys_s σ)))%nat; [|fold id; lia].
    apply map_subseteq_size, delete_subseteq.
Qed.

(** A state whose channels hold nothing new, apart from one message in one channel. *)
Record chan_step (s s' : DdDataService) (put : option (DdMessage * nat)) : Prop := {
  cs_pending : ds_pendingRequests s' = ds_pendingRequests s;
  cs_max : ds_maxPendingRequests s' = ds_maxPendingRequests s;
  cs_alloc ch : is_Some (ds_channels s !! ch) → is_Some (ds_channels s' !! ch);
  cs_buffer ch msg : ds_channels s' !! ch = Some (Some msg) →
    ds_channels s !! ch = Some (Some msg) ∨ put = Some (msg, ch)
}.

Lemma same_calls_chan_step s s' put : same_calls s s' → chan_step s s' put.
Proof using Type. intros (Hp & Hc & Hm & _). split; rewrite ?Hc; auto. Qed.

Lemma try_send_step s ch m s' b :
  try_send s ch m = (s', b) → chan_step s s' (Some (m, ch)).
Proof using Type.
  unfold try_send. destruct (ds_channels s !! ch) as [[m0|]|] eqn:E; intros [= <- <-];
    try by apply same_calls_chan_step.
  split; simpl; [done..| |].
  - intros ch'. rewrite lookup_insert. by case_decide.
  - intros ch' m'. rewrite lookup_insert. case_decide; [intros [= <-]; subst|]; auto.
Qed.

Lemma try_recv_step s ch s' o :
  try_recv s ch = (s', o) →
  chan_step s s' None ∧ (∀ m, o = Some m → ds_channels s !! ch = Some (Some m)).
Proof using Type.
  unfold try_recv. destruct (ds_channels s !! ch) as [[m0|]|] eqn:E; intros [= <- <-];
    (split; [|congruence]); try by apply same_calls_chan_step.
  split; simpl; [done..| |].
  - intros ch'. rewrite lookup_insert. by case_decide.
  - intros ch' m'. rewrite lookup_insert. case_decide; [done|auto].
Qed.

Lemma chan_step_same s s' s'' put :
  chan_step s s' put → same_calls s' s'' → chan_step s s'' put.
Proof using Type.
  intros [] (Hp & Hc & Hm & _). by split; rewrite ?Hp, ?Hc, ?Hm.
Qed.

Lemma SendSync_select_step start t1 t2 t3 w s msg ch why w' s' res :
  SendSync_select start t1 t2 t3 w s msg ch why = Some (w', s', res) →
  chan_step s s' None ∧
  (∀ resp, res = Ok resp → ds_channels s !! ch = Some (Some resp)).
Proof using Type.
  unfold SendSync_select. destruct why as [err| |].
  - intros [= <- <- <-]. split; [by apply same_calls_chan_step|done].
  - intros [= <- <- <-]. split; [by apply same_calls_chan_step|done].
  - destruct (try_recv s ch) as [s1 [resp|]] eqn:E; [|done]. intros [= <- <- <-].
    apply try_recv_step in E as [E1 E2]. split.
    + eapply chan_step_same; [exact E1|].
      etrans; [apply recordStatus_same|apply storeIdempotent_same].
    + intros resp' [= <-]. by apply E2.
Qed.

Lemma SendAsync_same ρ t1 t2 w s topic msg w' s' msg' err :
  SendAsync ρ t1 t2 w s topic msg = (w', s', msg', err) → same_calls s s'.
Proof using Type.
  unfold SendAsync. intros E. repeat case_match; simplify_eq; done.
Qed.

(** A step of one thread that keeps its entry, over a step of the channels. *)
Lemma sys_ok_thread σ w s tid th th0 put :
  sys_ok σ → sys_threads σ !! tid = Some th0 →
  chan_step (sys_s σ) s put →
  (put = None ∨ put = answers th0) →
  thread_ok th → holds th = holds th0 →
  (answers th = None ∨ answers th = answers th0) →
  sys_ok (with_thread σ w s tid th).
Proof using Type.
  intros Hok Ht [Hp Hm Hal Hb] Hput Hth Hh Ha.
  assert (answerer (sys_threads σ) tid = answers th0) as Ea
    by (unfold answerer; by rewrite Ht).
  apply sys_ok_keep; try done.
  - intros ch msg E. destruct (Hb _ _ E) as [?|E']; [by left|right].
    rewrite Ea. destruct Hput; congruence.
  - unfold holder. by rewrite Ht.
  - intros msg ch E. left. rewrite Ea. destruct Ha; congruence.
Qed.

Lemma sys_step_ok σ σ' : sys_ok σ → sys_step σ σ' → sys_ok σ'.
Proof using Type.
  intros Hok Hstep. destruct Hstep as
    [ρ t1 t2 t3 σ tid topic msg w s p Ht E|σ tid topic msg s err Ht E
    |σ tid topic msg s ch Ht E|t1 t2 σ tid topic msg ch w s msg' err Ht E
    |start t1 t2 σ tid topic msg ch w s msg' Ht E|t1 t2 t3 σ tid start msg ch why w s res Ht E
    |σ tid msg ch res Ht|σ tid payload ch msg Ht E|σ tid msg ch s Ht E|σ tid msg ch s Ht E
    |σ tid msg ch Ht|σ tid msg ch Ht|ρ t1 t2 σ topic msg w s msg' err E|ρ ρs now σ|ρ now σ|w σ].
  - apply SendSync_prepare_spec in E as ((Hp & Hc & Hm & _) & _ & _ & Hready & _).
    apply sys_ok_keep; rewrite ?Hc; auto.
    + destruct p; try done. by apply Hready.
    + unfold holder. rewrite Ht. by destruct p.
    + intros ? ?. by destruct p.
  - apply SendSync_register_spec in E as ->.
    eapply (sys_ok_thread _ _ _ _ _ _ None); eauto; [|done].
    by apply same_calls_chan_step.
  - by apply sys_ok_register.
  - pose proof (inv_thread _ Hok _ _ Ht) as Hth. simpl in Hth.
    apply SendSync_publish_spec in E as (Hs & Hh & _); [|done].
    eapply (sys_ok_thread _ _ _ _ _ _ None); eauto using same_calls_chan_step.
    + simpl. by rewrite Hh.
    + simpl. by rewrite Hh.
  - pose proof (inv_thread _ Hok _ _ Ht) as Hth. simpl in Hth.
    apply SendSync_publish_spec in E as (Hs & Hh & _); [|done].
    eapply (sys_ok_thread _ _ _ _ _ _ None); eauto using same_calls_chan_step.
    + simpl. by rewrite Hh.
    + simpl. by rewrite Hh.
  - pose proof (inv_thread _ Hok _ _ Ht) as Hth. simpl in Hth.
    apply SendSync_select_step in E as [Hs Hres].
    eapply (sys_ok_thread _ _ _ _ _ _ None); eauto. simpl. split; [done|].
    intros resp Er. apply (inv_buffer _ Hok tid _ ch); [|by apply Hres].
    unfold holder. by rewrite Ht.
  - by apply (sys_ok_cleanup σ tid msg ch res).
  - apply sys_ok_keep; auto; [done|unfold holder; by rewrite Ht|].
    intros msg0 ch0 [= <- <-]. right. revert E. unfold response_lookup.
    destruct (DecodeDdMessage payload); [|done]. case_decide; [done|].
    destruct (ds_pendingRequests (sys_s σ) !! response_id a) eqn:Ep; [|done].
    by intros [= <- <-].
  - eapply (sys_ok_thread _ _ _ _ _ _ (Some (msg, ch))); eauto using try_send_step; done.
  - eapply (sys_ok_thread _ _ _ _ _ _ (Some (msg, ch))); eauto using try_send_step; done.
  - destruct (try_recv (sys_s σ) ch) as [s o] eqn:E. apply try_recv_step in E as [E _].
    eapply (sys_ok_thread _ _ _ _ _ _ None); eauto; done.
  - destruct (try_send (sys_s σ) ch msg) as [s b] eqn:E. apply try_send_step in E.
    eapply (sys_ok_thread _ _ _ _ _ _ (Some (msg, ch))); eauto; done.
  - apply SendAsync_same in E. by apply sys_ok_same.
  - by apply sys_ok_same.
  - by apply sys_ok_same.
  - by apply sys_ok_same.
Qed.

Lemma sys_reachable_ok σ σ' : rtc sys_step σ σ' → sys_ok σ → sys_ok σ'.
Proof using Type. induction 1; eauto using sys_step_ok. Qed.

(** * The idempotency cache *)

(** The idempotency key and the response of a call that returns one it has received. *)
Definition answered (th : thread) : option (string * DdMessage) :=
  match th with
  | SyncLeaving msg _ (Ok resp) | SyncDone msg (Ok resp) =>
      Some (h_IdempotencyKey (msg_Header msg), resp)
  | _ => None
  end.

(** Some call with this key has received the response. *)
Definition origin (T : gmap nat thread) (key : string) (resp : DdMessage) : Prop :=
  key ≠ "" ∧ ∃ tid th, T !! tid = Some th ∧ answered th = Some (key, resp).

Record cache_ok (σ : System) : Prop := {
  cache_entry key e :
    ds_idempotentKeys (sys_s σ) !! key = Some e → origin (sys_threads σ) key (ie_response e);
  cache_hit tid key resp :
    sys_threads σ !! tid = Some (SyncCached key resp) → origin (sys_threads σ) key resp
}.

Lemma origin_insert (T : gmap nat thread) tid th key resp :
  (∀ th0, T !! tid = Some th0 → answered th0 = None ∨ answered th = answered th0) →
  origin T key resp → origin (<[tid := th]> T) key resp.
Proof using Type.
  intros Hth (Hk & tid' & th' & Ht & Ha). split; [done|].
  destruct (decide (tid = tid')) as [<-|Hne].
  - exists tid, th. rewrite lookup_insert_eq. split; [done|].
    destruct (Hth _ Ht); congruence.
  - exists tid', th'. by rewrite lookup_insert_ne.
Qed.

(** A step of one thread that adds nothing to the cache but its own response. *)
Lemma cache_ok_thread σ w s tid th :
  cache_ok σ →
  (∀ th0, sys_threads σ !! tid = Some th0 → answered th0 = None ∨ answered th = answered th0) →
  (∀ key e, ds_idempotentKeys s !! key = Some e →
     ds_idempotentKeys (sys_s σ) !! key = Some e ∨
     (key ≠ "" ∧ answered th = Some (key, ie_response e))) →
  (∀ key resp, th = SyncCached key resp → origin (sys_threads σ) key resp) →
  cache_ok (with_thread σ w s tid th).
Proof using Type.
  intros [He Hh] Hth Hs Hc. split; cbn [sys_s sys_threads with_thread].
  - intros key e [E|[Hk E]]%Hs; [by apply origin_insert, He|].
    split; [done|]. exists tid, th. by rewrite lookup_insert_eq.
  - intros tid' key resp E. apply origin_insert; [done|]. revert E. rewrite lookup_insert.
    case_decide; [intros [= ->]; by apply Hc|apply Hh].
Qed.

Lemma cache_ok_same σ w s :
  cache_ok σ → ds_idempotentKeys s ⊆ ds_idempotentKeys (sys_s σ) →
  cache_ok {| sys_w := w; sys_s := s; sys_threads := sys_threads σ |}.
Proof using Type.
  intros [He Hh] Hs. split; [|done]. intros key e E. apply He. by eapply lookup_weaken.
Qed.

Lemma SendAsync_idempotent ρ t1 t2 w s topic msg w' s' msg' err :
  SendAsync ρ t1 t2 w s topic msg = (w', s', msg', err) →
  ds_idempotentKeys s' = ds_idempotentKeys s.
Proof using Type.
  unfold SendAsync. intros E. repeat case_match; simplify_eq; done.
Qed.

Lemma drop_expired_subseteq ρ now m : drop_expired ρ now m ⊆ m.
Proof using Type.
  apply map_subseteq_spec. intros k e. unfold drop_expired.
  rewrite (foldl_delete_lookup (λ _ e, After now (ie_expireAt e))).
  destruct (m !! k) as [e'|]; [|done]. by destruct (After _ _).
Qed.

Lemma evict_loop_subseteq fuel ρs m : evict_loop fuel ρs m ⊆ m.
Proof using Type.
  revert m. induction fuel as [|fuel IH]; intros m; cbn [evict_loop]; [done|].
  case_decide; [|done]. destruct (oldest_entry (ρs fuel) m) as [[f k] a].
  case_decide; [done|]. etrans; [apply IH|apply delete_subseteq].
Qed.

Lemma try_send_idempotent s ch m s' b :
  try_send s ch m = (s', b) → ds_idempotentKeys s' = ds_idempotentKeys s.
Proof using Type. unfold try_send. intros E. by repeat case_match; simplify_eq. Qed.

Lemma try_recv_idempotent s ch s' o :
  try_recv s ch = (s', o) → ds_idempotentKeys s' = ds_idempotentKeys s.
Proof using Type. unfold try_recv. intros E. by repeat case_match; simplify_eq. Qed.

Lemma SendSync_select_idempotent start t1 t2 t3 w s msg ch why w' s' res key e :
  SendSync_select start t1 t2 t3 w s msg ch why = Some (w', s', res) →
  ds_idempotentKeys s' !! key = Some e →
  ds_idempotentKeys s !! key = Some e ∨
  (key ≠ "" ∧ answered (SyncLeaving msg ch res) = Some (key, ie_response e)).
Proof using Type.
  unfold SendSync_select. destruct why as [err| |].
  - intros (_ & <- & _)%Some_inj%pair3_inj. by left.
  - intros (_ & <- & _)%Some_inj%pair3_inj. by left.
  - destruct (try_recv s ch) as [s1 [resp|]] eqn:E; [|done].
    intros (_ & <- & <-)%Some_inj%pair3_inj. apply try_recv_idempotent in E.
    unfold storeIdempotent. case_decide as Hk; cbn [ds_idempotentKeys recordStatus set_statuses
      set_idempotent]; rewrite E; [by left|].
    rewrite lookup_insert. case_decide as Hd; [|by left]. intros [= <-]. right.
    subst key. done.
Qed.

Lemma sys_step_cache σ σ' : sys_ok σ → cache_ok σ → sys_step σ σ' → cache_ok σ'.
Proof using Type.
  intros Hok Hcok Hstep. destruct Hstep as
    [ρ t1 t2 t3 σ tid topic msg w s p Ht E|σ tid topic msg s err Ht E
    |σ tid topic msg s ch Ht E|t1 t2 σ tid topic msg ch w s msg' err Ht E
    |start t1 t2 σ tid topic msg ch w s msg' Ht E|t1 t2 t3 σ tid start msg ch why w s res Ht E
    |σ tid msg ch res Ht|σ tid payload ch msg Ht E|σ tid msg ch s Ht E|σ tid msg ch s Ht E
    |σ tid msg ch Ht|σ tid msg ch Ht|ρ t1 t2 σ topic msg w s msg' err E|ρ ρs now σ|ρ now σ|w σ];
    try (pose proof (inv_thread _ Hok _ _ Ht) as Hth);
    try (apply cache_ok_thread; [done|intros th0; rewrite Ht; by intros [= <-]; auto| |done]).
  - apply SendSync_prepare_spec in E as (_ & _ & Hc & _ & Hhit).
    apply cache_ok_thread; [done|by rewrite Ht|rewrite Hc; by left|].
    intros key resp E. destruct p as [resp'|err|m]; try done.
    destruct (Hhit resp' eq_refl) as (_ & e & He & <- & _). injection E as <- <-.
    by eapply cache_entry.
  - apply SendSync_register_spec in E as ->. by left.
  - apply SendSync_register_spec in E as (_ & _ & _ & _ & _ & _ & -> & _). by left.
  - apply SendSync_publish_spec in E as (_ & _ & ->); [by left|done].
  - apply SendSync_publish_spec in E as (_ & _ & ->); [by left|done].
  - intros key e. by eapply SendSync_select_idempotent.
  - by left.
  - by left.
  - apply try_send_idempotent in E as ->. by left.
  - apply try_send_idempotent in E as ->. by left.
  - destruct (try_recv (sys_s σ) ch) as [s o] eqn:E. apply try_recv_idempotent in E.
    cbn [fst]. rewrite E. by left.
  - destruct (try_send (sys_s σ) ch msg) as [s o] eqn:E. apply try_send_idempotent in E.
    cbn [fst]. rewrite E. by left.
  - apply SendAsync_idempotent in E. apply cache_ok_same; [done|by rewrite E].
  - apply cache_ok_same; [done|]. etrans; [apply evict_loop_subseteq|apply drop_expired_subseteq].
  - by apply cache_ok_same.
  - by apply cache_ok_same.
Qed.

Lemma init_cache_ok w timeout acl : cache_ok (init_system w timeout acl).
Proof using Type. split; cbn; [intros key e|intros tid key resp]; by rewrite lookup_empty. Qed.

Lemma sys_reachable_cache σ σ' :
  rtc sys_step σ σ' → sys_ok σ → cache_ok σ → cache_ok σ'.
Proof using Type. induction 1; eauto using sys_step_ok, sys_step_cache. Qed.

(** * Progress *)

Lemma with_thread_lookup σ w s tid th :
  sys_threads (with_thread σ w s tid th) !! tid = Some th.
Proof using Type. simpl. by rewrite lookup_insert_eq. Qed.

(** How many steps a call or a handler can still take. *)
Definition steps_left (th : thread) : nat :=
  match th with
  | SyncReady _ _ => 4
  | SyncRegistered _ _ _ | RespOffer _ _ => 3
  | SyncWaiting _ _ _ | RespDrain _ _ => 2
  | SyncLeaving _ _ _ | RespRetry _ _ => 1
  | SyncDone _ _ | SyncCached _ _ | SyncRefused _ | RespDone => 0
  end.

(** A step of this thread: no step changes two threads. *)
Definition own_step (tid : nat) (σ σ' : System) : Prop :=
  sys_step σ σ' ∧ sys_threads σ' !! tid ≠ sys_threads σ !! tid.

(** By its own steps alone the call returns [res], and leaves no pending entry. *)
Definition returns (σ : System) (tid : nat) (msg : DdMessage) (res : result DdMessage) : Prop :=
  ∃ σ', rtc (own_step tid) σ σ' ∧ sys_threads σ' !! tid = Some (SyncDone msg res) ∧
    ds_pendingRequests (sys_s σ') =
      delete (h_RequestId (msg_Header msg)) (ds_pendingRequests (sys_s σ)).

Lemma own_step_thread tid th σ w s th' :
  sys_threads σ !! tid = Some th → th ≠ th' → sys_step σ (with_thread σ w s tid th') →
  own_step tid σ (with_thread σ w s tid th').
Proof using Type. intros Ht Hne Hs. split; [done|]. rewrite with_thread_lookup. congruence. Qed.

Lemma own_step_decreases tid σ σ' th :
  own_step tid σ σ' → sys_threads σ !! tid = Some th →
  ∃ th', sys_threads σ' !! tid = Some th' ∧ (steps_left th' < steps_left th)%nat.
Proof using Type.
  intros [Hstep Hne] Hth.
  assert (∀ (T : gmap nat thread) tid' th',
    <[tid' := th']> T !! tid ≠ T !! tid → tid' = tid) as Hins.
  { intros T tid' th' Hn. destruct (decide (tid' = tid)); [done|].
    by rewrite lookup_insert_ne in Hn. }
  destruct Hstep; cbn [sys_threads with_thread] in *; try done;
    apply Hins in Hne as ->; rewrite lookup_insert_eq; eexists; (split; [done|]);
    simplify_eq; cbn [steps_left]; lia.
Qed.

Lemma returns_leaving σ tid msg ch res :
  sys_threads σ !! tid = Some (SyncLeaving msg ch res) → returns σ tid msg res.
Proof using Type.
  intros Ht. eexists. split.
  - eapply rtc_once, own_step_thread; [exact Ht| |by eapply step_cleanup]; done.
  - split; [apply with_thread_lookup|done].
Qed.

Lemma own_step_exists σ tid th :
  sys_threads σ !! tid = Some th → steps_left th ≠ 0%nat → ∃ σ', own_step tid σ σ'.
Proof using Type.
  intros Ht Hne. destruct th as [topic msg|topic msg ch|start msg ch|msg ch res| | | |msg ch
    |msg ch|msg ch|]; try done.
  - destruct (SendSync_register (sys_s σ) msg) as [s [err|ch]] eqn:E; eexists;
      (eapply own_step_thread; [exact Ht| |by econstructor]); done.
  - destruct (SendSync_publish 0 0 (sys_w σ) (sys_s σ) topic msg) as [[[w s] msg'] [err|]] eqn:E;
      eexists; (eapply own_step_thread; [exact Ht| |first [by eapply step_publish_fail
        |by eapply (step_publish 0)]]); done.
  - eexists. eapply own_step_thread; [exact Ht| |by eapply (step_select 0 0 0 _ _ _ _ _ WakeTimer)].
    done.
  - eexists. eapply own_step_thread; [exact Ht| |by econstructor]; done.
  - destruct (try_send (sys_s σ) ch msg) as [s []] eqn:E; eexists;
      (eapply own_step_thread; [exact Ht| |by econstructor]); done.
  - eexists. eapply own_step_thread; [exact Ht| |by econstructor]; done.
  - eexists. eapply own_step_thread; [exact Ht| |by econstructor]; done.
Qed.

(** Each arm of the [select] leads to its result. *)
Lemma returns_waiting start t1 t2 t3 σ tid msg ch why w s res :
  sys_threads σ !! tid = Some (SyncWaiting start msg ch) →
  SendSync_select start t1 t2 t3 (sys_w σ) (sys_s σ) msg ch why = Some (w, s, res) →
  returns σ tid msg res.
Proof using Type.
  intros Ht E. pose proof E as [[Hp _ _ _] _]%SendSync_select_step.
  destruct (returns_leaving (with_thread σ w s tid (SyncLeaving msg ch res)) tid msg ch res)
    as (σ' & Hr & Hd & Hp'); [apply with_thread_lookup|].
  exists σ'. split; [|split; [done|]].
  - eapply rtc_l; [|exact Hr]. eapply own_step_thread; [exact Ht|done|by eapply step_select].
  - cbn [sys_s with_thread] in Hp'. by rewrite Hp', Hp.
Qed.

(** A response handler buffers its response for the call that waits for it. *)
Lemma response_buffered σ tid' payload resp ch :
  sys_ok σ → sys_threads σ !! tid' = None → DecodeDdMessage payload = Ok resp →
  response_id resp ≠ "" → ds_pendingRequests (sys_s σ) !! response_id resp = Some ch →
  ∃ σ', rtc (own_step tid') σ σ' ∧
    (∀ tid, tid ≠ tid' → sys_threads σ' !! tid = sys_threads σ !! tid) ∧
    ds_pendingRequests (sys_s σ') = ds_pendingRequests (sys_s σ) ∧
    ds_channels (sys_s σ') !! ch = Some (Some resp).
Proof using Type.
  intros Hok Hf Hd Hne Hp.
  assert (is_Some (ds_channels (sys_s σ) !! ch)) as [b Hb].
  { apply (inv_pending _ Hok) in Hp as [tid Hh]. by eapply (inv_alloc _ Hok). }
  assert (own_step tid' σ (with_thread σ (sys_w σ) (sys_s σ) tid' (RespOffer resp ch))) as Hs1.
  { split; [|by rewrite with_thread_lookup, Hf]. eapply (step_response _ _ payload); [done|].
    unfold response_lookup. by rewrite Hd, decide_False, Hp. }
  set (σ1 := with_thread _ _ _ _ _) in Hs1.
  assert (∀ σ2 w s th tid, tid ≠ tid' → (∀ t, t ≠ tid' → sys_threads σ2 !! t = sys_threads σ !! t) →
    sys_threads (with_thread σ2 w s tid' th) !! tid = sys_threads σ !! tid) as Hother.
  { intros σ2 w s th tid Ht Hs. cbn. rewrite lookup_insert_ne by done. by apply Hs. }
  assert (∀ t, t ≠ tid' → sys_threads σ1 !! t = sys_threads σ !! t) as Ho1
    by (intros t Ht; by apply Hother).
  assert (sys_threads σ1 !! tid' = Some (RespOffer resp ch)) as Ht1 by apply with_thread_lookup.
  destruct (try_send (sys_s σ1) ch resp) as [s b'] eqn:Es. pose proof Es as Es'.
  unfold try_send in Es'. cbn [sys_s with_thread σ1] in Es'. rewrite Hb in Es'.
  destruct b as [m0|]; injection Es' as <- <-.
  2:{ eexists. split; [eapply rtc_l; [exact Hs1|]; eapply rtc_once, own_step_thread;
        [exact Ht1| |by eapply step_offer]; done|].
      split; [intros t Ht; by apply Hother|]. split; [done|]. apply lookup_insert_eq. }
  assert (own_step tid' σ1 (with_thread σ1 (sys_w σ1) (sys_s σ) tid' (RespDrain resp ch))) as Hs2
    by (eapply own_step_thread; [exact Ht1|done|by eapply step_offer_full]).
  set (σ2 := with_thread σ1 _ _ _ _) in Hs2.
  assert (sys_threads σ2 !! tid' = Some (RespDrain resp ch)) as Ht2 by apply with_thread_lookup.
  pose proof (step_drain σ2 _ _ _ Ht2) as Hs3. set (σ3 := with_thread σ2 _ _ _ _) in Hs3.
  assert (sys_threads σ3 !! tid' = Some (RespRetry resp ch)) as Ht3 by apply with_thread_lookup.
  pose proof (step_retry σ3 _ _ _ Ht3) as Hs4.
  apply (own_step_thread _ _ _ _ _ _ Ht2) in Hs3; [|done].
  apply (own_step_thread _ _ _ _ _ _ Ht3) in Hs4; [|done].
  assert (sys_s σ3 = set_channels (sys_s σ) (<[ch := None]> (ds_channels (sys_s σ)))) as E3.
  { cbn. unfold try_recv. by rewrite Hb. }
  eexists. split; [eapply rtc_l; [exact Hs1|]; eapply rtc_l; [exact Hs2|]; eapply rtc_l; [exact Hs3|];
    apply rtc_once; exact Hs4|].
  split; [|cbn [sys_s with_thread]; rewrite E3; unfold try_send; cbn [ds_channels set_channels];
    rewrite lookup_insert_eq; cbn; by rewrite lookup_insert_eq].
  intros t Ht. apply Hother; [done|]. intros t' Ht'. apply Hother; [done|].
  intros t2 Ht2'. by apply Hother.
Qed.

(** * Sweeps *)

Lemma drop_expired_lookup ρ now m key :
  drop_expired ρ now m !! key =
  match m !! key with
  | Some e => if decide (ie_expireAt e < now) then None else Some e
  | None => None
  end.
Proof using Type.
  unfold drop_expired.
  rewrite (foldl_delete_lookup (λ _ e, After now (ie_expireAt e))).
  destruct (m !! key) as [e|]; [|done]. unfold After. by case_bool_decide; case_decide.
Qed.

Lemma sweepTransferStatuses_lookup ρ now s id :
  ds_transferStatuses (sweepTransferStatuses ρ now s) !! id =
  match ds_transferStatuses s !! id with
  | Some rec => if decide (Sub now (tr_UpdatedAt rec) > ds_statusRetention s)
                then None else Some rec
  | None => None
  end.
Proof using Type.
  unfold sweepTransferStatuses. simpl.
  rewrite (foldl_ext_all _ (λ m '(requestID, rec),
    if bool_decide (Sub now (tr_UpdatedAt rec) > ds_statusRetention s)
    then delete requestID m else m))
    by (intros m [k rec]; by case_bool_decide; case_decide).
  rewrite (foldl_delete_lookup (λ _ rec,
    bool_decide (Sub now (tr_UpdatedAt rec) > ds_statusRetention s))).
  destruct (ds_transferStatuses s !! id) as [rec|]; [|done].
  by case_bool_decide; case_decide.
Qed.

(** The search finds an entry that expires first. *)
Lemma oldest_entry_aux (l : list (string * idempotentEntry)) k0 a0 :
  let '(first, k, a) := foldl (λ '(first, oldestKey, oldestAt) '(key, entry),
    if first || Before (ie_expireAt entry) oldestAt
    then (false, key, ie_expireAt entry) else (first, oldestKey, oldestAt))
    (false, k0, a0) l in
  first = false ∧ a ≤ a0 ∧ Forall (λ kv, a ≤ ie_expireAt kv.2) l ∧
  ((k = k0 ∧ a = a0) ∨ Exists (λ kv, kv.1 = k ∧ ie_expireAt kv.2 = a) l).
Proof using Type.
  revert k0 a0. induction l as [|[k e] l IH]; intros k0 a0; simpl.
  - split_and!; [done|lia|constructor|by left].
  - unfold Before. case_bool_decide as Hlt; simpl.
    + specialize (IH k (ie_expireAt e)).
      destruct (foldl _ _ l) as [[first k'] a']. destruct IH as (-> & ? & ? & Hk).
      split_and!; [done|lia|by constructor|]. right. rewrite Exists_cons. simpl.
      destruct Hk as [[-> ->]|?]; auto.
    + specialize (IH k0 a0).
      destruct (foldl _ _ l) as [[first k'] a']. destruct IH as (-> & ? & ? & Hk).
      split_and!; [done|lia|constructor; [simpl; lia|done]|].
      rewrite Exists_cons. destruct Hk; auto.
Qed.

Lemma oldest_entry_spec ρ m first k a :
  oldest_entry ρ m = (first, k, a) → m ≠ ∅ →
  (∃ e, m !! k = Some e ∧ ie_expireAt e = a) ∧
  (∀ k' e', m !! k' = Some e' → a ≤ ie_expireAt e').
Proof using Type.
  unfold oldest_entry. intros E Hm.
  destruct (range ρ m) as [|[k1 e1] l] eqn:El.
  { destruct Hm. apply map_size_empty_inv. by rewrite <- (range_length ρ), El. }
  simpl in E. pose proof (oldest_entry_aux l k1 (ie_expireAt e1)) as H3.
  rewrite E in H3. destruct H3 as (_ & Hle & Hall & Hk). split.
  - destruct Hk as [[-> ->]|Hex].
    + exists e1. split; [|done]. apply (range_lookup ρ). rewrite El. left.
    + apply Exists_exists in Hex as ([k' e'] & Hin & Hkk & Haa). simpl in *. subst.
      exists e'. split; [|done]. apply (range_lookup ρ). rewrite El. by right.
  - intros k' e' H4. apply (range_lookup ρ) in H4. rewrite El in H4.
    apply elem_of_cons in H4 as [[= -> ->]|H4]; [done|].
    rewrite Forall_forall in Hall. by apply (Hall (k', e')).
Qed.

(** The eviction loop ends with the maximal number of entries, or with all when they
    are fewer, and evicts only entries that expire no later than those it keeps. *)
Lemma evict_loop_spec fuel ρs m :
  (size m ≤ fuel)%nat → m !! "" = None →
  let m' := evict_loop fuel ρs m in
  size m' = Nat.min maxIdempotentKeys (size m) ∧ m' ⊆ m ∧
  (∀ k e k' e', m !! k = Some e → m' !! k = None → m' !! k' = Some e' →
     ie_expireAt e ≤ ie_expireAt e').
Proof using Type.
  revert m. induction fuel as [|fuel IH]; intros m Hf Hne; cbn [evict_loop].
  - split_and!; [lia|done|]. intros k e k' e' E1 E2. congruence.
  - case_decide as Hs.
    2:{ split_and!; [lia|done|]. intros k e k' e' E1 E2. congruence. }
    destruct (oldest_entry (ρs fuel) m) as [[first k0] a0] eqn:Eo.
    assert (m ≠ ∅) as Hm. { intros ->. rewrite map_size_empty in Hs. lia. }
    destruct (oldest_entry_spec _ _ _ _ _ Eo Hm) as [(e0 & Hk0 & Ha0) Hmin].
    rewrite decide_False by (intros ->; congruence).
    assert (size (delete k0 m) = pred (size m)) as Hd
      by (apply map_size_delete_Some; eauto).
    destruct (IH (delete k0 m)) as (I1 & I2 & I4);
      [lia|rewrite lookup_delete_ne; [done|intros ->; congruence]|].
    split_and!; [lia|etrans; [done|apply delete_subseteq]|].
    intros k e k' e' E1 E2 E3. destruct (decide (k = k0)) as [->|Hne0].
    + assert (e = e0) as -> by congruence. rewrite Ha0. apply (Hmin k').
      eapply lookup_weaken; [exact E3|]. etrans; [done|apply delete_subseteq].
    + apply (I4 k e k' e'); try done. by rewrite lookup_delete_ne.
Qed.
(** * Responses *)

Lemma deliver_spec s ch m :
  is_Some (ds_channels s !! ch) →
  ds_pendingRequests (deliver s ch m) = ds_pendingRequests s ∧
  ds_channels (deliver s ch m) = <[ch := Some m]> (ds_channels s).
Proof using Type.
  intros [b Hb]. unfold deliver, try_send. rewrite Hb.
  destruct b as [m0|]; [|done]. unfold try_recv. rewrite Hb. simpl.
  rewrite lookup_insert_eq. simpl. by rewrite insert_insert_eq.
Qed.

Lemma deliver_alloc s ch m :
  ds_pendingRequests (deliver s ch m) = ds_pendingRequests s ∧
  ∀ ch', is_Some (ds_channels s !! ch') → is_Some (ds_channels (deliver s ch m) !! ch').
Proof using Type.
  destruct (ds_channels s !! ch) as [b|] eqn:E.
  - destruct (deliver_spec s ch m) as [? Hc]; [eauto|]. split; [done|].
    intros ch'. rewrite Hc, lookup_insert. case_decide; eauto.
  - unfold deliver, try_send, try_recv. rewrite E. simpl. rewrite ?E. simpl. by split.
Qed.

Lemma handleSyncResponse_alloc s payload :
  ds_pendingRequests (handleSyncResponse s payload) = ds_pendingRequests s ∧
  ∀ ch, is_Some (ds_channels s !! ch) →
        is_Some (ds_channels (handleSyncResponse s payload) !! ch).
Proof using Type.
  unfold handleSyncResponse. destruct (response_lookup s payload) as [[ch m]|]; [|done].
  apply deliver_alloc.
Qed.

Lemma handleSyncResponses_alloc s payloads :
  let s' := foldl handleSyncResponse s payloads in
  ds_pendingRequests s' = ds_pendingRequests s ∧
  ∀ ch, is_Some (ds_channels s !! ch) → is_Some (ds_channels s' !! ch).
Proof using Type.
  revert s. induction payloads as [|p l IH]; intros s; simpl; [done|].
  destruct (IH (handleSyncResponse s p)) as [E1 E2].
  destruct (handleSyncResponse_alloc s p) as [E3 E4]. split; [congruence|auto].
Qed.

Lemma SendSync_begin_waiting ρ now w s topic m0 w1 s1 msg ch :
  SendSync_begin ρ now w s topic m0 = (w1, s1, Waiting msg ch) →
  h_RequestId (msg_Header msg) ≠ "" ∧
  ds_pendingRequests s !! h_RequestId (msg_Header msg) = None ∧
  ds_pendingRequests s1 = <[h_RequestId (msg_Header msg) := ch]> (ds_pendingRequests s) ∧
  ds_channels s1 = <[ch := None]> (ds_channels s).
Proof using Type.
  unfold SendSync_begin.
  destruct (SendSync_prepare _ _ _ _ _ _ _ _) as [[w2 s2] p] eqn:Ep.
  apply SendSync_prepare_spec in Ep as ((Hp & Hc & _) & _ & _ & Hready & _).
  destruct p as [resp|err|m]; [done..|]. destruct (Hready m eq_refl) as (Hid & _ & _).
  destruct (SendSync_register s2 m) as [s3 [err|ch']] eqn:Er; [done|].
  apply SendSync_register_spec in Er as (_ & Hn & _ & Hp' & Hc' & _).
  destruct (SendSync_publish _ _ _ _ _ _) as [[[w4 s4] m'] [err|]] eqn:Eb; [done|].
  apply SendSync_publish_spec in Eb as ((Hp2 & Hc2 & _) & Hh & _); [|done].
  intros [= <- <- <- <-]. rewrite Hh, Hp2, Hc2, Hp', Hc', Hp, Hc.
  split_and!; try done. by rewrite <- Hp.
Qed.

Lemma recordStatus_lookup now s id msg st l :
  ∃ rec, ds_transferStatuses (recordStatus now s id msg st l) !! id = Some rec ∧
    tr_Status rec = st ∧ tr_LatencyMs rec = l ∧ tr_UpdatedAt rec = now.
Proof using Type. eexists. split; [apply lookup_insert_eq|done]. Qed.

Lemma storeIdempotent_statuses now s msg resp :
  ds_transferStatuses (storeIdempotent now s msg resp) = ds_transferStatuses s.
Proof using Type. unfold storeIdempotent. by case_decide. Qed.

(** * Properties *)

(** C8: however calls, responses, publications, sweeps and the other users of
    the client interleave, at every moment the pending map holds exactly the calls between
    registration and return, each under its own request id (so a returned call leaves
    nothing behind), there are at most 1024 of them, and no two of them share an id.  A
    response that a call returns is one it has received for its own request id, unless it
    comes from the idempotency cache: then an earlier call with the same idempotency key
    has received it, for that call's request id, whatever the peer, the resource and the
    payload of the two. *)
Theorem sync_calls_safe w timeout acl σ :
  rtc sys_step (init_system w timeout acl) σ →
  (∀ id, is_Some (ds_pendingRequests (sys_s σ) !! id) ↔
     ∃ tid th ch, sys_threads σ !! tid = Some th ∧ holds th = Some (id, ch)) ∧
  (size (ds_pendingRequests (sys_s σ)) ≤ 1024)%nat ∧
  (∀ tid tid' th th' id ch ch',
     sys_threads σ !! tid = Some th → sys_threads σ !! tid' = Some th' →
     holds th = Some (id, ch) → holds th' = Some (id, ch') → tid = tid') ∧
  (∀ tid msg resp,
     sys_threads σ !! tid = Some (SyncDone msg (Ok resp)) ∨
     (∃ ch, sys_threads σ !! tid = Some (SyncLeaving msg ch (Ok resp))) →
     response_id resp = h_RequestId (msg_Header msg)) ∧
  (∀ tid key resp, sys_threads σ !! tid = Some (SyncCached key resp) →
     key ≠ "" ∧ ∃ tid' msg,
     (sys_threads σ !! tid' = Some (SyncDone msg (Ok resp)) ∨
      (∃ ch, sys_threads σ !! tid' = Some (SyncLeaving msg ch (Ok resp)))) ∧
     h_IdempotencyKey (msg_Header msg) = key ∧
     response_id resp = h_RequestId (msg_Header msg)).
Proof using Type.
  intros Hr. apply sys_reachable_ok in Hr as Hok; [|apply init_system_ok].
  apply sys_reachable_cache in Hr as Hcok; [|apply init_system_ok|apply init_cache_ok].
  assert (∀ tid th x, sys_threads σ !! tid = Some th → holds th = x →
    holder (sys_threads σ) tid = x) as Hh by (intros ??? Ht <-; unfold holder; by rewrite Ht).
  split_and!.
  - intros id. split.
    + intros [ch E]. apply (inv_pending _ Hok) in E as [tid E]. unfold holder in E.
      destruct (sys_threads σ !! tid) as [th|] eqn:Et; [|done]. by exists tid, th, ch.
    + intros (tid & th & ch & Et & E). exists ch. apply (inv_pending _ Hok). eauto.
  - pose proof (inv_bound _ Hok). lia.
  - intros tid tid' th th' id ch ch' Et Et' E E'.
    assert (Some ch = Some ch') as [= <-].
    { trans (ds_pendingRequests (sys_s σ) !! id); [symmetry|];
        apply (inv_pending _ Hok); eauto. }
    eapply (inv_owner _ Hok); eauto.
  - intros tid msg resp [Et|[ch Et]]; apply (inv_thread _ Hok) in Et as [_ Et]; by apply Et.
  - intros tid key resp Et. apply (cache_hit _ Hcok) in Et as (Hk & tid' & th & Et & Ha).
    split; [done|]. pose proof (inv_thread _ Hok _ _ Et) as Hth.
    destruct th as [| | |msg ch [resp'|]|msg [resp'|]| | | | | |]; try done;
      injection Ha as <- ->; destruct Hth as [_ Hth];
      exists tid', msg; (split_and!; [eauto|done|by apply Hth]).
Qed.


(** The sequential call: once [SendSync] waits, and whatever responses were
    handled before, the last response for its request id is the one it returns; the
    pending map is then as it was before the call, and the transfer is recorded as
    responded with the latency measured. *)
Lemma SendSync_end_latest ρ now w s topic m0 w1 s1 msg ch payloads payload resp
    start now2 w2 :
  SendSync_begin ρ now w s topic m0 = (w1, s1, Waiting msg ch) →
  DecodeDdMessage payload = Ok resp →
  response_id resp = h_RequestId (msg_Header msg) →
  let s2 := handleSyncResponse (foldl handleSyncResponse s1 payloads) payload in
  ∃ w3 s3 rec,
    SendSync_end start now2 w2 s2 msg ch WakeResponse = Some (w3, s3, Ok resp) ∧
    ds_pendingRequests s3 = ds_pendingRequests s ∧
    GetTransferStatus s3 (h_RequestId (msg_Header msg)) = Some rec ∧
    tr_Status rec = TransferStatusResponded ∧
    tr_LatencyMs rec = Milliseconds (Sub now2 start).
Proof using Type.
  intros Hb Hd Hid s2. apply SendSync_begin_waiting in Hb as (Hne & Hn & Hp & Hc).
  destruct (handleSyncResponses_alloc s1 payloads) as [Ep Ec].
  assert (ds_pendingRequests (foldl handleSyncResponse s1 payloads) !!
    response_id resp = Some ch) as El by (rewrite Ep, Hp, Hid; apply lookup_insert_eq).
  assert (s2 = deliver (foldl handleSyncResponse s1 payloads) ch resp) as ->.
  { unfold s2, handleSyncResponse at 1, response_lookup. rewrite Hd.
    rewrite decide_False by congruence. by rewrite El. }
  destruct (deliver_spec (foldl handleSyncResponse s1 payloads) ch resp) as [Dp Dc].
  { apply Ec. rewrite Hc, lookup_insert_eq. eauto. }
  unfold SendSync_end, SendSync_select, try_recv. rewrite Dc, lookup_insert_eq.
  destruct (recordStatus_lookup now2 (set_channels
      (deliver (foldl handleSyncResponse s1 payloads) ch resp)
      (<[ch := None]> (<[ch := Some resp]>
        (ds_channels (foldl handleSyncResponse s1 payloads)))))
      (h_RequestId (msg_Header msg)) msg
    TransferStatusResponded (Milliseconds (Sub now2 start))) as (rec & Er & ? & ? & _).
  eexists _, _, rec. split; [done|]. split_and!; [|by unfold GetTransferStatus; simpl;
    rewrite storeIdempotent_statuses|done..].
  simpl. destruct (storeIdempotent_same now2 (recordStatus now2 (set_channels
      (deliver (foldl handleSyncResponse s1 payloads) ch resp)
      (<[ch := None]> (<[ch := Some resp]>
        (ds_channels (foldl handleSyncResponse s1 payloads)))))
      (h_RequestId (msg_Header msg)) msg
    TransferStatusResponded (Milliseconds (Sub now2 start))) msg resp) as (-> & _).
  simpl. rewrite Dp, Ep, Hp. by apply delete_insert_id.
Qed.

(** C24: a tick of the idempotency sweep keeps no expired entry, and of the others all
    when there are at most 10000 of them, else exactly 10000, such that none it evicts
    expires later than one it keeps. *)
Theorem sweepIdempotent_bounded ρ ρs now s :
  ds_idempotentKeys s !! "" = None →
  let live := filter (λ '(_, e), now ≤ ie_expireAt e) (ds_idempotentKeys s) in
  let kept := ds_idempotentKeys (sweepIdempotent ρ ρs now s) in
  kept ⊆ live ∧
  size kept = Nat.min maxIdempotentKeys (size live) ∧
  (∀ key e key' e', live !! key = Some e → kept !! key = None → kept !! key' = Some e' →
     ie_expireAt e ≤ ie_expireAt e').
Proof using Type.
  intros Hne live kept. unfold kept, sweepIdempotent.
  cbn [ds_idempotentKeys set_idempotent].
  assert (drop_expired ρ now (ds_idempotentKeys s) = live) as ->.
  { apply map_eq. intros k. rewrite drop_expired_lookup. unfold live.
    rewrite map_lookup_filter. destruct (ds_idempotentKeys s !! k) as [e|]; [|done]. cbn.
    case_decide; case_guard; (done || lia). }
  destruct (evict_loop_spec (size live) ρs live) as (Hsz & Hk & Hold); [lia| |done].
  unfold live. by rewrite map_lookup_filter, Hne.
Qed.

(** A call whose request id is already in flight is refused without touching
    the call in flight or sending anything; but it has by then overwritten that
    call's transfer record, which reads accepted again. *)
Theorem SendSync_duplicate_overwrites_status ρ now w s topic m0 w1 s1 msg ch w' s' r :
  SendSync_prepare ρ now now now w s topic m0 = (w1, s1, PReady msg) →
  ds_pendingRequests s !! h_RequestId (msg_Header msg) = Some ch →
  SendSync_begin ρ now w s topic m0 = (w', s', r) →
  (∃ e, r = Returned (Fail (EDd e)) ∧
    (e_Code e = ErrDuplicateRequest ∨
     (e_Code e = ErrInternal ∧
      ds_maxPendingRequests s ≤ Z.of_nat (size (ds_pendingRequests s))))) ∧
  ds_pendingRequests s' = ds_pendingRequests s ∧ ds_channels s' = ds_channels s ∧
  mq_sent (w_mq w') = mq_sent (w_mq w) ∧
  ∃ rec, GetTransferStatus s' (h_RequestId (msg_Header msg)) = Some rec ∧
    tr_Status rec = TransferStatusAccepted ∧ tr_LatencyMs rec = 0.
Proof using Type.
  intros Ep Hin. unfold SendSync_begin. rewrite Ep.
  pose proof Ep as Es.
  apply SendSync_prepare_spec in Es as ((Hp & Hc & Hm & _) & Hw & _ & Hready & _).
  assert (∃ rec, GetTransferStatus s1 (h_RequestId (msg_Header msg)) = Some rec ∧
    tr_Status rec = TransferStatusAccepted ∧ tr_LatencyMs rec = 0) as Hrec.
  { destruct (Hready msg eq_refl) as (_ & _ & _ & ->).
    eexists. split; [apply lookup_insert_eq|done]. }
  destruct (SendSync_register s1 msg) as [s2 [err|ch']] eqn:Er.
  - intros [= <- <- <-]. pose proof Er as Er'.
    apply SendSync_register_spec in Er' as ->. split_and!; try done.
    revert Er. unfold SendSync_register. rewrite Hm, Hp, Hin.
    case_decide; intros [= <-]; eexists; (split; [done|]); simpl.
    + right. split; [done|lia].
    + by left.
  - apply SendSync_register_spec in Er as (_ & Hn & _). congruence.
Qed.

(** * Asynchronous publication *)

(** A message that [Normalize] leaves alone. *)
Definition normal (m : DdMessage) : Prop :=
  msg_Version m ≠ "" ∧ (msg_Header m = zero_header ↔ msg_Meta m = zero_header) ∧
  ¬ (msg_ProtocolMeta m = ∅ ∧ msg_Headers m ≠ ∅) ∧
  (msg_Headers m = ∅ → default ∅ (msg_ProtocolMeta m !! msg_Protocol m) = ∅).

Lemma normal_fixed m : normal m → Normalize m = m.
Proof using Type.
  intros (Hv & Hh & Hp & Hs). rewrite Normalize_eq. cbv zeta.
  rewrite (decide_False (P := msg_ProtocolMeta m = ∅ ∧ _)) by done.
  apply DdMessage_ext; try done; cbn.
  - by rewrite decide_False.
  - unfold isHeaderZero. repeat case_bool_decide; naive_solver congruence.
  - unfold isHeaderZero. case_bool_decide; naive_solver congruence.
  - case_decide; naive_solver congruence.
Qed.

Lemma Normalize_normal m : normal (Normalize m).
Proof using Type.
  split_and!.
  - rewrite Normalize_eq. cbn. by case_decide.
  - rewrite Normalize_eq. cbn. unfold isHeaderZero. repeat case_bool_decide; naive_solver congruence.
  - rewrite Normalize_eq. cbn.
    destruct (decide (msg_ProtocolMeta m = ∅ ∧ msg_Headers m ≠ ∅)) as [_|Hd].
    + intros [E _]. by apply map_non_empty_singleton in E.
    + intros [E Hn]. apply Hn. rewrite E, lookup_empty. case_decide; [done|]. by destruct Hd.
  - rewrite Normalize_eq. cbn.
    destruct (decide (msg_ProtocolMeta m = ∅ ∧ msg_Headers m ≠ ∅)) as [[_ Hh]|_].
    + by rewrite decide_False.
    + by case_decide.
Qed.

(** What is published for the normalised message of the caller. *)
Definition async_message (now : Time) (n : DdMessage) : DdMessage :=
  let h := msg_Header n in {|
  msg_Version := msg_Version n;
  msg_Mode := DdTransferModeAsync;
  msg_Protocol := msg_Protocol n;
  msg_Resource := msg_Resource n;
  msg_Header := {|
    h_RequestId := h_RequestId h; h_CorrelationId := h_CorrelationId h;
    h_ReplyTo := h_ReplyTo h; h_TimeoutMs := h_TimeoutMs h;
    h_SourcePeerId := h_SourcePeerId h; h_TargetPeerId := h_TargetPeerId h;
    h_Tenant := h_Tenant h;
    h_TraceId := if decide (h_TraceId h = "") then h_RequestId h else h_TraceId h;
    h_IdempotencyKey := h_IdempotencyKey h |};
  msg_Meta := msg_Meta n;
  msg_Headers := msg_Headers n;
  msg_ProtocolMeta := msg_ProtocolMeta n;
  msg_Payload := msg_Payload n;
  msg_CreatedAt := if decide (msg_CreatedAt n = 0) then now else msg_CreatedAt n |}.

Lemma async_message_eq now n :
  set_trace (set_created now (set_Mode n DdTransferModeAsync)) = async_message now n.
Proof using Type.
  assert (set_created now (set_Mode n DdTransferModeAsync) =
    set_CreatedAt (set_Mode n DdTransferModeAsync)
      (if decide (msg_CreatedAt n = 0) then now else msg_CreatedAt n)) as ->.
  { unfold set_created, IsZero, time_zero. cbn [msg_CreatedAt set_Mode].
    by destruct n; cbn; case_bool_decide; case_decide. }
  unfold set_trace, async_message. cbn [msg_Header set_CreatedAt set_Mode].
  destruct (msg_Header n) eqn:Eh. cbn. case_decide; [done|].
  apply DdMessage_ext; try done.
Qed.

Lemma async_message_normal now n : normal n → normal (async_message now n).
Proof using Type.
  intros (Hv & Hh & Hp & Hs). split_and!; try done. rewrite <- Hh.
  unfold async_message, zero_header. cbn [msg_Header]. destruct (msg_Header n) as [r c rt t sp tp te tr i].
  cbn. split; intros E; injection E as -> -> -> -> -> -> -> Ht ->; [|by subst tr].
  f_equal. by destruct (decide (tr = "")).
Qed.

Lemma async_message_envelope now n :
  normal n → envelope_ok (set_Mode n DdTransferModeAsync) → envelope_ok (async_message now n).
Proof using Type.
  intros Hn [_ Hp Hr Hf _].
  split; [by right|done|done| |done]. revert Hf. unfold fields_valid, ProtocolFields.
  cbn [msg_Protocol set_Mode async_message].
  rewrite (normal_fixed (async_message now n)) by (by apply async_message_normal).
  rewrite (normal_fixed (set_Mode n DdTransferModeAsync) Hn).
  cbn [msg_Protocol msg_ProtocolMeta msg_Headers set_Mode async_message].
  by destruct (msg_ProtocolMeta n !! msg_Protocol n).
Qed.

(** C23: an asynchronous publication that succeeds was authorised and sent exactly one
    message on the topic; that message decodes to the caller's, normalised, in
    asynchronous mode, with the time of creation and the trace id filled in when they
    were empty and every other field as it was; it is a valid envelope, and the transfer
    is recorded as accepted.  One that fails without a failed record has sent nothing and
    recorded nothing. *)
Theorem SendAsync_publishes `{!JsonLaws DdMessage} `{!GzipLaws}
    ρ t1 t2 w s topic m0 w' s' m' err :
  SendAsync ρ t1 t2 w s topic (Some m0) = (w', s', Some m', err) →
  match err with
  | None =>
      (∀ acl, ds_aclService s = Some acl →
         Authorize acl (h_SourcePeerId (msg_Header (Normalize m0))) "pub" topic = true) ∧
      m' = async_message t1 (Normalize m0) ∧ envelope_ok m' ∧
      (∃ data, mq_sent (w_mq w') = mq_sent (w_mq w) ++ [(mq_wire (w_mq w) topic, data)] ∧
         (json_valid m' → DecodeDdMessage data = Ok m')) ∧
      ∃ rec, GetTransferStatus s' (h_RequestId (msg_Header m')) = Some rec ∧
        tr_Status rec = TransferStatusAccepted
  | Some _ =>
      (mq_sent (w_mq w') = mq_sent (w_mq w) ∧ s' = s) ∨
      ∃ rec, GetTransferStatus s' (h_RequestId (msg_Header m')) = Some rec ∧
        tr_Status rec = TransferStatusFailed
  end.
Proof using All.
  unfold SendAsync. cbv zeta. pose proof (Normalize_normal m0) as Hnorm.
  revert Hnorm. generalize (Normalize m0) as n. intros n Hnorm.
  pose proof (checkAcl_mq w s (h_SourcePeerId (msg_Header n)) "pub" topic) as Hw.
  assert ((checkAcl w s (h_SourcePeerId (msg_Header n)) "pub" topic).2 = None →
    ∀ acl, ds_aclService s = Some acl →
      Authorize acl (h_SourcePeerId (msg_Header n)) "pub" topic = true) as Hacl.
  { unfold checkAcl. intros E acl Ea. rewrite Ea in E. by destruct (Authorize _ _ _ _). }
  destruct (checkAcl _ _ _ _ _) as [w1 [e|]]; simpl in Hw, Hacl.
  { intros (<- & <- & _ & <-)%pair4_inj. left. rewrite ?observe_mq. by rewrite Hw. }
  specialize (Hacl eq_refl). pose proof (async_message_eq t1 n) as Hmsg.
  assert (normal (set_created t1 (set_Mode n DdTransferModeAsync))) as Hn1
    by (unfold set_created; destruct (IsZero _); exact Hnorm).
  assert (msg_Mode (set_created t1 (set_Mode n DdTransferModeAsync)) = DdTransferModeAsync ∧
    envelope_ok (set_created t1 (set_Mode n DdTransferModeAsync)) →
    envelope_ok (set_Mode n DdTransferModeAsync)) as Henv.
  { unfold set_created. destruct (IsZero _); [|tauto].
    intros [_ [? ? ? Hf _]]. split; try done. revert Hf. unfold fields_valid, ProtocolFields.
    rewrite (normal_fixed (set_CreatedAt (set_Mode n _) _) Hnorm).
    rewrite (normal_fixed (set_Mode n _) Hnorm).
    cbn [msg_Protocol msg_ProtocolMeta msg_Headers set_Mode set_CreatedAt].
    by destruct (msg_ProtocolMeta n !! msg_Protocol n). }
  set (n1 := set_created t1 (set_Mode n DdTransferModeAsync)) in *.
  assert (msg_Mode n1 = DdTransferModeAsync) as Hmode by apply set_created_Mode.
  pose proof (Validate_msg_normalizes ρ n1) as Hv. pose proof (Validate_msg_None ρ n1) as Hvalid.
  rewrite normal_fixed in Hv, Hvalid by done.
  destruct (Validate_msg ρ n1) as [n2 [e|]]; cbn [fst snd] in Hv, Hvalid; subst n2.
  { intros (<- & <- & _ & <-)%pair4_inj. left. rewrite ?observe_mq. by rewrite Hw. }
  rewrite Hmsg. pose proof (async_message_normal t1 n Hnorm) as Hn3.
  set (n3 := async_message t1 n) in *.
  pose proof (EncodeDdMessage_msg n3 (shouldCompress s n3)) as Hm.
  pose proof (Decode_Encode n3 (shouldCompress s n3)) as Hdec.
  rewrite normal_fixed in Hm, Hdec by done.
  destruct (EncodeDdMessage n3 _) as [n4 [data|e]]; cbn [fst snd] in Hm, Hdec; subst n4.
  2:{ intros (<- & <- & _ & <-)%pair4_inj. left. rewrite ?observe_mq. by rewrite Hw. }
  rewrite Hw. destruct (mq_Publish (w_mq w) topic data) as [c [e|]] eqn:Epub.
  - intros (<- & <- & <-%Some_inj & <-)%pair4_inj. right. eexists. split; [apply lookup_insert_eq|done].
  - intros (<- & <- & <-%Some_inj & <-)%pair4_inj. rewrite observe_mq, set_mq_mq.
    split_and!; [done|done| | |].
    + apply async_message_envelope; [done|]. apply Henv. split; [done|]. by apply Hvalid.
    + exists data. split; [by apply mq_publish_ok|intros Hj; by apply Hdec].
    + eexists. split; [apply lookup_insert_eq|done].
Qed.

End data.

(** * The properties at a concrete node *)

(** A request, its response, and their documents. *)
Definition request_header : DdHeader :=
  {| h_RequestId := "r1"; h_CorrelationId := ""; h_ReplyTo := ""; h_TimeoutMs := 10;
     h_SourcePeerId := "edge-1"; h_TargetPeerId := ""; h_Tenant := "default";
     h_TraceId := "r1"; h_IdempotencyKey := "k1" |}.
Definition response_header : DdHeader :=
  {| h_RequestId := "x9"; h_CorrelationId := "r1"; h_ReplyTo := ""; h_TimeoutMs := 10;
     h_SourcePeerId := "hub"; h_TargetPeerId := "edge-1"; h_Tenant := "default";
     h_TraceId := "r1"; h_IdempotencyKey := "" |}.
Definition message_of (mode : DdTransferMode) (h : DdHeader) : DdMessage :=
  {| msg_Version := "v1"; msg_Mode := mode; msg_Protocol := DdProtocolMq;
     msg_Resource := "order"; msg_Header := h; msg_Meta := h; msg_Headers := ∅;
     msg_ProtocolMeta := ∅; msg_Payload := []; msg_CreatedAt := 5 |}.
Definition request_sample := message_of DdTransferModeSync request_header.
Definition response_sample := message_of DdTransferModeSync response_header.
Definition event_sample := message_of DdTransferModeAsync request_header.

Definition message_table : list (DdMessage * string) :=
  [(request_sample, json_text "{'mode':'sync','header':{'request_id':'r1'}}");
   (response_sample, json_text "{'mode':'sync','header':{'correlation_id':'r1'}}");
   (event_sample, json_text "{'mode':'async','header':{'request_id':'r1'}}")].

#[local] Instance message_codec : JsonCodec DdMessage := table_codec message_table.
#[local] Instance message_laws : JsonLaws DdMessage.
Proof. apply table_codec_laws; [by_compute|]. by repeat constructor. Defined.
#[local] Instance store_gzip : Gzip := gzip_store.
#[local] Instance store_gzip_laws : GzipLaws := gzip_store_laws.
#[local] Instance mock_client : MqClient MockClient := MockClient_client ranger_std.

Definition node_world : World MockClient := {| w_mq := NewMockClient; w_metrics := [] |}.
Definition node_data : DdDataService := NewDdDataService (5 * Second) None.
Definition node_begun : World MockClient * DdDataService * begun :=
  SendSync_begin ranger_std 100 node_world node_data "dd/default/transfer/order/request"
    (Some request_sample).

(** Peer edge-1 asks for an order; another call, of another peer and resource, has the
    same idempotency key. *)
Definition invoice_header : DdHeader :=
  {| h_RequestId := "r2"; h_CorrelationId := ""; h_ReplyTo := ""; h_TimeoutMs := 10;
     h_SourcePeerId := "edge-2"; h_TargetPeerId := ""; h_Tenant := "default";
     h_TraceId := "r2"; h_IdempotencyKey := "k1" |}.
Definition invoice_sample : DdMessage :=
  {| msg_Version := "v1"; msg_Mode := DdTransferModeSync; msg_Protocol := DdProtocolMq;
     msg_Resource := "invoice"; msg_Header := invoice_header; msg_Meta := invoice_header;
     msg_Headers := ∅; msg_ProtocolMeta := ∅; msg_Payload := []; msg_CreatedAt := 6 |}.

Definition order_topic := "dd/default/transfer/order/request".
Definition invoice_topic := "dd/default/transfer/invoice/request".
Definition response_data : bytes :=
  default [] (match (EncodeDdMessage response_sample false).2 with Ok d => Some d | Fail _ => None end).

(** The states of a run: thread 0 calls, thread 1 handles the response, thread 2 calls. *)
Abbreviation mock_system := (System (C := MockClient)).
Definition sys_init : mock_system := init_system node_world (5 * Second) None.
Definition sys_called (σ : mock_system) tid topic msg : mock_system :=
  let r := SendSync_prepare ranger_std 100 100 100 (sys_w σ) (sys_s σ) topic msg in
  with_thread σ r.1.1 r.1.2 tid (prepared_thread topic msg r.2).
Definition sys_first : mock_system := sys_called sys_init 0 order_topic (Some request_sample).
Definition sys_registered : mock_system :=
  with_thread sys_first (sys_w sys_first)
    (SendSync_register (sys_s sys_first) request_sample).1 0
    (SyncRegistered order_topic request_sample 0).
Definition sys_published : mock_system :=
  let r := SendSync_publish 100 100 (sys_w sys_registered) (sys_s sys_registered)
             order_topic request_sample in
  with_thread sys_registered r.1.1.1 r.1.1.2 0 (SyncWaiting 100 request_sample 0).
Definition sys_answering : mock_system :=
  with_thread sys_published (sys_w sys_published) (sys_s sys_published) 1
    (RespOffer response_sample 0).
Definition sys_buffered : mock_system :=
  with_thread sys_answering (sys_w sys_answering)
    (try_send (sys_s sys_answering) 0 response_sample).1 1 RespDone.
Definition sys_selected : mock_system :=
  let r := default (sys_w sys_buffered, sys_s sys_buffered, Ok response_sample)
    (SendSync_select 100 200 200 200 (sys_w sys_buffered) (sys_s sys_buffered)
       request_sample 0 WakeResponse) in
  with_thread sys_buffered r.1.1 r.1.2 0 (SyncLeaving request_sample 0 r.2).
Definition sys_done : mock_system :=
  with_thread sys_selected (sys_w sys_selected)
    (SendSync_cleanup (sys_s sys_selected) request_sample) 0
    (SyncDone request_sample (Ok response_sample)).
Definition sys_cached : mock_system := sys_called sys_done 2 invoice_topic (Some invoice_sample).

Lemma sys_called_step (σ : mock_system) tid topic msg :
  sys_threads σ !! tid = None → sys_step σ (sys_called σ tid topic msg).
Proof. intros Hf. unfold sys_called. eapply step_call; [done|]. by rewrite <- !surjective_pairing. Qed.

Lemma sys_published_reachable : rtc sys_step sys_init sys_published.
Proof.
  assert (sys_step sys_init sys_first) as E1 by (apply sys_called_step; vm_compute; reflexivity).
  assert (sys_step sys_first sys_registered) as E2.
  { apply (step_register sys_first 0 order_topic request_sample
      (SendSync_register (sys_s sys_first) request_sample).1 0); vm_compute; reflexivity. }
  assert (sys_step sys_registered sys_published) as E3.
  { apply (step_publish 100 100 100 sys_registered 0 order_topic request_sample 0
      (SendSync_publish 100 100 (sys_w sys_registered) (sys_s sys_registered)
        order_topic request_sample).1.1.1
      (SendSync_publish 100 100 (sys_w sys_registered) (sys_s sys_registered)
        order_topic request_sample).1.1.2 request_sample); vm_compute; reflexivity. }
  eapply rtc_l; [exact E1|]. eapply rtc_l; [exact E2|]. exact (rtc_once _ _ E3).
Qed.

Lemma sys_done_reachable : rtc sys_step sys_init sys_done.
Proof.
  assert (sys_step sys_published sys_answering) as E1.
  { apply (step_response sys_published 1 response_data); vm_compute; reflexivity. }
  assert (sys_step sys_answering sys_buffered) as E2.
  { apply (step_offer sys_answering 1 response_sample 0); vm_compute; reflexivity. }
  assert (sys_step sys_buffered sys_selected) as E3.
  { apply (step_select 200 200 200 sys_buffered 0 100 request_sample 0 WakeResponse);
      vm_compute; reflexivity. }
  assert (sys_step sys_selected sys_done) as E4.
  { apply (step_cleanup sys_selected 0 request_sample 0 (Ok response_sample)).
    vm_compute; reflexivity. }
  etrans; [exact sys_published_reachable|].
  eapply rtc_l; [exact E1|]. eapply rtc_l; [exact E2|]. eapply rtc_l; [exact E3|].
  exact (rtc_once _ _ E4).
Qed.

Lemma sys_cached_reachable : rtc sys_step sys_init sys_cached.
Proof.
  eapply rtc_r; [exact sys_done_reachable|]. apply sys_called_step. vm_compute; reflexivity.
Qed.

Lemma sync_calls_safe_witness :
  rtc sys_step sys_init sys_cached ∧
  sys_threads sys_cached !! 0%nat = Some (SyncDone request_sample (Ok response_sample)) ∧
  sys_threads sys_cached !! 2%nat = Some (SyncCached "k1" response_sample) ∧
  (size (ds_pendingRequests (sys_s sys_cached)) ≤ 1024)%nat ∧
  ∃ tid' msg, h_IdempotencyKey (msg_Header msg) = "k1" ∧
    response_id response_sample = h_RequestId (msg_Header msg) ∧
    (sys_threads sys_cached !! tid' = Some (SyncDone msg (Ok response_sample)) ∨
     ∃ ch, sys_threads sys_cached !! tid' = Some (SyncLeaving msg ch (Ok response_sample))).
Proof.
  split; [exact sys_cached_reachable|].
  assert (sys_threads sys_cached !! 2%nat = Some (SyncCached "k1" response_sample)) as Hc
    by (vm_compute; reflexivity).
  split; [vm_compute; reflexivity|]. split; [exact Hc|].
  destruct (sync_calls_safe node_world (5 * Second) None sys_cached sys_cached_reachable)
    as (_ & Hsize & _ & _ & Hcached).
  split; [exact Hsize|]. destruct (Hcached _ _ _ Hc) as (_ & tid' & msg & Ht & Hk & Hid).
  exists tid', msg. split; [exact Hk|]. split; [exact Hid|exact Ht].
Defined.

(** The cache is keyed by the idempotency key alone: the call for an invoice returns the
    order, which another peer has asked for, and publishes nothing. *)
Theorem cached_response_crosses :
  rtc sys_step sys_init sys_done ∧
  let r := SendSync_prepare ranger_std 300 300 300 (sys_w sys_done) (sys_s sys_done)
             invoice_topic (Some invoice_sample) in
  r.2 = PCached response_sample ∧
  mq_sent (w_mq r.1.1) = mq_sent (w_mq (sys_w sys_done)) ∧
  h_SourcePeerId (msg_Header invoice_sample) ≠ h_SourcePeerId (msg_Header request_sample) ∧
  msg_Resource invoice_sample ≠ msg_Resource request_sample ∧
  response_id response_sample ≠ h_RequestId (msg_Header invoice_sample).
Proof.
  split; [exact sys_done_reachable|].
  split_and!; [vm_compute; reflexivity|vm_compute; reflexivity|done..].
Qed.


(** A cache with an entry that has expired at 9, and one that has not. *)
Definition cache_sample : DdDataService :=
  set_idempotent node_data
    (<["k0" := {| ie_response := response_sample; ie_expireAt := 8 |}]>
      {["k1" := {| ie_response := response_sample; ie_expireAt := 9 |}]}).

Lemma sweepIdempotent_bounded_witness :
  let kept := ds_idempotentKeys (sweepIdempotent ranger_std (λ _, ranger_std) 9 cache_sample) in
  ds_idempotentKeys cache_sample !! "" = None ∧ size kept = 1%nat ∧ kept !! "k0" = None.
Proof.
  split; [vm_compute; reflexivity|].
  destruct (sweepIdempotent_bounded ranger_std (λ _, ranger_std) 9 cache_sample)
    as (Hsub & Hsize & _); [vm_compute; reflexivity|]. split.
  - rewrite Hsize. vm_compute. reflexivity.
  - eapply lookup_weaken_None; [|exact Hsub]. vm_compute. reflexivity.
Defined.

Lemma SendSync_duplicate_overwrites_status_witness :
  let p := SendSync_prepare ranger_std 200 200 200 node_begun.1.1 node_begun.1.2
             "dd/default/transfer/order/request" (Some request_sample) in
  let b := SendSync_begin ranger_std 200 node_begun.1.1 node_begun.1.2
             "dd/default/transfer/order/request" (Some request_sample) in
  p.2 = PReady request_sample ∧
  is_Some (ds_pendingRequests node_begun.1.2 !! "r1") ∧
  ∃ rec, GetTransferStatus b.1.2 "r1" = Some rec ∧ tr_Status rec = TransferStatusAccepted.
Proof.
  cbv zeta. split_and!; [vm_compute; reflexivity|by_compute|].
  destruct (SendSync_duplicate_overwrites_status ranger_std 200 node_begun.1.1 node_begun.1.2
    "dd/default/transfer/order/request" (Some request_sample)
    (SendSync_prepare ranger_std 200 200 200 node_begun.1.1 node_begun.1.2
      "dd/default/transfer/order/request" (Some request_sample)).1.1
    (SendSync_prepare ranger_std 200 200 200 node_begun.1.1 node_begun.1.2
      "dd/default/transfer/order/request" (Some request_sample)).1.2
    request_sample 0
    (SendSync_begin ranger_std 200 node_begun.1.1 node_begun.1.2
      "dd/default/transfer/order/request" (Some request_sample)).1.1
    (SendSync_begin ranger_std 200 node_begun.1.1 node_begun.1.2
      "dd/default/transfer/order/request" (Some request_sample)).1.2
    (SendSync_begin ranger_std 200 node_begun.1.1 node_begun.1.2
      "dd/default/transfer/order/request" (Some request_sample)).2)
    as (_ & _ & _ & _ & rec & E & Est & _); [vm_compute; reflexivity..|].
  exists rec. split; [exact E|exact Est].
Defined.

Lemma SendAsync_publishes_witness :
  let r := SendAsync ranger_std 100 101 node_world node_data
             "dd/default/event/order" (Some event_sample) in
  r = (r.1.1.1, r.1.1.2, Some event_sample, None) ∧
  ∃ data, mq_sent (w_mq r.1.1.1) = [("dd/default/event/order", data)] ∧
    DecodeDdMessage data = Ok event_sample.
Proof.
  cbv zeta. split; [vm_compute; reflexivity|].
  destruct (SendAsync_publishes ranger_std 100 101 node_world node_data
    "dd/default/event/order" event_sample
    (SendAsync ranger_std 100 101 node_world node_data
      "dd/default/event/order" (Some event_sample)).1.1.1
    (SendAsync ranger_std 100 101 node_world node_data
      "dd/default/event/order" (Some event_sample)).1.1.2 event_sample None)
    as (_ & _ & _ & (data & E1 & E2) & _); [vm_compute; reflexivity|].
  exists data. split; [exact E1|apply E2; exact I].
Defined.
