(* ===== verification/Streams.v ===== *)
(** Stream sessions (internal/service/stream_service.go).

    The session map holds pointers, and [GetSession] and [ListSessions] hand them
    out: a session is an object of a heap, which the handlers update in place. *)
From S2P Require Import Prelude GoStrings GoTime Errors Metrics TopicFilter Acl Topics.
From S2P Require Import Mq MqProps Model Codec PeerRegistry.
From stdpp Require Import relations fin_map_dom.
From Stdlib Require Import Ascii.

Open Scope string_scope.
Open Scope list_scope.
Open Scope Z_scope.

Record StreamService := {
  st_topics : TopicSet;
  st_sessions : gmap string nat;
  st_heap : gmap nat StreamSession
}.

Definition NewStreamService (topics : TopicSet) : StreamService :=
  {| st_topics := topics; st_sessions := ∅; st_heap := ∅ |}.

Definition set_heap (s : StreamService) (h : gmap nat StreamSession) : StreamService :=
  {| st_topics := st_topics s; st_sessions := st_sessions s; st_heap := h |}.

(** The session that [handleStreamOpen] builds from an event. *)
Definition session_of (now : Time) (evt : StreamOpenEvent) : StreamSession :=
  let session := {| ss_StreamId := so_StreamId evt; ss_Resource := so_Resource evt;
    ss_Profile := so_Profile evt; ss_SourcePeerId := so_SourcePeerId evt;
    ss_TargetPeerIds := so_TargetPeerIds evt; ss_Status := StreamStatusActive;
    ss_IdleTimeoutMs := so_IdleTimeoutMs evt; ss_OpenedAt := now;
    ss_ClosedAt := time_zero; ss_LastActiveAt := now |} in
  let session := if decide (ss_Profile session = "")
                 then set_session_Profile session StreamProfileFull else session in
  if decide (ss_IdleTimeoutMs session ≤ 0)
  then set_session_IdleTimeoutMs session 15000 else session.

(** The timeout of a session in [SweepIdle]: a 64-bit product. *)
Definition session_timeout (idleTimeout : Duration) (session : StreamSession) : Duration :=
  let timeout := dur_mul (ss_IdleTimeoutMs session) Millisecond in
  if decide (timeout ≤ 0) then idleTimeout else timeout.

(** One turn of the loop of [SweepIdle]. *)
Definition sweep_session (now : Time) (idleTimeout : Duration) (session : StreamSession)
    : StreamSession :=
  if decide (ss_Status session ≠ StreamStatusActive) then session
  else if decide (Sub now (ss_LastActiveAt session) > session_timeout idleTimeout session)
       then set_session_Status session StreamStatusTimeout
       else session.

Definition SweepIdle (ρ : ranger) (now : Time) (idleTimeout : Duration) (s : StreamService)
    : StreamService :=
  set_heap s (foldl (λ h '(_, addr), alter (sweep_session now idleTimeout) addr h)
                (st_heap s) (range ρ (st_sessions s))).

(** The pointer, and what it points to when it is read. *)
Definition GetSession (s : StreamService) (streamId : string) : option nat :=
  st_sessions s !! streamId.

Definition ListSessions (ρ : ranger) (s : StreamService) : list nat :=
  foldl (λ out '(_, session), out ++ [session]) [] (range ρ (st_sessions s)).

Class StreamCodecs := {
  #[global] codec_stream_open :: JsonCodec StreamOpenEvent;
  #[global] codec_stream_close :: JsonCodec StreamCloseEvent
}.

Section streams.
Context {C : Type} `{MqClient C} `{StreamCodecs}.
Implicit Types (w : World C) (s : StreamService).

Definition Streams_Start w s : World C * option error :=
  let '(c, err) := Subscribe_all (w_mq w)
    [(StreamOpen (st_topics s) "*", hStreamOpen);
     (StreamClose (st_topics s) "*", hStreamClose)] in
  (set_mq w c, err).

Definition handleStreamOpen (now : Time) s (payload : bytes) : StreamService :=
  match json_Unmarshal (A := StreamOpenEvent) payload with
  | Fail _ => s
  | Ok evt =>
      let addr := fresh (dom (st_heap s)) in
      {| st_topics := st_topics s;
         st_sessions := <[so_StreamId evt := addr]> (st_sessions s);
         st_heap := <[addr := session_of now evt]> (st_heap s) |}
  end.

Definition handleStreamClose (now : Time) s (payload : bytes) : StreamService :=
  match json_Unmarshal (A := StreamCloseEvent) payload with
  | Fail _ => s
  | Ok evt =>
      match st_sessions s !! sc_StreamId evt with
      | None => s
      | Some addr =>
          set_heap s (alter (λ session,
            set_session_ClosedAt (set_session_Status session StreamStatusClosed) now)
            addr (st_heap s))
      end
  end.

(** [stamp] is the formatted clock that names the stream. *)
Definition OpenStream (stamp : string) w s (evt : StreamOpenEvent) : World C * option error :=
  let evt := {| so_StreamId := "strm-" +:+ stamp; so_Resource := so_Resource evt;
                so_Profile := so_Profile evt; so_SourcePeerId := so_SourcePeerId evt;
                so_TargetPeerIds := so_TargetPeerIds evt;
                so_IdleTimeoutMs := so_IdleTimeoutMs evt |} in
  publish_event w (StreamOpen (st_topics s) (so_Resource evt)) evt.

Definition CloseStream w s (streamId reason : string) : World C * option error :=
  publish_event w (StreamClose (st_topics s) "*")
    {| sc_StreamId := streamId; sc_Reason := reason |}.

(** * Steps and the life of a session *)

Inductive stream_step : StreamService → StreamService → Prop :=
| stream_open now s payload : stream_step s (handleStreamOpen now s payload)
| stream_close now s payload : stream_step s (handleStreamClose now s payload)
| stream_sweep ρ now idleTimeout s : stream_step s (SweepIdle ρ now idleTimeout s).

#[local] Hint Resolve rtc_refl : core.

(** How a session object may change: it is closed, or an active one times out. *)
Inductive session_step : StreamSession → StreamSession → Prop :=
| session_close now x :
    session_step x (set_session_ClosedAt (set_session_Status x StreamStatusClosed) now)
| session_timeout_step x : ss_Status x = StreamStatusActive →
    session_step x (set_session_Status x StreamStatusTimeout).

(** What is true of every session object. *)
Record session_ok (x : StreamSession) : Prop := {
  so_status : ss_Status x ∈ [StreamStatusActive; StreamStatusClosed; StreamStatusTimeout];
  so_profile : ss_Profile x ≠ "";
  so_timeout : 0 < ss_IdleTimeoutMs x;
  so_active : ss_LastActiveAt x = ss_OpenedAt x
}.

Record streams_ok s : Prop := {
  sok_session addr x : st_heap s !! addr = Some x → session_ok x;
  sok_pointer id addr : st_sessions s !! id = Some addr →
    ∃ x, st_heap s !! addr = Some x ∧ ss_StreamId x = id
}.

Lemma session_of_ok now evt : session_ok (session_of now evt).
Proof using Type.
  unfold session_of. repeat case_decide; simpl in *; split; simpl; try done; try lia; left.
Qed.

Lemma session_of_id now evt : ss_StreamId (session_of now evt) = so_StreamId evt.
Proof using Type. unfold session_of. by repeat case_decide. Qed.

Lemma session_step_id x y : rtc session_step x y → ss_StreamId y = ss_StreamId x.
Proof using Type. induction 1 as [|x y z Hxy _ ->]; [done|]. by destruct Hxy. Qed.

Lemma session_step_ok x y : rtc session_step x y → session_ok x → session_ok y.
Proof using Type.
  induction 1 as [|x y z Hxy _ IH]; [done|]. intros []. apply IH.
  destruct Hxy; split; simpl; try done; [right; left|right; right; left].
Qed.

Lemma sweep_session_step now idle x : rtc session_step x (sweep_session now idle x).
Proof using Type.
  unfold sweep_session. case_decide as Hs; [done|]. case_decide; [|done].
  by apply rtc_once, session_timeout_step.
Qed.

(** The loop alters objects one after the other, none twice when the pointers are
    distinct; here it only matters that each alteration is a step. *)
Lemma alter_loop_steps (f : StreamSession → StreamSession) (l : list (string * nat))
    (h : gmap nat StreamSession) :
  (∀ x, rtc session_step x (f x)) →
  ∀ addr, match h !! addr with
    | Some x => ∃ y, foldl (λ h '(_, a), alter f a h) h l !! addr = Some y ∧
                     rtc session_step x y
    | None => foldl (λ h '(_, a), alter f a h) h l !! addr = None
    end.
Proof using Type.
  intros Hf. revert h. induction l as [|[k a] l IH]; intros h addr; simpl.
  - destruct (h !! addr) as [x|]; [|done]. by exists x.
  - specialize (IH (alter f a h) addr).
    destruct (decide (a = addr)) as [->|Hne].
    + rewrite lookup_alter_eq in IH. destruct (h !! addr) as [x|]; simpl in IH; [|done].
      destruct IH as (y & ? & ?). exists y. split; [done|]. transitivity (f x); [apply Hf|done].
    + by rewrite lookup_alter_ne in IH by done.
Qed.

(** A step adds objects and lets the others take session steps. *)
Lemma stream_step_objects s s' addr x :
  stream_step s s' → st_heap s !! addr = Some x →
  ∃ y, st_heap s' !! addr = Some y ∧ rtc session_step x y.
Proof using Type.
  intros Hstep Hx. destruct Hstep as [now s payload|now s payload|ρ now idle s].
  - unfold handleStreamOpen. destruct (json_Unmarshal payload) as [evt|]; [|by exists x].
    simpl. exists x. split; [|done]. rewrite lookup_insert_ne; [done|].
    intros E. apply (is_fresh (dom (st_heap s))). rewrite E. by apply elem_of_dom_2 in Hx.
  - unfold handleStreamClose. destruct (json_Unmarshal payload) as [evt|]; [|by exists x].
    destruct (st_sessions s !! sc_StreamId evt) as [a|]; [|by exists x]. simpl.
    destruct (decide (a = addr)) as [->|Hne].
    + rewrite lookup_alter_eq, Hx. simpl. eexists. split; [done|].
      apply rtc_once. constructor.
    + rewrite lookup_alter_ne by done. by exists x.
  - pose proof (alter_loop_steps (sweep_session now idle) (range ρ (st_sessions s))
      (st_heap s) (sweep_session_step now idle) addr) as Hl.
    by rewrite Hx in Hl.
Qed.

Lemma streams_ok_step s s' : stream_step s s' → streams_ok s → streams_ok s'.
Proof using Type.
  intros Hstep [Hs Hp]. split.
  - intros addr y Hy. destruct (st_heap s !! addr) as [x|] eqn:Hx.
    + destruct (stream_step_objects _ _ _ _ Hstep Hx) as (y' & Hy' & Hr).
      assert (y' = y) as -> by congruence. eapply session_step_ok; [done|by eapply Hs].
    + destruct Hstep as [now s payload|now s payload|ρ now idle s]; revert Hy.
      * unfold handleStreamOpen. destruct (json_Unmarshal payload) as [evt|]; [|congruence].
        simpl. rewrite lookup_insert. case_decide; [|congruence].
        intros [= <-]. apply session_of_ok.
      * unfold handleStreamClose. destruct (json_Unmarshal payload) as [evt|]; [|congruence].
        destruct (st_sessions s !! sc_StreamId evt) as [a|]; [|congruence]. simpl.
        rewrite lookup_alter. case_decide; [|congruence]. subst. by rewrite Hx.
      * pose proof (alter_loop_steps (sweep_session now idle) (range ρ (st_sessions s))
          (st_heap s) (sweep_session_step now idle) addr) as Hl.
        rewrite Hx in Hl. simpl. by rewrite Hl.
  - assert (∀ id addr, st_sessions s !! id = Some addr →
      ∃ x, st_heap s' !! addr = Some x ∧ ss_StreamId x = id) as Hold.
    { intros id addr Hid. destruct (Hp _ _ Hid) as (x & Hx & Hxi).
      destruct (stream_step_objects _ _ _ _ Hstep Hx) as (y & Hy & Hr).
      exists y. split; [done|]. by rewrite (session_step_id _ _ Hr). }
    destruct Hstep as [now s payload|now s payload|ρ now idle s]; [|revert Hold|exact Hold].
    + revert Hold. unfold handleStreamOpen.
      destruct (json_Unmarshal payload) as [evt|]; [|done]. simpl. intros Hold id addr.
      rewrite lookup_insert. case_decide; [|apply Hold]. intros [= <-].
      eexists. split; [apply lookup_insert_eq|]. by rewrite session_of_id.
    + unfold handleStreamClose. destruct (json_Unmarshal payload) as [evt|]; [|done].
      by destruct (st_sessions s !! sc_StreamId evt).
Qed.

Lemma session_step_final x y : rtc session_step x y →
  ss_Status x ≠ StreamStatusActive → ss_Status y ≠ StreamStatusActive.
Proof using Type. induction 1 as [|x y z Hxy _ IH]; [done|]. destruct Hxy; auto. Qed.

Lemma streams_reachable s0 s addr x :
  rtc stream_step s0 s → st_heap s0 !! addr = Some x →
  ∃ y, st_heap s !! addr = Some y ∧ rtc session_step x y.
Proof using Type.
  intros Hr. revert x. induction Hr as [s|s1 s2 s3 H1 _ IH]; intros x Hx; [by exists x|].
  destruct (stream_step_objects _ _ _ _ H1 Hx) as (y & Hy & Hxy).
  destruct (IH y Hy) as (z & Hz & Hyz). exists z. split; [done|]. by transitivity y.
Qed.

Lemma streams_ok_reachable topics s :
  rtc stream_step (NewStreamService topics) s → streams_ok s.
Proof using Type.
  remember (NewStreamService topics) as s0 eqn:E. intros Hr.
  assert (streams_ok s0) as Hok0.
  { subst. split; simpl; intros ??; by rewrite lookup_empty. }
  clear E. induction Hr; eauto using streams_ok_step.
Qed.

(** * Properties *)

(** C26: in every state of the service each pointer of the session map leads to a
    session of its stream, with a positive idle timeout, a profile, and one of the
    statuses active, closed or timed out; a session object keeps its identity, and
    once it is not active it never becomes active again, through any pointer a
    reader still holds. *)
Theorem stream_sessions_final topics s s' addr x :
  rtc stream_step (NewStreamService topics) s → rtc stream_step s s' →
  st_heap s !! addr = Some x →
  streams_ok s ∧
  ∃ y, st_heap s' !! addr = Some y ∧ session_ok y ∧ ss_StreamId y = ss_StreamId x ∧
    (ss_Status x ≠ StreamStatusActive → ss_Status y ≠ StreamStatusActive).
Proof using Type.
  intros Hr Hr' Hx. pose proof (streams_ok_reachable _ _ Hr) as Hok. split; [done|].
  destruct (streams_reachable _ _ _ _ Hr' Hx) as (y & Hy & Hxy).
  exists y. split_and!; [done| | |].
  - eapply session_step_ok; [done|]. by eapply (sok_session _ Hok).
  - by apply session_step_id.
  - by apply session_step_final.
Qed.

End streams.

(** The loop of [SweepIdle] visits each object at most once when the pointers are
    distinct. *)
Lemma alter_loop_lookup (f : StreamSession → StreamSession) (l : list (string * nat))
    (h : gmap nat StreamSession) addr :
  NoDup l.*2 →
  foldl (λ h '(_, a), alter f a h) h l !! addr =
  if decide (addr ∈ l.*2) then f <$> h !! addr else h !! addr.
Proof.
  revert h. induction l as [|[k a] l IH]; intros h Hnd; cbn [foldl fmap list_fmap snd].
  - rewrite decide_False; [done|]. apply not_elem_of_nil.
  - apply NoDup_cons in Hnd as [Ha Hnd]. rewrite IH by done.
    destruct (decide (a = addr)) as [->|Hne].
    + rewrite decide_False by done. rewrite decide_True by left.
      by rewrite lookup_alter_eq.
    + rewrite lookup_alter_ne by done. apply decide_ext. rewrite elem_of_cons.
      intuition congruence.
Qed.

(** C27: a sweep times out exactly the active sessions of the map that have been
    open for longer than their timeout; since no operation of the service updates
    the time of the last activity, the idle timeout of a session is a limit on its
    age, however active the stream is. *)
Theorem SweepIdle_by_age `{StreamCodecs} topics s ρ now idleTimeout id addr x :
  rtc stream_step (NewStreamService topics) s →
  st_sessions s !! id = Some addr → st_heap s !! addr = Some x →
  0 < ss_IdleTimeoutMs x ∧
  st_heap (SweepIdle ρ now idleTimeout s) !! addr =
    Some (if decide (ss_Status x = StreamStatusActive ∧
                     Sub now (ss_OpenedAt x) > session_timeout idleTimeout x)
          then set_session_Status x StreamStatusTimeout else x).
Proof.
  intros Hr Hid Hx. pose proof (streams_ok_reachable _ _ Hr) as Hok.
  destruct (sok_session _ Hok _ _ Hx) as [_ _ Ht Ha]. split; [done|].
  unfold SweepIdle. simpl. rewrite alter_loop_lookup.
  - rewrite decide_True.
    + rewrite Hx. simpl. f_equal. unfold sweep_session. rewrite Ha.
      repeat case_decide; tauto.
    + apply list_elem_of_fmap. exists (id, addr). by rewrite range_lookup.
  - rewrite NoDup_alt. intros i j a. rewrite !list_lookup_fmap.
    destruct (range ρ (st_sessions s) !! i) as [[k1 a1]|] eqn:E1; [|done].
    destruct (range ρ (st_sessions s) !! j) as [[k2 a2]|] eqn:E2; [|done].
    simpl. intros [= <-] [= <-].
    pose proof (list_elem_of_lookup_2 _ _ _ E1) as F1.
    pose proof (list_elem_of_lookup_2 _ _ _ E2) as F2.
    apply (range_lookup ρ) in F1, F2.
    destruct (sok_pointer _ Hok _ _ F1) as (x1 & Hx1 & <-).
    destruct (sok_pointer _ Hok _ _ F2) as (x2 & Hx2 & <-).
    assert (x1 = x2) as -> by congruence.
    eapply NoDup_lookup; [apply (range_NoDup_fst ρ (st_sessions s))| |];
      rewrite list_lookup_fmap; [by rewrite E1|by rewrite E2].
Qed.

(** A broker that follows MQTT never delivers an opened stream to the service:
    the service subscribes to the resource level ["*"], which MQTT does not take for
    a wildcard, and opens are published under the resource's own name; the in-memory
    broker of the tests does deliver it. *)
Theorem stream_open_not_delivered t resource :
  level_name (t_tenant t) → level_name resource → t_tenant t ≠ "#" → resource ≠ "*" →
  matchMQTTTopic (StreamOpen t "*") (StreamOpen t resource) = false ∧
  matchMQTTTopicWildcard (StreamOpen t "*") (StreamOpen t resource) = true.
Proof.
  intros Ht Hr Hh Hs. assert (level_name "*") as Hstar by by_compute.
  split.
  - apply not_true_is_false. rewrite matchMQTTTopic_accepts. unfold topic_accepts.
    rewrite !levels_StreamOpen by done.
    rewrite filter_level_iff by done. intros [_ H].
    rewrite filter_level_iff in H by done. destruct H as [_ H].
    rewrite filter_level_iff in H by done. destruct H as [_ H].
    rewrite filter_level_iff in H by done. destruct H as [[H|H] _]; [done|].
    by apply Hs.
  - unfold matchMQTTTopicWildcard. case_decide; [done|].
    unfold matchLevels. rewrite !levels_StreamOpen by done. simpl.
    rewrite !decide_False by done.
    destruct (decide (t_tenant t = "+" ∨ t_tenant t = "*")); [done|].
    by rewrite decide_False by (by intros []).
Qed.

(** * The properties at a concrete service *)

Definition open_event : StreamOpenEvent :=
  {| so_StreamId := "s1"; so_Resource := "camera"; so_Profile := ""; so_SourcePeerId := "e1";
     so_TargetPeerIds := []; so_IdleTimeoutMs := 0 |}.

#[local] Instance stream_codecs : StreamCodecs := {|
  codec_stream_open := table_codec [(open_event, json_text "{'stream_id':'s1'}")];
  codec_stream_close := table_codec []
|}.

Definition streams0 : StreamService := NewStreamService (NewDefaultTopicSet "default").
Definition streams1 : StreamService :=
  handleStreamOpen 100 streams0 (to_bytes (json_text "{'stream_id':'s1'}")).

Lemma streams1_steps : rtc stream_step streams0 streams1.
Proof. apply rtc_once. constructor. Qed.

(** The session times out and its stream is opened again: the map has a new object, and
    the old one stays timed out. *)
Definition streams2 : StreamService :=
  SweepIdle ranger_std (100 + 16 * Second) (15 * Second) streams1.
Definition streams3 : StreamService :=
  handleStreamOpen (100 + 20 * Second) streams2 (to_bytes (json_text "{'stream_id':'s1'}")).

Lemma streams3_steps : rtc stream_step streams2 streams3.
Proof. apply rtc_once. constructor. Qed.
Lemma streams2_steps : rtc stream_step streams0 streams2.
Proof. etrans; [apply streams1_steps|]. apply rtc_once. constructor. Qed.

Lemma stream_sessions_final_witness :
  rtc stream_step streams0 streams2 ∧ rtc stream_step streams2 streams3 ∧
  st_heap streams2 !! 0%nat =
    Some (set_session_Status (session_of 100 open_event) StreamStatusTimeout) ∧
  st_sessions streams3 !! "s1" = Some 1%nat ∧
  ∃ y, st_heap streams3 !! 0%nat = Some y ∧ ss_StreamId y = "s1" ∧
    ss_Status y ≠ StreamStatusActive.
Proof.
  split; [apply streams2_steps|]. split; [apply streams3_steps|].
  split; [vm_compute; reflexivity|]. split; [vm_compute; reflexivity|].
  destruct (stream_sessions_final (NewDefaultTopicSet "default") streams2 streams3 0
    (set_session_Status (session_of 100 open_event) StreamStatusTimeout))
    as (_ & y & Hy & _ & Hid & Hst);
    [apply streams2_steps|apply streams3_steps|vm_compute; reflexivity|].
  exists y. split; [exact Hy|]. split; [exact Hid|]. apply Hst. discriminate.
Defined.

Lemma SweepIdle_by_age_witness :
  st_sessions streams1 !! "s1" = Some 0%nat ∧
  st_heap (SweepIdle ranger_std (100 + 16 * Second) (15 * Second) streams1) !! 0%nat =
    Some (set_session_Status (session_of 100 open_event) StreamStatusTimeout).
Proof.
  split; [vm_compute; reflexivity|].
  destruct (SweepIdle_by_age (NewDefaultTopicSet "default") streams1 ranger_std
    (100 + 16 * Second) (15 * Second) "s1" 0 (session_of 100 open_event)) as [_ E];
    [apply streams1_steps|vm_compute; reflexivity..|].
  rewrite E. vm_compute. reflexivity.
Defined.

Lemma stream_open_not_delivered_witness :
  let t := NewDefaultTopicSet "default" in
  level_name (t_tenant t) ∧ level_name "camera" ∧ t_tenant t ≠ "#" ∧ "camera" ≠ "*" ∧
  matchMQTTTopic (StreamOpen t "*") (StreamOpen t "camera") = false.
Proof.
  cbv zeta. split_and!; [by_compute..|].
  apply (stream_open_not_delivered (NewDefaultTopicSet "default") "camera"); by_compute.
Defined.
