(* ===== verification/Config.v ===== *)
(** Configuration (internal/config/config.go and cli.go): the defaults, the file,
    the environment, the inline JSON and the command line, layered by
    [LoadWithArgs]; and the parsing of the command line.

    Assignments to distinct fields of a struct are written as one record. *)
From S2P Require Import Prelude GoStrings Errors.
From Stdlib Require Import Ascii.

Open Scope string_scope.
Open Scope list_scope.
Open Scope Z_scope.

(** * The structs *)

Record BroadcastConfig := { bc_IntervalSec : Z; bc_TtlSec : Z }.
Record AuthPeerConfig := { ap_Key : string; ap_Secret : string; ap_VerifyTopicSuffix : string }.
Record PeerConfig := {
  pc_Id : string; pc_Name : string; pc_Role : string; pc_Key : string; pc_Secret : string;
  pc_Broadcast : BroadcastConfig; pc_Auth : AuthPeerConfig
}.
Record ServerConfig := { sv_ListenAddr : string }.
Record TLSConfig := {
  tls_Enabled : bool; tls_CaCertFile : string; tls_ClientCertFile : string;
  tls_ClientKeyFile : string; tls_InsecureSkipVerify : bool
}.
Record TopicAliasConfig := { ta_Enabled : bool }.
Record MqttConfig := {
  mt_BrokerUrl : string; mt_ClientId : string; mt_Username : string; mt_Password : string;
  mt_TLS : TLSConfig; mt_TopicAlias : TopicAliasConfig
}.
Record MqConfig := { mq_Provider : string; mq_Mqtt : MqttConfig }.
Record HttpBridgeCfg := { hb_Enabled : bool; hb_TargetUrl : string }.
Record CoapBridgeCfg := { cb_Enabled : bool; cb_TargetUrl : string }.
Record MqttMappingCfg := { mm_Source : string; mm_Target : string }.
Record BridgeConfig := {
  br_Http : HttpBridgeCfg; br_Coap : CoapBridgeCfg; br_MqttMappings : list MqttMappingCfg
}.
Record SyncConfig := { sy_DefaultTimeoutMs : Z }.
Record DiscoveryConfig := {
  dc_HeartbeatIntervalSec : Z; dc_LeaseTtlSec : Z; dc_DefaultPageSize : Z; dc_MaxPageSize : Z
}.
Record AclRule := { ar_PeerId : string; ar_Action : string; ar_Pattern : string; ar_Allow : bool }.
Record AclConfig := { ac_Rules : list AclRule }.
Record LoggingConfig := { lg_Level : string; lg_Format : string }.

Record Config := {
  cfg_Server : ServerConfig;
  cfg_Peer : PeerConfig;
  cfg_Mq : MqConfig;
  cfg_Tenant : string;
  cfg_Sync : SyncConfig;
  cfg_Discovery : DiscoveryConfig;
  cfg_Bridges : BridgeConfig;
  cfg_Acl : AclConfig;
  cfg_Logging : LoggingConfig
}.

Definition zero_config : Config := {|
  cfg_Server := {| sv_ListenAddr := "" |};
  cfg_Peer := {| pc_Id := ""; pc_Name := ""; pc_Role := ""; pc_Key := ""; pc_Secret := "";
                 pc_Broadcast := {| bc_IntervalSec := 0; bc_TtlSec := 0 |};
                 pc_Auth := {| ap_Key := ""; ap_Secret := ""; ap_VerifyTopicSuffix := "" |} |};
  cfg_Mq := {| mq_Provider := "";
               mq_Mqtt := {| mt_BrokerUrl := ""; mt_ClientId := ""; mt_Username := "";
                 mt_Password := "";
                 mt_TLS := {| tls_Enabled := false; tls_CaCertFile := "";
                   tls_ClientCertFile := ""; tls_ClientKeyFile := "";
                   tls_InsecureSkipVerify := false |};
                 mt_TopicAlias := {| ta_Enabled := false |} |} |};
  cfg_Tenant := "";
  cfg_Sync := {| sy_DefaultTimeoutMs := 0 |};
  cfg_Discovery := {| dc_HeartbeatIntervalSec := 0; dc_LeaseTtlSec := 0;
                      dc_DefaultPageSize := 0; dc_MaxPageSize := 0 |};
  cfg_Bridges := {| br_Http := {| hb_Enabled := false; hb_TargetUrl := "" |};
                    br_Coap := {| cb_Enabled := false; cb_TargetUrl := "" |};
                    br_MqttMappings := [] |};
  cfg_Acl := {| ac_Rules := [] |};
  cfg_Logging := {| lg_Level := ""; lg_Format := "" |}
|}.

Definition defaultConfig : Config := {|
  cfg_Server := {| sv_ListenAddr := ":8080" |};
  cfg_Peer := {| pc_Id := ""; pc_Name := ""; pc_Role := "edge"; pc_Key := ""; pc_Secret := "";
                 pc_Broadcast := {| bc_IntervalSec := 10; bc_TtlSec := 30 |};
                 pc_Auth := pc_Auth (cfg_Peer zero_config) |};
  cfg_Mq := {| mq_Provider := "mqtt";
               mq_Mqtt := {| mt_BrokerUrl := "tcp://localhost:1883";
                 mt_ClientId := "dd-core-hub"; mt_Username := ""; mt_Password := "";
                 mt_TLS := mt_TLS (mq_Mqtt (cfg_Mq zero_config));
                 mt_TopicAlias := {| ta_Enabled := false |} |} |};
  cfg_Tenant := "default";
  cfg_Sync := {| sy_DefaultTimeoutMs := 3000 |};
  cfg_Discovery := {| dc_HeartbeatIntervalSec := 10; dc_LeaseTtlSec := 30;
                      dc_DefaultPageSize := 20; dc_MaxPageSize := 100 |};
  cfg_Bridges := cfg_Bridges zero_config;
  cfg_Acl := {| ac_Rules := [] |};
  cfg_Logging := {| lg_Level := "info"; lg_Format := "json" |}
|}.

(** * Merging *)

(** [if o != "" { base = o }], and the same for positive numbers and for slices. *)
Definition or_string (o base : string) : string := if decide (o ≠ "") then o else base.
Definition or_positive (o base : Z) : Z := if decide (o > 0) then o else base.
Definition or_slice {A} (o base : list A) : list A :=
  if decide (0 < length o)%nat then o else base.

Definition mergeTLS (base override : TLSConfig) : TLSConfig := {|
  tls_Enabled := tls_Enabled base || tls_Enabled override;
  tls_CaCertFile := or_string (tls_CaCertFile override) (tls_CaCertFile base);
  tls_ClientCertFile := or_string (tls_ClientCertFile override) (tls_ClientCertFile base);
  tls_ClientKeyFile := or_string (tls_ClientKeyFile override) (tls_ClientKeyFile base);
  tls_InsecureSkipVerify := tls_InsecureSkipVerify base || tls_InsecureSkipVerify override |}.

Definition mergeMqtt (base override : MqttConfig) : MqttConfig := {|
  mt_BrokerUrl := or_string (mt_BrokerUrl override) (mt_BrokerUrl base);
  mt_ClientId := or_string (mt_ClientId override) (mt_ClientId base);
  mt_Username := or_string (mt_Username override) (mt_Username base);
  mt_Password := or_string (mt_Password override) (mt_Password base);
  mt_TLS := mergeTLS (mt_TLS base) (mt_TLS override);
  mt_TopicAlias := {| ta_Enabled := ta_Enabled (mt_TopicAlias base)
                                    || ta_Enabled (mt_TopicAlias override) |} |}.

(** [Peer.Auth] is not among the fields merged. *)
Definition mergePeer (base override : PeerConfig) : PeerConfig := {|
  pc_Id := or_string (pc_Id override) (pc_Id base);
  pc_Name := or_string (pc_Name override) (pc_Name base);
  pc_Role := or_string (pc_Role override) (pc_Role base);
  pc_Key := or_string (pc_Key override) (pc_Key base);
  pc_Secret := or_string (pc_Secret override) (pc_Secret base);
  pc_Broadcast := {|
    bc_IntervalSec := or_positive (bc_IntervalSec (pc_Broadcast override))
                                  (bc_IntervalSec (pc_Broadcast base));
    bc_TtlSec := or_positive (bc_TtlSec (pc_Broadcast override))
                             (bc_TtlSec (pc_Broadcast base)) |};
  pc_Auth := pc_Auth base |}.

Definition mergeBridges (base override : BridgeConfig) : BridgeConfig := {|
  br_Http := {| hb_Enabled := hb_Enabled (br_Http base) || hb_Enabled (br_Http override);
                hb_TargetUrl := or_string (hb_TargetUrl (br_Http override))
                                          (hb_TargetUrl (br_Http base)) |};
  br_Coap := {| cb_Enabled := cb_Enabled (br_Coap base) || cb_Enabled (br_Coap override);
                cb_TargetUrl := or_string (cb_TargetUrl (br_Coap override))
                                          (cb_TargetUrl (br_Coap base)) |};
  br_MqttMappings := or_slice (br_MqttMappings override) (br_MqttMappings base) |}.

Definition mergeDiscovery (base override : DiscoveryConfig) : DiscoveryConfig := {|
  dc_HeartbeatIntervalSec := or_positive (dc_HeartbeatIntervalSec override)
                                         (dc_HeartbeatIntervalSec base);
  dc_LeaseTtlSec := or_positive (dc_LeaseTtlSec override) (dc_LeaseTtlSec base);
  dc_DefaultPageSize := or_positive (dc_DefaultPageSize override) (dc_DefaultPageSize base);
  dc_MaxPageSize := or_positive (dc_MaxPageSize override) (dc_MaxPageSize base) |}.

Definition mergeInto (base override : Config) : Config := {|
  cfg_Server := {| sv_ListenAddr := or_string (sv_ListenAddr (cfg_Server override))
                                              (sv_ListenAddr (cfg_Server base)) |};
  cfg_Peer := mergePeer (cfg_Peer base) (cfg_Peer override);
  cfg_Mq := {| mq_Provider := or_string (mq_Provider (cfg_Mq override))
                                        (mq_Provider (cfg_Mq base));
               mq_Mqtt := mergeMqtt (mq_Mqtt (cfg_Mq base)) (mq_Mqtt (cfg_Mq override)) |};
  cfg_Tenant := or_string (cfg_Tenant override) (cfg_Tenant base);
  cfg_Sync := {| sy_DefaultTimeoutMs :=
                   or_positive (sy_DefaultTimeoutMs (cfg_Sync override))
                               (sy_DefaultTimeoutMs (cfg_Sync base)) |};
  cfg_Discovery := mergeDiscovery (cfg_Discovery base) (cfg_Discovery override);
  cfg_Bridges := mergeBridges (cfg_Bridges base) (cfg_Bridges override);
  cfg_Acl := {| ac_Rules := or_slice (ac_Rules (cfg_Acl override)) (ac_Rules (cfg_Acl base)) |};
  cfg_Logging := {| lg_Level := or_string (lg_Level (cfg_Logging override))
                                          (lg_Level (cfg_Logging base));
                    lg_Format := or_string (lg_Format (cfg_Logging override))
                                           (lg_Format (cfg_Logging base)) |}
|}.

(** * The environment *)

(** The loop of [parseInt64]: 64-bit arithmetic, without a check of overflow. *)
Fixpoint parseInt64_loop (s : string) (n : Z) : Z :=
  match s with
  | EmptyString => n
  | String c s' =>
      if decide (byte_to_Z c < 48 ∨ byte_to_Z c > 57) then 0
      else parseInt64_loop s' (wrap64 (wrap64 (n * 10) + (byte_to_Z c - 48)))
  end.
Definition parseInt64 (s : string) : Z := parseInt64_loop s 0.
(** [int] has 64 bits. *)
Definition parseInt (s : string) : Z := parseInt64 s.

(** [v == "1" || strings.EqualFold(v, "true")]; no other character folds to one of
    the letters of [true]. *)
Definition env_true (v : string) : bool :=
  bool_decide (v = "1") || bool_decide (ToLower v = "true").

(** [parse] is only called on a value that is set; only a positive result counts. *)
Definition or_parsed (parse : string → Z) (v : string) (base : Z) : Z :=
  if decide (v ≠ "") then if decide (parse v > 0) then parse v else base else base.

Definition applyEnvOverrides (Getenv : string → string) (cfg : Config) : Config := {|
  cfg_Server := {| sv_ListenAddr := or_string (Getenv "DD_SERVER_LISTEN_ADDR")
                                              (sv_ListenAddr (cfg_Server cfg)) |};
  cfg_Peer := {| pc_Id := or_string (Getenv "DD_PEER_ID") (pc_Id (cfg_Peer cfg));
                 pc_Name := or_string (Getenv "DD_PEER_NAME") (pc_Name (cfg_Peer cfg));
                 pc_Role := or_string (Getenv "DD_PEER_ROLE") (pc_Role (cfg_Peer cfg));
                 pc_Key := pc_Key (cfg_Peer cfg);
                 pc_Secret := pc_Secret (cfg_Peer cfg);
                 pc_Broadcast := pc_Broadcast (cfg_Peer cfg);
                 pc_Auth := pc_Auth (cfg_Peer cfg) |};
  cfg_Mq :=
    let mqtt := mq_Mqtt (cfg_Mq cfg) in
    let tls := mt_TLS mqtt in
    {| mq_Provider := or_string (Getenv "DD_MQ_PROVIDER") (mq_Provider (cfg_Mq cfg));
       mq_Mqtt := {|
         mt_BrokerUrl := or_string (Getenv "DD_MQTT_BROKER_URL") (mt_BrokerUrl mqtt);
         mt_ClientId := or_string (Getenv "DD_MQTT_CLIENT_ID") (mt_ClientId mqtt);
         mt_Username := or_string (Getenv "DD_MQTT_USERNAME") (mt_Username mqtt);
         mt_Password := or_string (Getenv "DD_MQTT_PASSWORD") (mt_Password mqtt);
         mt_TLS := {|
           tls_Enabled := if env_true (Getenv "DD_MQTT_TLS_ENABLED") then true
                          else tls_Enabled tls;
           tls_CaCertFile := or_string (Getenv "DD_MQTT_TLS_CA_CERT_FILE")
                                       (tls_CaCertFile tls);
           tls_ClientCertFile := or_string (Getenv "DD_MQTT_TLS_CLIENT_CERT_FILE")
                                           (tls_ClientCertFile tls);
           tls_ClientKeyFile := or_string (Getenv "DD_MQTT_TLS_CLIENT_KEY_FILE")
                                          (tls_ClientKeyFile tls);
           tls_InsecureSkipVerify :=
             if env_true (Getenv "DD_MQTT_TLS_INSECURE_SKIP_VERIFY") then true
             else tls_InsecureSkipVerify tls |};
         mt_TopicAlias := {|
           ta_Enabled := if env_true (Getenv "DD_MQTT_TOPIC_ALIAS_ENABLED") then true
                         else ta_Enabled (mt_TopicAlias mqtt) |} |} |};
  cfg_Tenant := or_string (Getenv "DD_TENANT") (cfg_Tenant cfg);
  cfg_Sync := {| sy_DefaultTimeoutMs :=
    or_parsed parseInt64 (Getenv "DD_SYNC_DEFAULT_TIMEOUT_MS")
              (sy_DefaultTimeoutMs (cfg_Sync cfg)) |};
  cfg_Discovery := {|
    dc_HeartbeatIntervalSec := dc_HeartbeatIntervalSec (cfg_Discovery cfg);
    dc_LeaseTtlSec := or_parsed parseInt (Getenv "DD_DISCOVERY_LEASE_TTL_SEC")
                                (dc_LeaseTtlSec (cfg_Discovery cfg));
    dc_DefaultPageSize := dc_DefaultPageSize (cfg_Discovery cfg);
    dc_MaxPageSize := dc_MaxPageSize (cfg_Discovery cfg) |};
  cfg_Bridges := cfg_Bridges cfg;
  cfg_Acl := cfg_Acl cfg;
  cfg_Logging := {| lg_Level := or_string (Getenv "DD_LOG_LEVEL") (lg_Level (cfg_Logging cfg));
                    lg_Format := or_string (Getenv "DD_LOG_FORMAT")
                                           (lg_Format (cfg_Logging cfg)) |}
|}.

(** [EnvName]: the tenant in lower case with spaces replaced. *)
Fixpoint replace_spaces (s : string) : string :=
  match s with
  | EmptyString => ""
  | String c s' => String (if decide (c = " "%char) then "_"%char else c) (replace_spaces s')
  end.
Definition EnvName (c : Config) : string := replace_spaces (ToLower (cfg_Tenant c)).

(** * The command line *)

Record CliConfig := {
  cli_ConfigPath : string; cli_ConfigJson : string; cli_Role : string; cli_PeerId : string;
  cli_PeerName : string; cli_Tenant : string; cli_ListenAddr : string;
  cli_MqttBroker : string; cli_LogLevel : string; cli_LogFormat : string
}.

(** The flags, all strings. *)
Inductive cli_flag :=
| FConfig | FConfigJson | FRole | FPeerId | FPeerName | FTenant | FListenAddr | FMqttBroker
| FLogLevel | FLogFormat.

Definition cli_flag_name (f : cli_flag) : string :=
  match f with
  | FConfig => "config" | FConfigJson => "config-json" | FRole => "role"
  | FPeerId => "peer-id" | FPeerName => "peer-name" | FTenant => "tenant"
  | FListenAddr => "listen-addr" | FMqttBroker => "mqtt-broker" | FLogLevel => "log-level"
  | FLogFormat => "log-format"
  end.

Definition all_flags : list cli_flag :=
  [FConfig; FConfigJson; FRole; FPeerId; FPeerName; FTenant; FListenAddr; FMqttBroker;
   FLogLevel; FLogFormat].

Definition lookup_flag (name : string) : option cli_flag :=
  snd <$> list_find (λ f, cli_flag_name f = name) all_flags.

Definition set_flag (c : CliConfig) (f : cli_flag) (v : string) : CliConfig :=
  let pick g old := match f, g with
    | FConfig, FConfig | FConfigJson, FConfigJson | FRole, FRole | FPeerId, FPeerId
    | FPeerName, FPeerName | FTenant, FTenant | FListenAddr, FListenAddr
    | FMqttBroker, FMqttBroker | FLogLevel, FLogLevel | FLogFormat, FLogFormat => v
    | _, _ => old
    end in
  {| cli_ConfigPath := pick FConfig (cli_ConfigPath c);
     cli_ConfigJson := pick FConfigJson (cli_ConfigJson c);
     cli_Role := pick FRole (cli_Role c);
     cli_PeerId := pick FPeerId (cli_PeerId c);
     cli_PeerName := pick FPeerName (cli_PeerName c);
     cli_Tenant := pick FTenant (cli_Tenant c);
     cli_ListenAddr := pick FListenAddr (cli_ListenAddr c);
     cli_MqttBroker := pick FMqttBroker (cli_MqttBroker c);
     cli_LogLevel := pick FLogLevel (cli_LogLevel c);
     cli_LogFormat := pick FLogFormat (cli_LogFormat c) |}.

Definition cli_default : CliConfig := {|
  cli_ConfigPath := "config.yaml"; cli_ConfigJson := ""; cli_Role := ""; cli_PeerId := "";
  cli_PeerName := ""; cli_Tenant := ""; cli_ListenAddr := ""; cli_MqttBroker := "";
  cli_LogLevel := ""; cli_LogFormat := ""
|}.

(** [name=value] at the first equals sign after the first character. *)
Fixpoint split_equals (s : string) : string * option string :=
  match s with
  | EmptyString => ("", None)
  | String c s' =>
      if decide (c = "="%char) then ("", Some s')
      else let '(n, v) := split_equals s' in (String c n, v)
  end.

Definition split_flag (name : string) : string * option string :=
  match name with
  | EmptyString => ("", None)
  | String c s' => let '(n, v) := split_equals s' in (String c n, v)
  end.

(** The name part of an argument: [None] when the argument is not a flag, the rest
    after one or two dashes otherwise. *)
Definition flag_body (s : string) : option string :=
  match s with
  | String "-" (String "-" rest) => Some rest
  | String "-" (String c rest) => Some (String c rest)
  | _ => None
  end.

(** A flag name may be neither empty nor start with a dash or an equals sign. *)
Definition bad_syntax (name : string) : bool :=
  match name with
  | EmptyString => true
  | String c _ => bool_decide (c = "-"%char ∨ c = "="%char)
  end.

(** [flag.FlagSet.Parse] for these flags: the values set, up to the first argument
    that is not a flag, the terminator, or an error. *)
Fixpoint flag_Parse (args : list string) (c : CliConfig) : CliConfig :=
  match args with
  | [] => c
  | s :: rest =>
      match flag_body s with
      | None => c
      | Some name =>
          if bad_syntax name then c
          else
            let '(name, value) := split_flag name in
            match lookup_flag name with
            | None => c
            | Some f =>
                match value with
                | Some v => flag_Parse rest (set_flag c f v)
                | None => match rest with
                          | v :: rest' => flag_Parse rest' (set_flag c f v)
                          | [] => c
                          end
                end
            end
      end
  end.

Definition ParseCliArgs (args : list string) : CliConfig := flag_Parse args cli_default.

Definition applyCliOverrides (c : CliConfig) (cfg : Config) : Config := {|
  cfg_Server := {| sv_ListenAddr := or_string (cli_ListenAddr c)
                                              (sv_ListenAddr (cfg_Server cfg)) |};
  cfg_Peer := {| pc_Id := or_string (cli_PeerId c) (pc_Id (cfg_Peer cfg));
                 pc_Name := or_string (cli_PeerName c) (pc_Name (cfg_Peer cfg));
                 pc_Role := or_string (cli_Role c) (pc_Role (cfg_Peer cfg));
                 pc_Key := pc_Key (cfg_Peer cfg); pc_Secret := pc_Secret (cfg_Peer cfg);
                 pc_Broadcast := pc_Broadcast (cfg_Peer cfg);
                 pc_Auth := pc_Auth (cfg_Peer cfg) |};
  cfg_Mq := {| mq_Provider := mq_Provider (cfg_Mq cfg);
               mq_Mqtt := {|
                 mt_BrokerUrl := or_string (cli_MqttBroker c)
                                           (mt_BrokerUrl (mq_Mqtt (cfg_Mq cfg)));
                 mt_ClientId := mt_ClientId (mq_Mqtt (cfg_Mq cfg));
                 mt_Username := mt_Username (mq_Mqtt (cfg_Mq cfg));
                 mt_Password := mt_Password (mq_Mqtt (cfg_Mq cfg));
                 mt_TLS := mt_TLS (mq_Mqtt (cfg_Mq cfg));
                 mt_TopicAlias := mt_TopicAlias (mq_Mqtt (cfg_Mq cfg)) |} |};
  cfg_Tenant := or_string (cli_Tenant c) (cfg_Tenant cfg);
  cfg_Sync := cfg_Sync cfg;
  cfg_Discovery := cfg_Discovery cfg;
  cfg_Bridges := cfg_Bridges cfg;
  cfg_Acl := cfg_Acl cfg;
  cfg_Logging := {| lg_Level := or_string (cli_LogLevel c) (lg_Level (cfg_Logging cfg));
                    lg_Format := or_string (cli_LogFormat c) (lg_Format (cfg_Logging cfg)) |}
|}.

(** * Loading *)

(** [filepath.Ext]: from the last dot of the last path element. *)
Fixpoint Ext_loop (s : string) (ext : string) : string :=
  match s with
  | EmptyString => ext
  | String c s' =>
      if decide (c = "/"%char) then Ext_loop s' ""
      else if decide (c = "."%char) then Ext_loop s' s
      else Ext_loop s' ext
  end.
Definition Ext (path : string) : string := Ext_loop path "".

(** Unmarshalling into an existing configuration. *)
Class ConfigCodecs := {
  config_json : bytes → Config → result Config;
  config_yaml : bytes → Config → result Config
}.

Section loading.
Context `{ConfigCodecs} (ReadFile : string → result bytes) (Getenv : string → string).

Definition LoadPath (path : string) : result Config :=
  match ReadFile path with
  | Fail err => Fail err
  | Ok data =>
      let ext := ToLower (Ext path) in
      if decide (ext = ".json") then
        match config_json data defaultConfig with
        | Fail err => Fail (EText ("json parse: " +:+ error_text err))
        | Ok cfg => Ok cfg
        end
      else
        match config_yaml data defaultConfig with
        | Fail err => Fail (EText ("yaml parse: " +:+ error_text err))
        | Ok cfg => Ok cfg
        end
  end.

Definition Load (path : string) : result Config :=
  match LoadPath path with
  | Fail err => Fail err
  | Ok cfg => Ok (applyEnvOverrides Getenv cfg)
  end.

Definition LoadOrDefault (path : string) : Config :=
  match Load path with
  | Fail _ => applyEnvOverrides Getenv defaultConfig
  | Ok cfg => cfg
  end.

Definition LoadOrDefaultPath (path : string) : Config :=
  match LoadPath path with
  | Fail _ => defaultConfig
  | Ok cfg => applyEnvOverrides Getenv cfg
  end.

Definition MergeJson (cfg : Config) (jsonStr : string) : result Config :=
  if decide (jsonStr = "") then Ok cfg
  else match config_json (to_bytes jsonStr) zero_config with
       | Fail err => Fail (EText ("merge json: " +:+ error_text err))
       | Ok override => Ok (mergeInto cfg override)
       end.

Definition LoadWithArgs (cli : CliConfig) : result Config :=
  let cfg := match LoadPath (cli_ConfigPath cli) with
             | Fail _ => defaultConfig
             | Ok cfg => cfg
             end in
  let cfg := applyEnvOverrides Getenv cfg in
  if decide (cli_ConfigJson cli ≠ "") then
    match MergeJson cfg (cli_ConfigJson cli) with
    | Fail mergeErr => Fail mergeErr
    | Ok cfg => Ok (applyCliOverrides cli cfg)
    end
  else Ok (applyCliOverrides cli cfg).

End loading.

(** * Algebra of the layers *)

Lemma or_string_assoc a b c : or_string a (or_string b c) = or_string (or_string a b) c.
Proof. unfold or_string. by repeat case_decide. Qed.
Lemma or_positive_assoc a b c : or_positive a (or_positive b c) = or_positive (or_positive a b) c.
Proof. unfold or_positive. repeat case_decide; done || lia. Qed.
Lemma or_slice_assoc {A} (a b c : list A) : or_slice a (or_slice b c) = or_slice (or_slice a b) c.
Proof. unfold or_slice. by repeat case_decide. Qed.
Lemma or_string_idemp a b : or_string a (or_string a b) = or_string a b.
Proof. unfold or_string. by repeat case_decide. Qed.
Lemma or_positive_idemp a b : or_positive a (or_positive a b) = or_positive a b.
Proof. unfold or_positive. by repeat case_decide. Qed.
Lemma or_slice_idemp {A} (a b : list A) : or_slice a (or_slice a b) = or_slice a b.
Proof. unfold or_slice. by repeat case_decide. Qed.

Lemma orb_idemp_r a b : (a || b || b)%bool = (a || b)%bool.
Proof. by destruct a, b. Qed.

Create Rewrite HintDb layers.
#[export] Hint Rewrite or_string_assoc or_positive_assoc @or_slice_assoc orb_assoc : layers.

(** The first value that is set, of strings, of positive numbers and of lists; the last
    one when none is. *)
Fixpoint first_set (l : list string) : string :=
  match l with [] => "" | v :: l' => if decide (v = "") then first_set l' else v end.
Fixpoint first_positive (l : list Z) (base : Z) : Z :=
  match l with [] => base | v :: l' => if decide (0 < v) then v else first_positive l' base end.
Definition first_nonempty {A} (l base : list A) : list A :=
  match l with [] => base | _ => l end.
Definition switched_on (v : string) : bool := bool_decide (v = "1" ∨ ToLower v = "true").

Lemma first_set_cons v l : first_set (v :: l) = or_string v (first_set l).
Proof. unfold or_string. cbn. by repeat case_decide. Qed.
Lemma first_positive_cons v l base :
  first_positive (v :: l) base = or_positive v (first_positive l base).
Proof. unfold or_positive. cbn. by repeat case_decide; try lia. Qed.
Lemma first_nonempty_eq {A} (l base : list A) : first_nonempty l base = or_slice l base.
Proof. unfold or_slice. by destruct l. Qed.
Lemma switched_on_eq v : switched_on v = env_true v.
Proof. unfold switched_on, env_true. repeat case_bool_decide; naive_solver. Qed.

Lemma or_parsed_positive v base : or_parsed parseInt64 v base = or_positive (parseInt64 v) base.
Proof.
  unfold or_parsed, or_positive. repeat case_decide; try done. by destruct v.
Qed.

Lemma or_string_nil v : or_string v "" = v.
Proof. unfold or_string. by case_decide. Qed.

Lemma mergeInto_zero base : mergeInto base zero_config = base.
Proof.
  destruct base as [[] [????? [] []] [? [???? [] []]] ? [] [] [[] []] [] []].
  unfold mergeInto, mergePeer, mergeMqtt, mergeTLS, mergeBridges, mergeDiscovery, zero_config.
  simpl. by rewrite ?orb_false_r.
Qed.

(** * Decimal numerals *)

Definition is_digit (c : ascii) : Prop := 48 ≤ byte_to_Z c ≤ 57.
#[export] Instance is_digit_dec c : Decision (is_digit c).
Proof. unfold is_digit. apply _. Defined.
Definition is_numeral (s : string) : Prop := Forall is_digit (to_bytes s).
#[export] Instance is_numeral_dec s : Decision (is_numeral s).
Proof. unfold is_numeral. apply _. Defined.

(** The number a numeral denotes, in unbounded arithmetic. *)
Definition numeral_value (s : string) : Z :=
  foldl (λ n c, n * 10 + (byte_to_Z c - 48)) 0 (to_bytes s).

Lemma wrap64_step n d : wrap64 (wrap64 (wrap64 n * 10) + d) = wrap64 (n * 10 + d).
Proof.
  unfold wrap64.
  assert (∀ a b, a mod 2 ^ 64 = b mod 2 ^ 64 ↔ ∃ k, a = b + k * 2 ^ 64) as Hmod.
  { intros a b. split.
    - intros E. exists (a / 2 ^ 64 - b / 2 ^ 64).
      pose proof (Z.div_mod a (2 ^ 64) ltac:(lia)). pose proof (Z.div_mod b (2 ^ 64) ltac:(lia)).
      lia.
    - intros [k ->]. apply Z.mod_add. lia. }
  f_equal. apply Hmod.
  pose proof (Z.div_mod (n + 2 ^ 63) (2 ^ 64) ltac:(lia)).
  set (q := (n + 2 ^ 63) / 2 ^ 64) in *.
  set (m := ((n + 2 ^ 63) mod 2 ^ 64)) in *.
  pose proof (Z.div_mod ((m - 2 ^ 63) * 10 + 2 ^ 63) (2 ^ 64) ltac:(lia)).
  set (q' := ((m - 2 ^ 63) * 10 + 2 ^ 63) / 2 ^ 64) in *.
  exists (- q' - 10 * q). lia.
Qed.

Lemma parseInt64_loop_value s n :
  is_numeral s →
  parseInt64_loop s (wrap64 n) =
  wrap64 (foldl (λ n c, n * 10 + (byte_to_Z c - 48)) n (to_bytes s)).
Proof.
  unfold is_numeral. revert n. induction s as [|c s IH]; intros n Hs; simpl; [done|].
  apply Forall_cons in Hs as [Hc Hs]. unfold is_digit in Hc.
  rewrite decide_False by lia. by rewrite wrap64_step, IH.
Qed.

Lemma parseInt64_loop_bad s n : ¬ is_numeral s → parseInt64_loop s n = 0.
Proof.
  unfold is_numeral. revert n. induction s as [|c s IH]; intros n Hs; simpl in *.
  - destruct Hs. constructor.
  - case_decide as Hc; [done|]. apply IH. intros Hf. apply Hs. constructor; [|done].
    unfold is_digit. lia.
Qed.

(** * The command line *)

(** The four ways to write a flag with its value. *)
Inductive flag_style := DashSpace | DashEquals | DashDashSpace | DashDashEquals.

Definition render_flag (st : flag_style) (f : cli_flag) (v : string) : list string :=
  match st with
  | DashSpace => ["-" +:+ cli_flag_name f; v]
  | DashDashSpace => ["--" +:+ cli_flag_name f; v]
  | DashEquals => ["-" +:+ cli_flag_name f +:+ "=" +:+ v]
  | DashDashEquals => ["--" +:+ cli_flag_name f +:+ "=" +:+ v]
  end.

Lemma flag_Parse_render st f v rest c :
  flag_Parse (render_flag st f v ++ rest) c = flag_Parse rest (set_flag c f v).
Proof. by destruct st, f. Qed.

Lemma flag_Parse_renders (settings : list (flag_style * cli_flag * string)) c :
  flag_Parse (concat ((λ '(st, f, v), render_flag st f v) <$> settings)) c =
  foldl (λ c '(_, f, v), set_flag c f v) c settings.
Proof.
  revert c. induction settings as [|[[st f] v] l IH]; intros c; simpl; [done|].
  by rewrite flag_Parse_render, IH.
Qed.

(** * Properties *)

(** The layers, as one record: for each setting, where its value is looked for. *)
Definition layered (cli : CliConfig) (json : Config) (env : string → string) (file : Config)
    : Config :=
  let pj := cfg_Peer json in let pf := cfg_Peer file in
  let mj := mq_Mqtt (cfg_Mq json) in let mf := mq_Mqtt (cfg_Mq file) in
  let tj := mt_TLS mj in let tf := mt_TLS mf in
  let bj := cfg_Bridges json in let bf := cfg_Bridges file in
  let dj := cfg_Discovery json in let df := cfg_Discovery file in {|
  cfg_Server := {|
    sv_ListenAddr := first_set [cli_ListenAddr cli; sv_ListenAddr (cfg_Server json);
                                env "DD_SERVER_LISTEN_ADDR"; sv_ListenAddr (cfg_Server file)] |};
  cfg_Peer := {|
    pc_Id := first_set [cli_PeerId cli; pc_Id pj; env "DD_PEER_ID"; pc_Id pf];
    pc_Name := first_set [cli_PeerName cli; pc_Name pj; env "DD_PEER_NAME"; pc_Name pf];
    pc_Role := first_set [cli_Role cli; pc_Role pj; env "DD_PEER_ROLE"; pc_Role pf];
    pc_Key := first_set [pc_Key pj; pc_Key pf];
    pc_Secret := first_set [pc_Secret pj; pc_Secret pf];
    pc_Broadcast := {|
      bc_IntervalSec := first_positive [bc_IntervalSec (pc_Broadcast pj)]
                                       (bc_IntervalSec (pc_Broadcast pf));
      bc_TtlSec := first_positive [bc_TtlSec (pc_Broadcast pj)] (bc_TtlSec (pc_Broadcast pf)) |};
    pc_Auth := pc_Auth pf |};
  cfg_Mq := {|
    mq_Provider := first_set [mq_Provider (cfg_Mq json); env "DD_MQ_PROVIDER";
                              mq_Provider (cfg_Mq file)];
    mq_Mqtt := {|
      mt_BrokerUrl := first_set [cli_MqttBroker cli; mt_BrokerUrl mj; env "DD_MQTT_BROKER_URL";
                                 mt_BrokerUrl mf];
      mt_ClientId := first_set [mt_ClientId mj; env "DD_MQTT_CLIENT_ID"; mt_ClientId mf];
      mt_Username := first_set [mt_Username mj; env "DD_MQTT_USERNAME"; mt_Username mf];
      mt_Password := first_set [mt_Password mj; env "DD_MQTT_PASSWORD"; mt_Password mf];
      mt_TLS := {|
        tls_Enabled := switched_on (env "DD_MQTT_TLS_ENABLED") || tls_Enabled tf || tls_Enabled tj;
        tls_CaCertFile := first_set [tls_CaCertFile tj; env "DD_MQTT_TLS_CA_CERT_FILE";
                                     tls_CaCertFile tf];
        tls_ClientCertFile := first_set [tls_ClientCertFile tj;
                                         env "DD_MQTT_TLS_CLIENT_CERT_FILE"; tls_ClientCertFile tf];
        tls_ClientKeyFile := first_set [tls_ClientKeyFile tj;
                                        env "DD_MQTT_TLS_CLIENT_KEY_FILE"; tls_ClientKeyFile tf];
        tls_InsecureSkipVerify := switched_on (env "DD_MQTT_TLS_INSECURE_SKIP_VERIFY")
                                  || tls_InsecureSkipVerify tf || tls_InsecureSkipVerify tj |};
      mt_TopicAlias := {|
        ta_Enabled := switched_on (env "DD_MQTT_TOPIC_ALIAS_ENABLED")
                      || ta_Enabled (mt_TopicAlias mf) || ta_Enabled (mt_TopicAlias mj) |} |} |};
  cfg_Tenant := first_set [cli_Tenant cli; cfg_Tenant json; env "DD_TENANT"; cfg_Tenant file];
  cfg_Sync := {|
    sy_DefaultTimeoutMs := first_positive [sy_DefaultTimeoutMs (cfg_Sync json);
                                           parseInt64 (env "DD_SYNC_DEFAULT_TIMEOUT_MS")]
                                          (sy_DefaultTimeoutMs (cfg_Sync file)) |};
  cfg_Discovery := {|
    dc_HeartbeatIntervalSec := first_positive [dc_HeartbeatIntervalSec dj]
                                              (dc_HeartbeatIntervalSec df);
    dc_LeaseTtlSec := first_positive [dc_LeaseTtlSec dj;
                                      parseInt64 (env "DD_DISCOVERY_LEASE_TTL_SEC")]
                                     (dc_LeaseTtlSec df);
    dc_DefaultPageSize := first_positive [dc_DefaultPageSize dj] (dc_DefaultPageSize df);
    dc_MaxPageSize := first_positive [dc_MaxPageSize dj] (dc_MaxPageSize df) |};
  cfg_Bridges := {|
    br_Http := {| hb_Enabled := hb_Enabled (br_Http bf) || hb_Enabled (br_Http bj);
                  hb_TargetUrl := first_set [hb_TargetUrl (br_Http bj);
                                             hb_TargetUrl (br_Http bf)] |};
    br_Coap := {| cb_Enabled := cb_Enabled (br_Coap bf) || cb_Enabled (br_Coap bj);
                  cb_TargetUrl := first_set [cb_TargetUrl (br_Coap bj);
                                             cb_TargetUrl (br_Coap bf)] |};
    br_MqttMappings := first_nonempty (br_MqttMappings bj) (br_MqttMappings bf) |};
  cfg_Acl := {| ac_Rules := first_nonempty (ac_Rules (cfg_Acl json)) (ac_Rules (cfg_Acl file)) |};
  cfg_Logging := {|
    lg_Level := first_set [cli_LogLevel cli; lg_Level (cfg_Logging json); env "DD_LOG_LEVEL";
                           lg_Level (cfg_Logging file)];
    lg_Format := first_set [cli_LogFormat cli; lg_Format (cfg_Logging json); env "DD_LOG_FORMAT";
                            lg_Format (cfg_Logging file)] |}
|}.

Lemma layers_apply cli json env file :
  applyCliOverrides cli (mergeInto (applyEnvOverrides env file) json) =
  layered cli json env file.
Proof.
  unfold layered. cbv zeta.
  rewrite !first_positive_cons, !first_nonempty_eq, !switched_on_eq, !first_set_cons.
  cbn [first_set first_positive]. rewrite !or_string_nil.
  unfold applyCliOverrides, mergeInto, applyEnvOverrides, mergePeer, mergeMqtt, mergeTLS,
    mergeBridges, mergeDiscovery, parseInt.
  cbn [cfg_Server cfg_Peer cfg_Mq cfg_Tenant cfg_Sync cfg_Discovery cfg_Bridges cfg_Acl
    cfg_Logging sv_ListenAddr pc_Id pc_Name pc_Role pc_Key pc_Secret pc_Broadcast pc_Auth
    mq_Provider mq_Mqtt mt_BrokerUrl mt_ClientId mt_Username mt_Password mt_TLS mt_TopicAlias
    tls_Enabled tls_CaCertFile tls_ClientCertFile tls_ClientKeyFile tls_InsecureSkipVerify
    ta_Enabled sy_DefaultTimeoutMs dc_HeartbeatIntervalSec dc_LeaseTtlSec dc_DefaultPageSize
    dc_MaxPageSize lg_Level lg_Format].
  rewrite !or_parsed_positive. done.
Qed.

(** C28: the configuration in force, setting by setting: a value of the command line wins
    over one of the inline JSON, which wins over the environment, which wins over the
    file, which was decoded over the defaults; without a file that can be read and decoded
    the defaults stand in for it; an empty value, or a number that is not positive, never
    overrides.  The switches of TLS, of the topic aliases and of the bridges can be turned
    on by any of their layers and off by none, and the peer's auth section comes from the
    file alone.  Only an inline JSON that cannot be decoded is an error. *)
Theorem LoadWithArgs_precedence `{ConfigCodecs} ReadFile Getenv cli :
  let decode := if decide (ToLower (Ext (cli_ConfigPath cli)) = ".json")
                then config_json else config_yaml in
  let file := match ReadFile (cli_ConfigPath cli) with
              | Ok data => match decode data defaultConfig with
                           | Ok file => file
                           | Fail _ => defaultConfig
                           end
              | Fail _ => defaultConfig
              end in
  let json := if decide (cli_ConfigJson cli = "") then Ok zero_config
              else config_json (to_bytes (cli_ConfigJson cli)) zero_config in
  LoadWithArgs ReadFile Getenv cli =
  match json with
  | Ok json => Ok (layered cli json Getenv file)
  | Fail err => Fail (EText ("merge json: " +:+ error_text err))
  end.
Proof.
  intros decode file json. unfold LoadWithArgs.
  assert (match LoadPath ReadFile (cli_ConfigPath cli) with
          | Ok cfg => cfg | Fail _ => defaultConfig end = file) as ->.
  { unfold LoadPath, file, decode. destruct (ReadFile _) as [data|]; [|done].
    case_decide; [by destruct (config_json data defaultConfig)|].
    by destruct (config_yaml data defaultConfig). }
  clearbody file. unfold json. clear json. unfold MergeJson.
  destruct (decide (cli_ConfigJson cli = "")) as [Hj|Hj].
  - rewrite decide_False by auto. by rewrite <- layers_apply, mergeInto_zero.
  - rewrite decide_True by done.
    destruct (config_json (to_bytes (cli_ConfigJson cli)) zero_config) as [json|err]; [|done].
    by rewrite layers_apply.
Qed.

(** Merging is associative and idempotent with the empty override as right
    identity, so a sequence of inline overrides can be merged in any grouping and
    repeated overrides change nothing; and no override reaches the auth section. *)
Theorem mergeInto_algebra base o1 o2 :
  mergeInto base zero_config = base ∧
  mergeInto (mergeInto base o1) o1 = mergeInto base o1 ∧
  mergeInto (mergeInto base o1) o2 = mergeInto base (mergeInto o1 o2) ∧
  pc_Auth (cfg_Peer (mergeInto base o1)) = pc_Auth (cfg_Peer base).
Proof.
  split_and!.
  - apply mergeInto_zero.
  - unfold mergeInto, mergePeer, mergeMqtt, mergeTLS, mergeBridges, mergeDiscovery. simpl.
    by rewrite ?or_string_idemp, ?or_positive_idemp, ?or_slice_idemp, ?orb_idemp_r.
  - unfold mergeInto, mergePeer, mergeMqtt, mergeTLS, mergeBridges, mergeDiscovery. simpl.
    by rewrite ?or_string_assoc, ?or_positive_assoc, ?or_slice_assoc, ?orb_assoc.
  - done.
Qed.

(** [parseInt64] reads a numeral modulo 2^64, without noticing overflow, and
    anything else as zero; so it is exact precisely on the numerals that fit. *)
Theorem parseInt64_modulo s :
  (is_numeral s → parseInt64 s = wrap64 (numeral_value s)) ∧
  (¬ is_numeral s → parseInt64 s = 0) ∧
  (is_numeral s → numeral_value s ≤ int64_max → parseInt64 s = numeral_value s).
Proof.
  assert (is_numeral s → parseInt64 s = wrap64 (numeral_value s)) as Hn.
  { intros Hs. unfold parseInt64. change 0 with (wrap64 0). by rewrite parseInt64_loop_value. }
  split_and!; [done|apply parseInt64_loop_bad|].
  intros Hs Hle. rewrite Hn by done. apply wrap64_small. split; [|done].
  assert (∀ l n, 0 ≤ n → Forall is_digit l →
    0 ≤ foldl (λ n c, n * 10 + (byte_to_Z c - 48)) n l) as Hpos.
  { induction l as [|c l IH]; intros n H0 Hl; simpl; [done|].
    apply Forall_cons in Hl as [Hc Hl]. unfold is_digit in Hc. apply IH; [lia|done]. }
  pose proof (Hpos (to_bytes s) 0 ltac:(lia) Hs). unfold numeral_value, int64_min. lia.
Qed.

(** The command line in any of its four spellings is parsed to the values
    given, the last one winning, whatever the values contain. *)
Theorem ParseCliArgs_rendered (settings : list (flag_style * cli_flag * string)) :
  ParseCliArgs (concat ((λ '(st, f, v), render_flag st f v) <$> settings)) =
  foldl (λ c '(_, f, v), set_flag c f v) cli_default settings.
Proof. apply flag_Parse_renders. Qed.

(** * The layers at work *)

(** A codec that reads one document, the override of the tenant. *)
Definition tenant_codecs : ConfigCodecs := {|
  config_json b c :=
    if decide (b = to_bytes (json_text "{'tenant':'t2'}")) then
      Ok {| cfg_Server := cfg_Server c; cfg_Peer := cfg_Peer c; cfg_Mq := cfg_Mq c;
            cfg_Tenant := "t2"; cfg_Sync := cfg_Sync c; cfg_Discovery := cfg_Discovery c;
            cfg_Bridges := cfg_Bridges c; cfg_Acl := cfg_Acl c; cfg_Logging := cfg_Logging c |}
    else Fail (EText "invalid character");
  config_yaml _ c := Ok c
|}.

Example LoadWithArgs_layers :
  let cli := ParseCliArgs ["--config-json"; json_text "{'tenant':'t2'}"; "-role=hub"] in
  let env v := if decide (v = "DD_TENANT") then "t1" else "" in
  let no_file := λ _ : string, Fail (EText "open: no such file") in
  ∃ cfg, @LoadWithArgs tenant_codecs no_file env cli = Ok cfg ∧
    cfg_Tenant cfg = "t2" ∧ pc_Role (cfg_Peer cfg) = "hub" ∧
    sv_ListenAddr (cfg_Server cfg) = ":8080".
Proof.
  cbv zeta. eexists. split; [vm_compute; reflexivity|]. split_and!; reflexivity.
Qed.
