(* ===== verification/MqttConnect.v ===== *)
(** Connecting to the broker (internal/mq/mqtt_client.go): the options and the TLS
    settings built from the configuration, and what can fail before there is a
    client.  The files, crypto/x509, crypto/tls and the paho library are parameters. *)
From S2P Require Import Prelude GoStrings GoTime Errors Mq Config.

Open Scope string_scope.
Open Scope list_scope.
Open Scope Z_scope.

(** [mq.MqttConfig], which is flat, unlike the section of the configuration. *)
Record MqttConfig := {
  mqc_BrokerUrl : string;
  mqc_ClientId : string;
  mqc_Username : string;
  mqc_Password : string;
  mqc_TLSEnabled : bool;
  mqc_CaCertFile : string;
  mqc_ClientCertFile : string;
  mqc_ClientKeyFile : string;
  mqc_InsecureSkipVerify : bool;
  mqc_TopicAliasEnabled : bool
}.

(** The argument that [main] builds from the configuration. *)
Definition main_mqtt_config (cfg : Config) : MqttConfig :=
  let m := mq_Mqtt (cfg_Mq cfg) in
  {| mqc_BrokerUrl := mt_BrokerUrl m; mqc_ClientId := mt_ClientId m;
     mqc_Username := mt_Username m; mqc_Password := mt_Password m;
     mqc_TLSEnabled := tls_Enabled (mt_TLS m);
     mqc_CaCertFile := tls_CaCertFile (mt_TLS m);
     mqc_ClientCertFile := tls_ClientCertFile (mt_TLS m);
     mqc_ClientKeyFile := tls_ClientKeyFile (mt_TLS m);
     mqc_InsecureSkipVerify := tls_InsecureSkipVerify (mt_TLS m);
     mqc_TopicAliasEnabled := ta_Enabled (mt_TopicAlias m) |}.

Definition VersionTLS12 : Z := 771.

Section connect.
(** Certificate pools and certificates; reading a file; parsing a PEM file into a pool
    ([AppendCertsFromPEM], [None] when it has no certificate); loading a key pair. *)
Context {Pool Cert : Type}
  (ReadFile : string → result bytes) (AppendCertsFromPEM : bytes → option Pool)
  (LoadX509KeyPair : string → string → result Cert).

(** [tls.Config]: no root pool means the system's. *)
Record tlsConfig := {
  tc_MinVersion : Z;
  tc_InsecureSkipVerify : bool;
  tc_RootCAs : option Pool;
  tc_Certificates : list Cert
}.

Definition buildTLSConfig (cfg : MqttConfig) : result tlsConfig :=
  let tlsCfg := {| tc_MinVersion := VersionTLS12;
                   tc_InsecureSkipVerify := mqc_InsecureSkipVerify cfg;
                   tc_RootCAs := None; tc_Certificates := [] |} in
  let with_ca :=
    if decide (mqc_CaCertFile cfg ≠ "") then
      match ReadFile (mqc_CaCertFile cfg) with
      | Fail err => Fail (EText ("read ca cert: " +:+ error_text err))
      | Ok ca =>
          match AppendCertsFromPEM ca with
          | None => Fail (EText "append ca cert failed")
          | Some pool =>
              Ok {| tc_MinVersion := tc_MinVersion tlsCfg;
                    tc_InsecureSkipVerify := tc_InsecureSkipVerify tlsCfg;
                    tc_RootCAs := Some pool; tc_Certificates := tc_Certificates tlsCfg |}
          end
      end
    else Ok tlsCfg in
  match with_ca with
  | Fail err => Fail err
  | Ok tlsCfg =>
      if decide (mqc_ClientCertFile cfg ≠ "" ∧ mqc_ClientKeyFile cfg ≠ "") then
        match LoadX509KeyPair (mqc_ClientCertFile cfg) (mqc_ClientKeyFile cfg) with
        | Fail err => Fail (EText ("load client cert/key: " +:+ error_text err))
        | Ok cert =>
            Ok {| tc_MinVersion := tc_MinVersion tlsCfg;
                  tc_InsecureSkipVerify := tc_InsecureSkipVerify tlsCfg;
                  tc_RootCAs := tc_RootCAs tlsCfg; tc_Certificates := [cert] |}
        end
      else Ok tlsCfg
  end.

(** The options that the client sets. *)
Record client_options := {
  op_Broker : string;
  op_ClientID : string;
  op_Username : string;
  op_Password : string;
  op_ConnectRetry : bool;
  op_AutoReconnect : bool;
  op_ConnectRetryInterval : Duration;
  op_TLSConfig : option tlsConfig
}.

(** [mqtt.NewClient] with [Connect]: the client, and what [WaitTimeout] and [Error] say
    of its token. *)
Context {P : Type} (Connect : client_options → P * (Duration → bool) * option error).

Definition NewMqttClient (cfg : MqttConfig) : result (MqttClient (P := P)) :=
  let opts tls := {| op_Broker := mqc_BrokerUrl cfg; op_ClientID := mqc_ClientId cfg;
                     op_Username := mqc_Username cfg; op_Password := mqc_Password cfg;
                     op_ConnectRetry := true; op_AutoReconnect := true;
                     op_ConnectRetryInterval := 2 * Second; op_TLSConfig := tls |} in
  let connect opts :=
    let '(client, waited, err) := Connect opts in
    if negb (waited (10 * Second)) then Fail (EText "mqtt connect timeout")
    else match err with
         | Some err => Fail err
         | None => Ok {| mc_client := client; mc_topicAliasEnabled := mqc_TopicAliasEnabled cfg |}
         end in
  if mqc_TLSEnabled cfg then
    match buildTLSConfig cfg with
    | Fail err => Fail err
    | Ok tlsCfg => connect (opts (Some tlsCfg))
    end
  else connect (opts None).

(** What the settings ask of the TLS configuration. *)
Record tls_as_configured (cfg : MqttConfig) (t : tlsConfig) : Prop := {
  tls_version : tc_MinVersion t = VersionTLS12;
  tls_verify : tc_InsecureSkipVerify t = mqc_InsecureSkipVerify cfg;
  tls_roots : mqc_CaCertFile cfg ≠ "" →
    ∃ pem pool, ReadFile (mqc_CaCertFile cfg) = Ok pem ∧ AppendCertsFromPEM pem = Some pool ∧
      tc_RootCAs t = Some pool;
  tls_system_roots : mqc_CaCertFile cfg = "" → tc_RootCAs t = None;
  tls_pair : mqc_ClientCertFile cfg ≠ "" → mqc_ClientKeyFile cfg ≠ "" →
    ∃ cert, LoadX509KeyPair (mqc_ClientCertFile cfg) (mqc_ClientKeyFile cfg) = Ok cert ∧
      tc_Certificates t = [cert];
  tls_no_pair : mqc_ClientCertFile cfg = "" ∨ mqc_ClientKeyFile cfg = "" →
    tc_Certificates t = []
}.

Lemma buildTLSConfig_Ok cfg t : buildTLSConfig cfg = Ok t → tls_as_configured cfg t.
Proof using Type.
  unfold buildTLSConfig. destruct (decide (mqc_CaCertFile cfg ≠ "")) as [Hca|Hca].
  - destruct (ReadFile _) as [pem|] eqn:Er; [|done].
    destruct (AppendCertsFromPEM pem) as [pool|] eqn:Ep; [|done].
    destruct (decide _) as [Hp|Hp]; [destruct (LoadX509KeyPair _ _) eqn:El; [|done]|];
      intros [= <-]; split; naive_solver.
  - destruct (decide (mqc_ClientCertFile cfg ≠ "" ∧ _)) as [Hp|Hp];
      [destruct (LoadX509KeyPair _ _) eqn:El; [|done]|]; intros [= <-]; split; naive_solver.
Qed.

(** A client exists only over options that are as configured and a connection that
    succeeded. *)
Lemma NewMqttClient_Ok cfg m :
  NewMqttClient cfg = Ok m →
  ∃ opts, op_Broker opts = mqc_BrokerUrl cfg ∧ op_ClientID opts = mqc_ClientId cfg ∧
    (if mqc_TLSEnabled cfg then ∃ t, op_TLSConfig opts = Some t ∧ tls_as_configured cfg t
     else op_TLSConfig opts = None) ∧
    (Connect opts).2 = None ∧
    m = {| mc_client := (Connect opts).1.1; mc_topicAliasEnabled := mqc_TopicAliasEnabled cfg |}.
Proof using Type.
  unfold NewMqttClient. cbv zeta. destruct (mqc_TLSEnabled cfg).
  - destruct (buildTLSConfig cfg) as [t|] eqn:Et; [|done].
    destruct (Connect _) as [[client waited] [err|]] eqn:Ec; [by case_match|].
    destruct (negb _); [done|]. intros [= <-].
    match type of Ec with Connect ?o = _ => exists o end. rewrite Ec.
    split_and!; try done. exists t. split; [done|]. by apply buildTLSConfig_Ok.
  - destruct (Connect _) as [[client waited] [err|]] eqn:Ec; [by case_match|].
    destruct (negb _); [done|]. intros [= <-].
    match type of Ec with Connect ?o = _ => exists o end. by rewrite Ec.
Qed.

(** With TLS enabled there is a client only over a TLS configuration that is as the
    settings ask: a CA file or a key pair that cannot be loaded fails the connection
    before it is attempted, and is never replaced by a weaker setting.  A certificate
    without a key is silently left out. *)
Theorem NewMqttClient_tls cfg m :
  mqc_TLSEnabled cfg = true → NewMqttClient cfg = Ok m →
  ∃ t opts, tls_as_configured cfg t ∧ op_TLSConfig opts = Some t ∧
    op_Broker opts = mqc_BrokerUrl cfg ∧ (Connect opts).2 = None ∧
    mc_client m = (Connect opts).1.1 ∧ mc_topicAliasEnabled m = mqc_TopicAliasEnabled cfg.
Proof using Type.
  intros Htls (opts & Hb & _ & Ht & He & ->)%NewMqttClient_Ok. rewrite Htls in Ht.
  destruct Ht as (t & Ho & Ht). by exists t, opts.
Qed.
End connect.

(** A broker over TLS with a CA file and no key pair. *)
Definition tls_sample : MqttConfig := {|
  mqc_BrokerUrl := "ssl://broker:8883"; mqc_ClientId := "n1"; mqc_Username := "";
  mqc_Password := ""; mqc_TLSEnabled := true; mqc_CaCertFile := "ca.pem";
  mqc_ClientCertFile := "n1.pem"; mqc_ClientKeyFile := ""; mqc_InsecureSkipVerify := false;
  mqc_TopicAliasEnabled := false |}.

Lemma NewMqttClient_tls_witness :
  let read (f : string) := if decide (f = "ca.pem") then Ok (to_bytes "PEM")
                           else Fail (EText "no such file") in
  let parse (pem : bytes) := Some pem in
  let load (c k : string) : result string := Fail (EText "no such file") in
  let connect (o : client_options) := (op_Broker o, (λ _ : Duration, true), @None error) in
  ∃ m, NewMqttClient read parse load connect tls_sample = Ok m ∧
  ∃ t, tls_as_configured read parse load tls_sample t ∧ tc_RootCAs t = Some (to_bytes "PEM").
Proof.
  intros read parse load connect.
  exists {| mc_client := "ssl://broker:8883"; mc_topicAliasEnabled := false |}.
  assert (NewMqttClient read parse load connect tls_sample =
    Ok {| mc_client := "ssl://broker:8883"; mc_topicAliasEnabled := false |}) as E
    by reflexivity.
  split; [exact E|].
  destruct (NewMqttClient_tls read parse load connect tls_sample _ eq_refl E)
    as (t & o & Ht & _). exists t. split; [exact Ht|].
  destruct (tls_roots _ _ _ _ _ Ht) as (pem & pool & Hr & Hp & ->); [done|].
  revert Hr Hp. unfold read, parse. simpl. by intros [= <-] [= <-].
Defined.
