(* ===== verification/Route.v ===== *)
(** The routing decision (internal/service/route_decision.go). *)
From S2P Require Import Prelude GoStrings GoTime Errors Model Message Config.

Open Scope string_scope.
Open Scope list_scope.
Open Scope Z_scope.

Definition RouteMode := string.
Definition RouteModeBroker : RouteMode := "broker".
Definition RouteModeDirect : RouteMode := "direct".

Definition DecideRoute (cfg : option Config) (msg : option DdMessage) : RouteMode :=
  match msg with
  | None => RouteModeBroker
  | Some msg =>
      if decide (h_TargetPeerId (msg_Header msg) = "") then RouteModeBroker
      else match cfg with
      | None => RouteModeBroker
      | Some cfg =>
          if decide (h_TargetPeerId (msg_Header msg) ≠ pc_Id (cfg_Peer cfg))
          then RouteModeBroker
          else if decide (msg_Protocol msg = DdProtocolHttp) then
            if hb_Enabled (br_Http (cfg_Bridges cfg)) &&
               negb (bool_decide (hb_TargetUrl (br_Http (cfg_Bridges cfg)) = ""))
            then RouteModeDirect else RouteModeBroker
          else if decide (msg_Protocol msg = DdProtocolCoap) then
            if cb_Enabled (br_Coap (cfg_Bridges cfg)) &&
               negb (bool_decide (cb_TargetUrl (br_Coap (cfg_Bridges cfg)) = ""))
            then RouteModeDirect else RouteModeBroker
          else RouteModeBroker
      end
  end.

(** The local bridge that serves a protocol: its target. *)
Definition local_target (cfg : Config) (p : DdProtocol) : option string :=
  if decide (p = DdProtocolHttp) then
    if hb_Enabled (br_Http (cfg_Bridges cfg))
    then Some (hb_TargetUrl (br_Http (cfg_Bridges cfg))) else None
  else if decide (p = DdProtocolCoap) then
    if cb_Enabled (br_Coap (cfg_Bridges cfg))
    then Some (cb_TargetUrl (br_Coap (cfg_Bridges cfg))) else None
  else None.

(** A message goes directly to a bridge target exactly when it names this very
    node as its target and the node has an enabled bridge with a target for the
    message's protocol; everything else, a message without a target included, goes
    through the broker. *)
Theorem DecideRoute_direct cfg msg :
  DecideRoute (Some cfg) (Some msg) = RouteModeDirect ↔
  h_TargetPeerId (msg_Header msg) ≠ "" ∧
  h_TargetPeerId (msg_Header msg) = pc_Id (cfg_Peer cfg) ∧
  ∃ url, local_target cfg (msg_Protocol msg) = Some url ∧ url ≠ "".
Proof.
  unfold DecideRoute, local_target.
  case_decide as H1; [split; [done|]; by intros [? _]|].
  case_decide as H2; [split; [done|]; by intros (_ & ? & _)|].
  assert (∀ (b : bool) (u : string),
    (if b && negb (bool_decide (u = "")) then RouteModeDirect else RouteModeBroker) =
      RouteModeDirect ↔
    ∃ url, (if b then Some u else None) = Some url ∧ url ≠ "") as Hb.
  { intros b u. destruct b; simpl; [|split; [done|by intros (? & ? & _)]].
    case_bool_decide as Hu; simpl.
    - split; [done|]. intros (url & [= <-] & Hne). done.
    - split; [|done]. intros _. by exists u. }
  case_decide; [rewrite Hb; tauto|]. case_decide; [rewrite Hb; tauto|].
  split; [done|]. by intros (_ & _ & ? & ? & _).
Qed.
