(* ===== verification/Crypto.v ===== *)
(** The standard-library functions behind auth tokens, as executable definitions:
    SHA-256 (crypto/sha256, FIPS 180-4), HMAC (crypto/hmac, RFC 2104) and the
    unpadded URL alphabet of encoding/base64. *)
From S2P Require Import Prelude GoStrings Mq.
From Stdlib Require Import Ascii.

Open Scope string_scope.
Open Scope list_scope.
Open Scope Z_scope.

(** * Words of 32 bits *)

Definition w32 (z : Z) : Z := z mod 2 ^ 32.
Definition add32 (a b : Z) : Z := w32 (a + b).
Definition rotr (n x : Z) : Z := Z.lor (Z.shiftr x n) (w32 (Z.shiftl x (32 - n))).
Definition not32 (x : Z) : Z := 2 ^ 32 - 1 - x.

Definition Ch x y z := Z.lxor (Z.land x y) (Z.land (not32 x) z).
Definition Maj x y z := Z.lxor (Z.lxor (Z.land x y) (Z.land x z)) (Z.land y z).
Definition Sigma0 x := Z.lxor (Z.lxor (rotr 2 x) (rotr 13 x)) (rotr 22 x).
Definition Sigma1 x := Z.lxor (Z.lxor (rotr 6 x) (rotr 11 x)) (rotr 25 x).
Definition sigma0 x := Z.lxor (Z.lxor (rotr 7 x) (rotr 18 x)) (Z.shiftr x 3).
Definition sigma1 x := Z.lxor (Z.lxor (rotr 17 x) (rotr 19 x)) (Z.shiftr x 10).

(** The constants are computed from their definition: 32 bits of the fractional parts
    of the square and the cube roots of the first primes. *)
Fixpoint iroot (bits : nat) (k a r : Z) : Z :=
  match bits with
  | O => r
  | S n => let r' := r + 2 ^ Z.of_nat n in iroot n k a (if decide (r' ^ k ≤ a) then r' else r)
  end.

Definition root_bits (k p : Z) : Z := w32 (iroot 36 k (p * 2 ^ (32 * k)) 0).

Definition is_prime (n : nat) : bool :=
  forallb (λ d, negb (n mod d =? 0)%nat) (seq 2 (n - 2)).

Definition primes : list Z := Eval vm_compute in Z.of_nat <$> filter is_prime (seq 2 310).

Definition K256 : list Z := Eval vm_compute in root_bits 3 <$> primes.
Definition H256 : list Z := Eval vm_compute in root_bits 2 <$> take 8 primes.

(** * Padding and words *)

Definition be_bytes (n : nat) (z : Z) : bytes :=
  (λ i, byte_of_Z (Z.shiftr z (8 * Z.of_nat (n - 1 - i)))) <$> seq 0 n.

Definition sha_pad (msg : bytes) : bytes :=
  let zeros := Z.to_nat ((55 - Z.of_nat (length msg)) mod 64) in
  msg ++ [byte_of_Z 128] ++ replicate zeros (byte_of_Z 0)
      ++ be_bytes 8 (8 * Z.of_nat (length msg)).

(** Big-endian words of four bytes. *)
Fixpoint be_words (b : bytes) : list Z :=
  match b with
  | b0 :: b1 :: b2 :: b3 :: rest =>
      (byte_to_Z b0 * 2 ^ 24 + byte_to_Z b1 * 2 ^ 16 + byte_to_Z b2 * 2 ^ 8 + byte_to_Z b3)
        :: be_words rest
  | _ => []
  end.

(** The message schedule: [ws] holds the words so far, newest first. *)
Fixpoint schedule (n : nat) (ws : list Z) : list Z :=
  match n with
  | O => ws
  | S n' =>
      let w i := default 0 (ws !! i) in
      schedule n' (add32 (add32 (sigma1 (w 1%nat)) (w 6%nat))
                         (add32 (sigma0 (w 14%nat)) (w 15%nat)) :: ws)
  end.

(** One round, on the eight working variables. *)
Definition sha_round (st : list Z) (kw : Z * Z) : list Z :=
  match st with
  | [a; b; c; d; e; f; g; h] =>
      let t1 := add32 (add32 (add32 h (Sigma1 e)) (add32 (Ch e f g) kw.1)) kw.2 in
      let t2 := add32 (Sigma0 a) (Maj a b c) in
      [add32 t1 t2; a; b; c; add32 d t1; e; f; g]
  | _ => st
  end.

Definition sha_block (st : list Z) (block : list Z) : list Z :=
  let ws := rev (schedule 48 (rev block)) in
  zip_with add32 st (foldl sha_round st (zip K256 ws)).

Fixpoint sha_blocks (fuel : nat) (st : list Z) (ws : list Z) : list Z :=
  match fuel with
  | O => st
  | S fuel' => sha_blocks fuel' (sha_block st (take 16 ws)) (drop 16 ws)
  end.

Definition sha256 (msg : bytes) : bytes :=
  let ws := be_words (sha_pad msg) in
  foldr (λ w acc, be_bytes 4 w ++ acc) [] (sha_blocks (length ws / 16) H256 ws).

(** * HMAC *)

Definition xor_bytes (c : Z) (b : bytes) : bytes := (λ x, byte_of_Z (Z.lxor (byte_to_Z x) c)) <$> b.

(** [hmac.New(sha256.New, key)], [Write(msg)], [Sum(nil)]: blocks of 64 bytes. *)
Definition hmac_sha256 (key msg : bytes) : bytes :=
  let k := if decide (64 < length key)%nat then sha256 key else key in
  let k := k ++ replicate (64 - length k)%nat (byte_of_Z 0) in
  sha256 (xor_bytes 0x5c k ++ sha256 (xor_bytes 0x36 k ++ msg)).

(** [hmac.Equal]: equality, in constant time. *)
Definition hmac_Equal (a b : bytes) : bool := bool_decide (a = b).

(** * Base64 *)

Definition b64url : string := "ABCDEFGHIJKLMNOPQRSTUVWXYZabcdefghijklmnopqrstuvwxyz0123456789-_".
Definition b64_char (i : Z) : ascii :=
  default "A"%char (to_bytes b64url !! Z.to_nat i).

(** [base64.RawURLEncoding.EncodeToString]. *)
Fixpoint RawURLEncode (b : bytes) : string :=
  match b with
  | [] => ""
  | [b0] =>
      let v := byte_to_Z b0 * 2 ^ 16 in
      String (b64_char (Z.shiftr v 18)) (String (b64_char (Z.land (Z.shiftr v 12) 63)) "")
  | [b0; b1] =>
      let v := byte_to_Z b0 * 2 ^ 16 + byte_to_Z b1 * 2 ^ 8 in
      String (b64_char (Z.shiftr v 18)) (String (b64_char (Z.land (Z.shiftr v 12) 63))
        (String (b64_char (Z.land (Z.shiftr v 6) 63)) ""))
  | b0 :: b1 :: b2 :: rest =>
      let v := byte_to_Z b0 * 2 ^ 16 + byte_to_Z b1 * 2 ^ 8 + byte_to_Z b2 in
      String (b64_char (Z.shiftr v 18)) (String (b64_char (Z.land (Z.shiftr v 12) 63))
        (String (b64_char (Z.land (Z.shiftr v 6) 63)) (String (b64_char (Z.land v 63))
          (RawURLEncode rest))))
  end.

(** * Test vectors *)

Example sha256_abc : hex_EncodeToString (sha256 (to_bytes "abc")) =
  "ba7816bf8f01cfea414140de5dae2223b00361a396177a9cb410ff61f20015ad".
Proof. vm_compute. reflexivity. Qed.

Example sha256_two_blocks :
  hex_EncodeToString (sha256 (to_bytes "abcdbcdecdefdefgefghfghighijhijkijkljklmklmnlmnomnopnopq")) =
  "248d6a61d20638b8e5c026930c3e6039a33ce45964ff2167f6ecedd419db06c1".
Proof. vm_compute. reflexivity. Qed.

Example hmac_rfc4231_2 :
  hex_EncodeToString (hmac_sha256 (to_bytes "Jefe") (to_bytes "what do ya want for nothing?")) =
  "5bdcc146bf60754e6a042426089575c75a003f089d2739839dec58b964ec3843".
Proof. vm_compute. reflexivity. Qed.

Example base64_fo : RawURLEncode (to_bytes "fo") = "Zm8".
Proof. vm_compute. reflexivity. Qed.

(** * Injectivity of base64 *)

Definition b64_chars : list ascii := to_bytes b64url.

Lemma b64_char_inj i j : 0 ≤ i < 64 → 0 ≤ j < 64 → b64_char i = b64_char j → i = j.
Proof.
  intros Hi Hj E. unfold b64_char in E.
  assert (NoDup (to_bytes b64url)) as Hnd by by_compute.
  assert (length (to_bytes b64url) = 64%nat) as Hl by (vm_compute; reflexivity).
  destruct (lookup_lt_is_Some_2 (to_bytes b64url) (Z.to_nat i)) as [x Hx]; [rewrite Hl; lia|].
  destruct (lookup_lt_is_Some_2 (to_bytes b64url) (Z.to_nat j)) as [y Hy]; [rewrite Hl; lia|].
  rewrite Hx, Hy in E. simpl in E. subst y.
  pose proof (NoDup_lookup _ _ _ _ Hnd Hx Hy). lia.
Qed.

(** The number of three bytes is determined by its four sextets. *)
Lemma sextets_inj v w :
  0 ≤ v < 2 ^ 24 → 0 ≤ w < 2 ^ 24 →
  b64_char (Z.shiftr v 18) = b64_char (Z.shiftr w 18) →
  b64_char (Z.land (Z.shiftr v 12) 63) = b64_char (Z.land (Z.shiftr w 12) 63) →
  b64_char (Z.land (Z.shiftr v 6) 63) = b64_char (Z.land (Z.shiftr w 6) 63) →
  b64_char (Z.land v 63) = b64_char (Z.land w 63) → v = w.
Proof.
  intros Hv Hw E1 E2 E3 E4. change 63 with (Z.ones 6) in *.
  rewrite !Z.land_ones in * by lia. rewrite !Z.shiftr_div_pow2 in * by lia.
  assert (∀ x, 0 ≤ x mod 2 ^ 6 < 64) as Hm by (intros; apply Z.mod_pos_bound; lia).
  assert (∀ x, 0 ≤ x < 2 ^ 24 → 0 ≤ x / 2 ^ 18 < 64) as Hd.
  { intros x Hx. split; [apply Z.div_pos; lia|apply Z.div_lt_upper_bound; lia]. }
  apply b64_char_inj in E1; [|auto..]. apply b64_char_inj in E2; [|auto..].
  apply b64_char_inj in E3; [|auto..]. apply b64_char_inj in E4; [|auto..].
  change (2 ^ 6) with 64 in *. change (2 ^ 12) with 4096 in *. change (2 ^ 18) with 262144 in *.
  clear Hv Hw Hm Hd. Z.div_mod_to_equations. lia.
Qed.

Lemma bytes3_inj a b c a' b' c' :
  byte_to_Z a * 2 ^ 16 + byte_to_Z b * 2 ^ 8 + byte_to_Z c =
  byte_to_Z a' * 2 ^ 16 + byte_to_Z b' * 2 ^ 8 + byte_to_Z c' →
  a = a' ∧ b = b' ∧ c = c'.
Proof.
  intros E.
  pose proof (byte_to_Z_range a). pose proof (byte_to_Z_range b). pose proof (byte_to_Z_range c).
  pose proof (byte_to_Z_range a'). pose proof (byte_to_Z_range b').
  pose proof (byte_to_Z_range c').
  assert (byte_to_Z a = byte_to_Z a' ∧ byte_to_Z b = byte_to_Z b' ∧ byte_to_Z c = byte_to_Z c')
    as (Ea & Eb & Ec) by lia.
  rewrite <- (byte_of_to_Z a), <- (byte_of_to_Z b), <- (byte_of_to_Z c), Ea, Eb, Ec.
  by rewrite !byte_of_to_Z.
Qed.

Lemma RawURLEncode_inj a b : RawURLEncode a = RawURLEncode b → a = b.
Proof.
  remember (length a) as n eqn:En. revert a b En.
  induction (lt_wf n) as [n _ IH]. intros a b -> E.
  destruct a as [|a0 [|a1 [|a2 a]]], b as [|b0 [|b1 [|b2 b]]]; try done.
  - pose proof (byte_to_Z_range a0). pose proof (byte_to_Z_range b0).
    cbn [RawURLEncode] in E. injection E as E1 E2.
    destruct (bytes3_inj a0 (byte_of_Z 0) (byte_of_Z 0) b0 (byte_of_Z 0) (byte_of_Z 0))
      as (-> & _ & _); [|done].
    change (byte_to_Z (byte_of_Z 0)) with 0. rewrite !Z.add_0_r.
    apply sextets_inj; [lia|lia|done|done| |]; f_equal; change 63 with (Z.ones 6);
      rewrite !Z.land_ones, ?Z.shiftr_div_pow2 by lia; change (2 ^ 6) with 64;
      change (2 ^ 16) with 65536; clear; Z.div_mod_to_equations; lia.
  - pose proof (byte_to_Z_range a0). pose proof (byte_to_Z_range b0).
    pose proof (byte_to_Z_range a1). pose proof (byte_to_Z_range b1).
    cbn [RawURLEncode] in E. injection E as E1 E2 E3.
    destruct (bytes3_inj a0 a1 (byte_of_Z 0) b0 b1 (byte_of_Z 0)) as (-> & -> & _); [|done].
    change (byte_to_Z (byte_of_Z 0)) with 0. rewrite !Z.add_0_r.
    apply sextets_inj; [lia|lia|done|done|done|]; f_equal; change 63 with (Z.ones 6);
      rewrite !Z.land_ones by lia; change (2 ^ 6) with 64;
      change (2 ^ 16) with 65536; change (2 ^ 8) with 256; clear;
      Z.div_mod_to_equations; lia.
  - pose proof (byte_to_Z_range a0). pose proof (byte_to_Z_range b0).
    pose proof (byte_to_Z_range a1). pose proof (byte_to_Z_range b1).
    pose proof (byte_to_Z_range a2). pose proof (byte_to_Z_range b2).
    cbn [RawURLEncode] in E. injection E as E1 E2 E3 E4 E5.
    destruct (bytes3_inj a0 a1 a2 b0 b1 b2) as (-> & -> & ->).
    { apply sextets_inj; [lia|lia|done..]. }
    f_equal. f_equal. f_equal. eapply IH; [|reflexivity|done]. simpl. lia.
Qed.
