(* ===== verification/Auth.v ===== *)
(** The auth peer (internal/service/auth_peer_service.go): verification of
    key/secret pairs and the tokens it grants. *)
From S2P Require Import Prelude GoStrings GoTime Errors Metrics Acl Topics Mq Model Codec Crypto.
From Stdlib Require Import Ascii.

Open Scope string_scope.
Open Scope list_scope.
Open Scope Z_scope.

Record AuthPeerService := {
  as_topics : TopicSet;
  as_secrets : gmap string string;
  as_authSecret : string
}.

(** A nil map of secrets is replaced by an empty one. *)
Definition NewAuthPeerService (topics : TopicSet) (secrets : option (gmap string string))
    (authSecret : string) : AuthPeerService :=
  {| as_topics := topics; as_secrets := default ∅ secrets; as_authSecret := authSecret |}.

Definition SetSecret (s : AuthPeerService) (key secret : string) : AuthPeerService :=
  {| as_topics := as_topics s; as_secrets := <[key := secret]> (as_secrets s);
     as_authSecret := as_authSecret s |}.

Definition generateAuthToken (peerId peerSecret authSecret : string) : string :=
  RawURLEncode (hmac_sha256 (to_bytes authSecret) (to_bytes (peerId +:+ ":" +:+ peerSecret))).

Definition VerifyToken (s : AuthPeerService) (token peerId key : string) : bool :=
  match as_secrets s !! key with
  | None => false
  | Some secret =>
      let expected := generateAuthToken peerId secret (as_authSecret s) in
      hmac_Equal (to_bytes token) (to_bytes expected)
  end.

Section auth.
Context {C : Type} `{MqClient C} `{JsonCodec PeerAuthRequest} `{JsonCodec PeerAuthResponse}.
Implicit Types (w : World C) (s : AuthPeerService).

Definition Auth_Start w s : World C * option error :=
  let '(c, err) := mq_Subscribe (w_mq w) (t_PeerAuthVerify (as_topics s)) hVerifyReq in
  (set_mq w c,
   match err with
   | Some e => Some (EText ("subscribe auth verify topic: " +:+ error_text e))
   | None => None
   end).

(** The answer to a request. *)
Definition auth_response (req : PeerAuthRequest) (granted : bool) (token reason : string)
    : PeerAuthResponse :=
  {| pas_RequestId := par_RequestId req; pas_PeerId := par_PeerId req; pas_Granted := granted;
     pas_AuthToken := token; pas_TtlSec := 300; pas_Reason := reason |}.

(** The error of [Marshal] is ignored: its data is then nil. *)
Definition replyAuth w (req : PeerAuthRequest) (granted : bool) (token reason : string)
    : World C :=
  let data := match json_Marshal (auth_response req granted token reason) with
              | Ok data => data
              | Fail _ => []
              end in
  set_mq w (mq_Publish (w_mq w) (par_ReplyTo req) data).1.

Definition handleVerifyReq w s (payload : bytes) : World C :=
  match json_Unmarshal (A := PeerAuthRequest) payload with
  | Fail _ => w
  | Ok req =>
      match as_secrets s !! par_Key req with
      | None => replyAuth w req false "" "invalid key/secret"
      | Some expectedSecret =>
          if decide (expectedSecret ≠ par_Secret req)
          then replyAuth w req false "" "invalid key/secret"
          else
            let token := generateAuthToken (par_PeerId req) expectedSecret (as_authSecret s) in
            replyAuth w req true token ""
      end
  end.

(** The verdict on a request, and the token that goes with it. *)
Definition verdict s (req : PeerAuthRequest) : option string :=
  if decide (as_secrets s !! par_Key req = Some (par_Secret req))
  then Some (generateAuthToken (par_PeerId req) (par_Secret req) (as_authSecret s))
  else None.

Lemma handleVerifyReq_verdict w s payload req :
  json_Unmarshal payload = Ok req →
  handleVerifyReq w s payload =
  match verdict s req with
  | Some token => replyAuth w req true token ""
  | None => replyAuth w req false "" "invalid key/secret"
  end.
Proof using Type.
  intros E. unfold handleVerifyReq, verdict. rewrite E.
  destruct (as_secrets s !! par_Key req) as [secret|]; [|done].
  destruct (decide (secret = par_Secret req)) as [->|Hne].
  - by rewrite decide_False, decide_True by tauto.
  - rewrite decide_True by done. by rewrite decide_False by congruence.
Qed.

Lemma to_bytes_inj a b : to_bytes a = to_bytes b → a = b.
Proof using Type. intros E. rewrite <- (of_to_bytes a), E. apply of_to_bytes. Qed.

Lemma VerifyToken_iff s token peerId key :
  VerifyToken s token peerId key = true ↔
  ∃ secret, as_secrets s !! key = Some secret ∧
            token = generateAuthToken peerId secret (as_authSecret s).
Proof using Type.
  unfold VerifyToken, hmac_Equal. destruct (as_secrets s !! key) as [secret|].
  - rewrite bool_decide_eq_true. split.
    + intros E. exists secret. split; [done|]. by apply to_bytes_inj.
    + by intros (? & [= <-] & ->).
  - split; [done|]. by intros (? & ? & _).
Qed.


End auth.

(** [VerifyToken] accepts exactly the token generated for the peer id and the
    secret of the key, so a token verifies only under a key whose secret generates
    it; but the peer id and the secret are joined by a colon that either may
    contain, so different pairs that join to the same text have the same token. *)
Theorem VerifyToken_exact s token peerId key :
  (VerifyToken s token peerId key = true ↔
   ∃ secret, as_secrets s !! key = Some secret ∧
     token = generateAuthToken peerId secret (as_authSecret s)) ∧
  (∀ mid secret, generateAuthToken (peerId +:+ ":" +:+ mid) secret (as_authSecret s) =
                 generateAuthToken peerId (mid +:+ ":" +:+ secret) (as_authSecret s)).
Proof.
  split; [apply VerifyToken_iff|]. intros mid secret. unfold generateAuthToken.
  by rewrite !string_app_assoc.
Qed.

(** * The properties at a concrete auth peer *)

Definition auth_request : PeerAuthRequest :=
  {| par_RequestId := "a1"; par_PeerId := "edge-1"; par_Key := "k"; par_Secret := "s";
     par_ReplyTo := "dd/default/reply" |}.

Definition auth_guess : PeerAuthRequest :=
  {| par_RequestId := "a2"; par_PeerId := "edge-1"; par_Key := "k"; par_Secret := "t";
     par_ReplyTo := "dd/default/reply" |}.

#[local] Instance auth_request_codec : JsonCodec PeerAuthRequest :=
  table_codec [(auth_request, json_text "{'peer_id':'edge-1','key':'k','secret':'s'}");
               (auth_guess, json_text "{'peer_id':'edge-1','key':'k','secret':'t'}")].
#[local] Instance auth_response_codec : JsonCodec PeerAuthResponse :=
  table_codec
    [(auth_response auth_request true (generateAuthToken "edge-1" "s" "root") "", "granted");
     (auth_response auth_guess false "" "invalid key/secret", "refused")].
#[local] Instance auth_mq : MqClient MockClient := MockClient_client ranger_std.

Definition auth_service : AuthPeerService :=
  SetSecret (NewAuthPeerService (NewDefaultTopicSet "default") None "root") "k" "s".

(** A right secret is answered with a token on the reply topic, a wrong one is refused. *)
Example handleVerifyReq_replies :
  let ask := to_bytes (json_text "{'peer_id':'edge-1','key':'k','secret':'s'}") in
  let guess := to_bytes (json_text "{'peer_id':'edge-1','key':'k','secret':'t'}") in
  let sent w := mq_sent (w_mq w) in
  let w := {| w_mq := NewMockClient; w_metrics := [] |} in
  sent (handleVerifyReq w auth_service ask) = [("dd/default/reply", to_bytes "granted")] ∧
  sent (handleVerifyReq w auth_service guess) = [("dd/default/reply", to_bytes "refused")] ∧
  sent (handleVerifyReq w auth_service (to_bytes "?")) = [].
Proof. vm_compute. split_and!; reflexivity. Qed.
