(* ===== verification/Discovery.v ===== *)
(** Hub and auth discovery (internal/service/hub_discovery.go): the last broadcast
    of each hub and auth peer, and which of them are live. *)
From S2P Require Import Prelude GoStrings GoTime Errors Metrics Acl Topics Mq Model Codec.

Open Scope string_scope.
Open Scope list_scope.
Open Scope Z_scope.

(** Whether a callback is set; the callbacks called are returned by the handlers. *)
Record HubDiscoveryService := {
  hd_topics : TopicSet;
  hd_peerId : string;
  hd_peerName : string;
  hd_role : string;
  hd_interval : Duration;
  hd_ttlSec : Z;
  hd_stopClosed : bool;
  hd_activeHubs : gmap string HubBroadcast;
  hd_activeAuth : gmap string AuthBroadcast;
  hd_onHubDiscovered : bool;
  hd_onAuthDiscovered : bool
}.

Definition NewHubDiscoveryService (topics : TopicSet) (peerId peerName role : string)
    (interval : Duration) (ttlSec : Z) : HubDiscoveryService := {|
  hd_topics := topics; hd_peerId := peerId; hd_peerName := peerName; hd_role := role;
  hd_interval := interval; hd_ttlSec := ttlSec; hd_stopClosed := false;
  hd_activeHubs := ∅; hd_activeAuth := ∅; hd_onHubDiscovered := false;
  hd_onAuthDiscovered := false |}.

Definition set_discovery (s : HubDiscoveryService) stop hubs auths onHub onAuth := {|
  hd_topics := hd_topics s; hd_peerId := hd_peerId s; hd_peerName := hd_peerName s;
  hd_role := hd_role s; hd_interval := hd_interval s; hd_ttlSec := hd_ttlSec s;
  hd_stopClosed := stop; hd_activeHubs := hubs; hd_activeAuth := auths;
  hd_onHubDiscovered := onHub; hd_onAuthDiscovered := onAuth |}.

Definition OnHubDiscovered (s : HubDiscoveryService) : HubDiscoveryService :=
  set_discovery s (hd_stopClosed s) (hd_activeHubs s) (hd_activeAuth s) true
    (hd_onAuthDiscovered s).
Definition OnAuthDiscovered (s : HubDiscoveryService) : HubDiscoveryService :=
  set_discovery s (hd_stopClosed s) (hd_activeHubs s) (hd_activeAuth s)
    (hd_onHubDiscovered s) true.

(** [Stop] closes a channel: a second call panics. *)
Definition Stop (s : HubDiscoveryService) : go HubDiscoveryService :=
  if hd_stopClosed s then Panic "close of closed channel"
  else Ret (set_discovery s true (hd_activeHubs s) (hd_activeAuth s)
              (hd_onHubDiscovered s) (hd_onAuthDiscovered s)).

(** A broadcast is live for its time to live after its time stamp. *)
Definition hub_live (now : Time) (h : HubBroadcast) : bool :=
  bool_decide (Sub now (hub_Timestamp h) ≤ dur_mul (hub_TtlSec h) Second).
Definition auth_live (now : Time) (a : AuthBroadcast) : bool :=
  bool_decide (Sub now (auth_Timestamp a) ≤ dur_mul (auth_TtlSec a) Second).

(** The loops return the first live entry in iteration order. *)
Fixpoint first_live {A} (live : A → bool) (l : list (string * A)) : option A :=
  match l with
  | [] => None
  | (_, x) :: l' => if live x then Some x else first_live live l'
  end.

Definition GetActiveHub (ρ : ranger) (now : Time) (s : HubDiscoveryService)
    : option HubBroadcast := first_live (hub_live now) (range ρ (hd_activeHubs s)).
Definition GetActiveAuth (ρ : ranger) (now : Time) (s : HubDiscoveryService)
    : option AuthBroadcast := first_live (auth_live now) (range ρ (hd_activeAuth s)).

Definition ListActiveHubs (ρ : ranger) (now : Time) (s : HubDiscoveryService)
    : list HubBroadcast :=
  foldl (λ result '(_, h), if hub_live now h then result ++ [h] else result)
    [] (range ρ (hd_activeHubs s)).

Section discovery.
Context {C : Type} `{MqClient C} `{JsonCodec HubBroadcast} `{JsonCodec AuthBroadcast}.
Implicit Types (w : World C) (s : HubDiscoveryService).

(** [Start], and whether it starts the broadcast loop. *)
Definition Discovery_Start w s : World C * option error * bool :=
  let '(c, err) := Subscribe_all (w_mq w)
    [(t_HubBroadcast (hd_topics s), hHubBroadcast);
     (t_AuthBroadcast (hd_topics s), hAuthBroadcast)] in
  (set_mq w c, err,
   match err with
   | Some _ => false
   | None => bool_decide (hd_role s = "hub" ∨ hd_role s = "edge_hub")
   end).

Definition hub_message (now : Time) s : HubBroadcast :=
  {| hub_HubId := hd_peerId s; hub_HubName := hd_peerName s;
     hub_RegisterTopic := t_PeerResourceRegister (hd_topics s);
     hub_AuthTopic := t_PeerAuthVerify (hd_topics s);
     hub_QueryTopic := t_PeerListQuery (hd_topics s);
     hub_TtlSec := hd_ttlSec s; hub_Timestamp := now |}.

(** Errors of marshalling and publishing are dropped. *)
Definition broadcast (now : Time) w s : World C :=
  let data := match json_Marshal (hub_message now s) with Ok d => d | Fail _ => [] end in
  set_mq w (mq_Publish (w_mq w) (t_HubBroadcast (hd_topics s)) data).1.

Definition BroadcastAuth (now : Time) w s (verifyTopic publicKey : string) : World C :=
  let msg := {| auth_AuthId := hd_peerId s; auth_AuthName := hd_peerName s;
                auth_VerifyTopic := verifyTopic; auth_PublicKey := publicKey;
                auth_TtlSec := hd_ttlSec s; auth_Timestamp := now |} in
  let data := match json_Marshal msg with Ok d => d | Fail _ => [] end in
  set_mq w (mq_Publish (w_mq w) (t_AuthBroadcast (hd_topics s)) data).1.

Definition handleHubBroadcast s (payload : bytes)
    : HubDiscoveryService * option HubBroadcast :=
  match json_Unmarshal (A := HubBroadcast) payload with
  | Fail _ => (s, None)
  | Ok msg =>
      (set_discovery s (hd_stopClosed s) (<[hub_HubId msg := msg]> (hd_activeHubs s))
         (hd_activeAuth s) (hd_onHubDiscovered s) (hd_onAuthDiscovered s),
       if hd_onHubDiscovered s then Some msg else None)
  end.

Definition handleAuthBroadcast s (payload : bytes)
    : HubDiscoveryService * option AuthBroadcast :=
  match json_Unmarshal (A := AuthBroadcast) payload with
  | Fail _ => (s, None)
  | Ok msg =>
      (set_discovery s (hd_stopClosed s) (hd_activeHubs s)
         (<[auth_AuthId msg := msg]> (hd_activeAuth s))
         (hd_onHubDiscovered s) (hd_onAuthDiscovered s),
       if hd_onAuthDiscovered s then Some msg else None)
  end.

(** The last broadcast of a hub among some payloads. *)
Definition last_broadcast (payloads : list bytes) (id : string) : option HubBroadcast :=
  last (filter (λ h, hub_HubId h = id)
    (omap (λ p, match json_Unmarshal (A := HubBroadcast) p with
                | Ok h => Some h | Fail _ => None end) payloads)).

Lemma handleHubBroadcasts_lookup s payloads id :
  hd_activeHubs (foldl (λ s p, (handleHubBroadcast s p).1) s payloads) !! id =
  match last_broadcast payloads id with
  | Some h => Some h
  | None => hd_activeHubs s !! id
  end.
Proof using Type.
  revert s. induction payloads as [|p l IH] using rev_ind; intros s; [done|].
  rewrite foldl_app. simpl. unfold last_broadcast. rewrite omap_app, filter_app. simpl.
  unfold handleHubBroadcast at 1.
  destruct (json_Unmarshal p) as [h|] eqn:E; simpl.
  - rewrite filter_cons, filter_nil, lookup_insert. case_decide; [by rewrite last_snoc|].
    rewrite app_nil_r. apply IH.
  - rewrite filter_nil, app_nil_r. apply IH.
Qed.

End discovery.

Lemma first_live_Some {A} (live : A → bool) (l : list (string * A)) x :
  first_live live l = Some x → ∃ k, (k, x) ∈ l ∧ live x = true.
Proof.
  induction l as [|[k y] l IH]; simpl; [done|]. destruct (live y) eqn:Ey.
  - intros [= ->]. exists k. split; [left|done].
  - intros E. destruct (IH E) as (k' & ? & ?). exists k'. split; [by right|done].
Qed.

Lemma first_live_None {A} (live : A → bool) (l : list (string * A)) k x :
  first_live live l = None → (k, x) ∈ l → live x = false.
Proof.
  induction l as [|[k' y] l IH]; simpl; [by intros _ ?%elem_of_nil|].
  destruct (live y) eqn:Ey; [done|]. intros E. rewrite elem_of_cons.
  intros [[= -> ->]|Hin]; [done|auto].
Qed.

Lemma ListActiveHubs_filter ρ now s :
  ListActiveHubs ρ now s =
  filter (λ h, hub_live now h = true) (range_values ρ (hd_activeHubs s)).
Proof.
  unfold ListActiveHubs, range_values.
  assert (∀ (l : list (string * HubBroadcast)) acc,
    foldl (λ result '(_, h), if hub_live now h then result ++ [h] else result) acc l =
    acc ++ filter (λ h, hub_live now h = true) l.*2) as Hl; [|apply Hl].
  induction l as [|[k h] l IH]; intros acc; simpl; [by rewrite app_nil_r|].
  rewrite IH, filter_cons. destruct (hub_live now h); simpl; [|done].
  by rewrite <- app_assoc.
Qed.

(** After any sequence of broadcasts, a node knows of each hub exactly the
    last one, in whatever order the others arrived; the hubs it lists are those
    whose last broadcast is still live; and it finds an active hub whenever one of
    them is live, whichever the map yields first. *)
Theorem hubs_known `{JsonCodec HubBroadcast} ρ now s payloads :
  hd_activeHubs s = ∅ →
  let s' := foldl (λ s p, (handleHubBroadcast s p).1) s payloads in
  (∀ h, h ∈ ListActiveHubs ρ now s' ↔
     hub_live now h = true ∧ last_broadcast payloads (hub_HubId h) = Some h) ∧
  (∀ h, GetActiveHub ρ now s' = Some h → h ∈ ListActiveHubs ρ now s') ∧
  (GetActiveHub ρ now s' = None → ListActiveHubs ρ now s' = []).
Proof.
  intros Hs s'.
  assert (∀ id, hd_activeHubs s' !! id = last_broadcast payloads id) as Hl.
  { intros id. unfold s'. rewrite handleHubBroadcasts_lookup, Hs, lookup_empty.
    by destruct (last_broadcast payloads id). }
  assert (∀ id h, last_broadcast payloads id = Some h → hub_HubId h = id) as Hid.
  { intros id h E. apply last_Some_elem_of, list_elem_of_filter in E. tauto. }
  split_and!.
  - intros h. rewrite ListActiveHubs_filter, list_elem_of_filter, elem_of_range_values.
    setoid_rewrite Hl. split.
    + intros (? & k & E). split; [done|]. by rewrite (Hid _ _ E).
    + intros [? E]. eauto.
  - intros h E. apply first_live_Some in E as (k & Hin & Hlive).
    rewrite ListActiveHubs_filter, list_elem_of_filter. split; [done|].
    apply elem_of_range_values. exists k. by apply range_lookup in Hin.
  - intros E. rewrite ListActiveHubs_filter.
    destruct (filter _ _) as [|h l] eqn:Ef; [done|].
    assert (h ∈ filter (λ h, hub_live now h = true) (range_values ρ (hd_activeHubs s')))
      as Hin by (rewrite Ef; left).
    apply list_elem_of_filter in Hin as [Hlive Hin].
    apply elem_of_range_values in Hin as [k Hk]. apply (range_lookup ρ) in Hk.
    eapply first_live_None in E; [|exact Hk]. congruence.
Qed.

Definition hub_sample : HubBroadcast :=
  {| hub_HubId := "h1"; hub_HubName := ""; hub_RegisterTopic := ""; hub_AuthTopic := "";
     hub_QueryTopic := ""; hub_TtlSec := 30; hub_Timestamp := 1000 |}.

Lemma hubs_known_witness :
  let s := NewHubDiscoveryService (NewDefaultTopicSet "default") "n1" "" "edge" Second 30 in
  let codec := table_codec [(hub_sample, json_text "{'hub_id':'h1'}")] in
  let payloads := [to_bytes (json_text "{'hub_id':'h1'}")] in
  hd_activeHubs s = ∅ ∧
  hub_sample ∈ ListActiveHubs ranger_std 2000
    (foldl (λ s p, (@handleHubBroadcast codec s p).1) s payloads).
Proof.
  cbv zeta. split; [reflexivity|].
  apply (@hubs_known (table_codec [(hub_sample, json_text "{'hub_id':'h1'}")])
    ranger_std 2000); [reflexivity|]. split; vm_compute; reflexivity.
Defined.
