(* ===== verification/Coap.v ===== *)
(** The CoAP packets of the program: the request builder and the response parser of
    internal/adapter/coap_bridge.go, and the second copies of both that
    api/handler.go has for the direct route. *)
From S2P Require Import Prelude GoStrings.
From Stdlib Require Import Ascii.

Open Scope string_scope.
Open Scope list_scope.
Open Scope Z_scope.

Definition blen (data : bytes) : Z := Z.of_nat (length data).

(** * Building *)

Definition coap_method_code (method : string) : Z :=
  if decide (method = "GET") then 1
  else if decide (method = "POST") then 2
  else if decide (method = "PUT") then 3
  else if decide (method = "DELETE") then 4
  else 1.

Definition encodeCoapOptionNibble (v : Z) : Z * bytes :=
  if decide (v < 13) then (v, [])
  else if decide (v < 269) then (13, [byte_of_Z (v - 13)])
  else let n := v - 269 in (14, [byte_of_Z (Z.shiftr n 8); byte_of_Z (Z.land n 0xff)]).

Definition encodeCoapOption (num : Z) (val : string) : bytes :=
  let '(deltaNibble, deltaExt) := encodeCoapOptionNibble num in
  let valBytes := to_bytes val in
  let '(lengthNibble, lengthExt) := encodeCoapOptionNibble (blen valBytes) in
  [byte_of_Z (Z.lor (Z.shiftl deltaNibble 4) lengthNibble)] ++ deltaExt ++ lengthExt ++ valBytes.

(** [counter] is the value of the message counter after its increment. *)
Definition buildCoapRequest (counter : Z) (method path : string) (payload : bytes) : bytes :=
  let code := coap_method_code method in
  let msgId := Z.land counter 0xffff in
  let pkt := [byte_of_Z 0x40] in
  let pkt := pkt ++ [byte_of_Z code] in
  let pkt := pkt ++ [byte_of_Z (Z.shiftr msgId 8); byte_of_Z (Z.land msgId 0xff)] in
  let pkt := pkt ++ encodeCoapOption 11 path in
  if decide (0 < length payload)%nat then pkt ++ [byte_of_Z 0xff] ++ payload else pkt.

(** * Parsing *)

(** One extended nibble of an option header: its value, and the position after it. *)
Definition coap_extended (data : bytes) (nibble pos : Z) : go (Z * Z) :=
  (if decide (nibble = 13 ∧ pos < blen data) then
     let? b := index data pos in Ret (byte_to_Z b + 13, pos + 1)
   else if decide (nibble = 14 ∧ pos + 1 < blen data) then
     let? b0 := index data pos in
     let? b1 := index data (pos + 1) in
     Ret (Z.lor (Z.shiftl (byte_to_Z b0) 8) (byte_to_Z b1) + 269, pos + 2)
   else Ret (nibble, pos))%go.

(** The loop of [parseCoapPayload]; [None] is the nil slice. *)
Fixpoint parseCoapPayload_loop (fuel : nat) (data : bytes) (pos : Z) : go (option bytes) :=
  match fuel with
  | O => Panic "out of fuel"
  | S fuel' =>
      if decide (pos < blen data) then
        (let? b := index data pos in
         if decide (byte_to_Z b = 0xff) then
           let pos := pos + 1 in
           if decide (pos < blen data)
           then let? rest := slice data pos (blen data) in Ret (Some rest)
           else Ret None
         else
           let delta := Z.shiftr (byte_to_Z b) 4 in
           let length := Z.land (byte_to_Z b) 0x0f in
           let pos := pos + 1 in
           let? (delta, pos) := coap_extended data delta pos in
           let? (length, pos) := coap_extended data length pos in
           if decide (length > blen data - pos) then Ret None
           else parseCoapPayload_loop fuel' data (pos + length))%go
      else Ret None
  end.

Definition parseCoapPayload (data : bytes) : go (option bytes) :=
  if decide (blen data < 4) then Ret None
  else
    (let? b0 := index data 0 in
     let tkl := Z.land (byte_to_Z b0) 0x0f in
     let pos := 4 + tkl in
     let? _ := index data 1 in
     if decide (pos >= blen data) then Ret None
     else parseCoapPayload_loop (S (length data)) data pos)%go.

(** * The copies of the HTTP API (api/handler.go) *)

Definition encodeCoapNibble (v : Z) : Z * bytes :=
  if decide (v < 13) then (v, [])
  else if decide (v < 269) then (13, [byte_of_Z (v - 13)])
  else let n := v - 269 in (14, [byte_of_Z (Z.shiftr n 8); byte_of_Z n]).

Definition encodeCoapOptionPath (path : string) : bytes :=
  let '(deltaNibble, deltaExt) := encodeCoapNibble 11 in
  let val := to_bytes path in
  let '(lengthNibble, lengthExt) := encodeCoapNibble (blen val) in
  [byte_of_Z (Z.lor (Z.shiftl deltaNibble 4) lengthNibble)] ++ deltaExt ++ lengthExt ++ val.

Definition coap_packet_code (method : string) : Z :=
  if decide (method = "POST") then 2
  else if decide (method = "PUT") then 3
  else if decide (method = "DELETE") then 4
  else 1.

(** [nano] is the clock's reading in nanoseconds. *)
Definition buildCoapPacket (nano : Z) (method path : string) (payload : bytes) : bytes :=
  let code := coap_packet_code method in
  let msgID := Z.land nano 0xffff in
  let pkt := [byte_of_Z 0x40; byte_of_Z code; byte_of_Z (Z.shiftr msgID 8); byte_of_Z msgID] in
  let pkt := pkt ++ encodeCoapOptionPath path in
  if decide (0 < length payload)%nat then pkt ++ [byte_of_Z 0xff] ++ payload else pkt.

(** The copy skips the extended delta without reading it. *)
Definition coap_skip_delta (data : bytes) (nibble pos : Z) : Z :=
  if decide (nibble = 13 ∧ pos < blen data) then pos + 1
  else if decide (nibble = 14 ∧ pos + 1 < blen data) then pos + 2
  else pos.

Fixpoint parseCoapPayloadBytes_loop (fuel : nat) (data : bytes) (pos : Z) : go (option bytes) :=
  match fuel with
  | O => Panic "out of fuel"
  | S fuel' =>
      if decide (pos < blen data) then
        (let? b := index data pos in
         if decide (byte_to_Z b = 0xff) then
           let pos := pos + 1 in
           if decide (pos < blen data)
           then let? rest := slice data pos (blen data) in Ret (Some rest)
           else Ret None
         else
           let delta := Z.shiftr (byte_to_Z b) 4 in
           let length := Z.land (byte_to_Z b) 0x0f in
           let pos := pos + 1 in
           let pos := coap_skip_delta data delta pos in
           let? (length, pos) := coap_extended data length pos in
           if decide (length > blen data - pos) then Ret None
           else parseCoapPayloadBytes_loop fuel' data (pos + length))%go
      else Ret None
  end.

Definition parseCoapPayloadBytes (data : bytes) : go (option bytes) :=
  if decide (blen data < 4) then Ret None
  else
    (let? b0 := index data 0 in
     let tkl := Z.land (byte_to_Z b0) 0x0f in
     let pos := 4 + tkl in
     parseCoapPayloadBytes_loop (S (length data)) data pos)%go.

(** * The parsers never panic *)

Lemma index_ok data pos : 0 ≤ pos < blen data → ∃ b, index data pos = Ret b.
Proof.
  intros Hp. unfold blen in Hp.
  destruct (lookup_lt_is_Some_2 data (Z.to_nat pos)) as [b Hb]; [lia|].
  exists b. apply index_ret; [lia|done].
Qed.

Lemma nibble_range b : 0 ≤ Z.land (byte_to_Z b) 0x0f < 16.
Proof.
  change 0x0f with (Z.ones 4). rewrite Z.land_ones by lia. apply Z.mod_pos_bound. lia.
Qed.

Lemma high_nibble_range b : 0 ≤ Z.shiftr (byte_to_Z b) 4 < 16.
Proof.
  pose proof (byte_to_Z_range b). rewrite Z.shiftr_div_pow2 by lia.
  split; [apply Z.div_pos; lia|apply Z.div_lt_upper_bound; lia].
Qed.

Lemma coap_extended_ok data nibble pos :
  0 ≤ pos ≤ blen data → 0 ≤ nibble →
  ∃ v pos', coap_extended data nibble pos = Ret (v, pos') ∧
    pos' = coap_skip_delta data nibble pos ∧ pos ≤ pos' ≤ blen data ∧ 0 ≤ v.
Proof.
  intros Hp Hn. unfold coap_extended, coap_skip_delta. repeat case_decide.
  - destruct (index_ok data pos) as [b ->]; [lia|]. simpl. eexists _, _.
    split; [done|]. pose proof (byte_to_Z_range b). lia.
  - destruct (index_ok data pos) as [b0 ->]; [lia|].
    destruct (index_ok data (pos + 1)) as [b1 ->]; [lia|]. simpl. eexists _, _.
    split; [done|]. pose proof (byte_to_Z_range b0). pose proof (byte_to_Z_range b1).
    split; [done|]. split; [lia|].
    rewrite lor_shiftl8 by lia. lia.
  - eexists _, _. split; [done|]. lia.
Qed.

(** Every turn of the loop advances, so the length of the packet is enough fuel. *)
Lemma parse_loop_total fuel data pos :
  0 ≤ pos → (0 < fuel)%nat → blen data - pos < Z.of_nat fuel →
  ∃ r, parseCoapPayload_loop fuel data pos = Ret r ∧
       parseCoapPayloadBytes_loop fuel data pos = Ret r.
Proof.
  revert pos. induction fuel as [|fuel IH]; intros pos Hp Hf0 Hf; [lia|]. simpl.
  case_decide as Hlt; [|eauto].
  destruct (index_ok data pos) as [b ->]; [lia|]. simpl.
  case_decide.
  { case_decide; [|eauto]. rewrite slice_ret by (unfold blen in *; lia). simpl. eauto. }
  pose proof (high_nibble_range b). pose proof (nibble_range b).
  destruct (coap_extended_ok data (Z.shiftr (byte_to_Z b) 4) (pos + 1))
    as (d & pos1 & -> & -> & Hp1 & _); [lia..|]. simpl.
  set (pos1 := coap_skip_delta _ _ _) in *.
  destruct (coap_extended_ok data (Z.land (byte_to_Z b) 15) pos1)
    as (l & pos2 & -> & _ & Hp2 & Hl); [lia..|]. simpl.
  case_decide; [eauto|].
  destruct (decide (fuel = 0%nat)) as [->|Hfuel]; [lia|].
  apply IH; lia.
Qed.

(** * Packets *)

Lemma index_app_r (l1 l2 : bytes) i :
  0 ≤ i → index (l1 ++ l2) (blen l1 + i) = index l2 i.
Proof.
  intros Hi. unfold index, blen. rewrite !decide_False by lia.
  rewrite lookup_app_r by lia. by replace (Z.to_nat (Z.of_nat (length l1) + i) - length l1)%nat
    with (Z.to_nat i) by lia.
Qed.

Lemma blen_app l1 l2 : blen (l1 ++ l2) = blen l1 + blen l2.
Proof. unfold blen. rewrite length_app. lia. Qed.
Lemma blen_nonneg l : 0 ≤ blen l.
Proof. unfold blen. lia. Qed.
Lemma blen_cons b l : blen (b :: l) = 1 + blen l.
Proof. unfold blen. simpl. lia. Qed.

(** A nibble with its extension reads back what was encoded. *)
Lemma coap_extended_encode pre v ext nib rest :
  0 ≤ v < 65805 → encodeCoapOptionNibble v = (nib, ext) →
  coap_extended (pre ++ ext ++ rest) nib (blen pre) = Ret (v, blen pre + blen ext) ∧
  0 ≤ nib < 15.
Proof.
  intros Hv. unfold encodeCoapOptionNibble, coap_extended.
  rewrite !blen_app. pose proof (blen_nonneg rest).
  destruct (decide (v < 13)); [|destruct (decide (v < 269))]; intros [= <- <-];
    rewrite ?blen_cons; change (blen []) with 0.
  - rewrite !decide_False by lia. split; [|lia]. do 2 f_equal. lia.
  - rewrite decide_True by lia.
    replace (blen pre) with (blen pre + 0) at 1 by lia. rewrite index_app_r by lia.
    simpl. rewrite byte_to_of_Z, Z.mod_small by lia. split; [|lia]. do 2 f_equal; lia.
  - rewrite decide_False, decide_True by lia.
    replace (index _ (blen pre)) with
      (Ret (A := byte) (byte_of_Z (Z.shiftr (v - 269) 8))).
    2:{ replace (blen pre) with (blen pre + 0) by lia. by rewrite index_app_r by lia. }
    rewrite index_app_r by lia. unfold index at 1. simpl.
    rewrite !byte_to_of_Z. change 255 with (Z.ones 8). rewrite Z.land_ones by lia.
    rewrite Z.shiftr_div_pow2 by lia. change (2 ^ 8) with 256.
    rewrite lor_shiftl8 by (apply Z.mod_pos_bound; lia).
    assert ((v - 269) / 256 mod 256 * 256 + (v - 269) mod 256 mod 256 = v - 269) as ->.
    { rewrite Z.mod_mod by lia. rewrite (Z.mod_small ((v - 269) / 256)).
      - pose proof (Z.div_mod (v - 269) 256). lia.
      - split; [apply Z.div_pos; lia|apply Z.div_lt_upper_bound; lia]. }
    split; [|lia]. f_equal. f_equal; lia.
Qed.

(** The turn of the loop at an option header. *)
Lemma parse_loop_option fuel pre path rest :
  blen (to_bytes path) < 65805 →
  parseCoapPayload_loop (S fuel) (pre ++ encodeCoapOption 11 path ++ rest) (blen pre) =
  parseCoapPayload_loop fuel (pre ++ encodeCoapOption 11 path ++ rest)
    (blen pre + blen (encodeCoapOption 11 path)).
Proof.
  intros Hlen. pose proof (blen_nonneg (to_bytes path)) as Hnn.
  unfold encodeCoapOption. destruct (encodeCoapOptionNibble 11) as [dn de] eqn:Ed.
  injection Ed as <- <-.
  destruct (encodeCoapOptionNibble (blen (to_bytes path))) as [ln le] eqn:El.
  set (val := to_bytes path) in *.
  destruct (coap_extended_encode (pre ++ [byte_of_Z (Z.lor (Z.shiftl 11 4) ln)])
    (blen val) le ln (val ++ rest)) as [Hx Hr]; [lia|done|].
  assert (Z.lor (Z.shiftl 11 4) ln = 176 + ln) as Hlor by (rewrite lor_shiftl4 by lia; lia).
  rewrite Hlor in *.
  cbn [parseCoapPayload_loop]. cbn [app]. rewrite <- !app_assoc in *. cbn [app] in *.
  set (data := pre ++ byte_of_Z (176 + ln) :: le ++ val ++ rest) in *.
  assert (blen data = blen pre + (1 + (blen le + (blen val + blen rest)))) as Hdl.
  { unfold data. rewrite blen_app, blen_cons, !blen_app. lia. }
  pose proof (blen_nonneg le). pose proof (blen_nonneg rest). pose proof (blen_nonneg pre).
  rewrite decide_True by lia.
  assert (index data (blen pre) = Ret (byte_of_Z (176 + ln))) as ->.
  { unfold data. replace (blen pre) with (blen pre + 0) by lia. by rewrite index_app_r by lia. }
  cbn [go_bind]. rewrite byte_to_of_Z, Z.mod_small by lia.
  rewrite decide_False by lia.
  assert (Z.shiftr (176 + ln) 4 = 11) as ->.
  { rewrite Z.shiftr_div_pow2 by lia. change (2 ^ 4) with 16.
    symmetry. apply Z.div_unique with ln; lia. }
  assert (Z.land (176 + ln) 15 = ln) as ->.
  { change 15 with (Z.ones 4). rewrite Z.land_ones by lia. change (2 ^ 4) with 16.
    symmetry. apply Z.mod_unique with 11; lia. }
  unfold coap_extended at 1. rewrite !decide_False by lia. cbn [go_bind].
  rewrite blen_app in Hx. change (blen [byte_of_Z (176 + ln)]) with 1 in Hx.
  rewrite Hx. cbn [go_bind].
  rewrite decide_False by lia. f_equal. rewrite blen_cons, blen_app. lia.
Qed.

(** The turn at the payload marker. *)
Lemma parse_loop_marker fuel pre payload :
  parseCoapPayload_loop (S fuel) (pre ++ byte_of_Z 0xff :: payload) (blen pre) =
  Ret (match payload with [] => None | _ => Some payload end).
Proof.
  cbn [parseCoapPayload_loop]. set (data := pre ++ byte_of_Z 0xff :: payload).
  assert (blen data = blen pre + (1 + blen payload)) as Hdl.
  { unfold data. by rewrite blen_app, blen_cons. }
  pose proof (blen_nonneg pre). pose proof (blen_nonneg payload).
  rewrite decide_True by lia.
  assert (index data (blen pre) = Ret (byte_of_Z 0xff)) as ->.
  { unfold data. replace (blen pre) with (blen pre + 0) by lia. by rewrite index_app_r by lia. }
  cbn [go_bind]. rewrite decide_True by (vm_compute; reflexivity).
  destruct payload as [|b payload].
  - rewrite decide_False; [done|]. change (blen []) with 0 in Hdl. lia.
  - rewrite blen_cons in Hdl. pose proof (blen_nonneg payload).
    rewrite decide_True by lia. rewrite slice_ret; [|lia|lia|unfold blen in *; lia].
    cbn [go_bind]. do 2 f_equal. unfold data.
    rewrite cons_middle, app_assoc.
    replace (Z.to_nat (blen pre + 1)) with (length (pre ++ [byte_of_Z 0xff]))
      by (rewrite length_app; unfold blen; simpl; lia).
    rewrite drop_app_length. apply take_ge.
    assert (blen data - (blen pre + 1) = 1 + blen payload) as E by lia.
    unfold data in E. rewrite cons_middle, app_assoc in E. rewrite E.
    unfold blen. simpl. lia.
Qed.

Lemma build_parse counter method path payload :
  blen (to_bytes path) < 65805 →
  parseCoapPayload (buildCoapRequest counter method path payload) =
  Ret (match payload with [] => None | _ => Some payload end).
Proof.
  intros Hlen. unfold buildCoapRequest. cbn [app].
  set (h1 := byte_of_Z (coap_method_code method)).
  set (h2 := byte_of_Z (Z.shiftr _ 8)). set (h3 := byte_of_Z (Z.land (Z.land _ _) _)).
  set (rest := if decide (0 < length payload)%nat then byte_of_Z 0xff :: payload else []).
  match goal with |- parseCoapPayload ?p = _ =>
    replace p with ([byte_of_Z 0x40; h1; h2; h3] ++ encodeCoapOption 11 path ++ rest) end.
  2:{ unfold rest. case_decide; cbn [app]; rewrite ?app_nil_r, <- ?app_assoc; done. }
  set (hdr := [byte_of_Z 0x40; h1; h2; h3]).
  set (opt := encodeCoapOption 11 path).
  assert (0 < blen opt) as Hopt.
  { unfold opt, encodeCoapOption. destruct (encodeCoapOptionNibble 11).
    destruct (encodeCoapOptionNibble _). cbn [app]. rewrite blen_cons.
    match goal with |- 0 < 1 + blen ?x => pose proof (blen_nonneg x) end. lia. }
  assert (blen (hdr ++ opt ++ rest) = 4 + (blen opt + blen rest)) as Hl by
    (by rewrite !blen_app).
  pose proof (blen_nonneg rest).
  unfold parseCoapPayload. rewrite decide_False by lia.
  assert (index (hdr ++ opt ++ rest) 0 = Ret (byte_of_Z 0x40)) as -> by done.
  assert (index (hdr ++ opt ++ rest) 1 = Ret h1) as -> by done.
  cbn [go_bind]. change (Z.land (byte_to_Z (byte_of_Z 64)) 15) with 0.
  rewrite decide_False by lia.
  replace (4 + 0) with (blen hdr) by done.
  assert (∃ f, length (hdr ++ opt ++ rest) = S (S f)) as [f ->]
    by (exists (2 + length (opt ++ rest))%nat; done).
  unfold opt. rewrite parse_loop_option by done. fold opt.
  rewrite app_assoc, <- blen_app. unfold rest. case_decide as Hp.
  - apply parse_loop_marker.
  - rewrite app_nil_r. cbn [parseCoapPayload_loop]. rewrite decide_False by lia.
    destruct payload; [done|simpl in Hp; lia].
Qed.

Lemma byte_of_Z_mod z : byte_of_Z (Z.land z 0xff) = byte_of_Z z.
Proof.
  rewrite <- (byte_of_to_Z (byte_of_Z (Z.land z 255))), <- (byte_of_to_Z (byte_of_Z z)),
    !byte_to_of_Z.
  f_equal. change 255 with (Z.ones 8). rewrite Z.land_ones by lia. by rewrite Z.mod_mod by lia.
Qed.

Lemma encodeCoapNibble_eq v : encodeCoapNibble v = encodeCoapOptionNibble v.
Proof.
  unfold encodeCoapNibble, encodeCoapOptionNibble. repeat case_decide; [done..|].
  by rewrite byte_of_Z_mod.
Qed.

Lemma coap_packet_code_eq method : coap_packet_code method = coap_method_code method.
Proof. unfold coap_packet_code, coap_method_code. by repeat case_decide; subst. Qed.

Lemma parsers_total data :
  ∃ r, parseCoapPayload data = Ret r ∧ parseCoapPayloadBytes data = Ret r.
Proof.
  unfold parseCoapPayload, parseCoapPayloadBytes. case_decide; [eauto|].
  destruct (index_ok data 0) as [b0 ->]; [lia|].
  destruct (index_ok data 1) as [b1 ->]; [lia|]. cbn [go_bind].
  pose proof (nibble_range b0).
  destruct (parse_loop_total (S (length data)) data (4 + Z.land (byte_to_Z b0) 15))
    as (r & E1 & E2); [lia|lia|unfold blen; lia|].
  case_decide as Hge; [|eauto]. exists None. split; [done|].
  cbn [parseCoapPayloadBytes_loop]. by rewrite decide_False by lia.
Qed.

(** * Properties *)

(** C32: both CoAP response parsers accept any bytes a peer sends: they never index
    out of bounds, their loops end within the length of the packet, and they return
    the same payload. *)
Theorem coap_parsers_agree data :
  ∃ payload, parseCoapPayload data = Ret payload ∧ parseCoapPayloadBytes data = Ret payload.
Proof. apply parsers_total. Qed.

(** C31: a packet built for any method and any path shorter than 65805 bytes parses
    back to its payload (an empty payload to nil), and the two builders of the
    program build the same packet for the same message id. *)
Theorem coap_packet_roundtrip n method path payload :
  buildCoapPacket n method path payload = buildCoapRequest n method path payload ∧
  (blen (to_bytes path) < 65805 →
   parseCoapPayload (buildCoapRequest n method path payload) =
   Ret (match payload with [] => None | _ => Some payload end)).
Proof.
  split; [|apply build_parse]. unfold buildCoapPacket, buildCoapRequest.
  unfold encodeCoapOptionPath, encodeCoapOption.
  by rewrite !encodeCoapNibble_eq, coap_packet_code_eq, byte_of_Z_mod.
Qed.
