(* ===== verification/Bridges.v ===== *)
(** What the protocol bridges share (internal/adapter): the circuit breaker that
    HttpBridge and CoapBridge each embed, the dead-letter event, and the MQTT
    bridge with its topic rewriting. *)
From S2P Require Import Prelude GoStrings GoTime Errors Metrics TopicFilter Acl Topics.
From S2P Require Import Mq Model Message Codec PeerRegistry.
From Stdlib Require Import Ascii.

Open Scope string_scope.
Open Scope list_scope.
Open Scope Z_scope.

(** * The circuit breaker *)

Record breaker := { cb_Fails : Z; cb_OpenUntil : Time }.

Definition breaker0 : breaker := {| cb_Fails := 0; cb_OpenUntil := time_zero |}.

Definition markFailure (now : Time) (b : breaker) : breaker :=
  let fails := cb_Fails b + 1 in
  {| cb_Fails := fails;
     cb_OpenUntil := if decide (fails >= 3) then Add now (5 * Second) else cb_OpenUntil b |}.

Definition markSuccess (b : breaker) : breaker := {| cb_Fails := 0; cb_OpenUntil := time_zero |}.

Definition isCircuitOpen (now : Time) (b : breaker) : bool := Before now (cb_OpenUntil b).

(** What happens to a breaker, at the clock's readings. *)
Inductive breaker_event := Failed (now : Time) | Succeeded.

Definition breaker_run (b : breaker) (ev : breaker_event) : breaker :=
  match ev with Failed now => markFailure now b | Succeeded => markSuccess b end.

(** The failures since the last success, oldest first. *)
Fixpoint recent_failures (evs : list breaker_event) (acc : list Time) : list Time :=
  match evs with
  | [] => acc
  | Failed now :: evs' => recent_failures evs' (acc ++ [now])
  | Succeeded :: evs' => recent_failures evs' []
  end.

Lemma breaker_run_spec evs b fails :
  cb_Fails b = Z.of_nat (length fails) →
  (cb_OpenUntil b = if decide (3 ≤ length fails)%nat
                    then default 0 (last fails) + 5 * Second else time_zero) →
  let b' := foldl breaker_run b evs in
  let fails' := recent_failures evs fails in
  cb_Fails b' = Z.of_nat (length fails') ∧
  cb_OpenUntil b' = if decide (3 ≤ length fails')%nat
                    then default 0 (last fails') + 5 * Second else time_zero.
Proof.
  revert b fails. induction evs as [|ev evs IH]; intros b fails Hf Ho; simpl; [done|].
  destruct ev as [now|]; apply IH; simpl; try done.
  - rewrite length_app. simpl. lia.
  - rewrite Hf, length_app, last_snoc. simpl.
    destruct (decide (Z.of_nat (length fails) + 1 >= 3)).
    + by rewrite decide_True by lia.
    + rewrite (decide_False (P := 3 ≤ length fails + 1)%nat) by lia.
      rewrite Ho. by rewrite decide_False by lia.
Qed.

(** C33: the circuit is open exactly when at least three calls have failed since
    the last success and the last of them is less than five seconds old; one
    success closes it. *)
Theorem circuit_open_iff evs now :
  0 ≤ now →
  let fails := recent_failures evs [] in
  isCircuitOpen now (foldl breaker_run breaker0 evs) = true ↔
  (3 ≤ length fails)%nat ∧ ∃ t, last fails = Some t ∧ now < t + 5 * Second.
Proof.
  intros Hnow fails.
  destruct (breaker_run_spec evs breaker0 [] eq_refl eq_refl) as [_ Ho].
  unfold isCircuitOpen, Before. rewrite bool_decide_eq_true, Ho. fold fails. clear Ho.
  case_decide as H3.
  - destruct (last fails) as [t|] eqn:El.
    + cbn [default]. split; [intros Ht; split; [done|by exists t]|].
      intros (_ & t' & E & Ht). by injection E as <-.
    + apply last_None in El. rewrite El in H3. simpl in H3. lia.
  - unfold time_zero. split; [lia|]. by intros [? _].
Qed.

Lemma circuit_open_iff_witness :
  0 ≤ 30 ∧
  isCircuitOpen 30 (foldl breaker_run breaker0 [Failed 10; Succeeded; Failed 11; Failed 12; Failed 13])
    = true.
Proof.
  split; [lia|]. apply (circuit_open_iff [Failed 10; Succeeded; Failed 11; Failed 12; Failed 13] 30).
  - lia.
  - split; [by_compute|]. exists 13. split; by_compute.
Defined.

(** * Dead letters *)

(** [base64.StdEncoding.EncodeToString]. *)
Definition b64std : string := "ABCDEFGHIJKLMNOPQRSTUVWXYZabcdefghijklmnopqrstuvwxyz0123456789+/".
Definition b64std_char (i : Z) : ascii := default "A"%char (to_bytes b64std !! Z.to_nat i).
Fixpoint StdEncode (b : bytes) : string :=
  match b with
  | [] => ""
  | [b0] =>
      let v := byte_to_Z b0 * 2 ^ 16 in
      String (b64std_char (Z.shiftr v 18)) (String (b64std_char (Z.land (Z.shiftr v 12) 63)) "==")
  | [b0; b1] =>
      let v := byte_to_Z b0 * 2 ^ 16 + byte_to_Z b1 * 2 ^ 8 in
      String (b64std_char (Z.shiftr v 18)) (String (b64std_char (Z.land (Z.shiftr v 12) 63))
        (String (b64std_char (Z.land (Z.shiftr v 6) 63)) "="))
  | b0 :: b1 :: b2 :: rest =>
      let v := byte_to_Z b0 * 2 ^ 16 + byte_to_Z b1 * 2 ^ 8 + byte_to_Z b2 in
      String (b64std_char (Z.shiftr v 18)) (String (b64std_char (Z.land (Z.shiftr v 12) 63))
        (String (b64std_char (Z.land (Z.shiftr v 6) 63)) (String (b64std_char (Z.land v 63))
          (StdEncode rest))))
  end.

(** The map marshalled by [publishDLQ]. *)
Record DlqEvent := {
  dlq_protocol : string;
  dlq_peer_id : string;
  dlq_reason : string;
  dlq_topic : string;
  dlq_payload : string;
  dlq_ts : Time
}.

#[export] Instance DlqEvent_eq_dec : EqDecision DlqEvent.
Proof. solve_decision. Defined.

Section dlq.
Context {C : Type} `{MqClient C} `{JsonCodec DlqEvent}.
Implicit Types (w : World C).

(** [publishDLQ] of either bridge. *)
Definition publishDLQ (now : Time) w (topics : TopicSet) (protocol peerId reason topic : string)
    (payload : bytes) : World C :=
  let event := {| dlq_protocol := protocol; dlq_peer_id := peerId; dlq_reason := reason;
                  dlq_topic := topic; dlq_payload := StdEncode payload; dlq_ts := now |} in
  match json_Marshal event with
  | Fail _ => w
  | Ok raw => set_mq w (mq_Publish (w_mq w) (DlqBridge topics) raw).1
  end.

(** A dead letter is at most one publication, on the dead-letter topic. *)
Lemma publishDLQ_sent `{!MqClientLaws C} now w topics protocol peerId reason topic payload :
  let w' := publishDLQ now w topics protocol peerId reason topic payload in
  mq_sent (w_mq w') = mq_sent (w_mq w) ∨
  ∃ raw, mq_sent (w_mq w') = mq_sent (w_mq w) ++ [(mq_wire (w_mq w) (DlqBridge topics), raw)].
Proof using All.
  unfold publishDLQ. destruct (json_Marshal _) as [raw|]; [|by left].
  destruct (mq_publish_sent (w_mq w) (DlqBridge topics) raw) as [E|E]; [by left|].
  right. by exists raw.
Qed.

(** * The MQTT bridge (mqtt_bridge.go) *)

Record MqttMapping := { map_Source : string; map_Target : string }.

Definition stripWildcard (pattern : string) : string :=
  let pattern := TrimSuffix pattern "#" in
  TrimSuffix pattern "+".

(** Where a mapping sends a topic. *)
Definition dest_topic (m : MqttMapping) (topic : string) : string :=
  Replace1 topic (stripWildcard (map_Source m)) (stripWildcard (map_Target m)).

(** The closure subscribed for a mapping. *)
Definition mqtt_forward (t_start t_end : Time) w (m : MqttMapping) (topic : string)
    (payload : bytes) : World C :=
  let destTopic := dest_topic m topic in
  match mq_Publish (w_mq w) destTopic payload with
  | (c, Some _) => observe (set_mq w c) (Inc BridgeRequestsTotal ["mq"; "async"; "error"])
  | (c, None) =>
      let w := observe (set_mq w c) (Inc BridgeRequestsTotal ["mq"; "async"; "ok"]) in
      observe w (Observe BridgeLatencyMs ["mq"; "async"] (Milliseconds (Sub t_end t_start)))
  end.

(** The loop of [Start], from the index of the first mapping left. *)
Fixpoint MqttBridge_Start_loop (c : C) (i : nat) (mappings : list MqttMapping)
    : C * option error :=
  match mappings with
  | [] => (c, None)
  | m :: rest =>
      match mq_Subscribe c (map_Source m) (hMqttForward i) with
      | (c, Some err) =>
          (c, Some (EText ("subscribe mapping[" +:+ Itoa (Z.of_nat i) +:+ "] " +:+
                           map_Source m +:+ ": " +:+ error_text err)))
      | (c, None) => MqttBridge_Start_loop c (S i) rest
      end
  end.

Definition MqttBridge_Start w (mappings : list MqttMapping) : World C * option error :=
  let '(c, err) := MqttBridge_Start_loop (w_mq w) 0 mappings in (set_mq w c, err).

End dlq.

(** A prefix that ends with a separator and no wildcard. *)
Lemma stripWildcard_hash p : p ≠ "" → TrimSuffix p "+" = p →
  stripWildcard (p +:+ "#") = p.
Proof. intros Hp Ht. unfold stripWildcard. by rewrite TrimSuffix_app. Qed.

Lemma dest_topic_prefix src dst rest :
  TrimSuffix src "+" = src → TrimSuffix dst "+" = dst → src ≠ "" → dst ≠ "" →
  dest_topic {| map_Source := src +:+ "#"; map_Target := dst +:+ "#" |} (src +:+ rest) =
  dst +:+ rest.
Proof.
  intros Hs Hd Hsn Hdn. unfold dest_topic. simpl.
  rewrite !stripWildcard_hash by done. apply Replace1_prefix.
Qed.

(** A mapping between two prefixes that end in a multi-level wildcard sends
    every topic under the source prefix to the same topic under the target prefix,
    so that different topics stay different and the reverse mapping undoes it. *)
Theorem mqtt_mapping_prefix src dst rest rest' :
  TrimSuffix src "+" = src → TrimSuffix dst "+" = dst → src ≠ "" → dst ≠ "" →
  let m := {| map_Source := src +:+ "#"; map_Target := dst +:+ "#" |} in
  let back := {| map_Source := dst +:+ "#"; map_Target := src +:+ "#" |} in
  dest_topic m (src +:+ rest) = dst +:+ rest ∧
  dest_topic back (dest_topic m (src +:+ rest)) = src +:+ rest ∧
  (dest_topic m (src +:+ rest) = dest_topic m (src +:+ rest') → rest = rest').
Proof.
  intros Hs Hd Hsn Hdn. cbv zeta. rewrite !dest_topic_prefix by done. split; [done|].
  split; [done|]. apply string_app_inj_l.
Qed.

Lemma mqtt_mapping_prefix_witness :
  TrimSuffix "dd/a/event/" "+" = "dd/a/event/" ∧
  dest_topic {| map_Source := "dd/a/event/" +:+ "#"; map_Target := "dd/b/event/" +:+ "#" |}
    ("dd/a/event/" +:+ "x/publish") = "dd/b/event/" +:+ "x/publish".
Proof.
  split; [by_compute|].
  apply (mqtt_mapping_prefix "dd/a/event/" "dd/b/event/" "x/publish" ""); by_compute.
Defined.
