(* ===== verification/HttpBridge.v ===== *)
(** The HTTP bridge (internal/adapter/http_bridge.go): forwarding of sync requests
    and events to an HTTP target, with retries and a circuit breaker.

    net/http is a parameter: whether a request can be built, and what each call of
    the client gives.  The sleeps between attempts are omitted. *)
From S2P Require Import Prelude GoStrings GoTime Errors Metrics TopicFilter Acl Topics.
From S2P Require Import Mq Model Message Codec Bridges DataService DataServiceProps.
From Stdlib Require Import Ascii.

Open Scope string_scope.
Open Scope list_scope.
Open Scope Z_scope.

Definition StatusBadRequest : Z := 400.
Definition StatusBadGateway : Z := 502.
Definition StatusServiceUnavailable : Z := 503.

(** What the bridge hands to the client: the headers in the order they are set. *)
Record http_request := {
  hreq_method : string;
  hreq_url : string;
  hreq_headers : list (string * string);
  hreq_body : bytes
}.

(** What a call gives: an error, or a status and a body that can be read or not. *)
Inductive http_outcome :=
| DoError (err : error)
| DoResponse (status : Z) (body : result bytes).

Record HttpBridge := {
  hbr_topics : TopicSet;
  hbr_peerId : string;
  hbr_targetUrl : string;
  hbr_retries : nat;
  hbr_cb : breaker
}.

Definition NewHttpBridge (topics : TopicSet) (peerId targetUrl : string) : HttpBridge :=
  {| hbr_topics := topics; hbr_peerId := peerId; hbr_targetUrl := targetUrl;
     hbr_retries := 2; hbr_cb := breaker0 |}.

Definition set_http_cb (b : HttpBridge) (cb : breaker) : HttpBridge :=
  {| hbr_topics := hbr_topics b; hbr_peerId := hbr_peerId b; hbr_targetUrl := hbr_targetUrl b;
     hbr_retries := hbr_retries b; hbr_cb := cb |}.

(** [fields[k]] of a Go map: the empty string when there is none. *)
Definition field (fields : gmap string string) (k : string) : string :=
  default "" (fields !! k).

(** A body of the form [{"error":"..."}]. *)
Definition error_body (name : string) : bytes :=
  to_bytes (json_text ("{'error':'" +:+ name +:+ "'}")).

Section http.
Context {C : Type} `{MqClient C} `{JsonCodec DdMessage} `{Gzip} `{JsonCodec DlqEvent}.
(** The clock at each attempt, [http.NewRequest], and the client at each attempt. *)
Context (clk : nat → Time) (NewRequest : string → string → option error)
  (Do : nat → http_request → http_outcome).
Implicit Types (w : World C) (b : HttpBridge).

Definition HttpBridge_Start w b : World C * option error :=
  let requestTopic := TransferRequest (hbr_topics b) (hbr_peerId b) in
  match mq_Subscribe (w_mq w) requestTopic hHttpSyncRequest with
  | (c, Some err) =>
      (set_mq w c, Some (EText ("subscribe request topic " +:+ requestTopic +:+ ": "
                                +:+ error_text err)))
  | (c, None) =>
      let eventTopic := EventPublish (hbr_topics b) (hbr_peerId b) in
      match mq_Subscribe c eventTopic hHttpAsyncEvent with
      | (c, Some err) =>
          (set_mq w c, Some (EText ("subscribe event topic " +:+ eventTopic +:+ ": "
                                    +:+ error_text err)))
      | (c, None) => (set_mq w c, None)
      end
  end.

(** The request of an attempt: the content type first, then the other fields in
    iteration order. *)
Definition http_headers (ρ : ranger) (fields : gmap string string) : list (string * string) :=
  (if decide (field fields "content-type" ≠ "")
   then [("Content-Type", field fields "content-type")] else []) ++
  filter (λ kv, kv.1 ≠ "method" ∧ kv.1 ≠ "path" ∧ kv.1 ≠ "content-type") (range ρ fields).

(** The attempts left, and the number of the next one. *)
Fixpoint doHttp_loop (ρ : ranger) (left attempt : nat) w (retries : nat) (cb : breaker)
    (method url : string) (fields : gmap string string) (payload : bytes)
    : World C * breaker * (bytes * Z) :=
  match left with
  | O => (w, cb, (error_body "http_retry_exhausted", StatusBadGateway))
  | S left' =>
      match NewRequest method url with
      | Some _ => (w, cb, (error_body "build_request_failed", StatusBadRequest))
      | None =>
          let req := {| hreq_method := method; hreq_url := url;
                        hreq_headers := http_headers ρ fields; hreq_body := payload |} in
          let retry cb := doHttp_loop ρ left' (S attempt)
            (observe w (Inc BridgeRetriesTotal ["http"])) retries cb method url fields payload in
          match Do attempt req with
          | DoError _ =>
              let cb := markFailure (clk attempt) cb in
              if decide (attempt < retries)%nat then retry cb
              else (w, cb, (error_body "http_call_failed", StatusBadGateway))
          | DoResponse _ (Fail _) =>
              let cb := markFailure (clk attempt) cb in
              if decide (attempt < retries)%nat then retry cb
              else (w, cb, (error_body "read_response_failed", StatusBadGateway))
          | DoResponse status (Ok body) =>
              if decide (status >= 500 ∧ (attempt < retries)%nat)
              then retry (markFailure (clk attempt) cb)
              else
                let cb := if decide (status >= 500) then markFailure (clk attempt) cb
                          else markSuccess cb in
                (w, cb, (body, status))
          end
      end
  end.

(** [now] is read by the circuit breaker; [ProtocolFields] normalises the message,
    which the caller has done already. *)
Definition doHttp (ρ : ranger) (now : Time) w b (msg : DdMessage)
    : World C * HttpBridge * DdMessage * (bytes * Z) :=
  if isCircuitOpen now (hbr_cb b)
  then (w, b, msg, (error_body "http_circuit_open", StatusServiceUnavailable))
  else
    let '(msg, fields) := ProtocolFields msg in
    let method := if decide (field fields "method" = "") then "GET" else field fields "method" in
    let path := if decide (field fields "path" = "") then "/" else field fields "path" in
    let url := hbr_targetUrl b +:+ path in
    let '(w, cb, r) := doHttp_loop ρ (hbr_retries b) 1 w (hbr_retries b) (hbr_cb b) method url
                         fields (msg_Payload msg) in
    (w, set_http_cb b cb, msg, r).

(** The response to a sync request. *)
Definition http_response (now : Time) b (msg : DdMessage) (body : bytes) (status : Z)
    : DdMessage := {|
  msg_Version := ""; msg_Mode := DdTransferModeSync; msg_Protocol := DdProtocolHttp;
  msg_Resource := msg_Resource msg;
  msg_Header := {|
    h_RequestId := "resp-" +:+ h_RequestId (msg_Header msg);
    h_CorrelationId := h_RequestId (msg_Header msg); h_ReplyTo := ""; h_TimeoutMs := 0;
    h_SourcePeerId := hbr_peerId b; h_TargetPeerId := h_SourcePeerId (msg_Header msg);
    h_Tenant := ""; h_TraceId := h_TraceId (msg_Header msg); h_IdempotencyKey := "" |};
  msg_Meta := zero_header;
  msg_Headers := {[ "http-status" := Itoa status ]};
  msg_ProtocolMeta := ∅; msg_Payload := body; msg_CreatedAt := now |}.

Definition with_default_timeout (msg : DdMessage) : DdMessage :=
  if decide (h_TimeoutMs (msg_Header msg) ≤ 0)
  then set_Header msg (set_TimeoutMs (msg_Header msg) 5000) else msg.

(** A sync request as the bridge takes it: normalised, in sync mode, with a timeout. *)
Definition http_accepted (msg : DdMessage) : DdMessage :=
  with_default_timeout (set_Mode (Normalize msg) DdTransferModeSync).

Definition reply_topic b (msg : DdMessage) : string :=
  if decide (h_ReplyTo (msg_Header msg) = "")
  then TransferResponse (hbr_topics b) (h_SourcePeerId (msg_Header msg))
  else h_ReplyTo (msg_Header msg).

Definition Http_handleSyncRequest (ρ : ranger) (start now : Time) w b (topic : string)
    (payload : bytes) : World C * HttpBridge :=
  let dlq w reason topic payload :=
    publishDLQ now w (hbr_topics b) "http" (hbr_peerId b) reason topic payload in
  match DecodeDdMessage payload with
  | Fail _ =>
      let w := observe w (Inc BridgeRequestsTotal ["http"; "sync"; "invalid"]) in
      (dlq w "sync_unmarshal_failed" topic payload, b)
  | Ok msg =>
      let '(msg, invalid) := Validate_msg ρ (http_accepted msg) in
      match invalid with
      | Some _ =>
          let w := observe w (Inc BridgeRequestsTotal ["http"; "sync"; "invalid"]) in
          (dlq w "sync_validate_failed" topic payload, b)
      | None =>
          let '(w, b, msg, (respBody, statusCode)) := doHttp ρ now w b msg in
          let elapsed := Milliseconds (Sub now start) in
          let w := observe w (Observe BridgeLatencyMs ["http"; "sync"] elapsed) in
          let w := observe w (Inc BridgeRequestsTotal
            ["http"; "sync"; if decide (statusCode >= 500) then "error" else "ok"]) in
          let replyTopic := reply_topic b msg in
          let resp := Normalize (http_response now b msg respBody statusCode) in
          let '(resp, raw) :=
            EncodeDdMessage resp (bool_decide (128 ≤ length (msg_Payload resp))%nat) in
          match raw with
          | Fail _ => (w, b)
          | Ok raw =>
              match mq_Publish (w_mq w) replyTopic raw with
              | (c, None) => (set_mq w c, b)
              | (c, Some _) =>
                  let w := observe (set_mq w c)
                    (Inc BridgeRequestsTotal ["http"; "sync"; "publish_error"]) in
                  (publishDLQ now w (hbr_topics b) "http" (hbr_peerId b)
                     "sync_reply_publish_failed" replyTopic raw, b)
              end
          end
      end
  end.

Definition Http_handleAsyncEvent (ρ : ranger) (start now : Time) w b (topic : string)
    (payload : bytes) : World C * HttpBridge :=
  let dlq w reason := publishDLQ now w (hbr_topics b) "http" (hbr_peerId b) reason topic payload in
  match DecodeDdMessage payload with
  | Fail _ =>
      let w := observe w (Inc BridgeRequestsTotal ["http"; "async"; "invalid"]) in
      (dlq w "async_unmarshal_failed", b)
  | Ok msg =>
      let msg := set_Mode (Normalize msg) DdTransferModeAsync in
      let '(msg, invalid) := Validate_msg ρ msg in
      match invalid with
      | Some _ =>
          let w := observe w (Inc BridgeRequestsTotal ["http"; "async"; "invalid"]) in
          (dlq w "async_validate_failed", b)
      | None =>
          let '(w, b, _, (_, status)) := doHttp ρ now w b msg in
          let elapsed := Milliseconds (Sub now start) in
          let w := observe w (Observe BridgeLatencyMs ["http"; "async"] elapsed) in
          (observe w (Inc BridgeRequestsTotal
             ["http"; "async"; if decide (status >= 500) then "error" else "ok"]), b)
      end
  end.

(** * The attempts *)

(** What an attempt gives when it is the last: a body and a status. *)
Definition http_final (o : http_outcome) : bytes * Z :=
  match o with
  | DoError _ => (error_body "http_call_failed", StatusBadGateway)
  | DoResponse _ (Fail _) => (error_body "read_response_failed", StatusBadGateway)
  | DoResponse status (Ok body) => (body, status)
  end.

(** Whether an attempt has answered: another one is made otherwise. *)
Definition http_answered (o : http_outcome) : bool :=
  match o with DoResponse status (Ok _) => bool_decide (status < 500) | _ => false end.

Lemma doHttp_loop_mq ρ left attempt w retries cb method url fields payload :
  w_mq (doHttp_loop ρ left attempt w retries cb method url fields payload).1.1 = w_mq w.
Proof using Type.
  revert attempt w cb. induction left as [|left IH]; intros attempt w cb; simpl; [done|].
  destruct (NewRequest method url); [done|].
  destruct (Do _ _) as [e|status [body|e]]; repeat case_decide; rewrite ?IH; done.
Qed.

(** What an attempt does to the circuit breaker. *)
Definition http_event (attempt : nat) (o : http_outcome) : breaker_event :=
  if http_answered o then Succeeded else Failed (clk attempt).

(** With two retries: at most two attempts, the second only when the first has not
    answered; the branch after the loop is never reached. *)
Lemma doHttp_two ρ w cb method url fields payload :
  NewRequest method url = None →
  let req := {| hreq_method := method; hreq_url := url; hreq_headers := http_headers ρ fields;
                hreq_body := payload |} in
  doHttp_loop ρ 2 1 w 2 cb method url fields payload =
  if http_answered (Do 1 req) then (w, markSuccess cb, http_final (Do 1 req))
  else (observe w (Inc BridgeRetriesTotal ["http"]),
        breaker_run (markFailure (clk 1) cb) (http_event 2 (Do 2 req)), http_final (Do 2 req)).
Proof using Type.
  intros Hn req. unfold http_event, http_answered, http_final. simpl. rewrite Hn. fold req.
  destruct (Do 1 req) as [e|status [body|e]], (Do 2 req) as [e2|st2 [b2|e2]];
    repeat (case_bool_decide || case_decide); simpl; done || lia.
Qed.

Lemma doHttp_spec ρ now w b msg w' b' msg' r :
  doHttp ρ now w b msg = (w', b', msg', r) →
  w_mq w' = w_mq w ∧ hbr_topics b' = hbr_topics b ∧ hbr_peerId b' = hbr_peerId b ∧
  (Normalize msg = msg → msg' = msg).
Proof using Type.
  unfold doHttp. destruct (isCircuitOpen now (hbr_cb b)).
  { intros E. apply pair4_inj in E as (<- & <- & <- & _). done. }
  pose proof (ProtocolFields_msg msg) as Hm.
  destruct (ProtocolFields msg) as [m fields]; simpl in Hm. subst m.
  match goal with |- context [doHttp_loop ρ ?a ?b ?c ?d ?e ?f ?g ?h ?i] =>
    pose proof (doHttp_loop_mq ρ a b c d e f g h i) as Hw;
    destruct (doHttp_loop ρ a b c d e f g h i) as [[w1 cb] r1] end.
  simpl in Hw. intros E. apply pair4_inj in E as (<- & <- & <- & _). done.
Qed.

(** C34: a call through the bridge, with its two retries.  An open circuit gives 503 and
    makes no attempt; a request that cannot be built gives 400 and counts neither way.
    Otherwise an attempt answered with a status below 500 is the only one and closes the
    circuit; any other counts as a failure at its time, raises the retry counter once and
    is followed by exactly one more, which counts by its own outcome.  The caller gets the
    last attempt's status and body, or the error in its place, never the branch behind the
    loop.  Nothing else of the node changes. *)
Theorem doHttp_attempts ρ now w topics peerId url cb msg :
  let b := set_http_cb (NewHttpBridge topics peerId url) cb in
  let fields := (ProtocolFields msg).2 in
  let method := if decide (field fields "method" = "") then "GET" else field fields "method" in
  let path := if decide (field fields "path" = "") then "/" else field fields "path" in
  let req := {| hreq_method := method; hreq_url := url +:+ path;
                hreq_headers := http_headers ρ fields; hreq_body := msg_Payload msg |} in
  let after events := set_http_cb b (foldl breaker_run cb events) in
  doHttp ρ now w b msg =
  if isCircuitOpen now cb then (w, b, msg, (error_body "http_circuit_open", 503))
  else match NewRequest method (url +:+ path) with
       | Some _ => (w, b, Normalize msg, (error_body "build_request_failed", 400))
       | None =>
           if http_answered (Do 1 req)
           then (w, after [Succeeded], Normalize msg, http_final (Do 1 req))
           else (observe w (Inc BridgeRetriesTotal ["http"]),
                 after [Failed (clk 1); if http_answered (Do 2 req) then Succeeded
                                        else Failed (clk 2)],
                 Normalize msg, http_final (Do 2 req))
       end.
Proof using Type.
  cbv zeta. unfold doHttp. cbn [hbr_cb set_http_cb].
  destruct (isCircuitOpen now cb); [done|].
  pose proof (ProtocolFields_msg msg) as Hm.
  destruct (ProtocolFields msg) as [m fields]; cbn [fst snd] in *. subst m.
  rewrite Normalize_Payload. cbn [hbr_retries hbr_targetUrl set_http_cb NewHttpBridge].
  destruct (NewRequest _ _) as [e|] eqn:Hn.
  { cbn [doHttp_loop]. rewrite Hn. reflexivity. }
  rewrite (doHttp_two _ _ _ _ _ _ _ Hn). unfold http_event. cbv zeta.
  destruct (http_answered (Do 1 _)); [done|]. cbn [foldl breaker_run].
  by destruct (http_answered _).
Qed.

(** * Replies *)

Lemma http_response_id now b msg body status :
  h_RequestId (msg_Header msg) ≠ "" →
  response_id (Normalize (http_response now b msg body status)) = h_RequestId (msg_Header msg).
Proof using Type.
  intros Hid. unfold response_id.
  assert (msg_Header (Normalize (http_response now b msg body status)) =
    msg_Header (http_response now b msg body status)) as ->.
  { apply Normalize_RequestId. done. }
  simpl. by rewrite decide_False.
Qed.

Lemma http_accepted_Mode msg : msg_Mode (http_accepted msg) = DdTransferModeSync.
Proof using Type. unfold http_accepted, with_default_timeout. by case_decide. Qed.

Lemma http_accepted_id msg :
  envelope_ok (Normalize (http_accepted msg)) →
  h_RequestId (msg_Header (Normalize (http_accepted msg))) ≠ "".
Proof using Type.
  intros Hok. apply (ok_sync _ Hok). by rewrite Normalize_Mode, http_accepted_Mode.
Qed.

(** The reply of the bridge to an accepted request, from what the target gave. *)
Definition http_reply (now : Time) b (n : DdMessage) (r : bytes * Z) : DdMessage :=
  Normalize (http_response now b n r.1 r.2).

Lemma Http_handleSyncRequest_reply ρ start now w b topic payload msg n raw c' :
  DecodeDdMessage payload = Ok msg →
  n = Normalize (http_accepted msg) → envelope_ok n →
  let resp := http_reply now b n (doHttp ρ now w b n).2 in
  (EncodeDdMessage resp (bool_decide (128 ≤ length (msg_Payload resp))%nat)).2 = Ok raw →
  mq_Publish (w_mq w) (reply_topic b n) raw = (c', None) →
  w_mq (Http_handleSyncRequest ρ start now w b topic payload).1 = c'.
Proof using Type.
  intros Hd Hn Hok resp Hraw Hpub. unfold Http_handleSyncRequest. rewrite Hd.
  pose proof (Validate_msg_normalizes ρ (http_accepted msg)) as Hv.
  pose proof (Validate_msg_None ρ (http_accepted msg)) as Hi.
  rewrite <- Hn in Hv, Hi. apply Hi in Hok.
  destruct (Validate_msg ρ (http_accepted msg)) as [n' inv].
  cbn [fst snd] in Hv, Hok. subst n' inv. clear Hi Hd.
  assert (Normalize n = n) as Hnn by (subst n; apply Normalize_idemp). clear Hn.
  revert resp Hraw.
  destruct (doHttp ρ now w b n) as [[[w1 b1] n1] [body status]] eqn:Edo.
  apply doHttp_spec in Edo as (Hw1 & Ht1 & Hp1 & Hn1). rewrite (Hn1 Hnn). clear Hn1 Hnn.
  assert (reply_topic b1 n = reply_topic b n) as -> by (unfold reply_topic; by rewrite Ht1).
  unfold http_reply. cbn [fst snd].
  assert (http_response now b1 n body status = http_response now b n body status) as ->
    by (unfold http_response; by rewrite Hp1).
  generalize (Normalize (http_response now b n body status)) as resp. intros resp Hraw.
  destruct (EncodeDdMessage resp _) as [m2 r2]. cbn [snd] in Hraw. subst r2.
  rewrite !observe_mq, Hw1, Hpub. done.
Qed.

End http.

(** * The properties at a concrete bridge *)

#[local] Existing Instance mock_client.

(** A target that fails once and then answers. *)
Definition flaky_target (attempt : nat) (_ : http_request) : http_outcome :=
  if decide (attempt = 1%nat) then DoError (EText "EOF")
  else DoResponse 201 (Ok (to_bytes "created")).

Example doHttp_flaky :
  let '(w, b, _, r) :=
    doHttp (λ _, 7) (λ _ _, None) flaky_target ranger_std 0 node_world
      (NewHttpBridge (NewDefaultTopicSet "default") "edge-1" "http://t") request_sample in
  r = (to_bytes "created", 201) ∧ hbr_cb b = breaker0 ∧
  w = observe node_world (Inc BridgeRetriesTotal ["http"]).
Proof. vm_compute. split_and!; reflexivity. Qed.
