(* ===== verification/CoapBridge.v ===== *)
(** The CoAP bridge (internal/adapter/coap_bridge.go): the bounded task queue with
    its workers and its shutdown, and the handlers that forward sync requests and
    events to a CoAP server over UDP.

    net is a parameter: whether the address resolves, and how each attempt to dial,
    write and read ends.  The sleeps between attempts are omitted. *)
From S2P Require Import Prelude GoStrings GoTime Errors Metrics TopicFilter Acl Topics.
From S2P Require Import Mq Model Message Codec DataService DataServiceProps Coap.
From S2P Require Import Bridges.
From Stdlib Require Import Ascii.

Open Scope string_scope.
Open Scope list_scope.
Open Scope Z_scope.

Record coapTask := { task_topic : string; task_payload : bytes; task_isSync : bool }.

#[export] Instance coapTask_eq_dec : EqDecision coapTask.
Proof. solve_decision. Defined.

(** [cbr_MsgIDCounter] is the package's [coapMsgIDCounter], a uint32. *)
Record CoapBridge := {
  cbr_topics : TopicSet;
  cbr_peerId : string;
  cbr_targetUrl : string;
  cbr_retries : nat;
  cbr_workerCount : nat;
  cbr_queueSize : nat;
  cbr_cb : breaker;
  cbr_MsgIDCounter : Z
}.

Definition maxCoapPayloadBytes : Z := 1024.

Definition NewCoapBridge (topics : TopicSet) (peerId targetUrl : string) (counter : Z)
    : CoapBridge :=
  {| cbr_topics := topics; cbr_peerId := peerId; cbr_targetUrl := targetUrl;
     cbr_retries := 2; cbr_workerCount := 8; cbr_queueSize := 256;
     cbr_cb := breaker0; cbr_MsgIDCounter := counter |}.

Definition set_coap (b : CoapBridge) (cb : breaker) (counter : Z) : CoapBridge :=
  {| cbr_topics := cbr_topics b; cbr_peerId := cbr_peerId b; cbr_targetUrl := cbr_targetUrl b;
     cbr_retries := cbr_retries b; cbr_workerCount := cbr_workerCount b;
     cbr_queueSize := cbr_queueSize b; cbr_cb := cb; cbr_MsgIDCounter := counter |}.

Definition uint32_add (c d : Z) : Z := (c + d) mod 2 ^ 32.

(** How an attempt ends: each call can fail; [ReadClosed] is net.ErrClosed. *)
Inductive udp_outcome :=
| DialError | DeadlineError | WriteError | ReadClosed | ReadError
| Received (data : bytes).

Definition coap_error (name : string) : bytes :=
  to_bytes (json_text ("{'error':'" +:+ name +:+ "'}")).

Definition isCoapFailureResponse (resp : bytes) : bool :=
  bool_decide (resp ∈ coap_error <$>
    ["coap_dial_failed"; "coap_write_failed"; "coap_read_failed"; "coap_retry_exhausted";
     "coap_payload_too_large"; "coap_circuit_open"; "coap_conn_closed"]).

Section coap.
Context {C : Type} `{MqClient C} `{JsonCodec DdMessage} `{Gzip} `{JsonCodec DlqEvent}.
(** The clock at each attempt, [net.ResolveUDPAddr], and the socket at each attempt:
    it gets the address, the timeout and the packet. *)
Context (clk : nat → Time) (ResolveUDPAddr : string → option error)
  (Udp : nat → string → Duration → bytes → udp_outcome).
Implicit Types (w : World C) (b : CoapBridge).

Definition CoapBridge_Start w b : World C * option error :=
  let requestTopic := TransferRequest (cbr_topics b) (cbr_peerId b) in
  match mq_Subscribe (w_mq w) requestTopic hCoapSyncRequest with
  | (c, Some err) =>
      (set_mq w c, Some (EText ("subscribe request topic " +:+ requestTopic +:+ ": "
                                +:+ error_text err)))
  | (c, None) =>
      let eventTopic := EventPublish (cbr_topics b) (cbr_peerId b) in
      match mq_Subscribe c eventTopic hCoapAsyncEvent with
      | (c, Some err) =>
          (set_mq w c, Some (EText ("subscribe event topic " +:+ eventTopic +:+ ": "
                                    +:+ error_text err)))
      | (c, None) => (set_mq w c, None)
      end
  end.

(** The attempts left, and the number of the next one.  A nil payload is the empty
    one. *)
Fixpoint doCoap_loop (left attempt : nat) w (retries : nat) (cb : breaker) (addr : string)
    (timeout : Duration) (reqPkt : bytes) : go (World C * breaker * bytes) :=
  match left with
  | O => Ret (w, markFailure (clk attempt) cb, coap_error "coap_retry_exhausted")
  | S left' =>
      let failed name :=
        let cb := markFailure (clk attempt) cb in
        if decide (attempt < retries)%nat
        then doCoap_loop left' (S attempt) (observe w (Inc BridgeRetriesTotal ["coap"]))
               retries cb addr timeout reqPkt
        else Ret (w, cb, coap_error name) in
      match Udp attempt addr timeout reqPkt with
      | DialError => failed "coap_dial_failed"
      | DeadlineError => Ret (w, cb, coap_error "coap_deadline_failed")
      | WriteError => failed "coap_write_failed"
      | ReadClosed => Ret (w, cb, coap_error "coap_conn_closed")
      | ReadError => failed "coap_read_failed"
      | Received data =>
          (let? payload := parseCoapPayload data in
           Ret (w, markSuccess cb, default [] payload))%go
      end
  end.

Definition doCoap (now : Time) w b (msg : DdMessage)
    : go (World C * CoapBridge * DdMessage * bytes) :=
  if isCircuitOpen now (cbr_cb b) then Ret (w, b, msg, coap_error "coap_circuit_open")
  else if decide (blen (msg_Payload msg) > maxCoapPayloadBytes)
  then Ret (w, b, msg, coap_error "coap_payload_too_large")
  else
    let '(msg, fields) := ProtocolFields msg in
    let method := if decide (default "" (fields !! "method") = "") then "GET"
                  else default "" (fields !! "method") in
    let path := if decide (default "" (fields !! "path") = "") then "/"
                else default "" (fields !! "path") in
    let counter := uint32_add (cbr_MsgIDCounter b) 1 in
    let reqPkt := buildCoapRequest counter method path (msg_Payload msg) in
    match ResolveUDPAddr (cbr_targetUrl b) with
    | Some _ => Ret (w, set_coap b (cbr_cb b) counter, msg, coap_error "coap_resolve_failed")
    | None =>
        let timeout := if decide (h_TimeoutMs (msg_Header msg) > 0)
                       then wrap64 (h_TimeoutMs (msg_Header msg) * Millisecond)
                       else 5 * Second in
        (let? (w, cb, r) := doCoap_loop (cbr_retries b) 1 w (cbr_retries b) (cbr_cb b)
                              (cbr_targetUrl b) timeout reqPkt in
         Ret (w, set_coap b cb counter, msg, r))%go
    end.

(** The response to a sync request. *)
Definition coap_response (now : Time) b (msg : DdMessage) (body : bytes) : DdMessage := {|
  msg_Version := ""; msg_Mode := DdTransferModeSync; msg_Protocol := DdProtocolCoap;
  msg_Resource := msg_Resource msg;
  msg_Header := {|
    h_RequestId := "resp-" +:+ h_RequestId (msg_Header msg);
    h_CorrelationId := h_RequestId (msg_Header msg); h_ReplyTo := ""; h_TimeoutMs := 0;
    h_SourcePeerId := cbr_peerId b; h_TargetPeerId := h_SourcePeerId (msg_Header msg);
    h_Tenant := ""; h_TraceId := h_TraceId (msg_Header msg); h_IdempotencyKey := "" |};
  msg_Meta := zero_header;
  msg_Headers := ∅;
  msg_ProtocolMeta := ∅; msg_Payload := body; msg_CreatedAt := now |}.

Definition coap_default_timeout (msg : DdMessage) : DdMessage :=
  if decide (h_TimeoutMs (msg_Header msg) ≤ 0)
  then set_Header msg (set_TimeoutMs (msg_Header msg) 5000) else msg.

Definition Coap_handleSyncRequest (ρ : ranger) (start now : Time) w b (topic : string)
    (payload : bytes) : go (World C * CoapBridge) :=
  let dlq w reason topic payload :=
    publishDLQ now w (cbr_topics b) "coap" (cbr_peerId b) reason topic payload in
  match DecodeDdMessage payload with
  | Fail _ =>
      let w := observe w (Inc BridgeRequestsTotal ["coap"; "sync"; "invalid"]) in
      Ret (dlq w "sync_unmarshal_failed" topic payload, b)
  | Ok msg =>
      let msg := set_Mode (Normalize msg) DdTransferModeSync in
      let msg := coap_default_timeout msg in
      let '(msg, invalid) := Validate_msg ρ msg in
      match invalid with
      | Some _ =>
          let w := observe w (Inc BridgeRequestsTotal ["coap"; "sync"; "invalid"]) in
          Ret (dlq w "sync_validate_failed" topic payload, b)
      | None =>
          if decide (msg_Protocol msg ≠ DdProtocolCoap) then Ret (w, b)
          else
            (let? (w, b, msg, respBody) := doCoap now w b msg in
             let elapsed := Milliseconds (Sub now start) in
             let w := observe w (Observe BridgeLatencyMs ["coap"; "sync"] elapsed) in
             let w := observe w (Inc BridgeRequestsTotal
               ["coap"; "sync"; if isCoapFailureResponse respBody then "error" else "ok"]) in
             let replyTopic :=
               if decide (h_ReplyTo (msg_Header msg) = "")
               then TransferResponse (cbr_topics b) (h_SourcePeerId (msg_Header msg))
               else h_ReplyTo (msg_Header msg) in
             let resp := Normalize (coap_response now b msg respBody) in
             let '(resp, raw) :=
               EncodeDdMessage resp (bool_decide (128 ≤ length (msg_Payload resp))%nat) in
             match raw with
             | Fail _ => Ret (w, b)
             | Ok raw =>
                 match mq_Publish (w_mq w) replyTopic raw with
                 | (c, None) => Ret (set_mq w c, b)
                 | (c, Some _) =>
                     let w := observe (set_mq w c)
                       (Inc BridgeRequestsTotal ["coap"; "sync"; "publish_error"]) in
                     Ret (dlq w "sync_reply_publish_failed" replyTopic raw, b)
                 end
             end)%go
      end
  end.

Definition Coap_handleAsyncEvent (ρ : ranger) (start now : Time) w b (topic : string)
    (payload : bytes) : go (World C * CoapBridge) :=
  let dlq w reason := publishDLQ now w (cbr_topics b) "coap" (cbr_peerId b) reason topic payload in
  match DecodeDdMessage payload with
  | Fail _ =>
      let w := observe w (Inc BridgeRequestsTotal ["coap"; "async"; "invalid"]) in
      Ret (dlq w "async_unmarshal_failed", b)
  | Ok msg =>
      let msg := set_Mode (Normalize msg) DdTransferModeAsync in
      let '(msg, invalid) := Validate_msg ρ msg in
      match invalid with
      | Some _ =>
          let w := observe w (Inc BridgeRequestsTotal ["coap"; "async"; "invalid"]) in
          Ret (dlq w "async_validate_failed", b)
      | None =>
          if decide (msg_Protocol msg ≠ DdProtocolCoap) then Ret (w, b)
          else
            (let? (w, b, _, respBody) := doCoap now w b msg in
             let elapsed := Milliseconds (Sub now start) in
             let w := observe w (Observe BridgeLatencyMs ["coap"; "async"] elapsed) in
             Ret (observe w (Inc BridgeRequestsTotal
               ["coap"; "async"; if isCoapFailureResponse respBody then "error" else "ok"]), b))%go
      end
  end.

(** A worker's turn of its loop on one task. *)
Definition worker_task (ρ : ranger) (start now : Time) w b (task : coapTask)
    : go (World C * CoapBridge) :=
  if task_isSync task
  then Coap_handleSyncRequest ρ start now w b (task_topic task) (task_payload task)
  else Coap_handleAsyncEvent ρ start now w b (task_topic task) (task_payload task).

(** * The task queue *)

(** The channels [reqCh] and [stopCh]. *)
Record coap_queue := {
  q_reqCh : list coapTask;
  q_reqClosed : bool;
  q_stopClosed : bool
}.

Definition coap_queue0 : coap_queue :=
  {| q_reqCh := []; q_reqClosed := false; q_stopClosed := false |}.

(** The two selects of [enqueueTask]: whether the first one lets the task on, and
    what the second one does.  Another goroutine can run between them.  Sending on a
    closed channel panics, in a select with a default as well. *)
Definition enqueue_enter (q : coap_queue) : bool := negb (q_stopClosed q).

Definition enqueue_send (now : Time) w b (q : coap_queue) (task : coapTask)
    : go (World C * coap_queue) :=
  if q_reqClosed q then Panic "send on closed channel"
  else if decide (length (q_reqCh q) < cbr_queueSize b)%nat
  then Ret (w, {| q_reqCh := q_reqCh q ++ [task]; q_reqClosed := q_reqClosed q;
                  q_stopClosed := q_stopClosed q |})
  else
    let reason := if task_isSync task then "sync_queue_full" else "async_queue_full" in
    let mode := if task_isSync task then "sync" else "async" in
    let w := observe w (Inc BridgeRequestsTotal ["coap"; mode; "queue_full"]) in
    Ret (publishDLQ now w (cbr_topics b) "coap" (cbr_peerId b) reason
           (task_topic task) (task_payload task), q).

(** The two closes of [Stop]. *)
Definition stop_close_stopCh (q : coap_queue) : coap_queue :=
  {| q_reqCh := q_reqCh q; q_reqClosed := q_reqClosed q; q_stopClosed := true |}.
Definition stop_close_reqCh (q : coap_queue) : coap_queue :=
  {| q_reqCh := q_reqCh q; q_reqClosed := true; q_stopClosed := q_stopClosed q |}.

(** The bridge at run time: the calls of [enqueueTask] by what they have come to, of
    which those past the second select are kept in the order in which they got there,
    whatever it did with their tasks; and the tasks that the workers have taken, with
    those they are handling and those they have handled. *)
Record coap_state := {
  cs_world : World C;
  cs_bridge : CoapBridge;
  cs_queue : coap_queue;
  cs_entering : list coapTask;
  cs_sent : list coapTask;
  cs_ignored : list coapTask;
  cs_panicked : list coapTask;
  cs_taken : list coapTask;
  cs_running : list coapTask;
  cs_done : list coapTask
}.

Definition coap_init w b : coap_state :=
  {| cs_world := w; cs_bridge := b; cs_queue := coap_queue0; cs_entering := []; cs_sent := [];
     cs_ignored := []; cs_panicked := []; cs_taken := []; cs_running := []; cs_done := [] |}.

Definition with_bridge (σ : coap_state) w b q : coap_state :=
  {| cs_world := w; cs_bridge := b; cs_queue := q; cs_entering := cs_entering σ;
     cs_sent := cs_sent σ; cs_ignored := cs_ignored σ; cs_panicked := cs_panicked σ;
     cs_taken := cs_taken σ; cs_running := cs_running σ; cs_done := cs_done σ |}.
Definition with_calls (σ : coap_state) entering sent ignored panicked : coap_state :=
  {| cs_world := cs_world σ; cs_bridge := cs_bridge σ; cs_queue := cs_queue σ;
     cs_entering := entering; cs_sent := sent; cs_ignored := ignored; cs_panicked := panicked;
     cs_taken := cs_taken σ; cs_running := cs_running σ; cs_done := cs_done σ |}.
Definition with_work (σ : coap_state) taken running done : coap_state :=
  {| cs_world := cs_world σ; cs_bridge := cs_bridge σ; cs_queue := cs_queue σ;
     cs_entering := cs_entering σ; cs_sent := cs_sent σ; cs_ignored := cs_ignored σ;
     cs_panicked := cs_panicked σ; cs_taken := taken; cs_running := running; cs_done := done |}.

(** What [range b.reqCh] leaves in the channel; it goes on after the close. *)
Definition reqCh_rest (q : coap_queue) (rest : list coapTask) : coap_queue :=
  {| q_reqCh := rest; q_reqClosed := q_reqClosed q; q_stopClosed := q_stopClosed q |}.

(** [st_ignore], [st_enter]: a message handler calls [enqueueTask] and comes to the
    result of the first select.  [st_send], [st_panic]: the second one, whatever it does.
    [st_take], [st_finish]: a worker that is free takes a task, and has handled it; the
    handling is one step, at its end.  [st_stop1], [st_stop2]: the closes of [Stop]. *)
Inductive coap_step (ρ : ranger) : coap_state → coap_state → Prop :=
| st_ignore σ t :
    enqueue_enter (cs_queue σ) = false →
    coap_step ρ σ
      (with_calls σ (cs_entering σ) (cs_sent σ) (cs_ignored σ ++ [t]) (cs_panicked σ))
| st_enter σ t :
    enqueue_enter (cs_queue σ) = true →
    coap_step ρ σ
      (with_calls σ (cs_entering σ ++ [t]) (cs_sent σ) (cs_ignored σ) (cs_panicked σ))
| st_send σ now l1 t l2 w q :
    cs_entering σ = l1 ++ t :: l2 →
    enqueue_send now (cs_world σ) (cs_bridge σ) (cs_queue σ) t = Ret (w, q) →
    coap_step ρ σ
      (with_bridge (with_calls σ (l1 ++ l2) (cs_sent σ ++ [t]) (cs_ignored σ) (cs_panicked σ))
         w (cs_bridge σ) q)
| st_panic σ now l1 t l2 why :
    cs_entering σ = l1 ++ t :: l2 →
    enqueue_send now (cs_world σ) (cs_bridge σ) (cs_queue σ) t = Panic why →
    coap_step ρ σ
      (with_calls σ (l1 ++ l2) (cs_sent σ) (cs_ignored σ) (cs_panicked σ ++ [t]))
| st_take σ t rest :
    q_reqCh (cs_queue σ) = t :: rest →
    (length (cs_running σ) < cbr_workerCount (cs_bridge σ))%nat →
    coap_step ρ σ
      (with_work (with_bridge σ (cs_world σ) (cs_bridge σ) (reqCh_rest (cs_queue σ) rest))
         (cs_taken σ ++ [t]) (cs_running σ ++ [t]) (cs_done σ))
| st_finish σ start now l1 t l2 w b :
    cs_running σ = l1 ++ t :: l2 →
    worker_task ρ start now (cs_world σ) (cs_bridge σ) t = Ret (w, b) →
    coap_step ρ σ
      (with_work (with_bridge σ w b (cs_queue σ)) (cs_taken σ) (l1 ++ l2) (cs_done σ ++ [t]))
| st_stop1 σ :
    q_stopClosed (cs_queue σ) = false →
    coap_step ρ σ
      (with_bridge σ (cs_world σ) (cs_bridge σ) (stop_close_stopCh (cs_queue σ)))
| st_stop2 σ :
    q_stopClosed (cs_queue σ) = true → q_reqClosed (cs_queue σ) = false →
    coap_step ρ σ
      (with_bridge σ (cs_world σ) (cs_bridge σ) (stop_close_reqCh (cs_queue σ))).

(** The counts of refused tasks in the metrics. *)
Definition task_mode (t : coapTask) : string := if task_isSync t then "sync" else "async".
Definition queue_full_metric (t : coapTask) : metric :=
  Inc BridgeRequestsTotal ["coap"; task_mode t; "queue_full"].
Definition is_queue_full (m : metric) : Prop :=
  match m with
  | Inc c labels => c = BridgeRequestsTotal ∧ last labels = Some "queue_full"
  | _ => False
  end.
#[global] Instance is_queue_full_dec m : Decision (is_queue_full m).
Proof using Type. destruct m; cbn; apply _. Defined.
Definition queue_fulls w : list metric := filter is_queue_full (w_metrics w).

Lemma queue_fulls_observe w m : ¬ is_queue_full m → queue_fulls (observe w m) = queue_fulls w.
Proof using Type.
  intros Hm. unfold queue_fulls, observe. cbn [w_metrics].
  by rewrite filter_app, filter_cons_False, filter_nil, app_nil_r.
Qed.
Lemma queue_fulls_mq w c : queue_fulls (set_mq w c) = queue_fulls w.
Proof using Type. done. Qed.
Lemma queue_fulls_dlq now w topics protocol peerId reason topic payload :
  queue_fulls (publishDLQ now w topics protocol peerId reason topic payload) = queue_fulls w.
Proof using Type. unfold publishDLQ. by destruct (json_Marshal _). Qed.

(** * The handlers never panic *)

Lemma doCoap_loop_ret left attempt w retries cb addr timeout pkt :
  ∃ w' cb' r, doCoap_loop left attempt w retries cb addr timeout pkt = Ret (w', cb', r) ∧
              w_mq w' = w_mq w ∧ queue_fulls w' = queue_fulls w.
Proof using Type.
  revert attempt w cb. induction left as [|left IH]; intros attempt w cb; simpl; [by eauto 7|].
  destruct (Udp _ _ _ _) as [| | | | |data]; try (case_decide; [|by eauto 7]);
    try (destruct (IH (S attempt) (observe w (Inc BridgeRetriesTotal ["coap"]))
           (markFailure (clk attempt) cb)) as (w' & cb' & r & -> & E & F);
         rewrite queue_fulls_observe in F by (by intros [? _]); by eauto 7);
    try by eauto 7.
  destruct (parsers_total data) as (p & -> & _). simpl. by eauto 7.
Qed.

Lemma doCoap_ret now w b msg :
  ∃ w' b' r, doCoap now w b msg =
    Ret (w', b', if isCircuitOpen now (cbr_cb b) ||
                    bool_decide (blen (msg_Payload msg) > maxCoapPayloadBytes)
                 then msg else Normalize msg, r) ∧
    w_mq w' = w_mq w ∧ cbr_topics b' = cbr_topics b ∧ cbr_peerId b' = cbr_peerId b ∧
    cbr_queueSize b' = cbr_queueSize b ∧ cbr_workerCount b' = cbr_workerCount b ∧
    queue_fulls w' = queue_fulls w.
Proof using Type.
  unfold doCoap. destruct (isCircuitOpen now (cbr_cb b)); [by eauto 12|].
  case_bool_decide; [rewrite decide_True by done; by eauto 12|]. rewrite decide_False by done.
  cbn [orb]. pose proof (ProtocolFields_msg msg) as Hm.
  destruct (ProtocolFields msg) as [m fields]. cbn [fst] in Hm. subst m.
  destruct (ResolveUDPAddr _); [by eauto 12|].
  match goal with |- context [doCoap_loop ?a ?b ?c ?d ?e ?f ?g ?h] =>
    destruct (doCoap_loop_ret a b c d e f g h) as (w' & cb' & r & -> & E & F) end.
  cbn [go_bind]. eexists _, _, _. done.
Qed.

(** What a handler leaves alone: the sizes of the bridge, and the counts. *)
Definition handled_ok w b (r : go (World C * CoapBridge)) : Prop :=
  ∃ w' b', r = Ret (w', b') ∧ cbr_queueSize b' = cbr_queueSize b ∧
    cbr_workerCount b' = cbr_workerCount b ∧ queue_fulls w' = queue_fulls w.

Ltac solve_handled :=
  eexists _, _; split; [done|]; split_and!; [done..|];
  repeat first [rewrite queue_fulls_dlq|rewrite queue_fulls_mq
    |rewrite queue_fulls_observe by first [by intros [_ ?]|by intros []]];
  done.

Lemma Coap_handleSyncRequest_ret ρ start now w b topic payload :
  handled_ok w b (Coap_handleSyncRequest ρ start now w b topic payload).
Proof using Type.
  unfold Coap_handleSyncRequest. destruct (DecodeDdMessage payload) as [msg|]; [|solve_handled].
  destruct (Validate_msg _ _) as [m [e|]]; [solve_handled|]. case_decide; [solve_handled|].
  destruct (doCoap_ret now w b m) as (w' & b' & r & -> & Hw & _ & _ & Hb & Hc & Hf). cbn [go_bind].
  destruct (EncodeDdMessage _ _) as [m' [raw|]];
    [destruct (mq_Publish _ _ _) as [c [e|]]|]; destruct (isCoapFailureResponse r); solve_handled.
Qed.

Lemma Coap_handleAsyncEvent_ret ρ start now w b topic payload :
  handled_ok w b (Coap_handleAsyncEvent ρ start now w b topic payload).
Proof using Type.
  unfold Coap_handleAsyncEvent. destruct (DecodeDdMessage payload) as [msg|]; [|solve_handled].
  destruct (Validate_msg _ _) as [m [e|]]; [solve_handled|]. case_decide; [solve_handled|].
  destruct (doCoap_ret now w b m) as (w' & b' & r & -> & Hw & _ & _ & Hb & Hc & Hf).
  cbn [go_bind]. destruct (isCoapFailureResponse r); solve_handled.
Qed.

Lemma worker_task_handled ρ start now w b t : handled_ok w b (worker_task ρ start now w b t).
Proof using Type.
  unfold worker_task. destruct (task_isSync t);
    [apply Coap_handleSyncRequest_ret|apply Coap_handleAsyncEvent_ret].
Qed.

Lemma worker_task_ret ρ start now w b t :
  ∃ w' b', worker_task ρ start now w b t = Ret (w', b') ∧ cbr_queueSize b' = cbr_queueSize b.
Proof using Type.
  destruct (worker_task_handled ρ start now w b t) as (w' & b' & E & Hq & _). by exists w', b'.
Qed.

(** * The queue's invariant *)

Lemma enqueue_send_cases now w b q t :
  (q_reqClosed q = true ∧ enqueue_send now w b q t = Panic "send on closed channel") ∨
  (q_reqClosed q = false ∧ (length (q_reqCh q) < cbr_queueSize b)%nat ∧
   enqueue_send now w b q t = Ret (w, reqCh_rest q (q_reqCh q ++ [t]))) ∨
  (q_reqClosed q = false ∧ (cbr_queueSize b ≤ length (q_reqCh q))%nat ∧
   ∃ w', enqueue_send now w b q t = Ret (w', q) ∧
     queue_fulls w' = queue_fulls w ++ [queue_full_metric t]).
Proof using Type.
  unfold enqueue_send. destruct (q_reqClosed q) eqn:E; [by left|right].
  case_decide; [left; split_and!; [done|done|unfold reqCh_rest; by rewrite E]|right].
  split; [done|]. split; [lia|]. eexists. split; [done|]. rewrite queue_fulls_dlq.
  unfold queue_fulls, observe, queue_full_metric, task_mode. cbn [w_metrics].
  rewrite filter_app, filter_cons_True, filter_nil; [done|]. by destruct (task_isSync t).
Qed.

Lemma enqueue_send_panic now w b q t why :
  enqueue_send now w b q t = Panic why → q_reqClosed q = true.
Proof using Type. unfold enqueue_send. destruct (q_reqClosed q); [done|by case_decide]. Qed.

(** [sent] split in two, each part in its order. *)
Inductive interleaved {A} : list A → list A → list A → Prop :=
| il_nil : interleaved [] [] []
| il_left l l1 l2 x : interleaved l l1 l2 → interleaved (l ++ [x]) (l1 ++ [x]) l2
| il_right l l1 l2 x : interleaved l l1 l2 → interleaved (l ++ [x]) l1 (l2 ++ [x]).

Lemma interleaved_split {A} (l l1 l2 : list A) :
  interleaved l l1 l2 → l ≡ₚ l1 ++ l2 ∧ l1 `sublist_of` l ∧ l2 `sublist_of` l.
Proof using Type.
  induction 1 as [|l l1 l2 x _ (Hp & H1' & H2')|l l1 l2 x _ (Hp & H1' & H2')]; [done|..].
  - split_and!; [rewrite Hp; solve_Permutation|by apply sublist_app|by apply sublist_inserts_r].
  - split_and!; [rewrite Hp; solve_Permutation|by apply sublist_inserts_r|by apply sublist_app].
Qed.

Record coap_ok w0 (size workers : nat) (σ : coap_state) : Prop := {
  ck_sent : ∃ refused,
    interleaved (cs_sent σ) (cs_taken σ ++ q_reqCh (cs_queue σ)) refused ∧
    queue_fulls (cs_world σ) = queue_fulls w0 ++ (queue_full_metric <$> refused) ∧
    (refused ≠ [] → (size ≤ length (cs_taken σ ++ q_reqCh (cs_queue σ)))%nat);
  ck_taken : cs_taken σ ≡ₚ cs_running σ ++ cs_done σ;
  ck_size : cbr_queueSize (cs_bridge σ) = size;
  ck_workers : cbr_workerCount (cs_bridge σ) = workers;
  ck_bound : (length (q_reqCh (cs_queue σ)) ≤ size)%nat;
  ck_running : (length (cs_running σ) ≤ workers)%nat;
  ck_closed : q_reqClosed (cs_queue σ) = true → q_stopClosed (cs_queue σ) = true;
  ck_ignored : cs_ignored σ ≠ [] → q_stopClosed (cs_queue σ) = true;
  ck_panicked : cs_panicked σ ≠ [] → q_reqClosed (cs_queue σ) = true
}.

Lemma coap_init_ok w b : coap_ok w (cbr_queueSize b) (cbr_workerCount b) (coap_init w b).
Proof using Type.
  constructor; simpl; try lia; try done. exists []. rewrite app_nil_r. by repeat constructor.
Qed.

Lemma coap_send_ok w0 size workers σ now l1 t l2 w q :
  coap_ok w0 size workers σ → cs_entering σ = l1 ++ t :: l2 →
  enqueue_send now (cs_world σ) (cs_bridge σ) (cs_queue σ) t = Ret (w, q) →
  coap_ok w0 size workers
    (with_bridge (with_calls σ (l1 ++ l2) (cs_sent σ ++ [t]) (cs_ignored σ) (cs_panicked σ))
       w (cs_bridge σ) q).
Proof using Type.
  intros [(refused & Hi & Hf & Hr) Ht Hz Hw Hb Hn Hc Hg Hp] _ Hs.
  destruct (enqueue_send_cases now (cs_world σ) (cs_bridge σ) (cs_queue σ) t) as
    [[Hcl E]|[(Hcl & Hl & E)|(Hcl & Hl & w' & E & Hw')]]; rewrite E in Hs; [done|..];
    injection Hs as <- <-; constructor;
    cbn [cs_world cs_bridge cs_queue cs_sent cs_taken cs_running cs_done cs_ignored cs_panicked
      with_bridge with_calls q_reqCh q_reqClosed q_stopClosed reqCh_rest]; try done.
  - exists refused. rewrite app_assoc, length_app. split_and!; [by constructor|done|].
    intros ?%Hr. lia.
  - rewrite length_app. cbn [length]. lia.
  - exists (refused ++ [t]). rewrite Hw', Hf, fmap_app, app_assoc.
    split_and!; [by constructor|done|]. intros _. rewrite length_app. lia.
Qed.

Lemma coap_step_ok ρ w0 size workers σ σ' :
  coap_step ρ σ σ' → coap_ok w0 size workers σ → coap_ok w0 size workers σ'.
Proof using Type.
  intros Hs Hok. pose proof Hok as [(refused & Hi & Hf & Hr) Ht Hz Hw Hb Hn Hc Hg Hp].
  destruct Hs as [σ t Hen|σ t Hen|σ now l1 t l2 w q He Hsend|σ now l1 t l2 why He Hsend
    |σ t rest Hq Hl|σ start now l1 t l2 w b He Hwk|σ Hs|σ Hs Hcl];
    [| |by eapply coap_send_ok|..]; constructor;
    cbn [cs_world cs_bridge cs_queue cs_sent cs_taken cs_running cs_done cs_ignored cs_panicked
      with_bridge with_calls with_work q_reqCh q_reqClosed q_stopClosed reqCh_rest
      stop_close_stopCh stop_close_reqCh]; eauto.
  - intros _. unfold enqueue_enter in Hen. by destruct (q_stopClosed _).
  - intros _. by eapply enqueue_send_panic.
  - exists refused. rewrite <- app_assoc. rewrite Hq in Hi, Hr. done.
  - rewrite Ht. solve_Permutation.
  - rewrite Hq in Hb. cbn [length] in Hb. lia.
  - rewrite length_app. cbn [length]. lia.
  - destruct (worker_task_handled ρ start now (cs_world σ) (cs_bridge σ) t)
      as (w' & b' & E & _ & _ & Ew). rewrite E in Hwk. injection Hwk as <- <-.
    exists refused. by rewrite Ew.
  - rewrite Ht, He. solve_Permutation.
  - destruct (worker_task_handled ρ start now (cs_world σ) (cs_bridge σ) t)
      as (w' & b' & E & Eq & _). rewrite E in Hwk. injection Hwk as <- <-. by rewrite Eq.
  - destruct (worker_task_handled ρ start now (cs_world σ) (cs_bridge σ) t)
      as (w' & b' & E & _ & Eq & _). rewrite E in Hwk. injection Hwk as <- <-. by rewrite Eq.
  - rewrite He, length_app in Hn. rewrite length_app. cbn [length] in Hn. lia.
Qed.

Lemma coap_reachable_ok ρ w0 size workers σ σ' :
  rtc (coap_step ρ) σ σ' → coap_ok w0 size workers σ → coap_ok w0 size workers σ'.
Proof using Type. induction 1; eauto using coap_step_ok. Qed.


(** C37: a shutdown is not safe against messages still arriving: from any reachable
    state in which a call of [enqueueTask] is between its check of [stopCh] and its
    send, [Stop] can run and make that call panic on the closed channel. *)
Theorem coap_stop_race ρ w b σ t :
  rtc (coap_step ρ) (coap_init w b) σ → t ∈ cs_entering σ →
  ∃ σ', rtc (coap_step ρ) σ σ' ∧ t ∈ cs_panicked σ'.
Proof using Type.
  intros Hr Ht.
  assert (∀ σ, t ∈ cs_entering σ → q_reqClosed (cs_queue σ) = true →
    ∃ σ', rtc (coap_step ρ) σ σ' ∧ t ∈ cs_panicked σ') as Hclosed.
  { intros σ1 Ht1 Hq. apply list_elem_of_split in Ht1 as (l1 & l2 & E).
    eexists. split.
    - eapply rtc_once, st_panic with (now := 0); [exact E|].
      unfold enqueue_send. by rewrite Hq.
    - simpl. apply elem_of_app. right. by left. }
  assert (∀ σ, t ∈ cs_entering σ → q_stopClosed (cs_queue σ) = true →
    ∃ σ', rtc (coap_step ρ) σ σ' ∧ t ∈ cs_panicked σ') as Hstop.
  { intros σ1 Ht1 Hq. destruct (q_reqClosed (cs_queue σ1)) eqn:E; [by apply Hclosed|].
    edestruct Hclosed as (σ' & Hs & Hp);
      [| |exists σ'; split; [eapply rtc_l, Hs; by apply st_stop2|done]]; done. }
  destruct (q_stopClosed (cs_queue σ)) eqn:E; [by apply Hstop|].
  edestruct Hstop as (σ' & Hs & Hp);
    [| |exists σ'; split; [eapply rtc_l, Hs; by apply st_stop1|done]]; done.
Qed.

(** * The attempts *)

(** What an attempt gives when it is the last, and whether it is. *)
Definition coap_final (o : udp_outcome) : bytes :=
  match o with
  | DialError => coap_error "coap_dial_failed"
  | DeadlineError => coap_error "coap_deadline_failed"
  | WriteError => coap_error "coap_write_failed"
  | ReadClosed => coap_error "coap_conn_closed"
  | ReadError => coap_error "coap_read_failed"
  | Received data => match parseCoapPayload data with Ret (Some p) => p | _ => [] end
  end.

Definition coap_ends (o : udp_outcome) : bool :=
  match o with DialError | WriteError | ReadError => false | _ => true end.

Lemma doCoap_two w cb addr timeout pkt :
  ∃ w' cb', doCoap_loop 2 1 w 2 cb addr timeout pkt =
    Ret (w', cb', if coap_ends (Udp 1 addr timeout pkt)
                  then coap_final (Udp 1 addr timeout pkt)
                  else coap_final (Udp 2 addr timeout pkt)).
Proof using Type.
  simpl. destruct (Udp 1 addr timeout pkt) as [| | | | |data]; simpl; try (by eauto);
    try (destruct (parsers_total data) as ([p|] & -> & _); simpl; by eauto).
  all: destruct (Udp 2 addr timeout pkt) as [| | | | |data]; simpl; try (by eauto);
    destruct (parsers_total data) as ([p|] & -> & _); simpl; by eauto.
Qed.

(** Handling a CoAP request cannot panic whatever the server sends; with the
    bridge's two retries there is a second attempt exactly when the first failed to
    dial, to write or to read; the caller gets the last attempt's outcome. *)
Theorem doCoap_attempts now w topics peerId url counter msg :
  let b := NewCoapBridge topics peerId url counter in
  blen (msg_Payload msg) ≤ 1024 → ResolveUDPAddr url = None → 0 ≤ now →
  let fields := (ProtocolFields msg).2 in
  let method := if decide (default "" (fields !! "method") = "") then "GET"
                else default "" (fields !! "method") in
  let path := if decide (default "" (fields !! "path") = "") then "/"
              else default "" (fields !! "path") in
  let pkt := buildCoapRequest (uint32_add counter 1) method path (msg_Payload msg) in
  let timeout := h_TimeoutMs (msg_Header (Normalize msg)) in
  let limit := if decide (timeout > 0) then wrap64 (timeout * Millisecond) else 5 * Second in
  ∃ w' b', doCoap now w b msg =
    Ret (w', b', Normalize msg,
         if coap_ends (Udp 1 url limit pkt) then coap_final (Udp 1 url limit pkt)
         else coap_final (Udp 2 url limit pkt)).
Proof using Type.
  cbv zeta. intros Hlen Hres Hnow. unfold doCoap.
  cbn [cbr_cb cbr_MsgIDCounter cbr_targetUrl cbr_retries NewCoapBridge].
  unfold isCircuitOpen, Before. rewrite bool_decide_false by (simpl; unfold time_zero; lia).
  rewrite decide_False by (unfold maxCoapPayloadBytes; lia).
  pose proof (ProtocolFields_msg msg) as Hm.
  destruct (ProtocolFields msg) as [m fields]. cbn [fst snd] in *. subst m.
  rewrite Hres, Normalize_Payload.
  match goal with |- context [doCoap_loop 2 1 ?w 2 ?cb ?a ?t ?p] =>
    destruct (doCoap_two w cb a t p) as (w' & cb' & ->) end.
  cbn [go_bind]. eauto.
Qed.

(** A target whose name does not resolve is not seen as a failure: the event is
    dropped, counted as [ok], and the circuit breaker does not learn of it. *)
Theorem coap_resolve_failure_counted_ok ρ start now w b topic payload msg n err :
  DecodeDdMessage payload = Ok msg →
  n = Normalize (set_Mode (Normalize msg) DdTransferModeAsync) →
  envelope_ok n → msg_Protocol n = DdProtocolCoap → blen (msg_Payload n) ≤ 1024 →
  isCircuitOpen now (cbr_cb b) = false → ResolveUDPAddr (cbr_targetUrl b) = Some err →
  Coap_handleAsyncEvent ρ start now w b topic payload =
  Ret (observe (observe w (Observe BridgeLatencyMs ["coap"; "async"]
                             (Milliseconds (Sub now start))))
         (Inc BridgeRequestsTotal ["coap"; "async"; "ok"]),
       set_coap b (cbr_cb b) (uint32_add (cbr_MsgIDCounter b) 1)).
Proof using Type.
  intros Hd Hn Hok Hp Hl Hcb Hres. unfold Coap_handleAsyncEvent. rewrite Hd.
  pose proof (Validate_msg_normalizes ρ (set_Mode (Normalize msg) DdTransferModeAsync)) as Hv.
  pose proof (Validate_msg_None ρ (set_Mode (Normalize msg) DdTransferModeAsync)) as Hi.
  rewrite <- Hn in Hv, Hi. apply Hi in Hok.
  destruct (Validate_msg _ _) as [n' inv]. cbn [fst snd] in Hv, Hok. subst n' inv.
  rewrite decide_False by auto. unfold doCoap. rewrite Hcb.
  rewrite decide_False by (unfold maxCoapPayloadBytes; lia).
  destruct (ProtocolFields n) as [m fields]. rewrite Hres. cbn [go_bind].
  assert (isCoapFailureResponse (coap_error "coap_resolve_failed") = false) as ->
    by (vm_compute; reflexivity).
  done.
Qed.

End coap.

(** * The properties at a concrete bridge *)

#[local] Existing Instance mock_client.
#[local] Existing Instance store_gzip.
#[local] Instance dlq_codec : JsonCodec DlqEvent := table_codec [].

Definition coap_event : DdMessage :=
  {| msg_Version := "v1"; msg_Mode := DdTransferModeAsync; msg_Protocol := DdProtocolCoap;
     msg_Resource := "lamp"; msg_Header := request_header; msg_Meta := request_header;
     msg_Headers := ∅; msg_ProtocolMeta := ∅; msg_Payload := to_bytes "on"; msg_CreatedAt := 5 |}.

#[local] Instance coap_codec : JsonCodec DdMessage :=
  table_codec [(coap_event, json_text "{'mode':'async','protocol':'coap','resource':'lamp'}")].

Definition lamp_task : coapTask :=
  {| task_topic := "dd/default/event/lamp/publish"; task_payload := []; task_isSync := false |}.
Definition lamp_bridge : CoapBridge :=
  NewCoapBridge (NewDefaultTopicSet "default") "lamp" "10.0.0.7:5683" 0.

Notation lamp_step := (coap_step (λ _, 0) (λ _, None) (λ _ _ _ _, WriteError) ranger_std).

(** A task has entered; it has been sent, and another one has entered; the first has been
    taken and handled, the second is in the queue. *)
Definition coap_entered : coap_state (C := MockClient) :=
  with_calls (coap_init node_world lamp_bridge) [lamp_task] [] [] [].
Definition lamp_event : coapTask :=
  {| task_topic := "dd/default/transfer/lamp/request"; task_payload := []; task_isSync := true |}.
Definition coap_sent : coap_state (C := MockClient) :=
  with_bridge (with_calls coap_entered [] [lamp_task] [] []) node_world lamp_bridge
    (reqCh_rest coap_queue0 [lamp_task]).
Definition coap_entered2 : coap_state (C := MockClient) :=
  with_calls coap_sent [lamp_event] [lamp_task] [] [].
Definition coap_sent2 : coap_state (C := MockClient) :=
  with_bridge (with_calls coap_entered2 [] [lamp_task; lamp_event] [] []) node_world lamp_bridge
    (reqCh_rest coap_queue0 [lamp_task; lamp_event]).
Definition coap_running : coap_state (C := MockClient) :=
  with_work (with_bridge coap_sent2 node_world lamp_bridge (reqCh_rest coap_queue0 [lamp_event]))
    [lamp_task] [lamp_task] [].
Definition coap_finished : coap_state (C := MockClient) :=
  with_work (with_bridge coap_running
      (observe node_world (Inc BridgeRequestsTotal ["coap"; "async"; "invalid"])) lamp_bridge
      (reqCh_rest coap_queue0 [lamp_event])) [lamp_task] [] [lamp_task].

Lemma coap_finished_reachable : rtc lamp_step (coap_init node_world lamp_bridge) coap_finished.
Proof.
  eapply rtc_l; [apply (st_enter _ _ _ _ (coap_init node_world lamp_bridge) lamp_task); reflexivity|].
  eapply rtc_l; [apply (st_send _ _ _ _ coap_entered 0 [] lamp_task [] node_world
    (reqCh_rest coap_queue0 [lamp_task])); reflexivity|].
  eapply rtc_l; [apply (st_enter _ _ _ _ coap_sent lamp_event); reflexivity|].
  eapply rtc_l; [apply (st_send _ _ _ _ coap_entered2 0 [] lamp_event [] node_world
    (reqCh_rest coap_queue0 [lamp_task; lamp_event])); reflexivity|].
  eapply rtc_l; [apply (st_take _ _ _ _ coap_sent2 lamp_task [lamp_event]); [reflexivity|by_compute]|].
  eapply rtc_l; [apply (st_finish _ _ _ _ coap_running 0 0 [] lamp_task []
    (observe node_world (Inc BridgeRequestsTotal ["coap"; "async"; "invalid"])) lamp_bridge);
    vm_compute; reflexivity|].
  apply rtc_refl.
Qed.


Lemma coap_stop_race_witness :
  rtc lamp_step (coap_init node_world lamp_bridge) coap_entered ∧
  ∃ σ', rtc lamp_step coap_entered σ' ∧ lamp_task ∈ cs_panicked σ'.
Proof.
  assert (rtc lamp_step (coap_init node_world lamp_bridge) coap_entered) as Hr
    by (apply rtc_once, (st_enter _ _ _ _ (coap_init node_world lamp_bridge) lamp_task); reflexivity).
  split; [exact Hr|]. eapply coap_stop_race; [exact Hr|]. by_compute.
Defined.

Lemma doCoap_attempts_witness :
  blen (msg_Payload coap_event) ≤ 1024 ∧
  ∃ w' b', doCoap (λ _, 0) (λ _, None)
    (λ n _ _ _, if decide (n = 1%nat) then ReadError
                else Received (buildCoapRequest 7 "PUT" "/lamp" (to_bytes "done")))
    0 node_world lamp_bridge coap_event = Ret (w', b', coap_event, to_bytes "done").
Proof.
  split; [by_compute|].
  destruct (doCoap_attempts (λ _, 0) (λ _, None)
    (λ n _ _ _, if decide (n = 1%nat) then ReadError
                else Received (buildCoapRequest 7 "PUT" "/lamp" (to_bytes "done")))
    0 node_world (NewDefaultTopicSet "default") "lamp" "10.0.0.7:5683" 0 coap_event)
    as (w' & b' & E); [by_compute|reflexivity|by_compute|].
  exists w', b'. etransitivity; [exact E|]. vm_compute. reflexivity.
Defined.

Lemma coap_resolve_failure_counted_ok_witness :
  let payload := to_bytes (json_text "{'mode':'async','protocol':'coap','resource':'lamp'}") in
  DecodeDdMessage payload = Ok coap_event ∧
  ∃ w b, Coap_handleAsyncEvent (λ _, 0) (λ _, Some (EText "no such host"))
    (λ _ _ _ _, WriteError) ranger_std 0 0 node_world lamp_bridge
    "dd/default/event/lamp/publish" payload = Ret (w, b) ∧
  Inc BridgeRequestsTotal ["coap"; "async"; "ok"] ∈ w_metrics w.
Proof.
  cbv zeta. split; [vm_compute; reflexivity|]. eexists _, _. split.
  - eapply (coap_resolve_failure_counted_ok (λ _, 0) (λ _, Some (EText "no such host"))
      (λ _ _ _ _, WriteError) ranger_std 0 0 node_world lamp_bridge
      "dd/default/event/lamp/publish"
      (to_bytes (json_text "{'mode':'async','protocol':'coap','resource':'lamp'}"))
      coap_event coap_event (EText "no such host")).
    + vm_compute. reflexivity.
    + vm_compute. reflexivity.
    + apply (Validate_msg_None ranger_std coap_event). vm_compute. reflexivity.
    + reflexivity.
    + by_compute.
    + reflexivity.
    + reflexivity.
  - by_compute.
Defined.
