(* ===== verification/Router.v ===== *)
(** The routes of the HTTP API (api/router.go), the multiplexer's rule for them, and
    the middleware around it (internal/observability/middleware.go).

    A path is taken as the multiplexer sees it, already cleaned. *)
From S2P Require Import Prelude GoStrings GoTime Errors Metrics TopicFilter.

Open Scope string_scope.
Open Scope list_scope.
Open Scope Z_scope.

(** The methods registered as handlers. *)
Inductive route_handler :=
| rHealth | rPeerRegister | rPeerHeartbeat | rPeerUnregister | rPeerGet | rPeersQuery
| rResourceProviders | rResourceMetaSchema | rResourcesList
| rHTTPProtocolResources | rHTTPProtocolResourceByName
| rCoapProtocolResources | rCoapProtocolResourceByName
| rMqttProtocolTopics | rMqttProtocolTopicByName
| rTransferSync | rTransferAsync | rTransferAsyncBatch | rTransferStatus
| rStreamOpen | rStreamClose | rStreamsList | rMetrics | rPrometheus.

#[export] Instance route_handler_eq_dec : EqDecision route_handler.
Proof. solve_decision. Defined.

(** A pattern: a method and a path, of which a segment in braces is a wildcard. *)
Record route := { rt_method : string; rt_path : string; rt_handler : route_handler }.

Definition prefix : string := "/dd/api/v1".

Definition handle (method path : string) (h : route_handler) : route :=
  {| rt_method := method; rt_path := path; rt_handler := h |}.

Definition registerRoutes : list route := [
  handle "GET" (prefix +:+ "/health") rHealth;
  handle "POST" (prefix +:+ "/peers/register") rPeerRegister;
  handle "POST" (prefix +:+ "/peers/{id}/heartbeat") rPeerHeartbeat;
  handle "POST" (prefix +:+ "/peers/{id}/unregister") rPeerUnregister;
  handle "GET" (prefix +:+ "/peers/{id}") rPeerGet;
  handle "GET" (prefix +:+ "/peers") rPeersQuery;
  handle "GET" (prefix +:+ "/resources/{resource}/providers") rResourceProviders;
  handle "GET" (prefix +:+ "/resources/{resource}/meta-schema") rResourceMetaSchema;
  handle "GET" (prefix +:+ "/resources") rResourcesList;
  handle "GET" (prefix +:+ "/protocol-resources/http") rHTTPProtocolResources;
  handle "GET" (prefix +:+ "/protocol-resources/http/{resource}") rHTTPProtocolResourceByName;
  handle "GET" (prefix +:+ "/protocol-resources/coap") rCoapProtocolResources;
  handle "GET" (prefix +:+ "/protocol-resources/coap/{resource}") rCoapProtocolResourceByName;
  handle "GET" (prefix +:+ "/protocol-resources/mqtt/topics") rMqttProtocolTopics;
  handle "GET" (prefix +:+ "/protocol-resources/mqtt/topics/{name}") rMqttProtocolTopicByName;
  handle "POST" (prefix +:+ "/transfer/sync") rTransferSync;
  handle "POST" (prefix +:+ "/transfer/async") rTransferAsync;
  handle "POST" (prefix +:+ "/transfer/async/batch") rTransferAsyncBatch;
  handle "GET" (prefix +:+ "/transfer/{requestId}") rTransferStatus;
  handle "POST" (prefix +:+ "/transfer/stream/open") rStreamOpen;
  handle "POST" (prefix +:+ "/transfer/stream/close") rStreamClose;
  handle "GET" (prefix +:+ "/streams") rStreamsList;
  handle "GET" (prefix +:+ "/metrics") rMetrics;
  handle "GET" "/metrics" rPrometheus
].

(** * The multiplexer *)

(** A wildcard takes one segment that is not empty. *)
Definition is_wildcard (seg : string) : bool := HasPrefix seg "{".

Definition segment_matches (p s : string) : bool :=
  if is_wildcard p then negb (bool_decide (s = "")) else bool_decide (p = s).

Fixpoint segments_match (ps ss : list string) : bool :=
  match ps, ss with
  | [], [] => true
  | p :: ps, s :: ss => segment_matches p s && segments_match ps ss
  | _, _ => false
  end.

(** A pattern for GET also takes HEAD. *)
Definition method_matches (pattern method : string) : bool :=
  bool_decide (pattern = method) || (bool_decide (pattern = "GET") && bool_decide (method = "HEAD")).

Definition route_matches (r : route) (method path : string) : bool :=
  method_matches (rt_method r) method &&
  segments_match (Split slash (rt_path r)) (Split slash path).

Definition dispatch (method path : string) : option route_handler :=
  rt_handler <$> head (filter (λ r, route_matches r method path = true) registerRoutes).

(** Two patterns that some request could match. *)
Fixpoint segments_overlap (ps qs : list string) : bool :=
  match ps, qs with
  | [], [] => true
  | p :: ps, q :: qs =>
      (is_wildcard p || is_wildcard q || bool_decide (p = q)) && segments_overlap ps qs
  | _, _ => false
  end.

Definition routes_overlap (r1 r2 : route) : bool :=
  bool_decide (rt_method r1 = rt_method r2) &&
  segments_overlap (Split slash (rt_path r1)) (Split slash (rt_path r2)).

(** * The middleware *)

Definition httpRequestsTotal := "dd_http_requests_total".
Definition httpRequestDurationMs := "dd_http_request_duration_ms".

(** The middleware around the multiplexer, for a request whose handler called
    [WriteHeader] with these codes; 200 when it called it with none.  [WithLabelValues]
    panics where client_golang finds the label values in error: [label_error]. *)
Section middleware.
Context (label_error : list string → option string).

Definition WithLabelValues (labels : list string) : go unit :=
  match label_error labels with Some why => Panic why | None => Ret () end.

Definition RequestLoggingMiddleware {C} (w : World C) (start now : Time)
    (method path : string) (codes : list Z) : go (World C) :=
  let statusCode := default 200 (last codes) in
  let duration := Sub now start in
  let statusClass := fmtStatusClass statusCode in
  (let? _ := WithLabelValues [method; path; statusClass] in
   let w := observe w (Inc httpRequestsTotal [method; path; statusClass]) in
   let? _ := WithLabelValues [method; path] in
   Ret (observe w (Observe httpRequestDurationMs [method; path] (Milliseconds duration))))%go.
End middleware.

(** client_golang refuses the label values that are not UTF-8. *)
Definition labels_utf8 (label_error : list string → option string) : Prop :=
  ∀ labels, label_error labels = None ↔ Forall (λ v, utf8_ValidString v = true) labels.

(** A path that is not UTF-8, which the percent encoding of a request can spell, makes
    the middleware panic after the handler; any other path is counted. *)
Lemma RequestLoggingMiddleware_utf8 {C} label_error (w : World C) start now method path codes :
  labels_utf8 label_error → utf8_ValidString method = true →
  if utf8_ValidString path
  then ∃ w', RequestLoggingMiddleware label_error w start now method path codes = Ret w' ∧
         w_mq w' = w_mq w
  else ∃ why, RequestLoggingMiddleware label_error w start now method path codes = Panic why.
Proof.
  intros Hl Hm. unfold RequestLoggingMiddleware, WithLabelValues. cbv zeta.
  set (class := fmtStatusClass (default 200 (last codes))).
  assert (utf8_ValidString class = true) as Hc
    by (unfold class, fmtStatusClass; repeat case_decide; vm_compute; reflexivity).
  clearbody class. destruct (utf8_ValidString path) eqn:Hp.
  - rewrite (proj2 (Hl [method; path; class])), (proj2 (Hl [method; path]))
      by (repeat first [apply Forall_nil_2|apply Forall_cons_2]; done).
    cbn [go_bind]. eexists. split; [done|]. by rewrite !observe_mq.
  - destruct (label_error [method; path; class]) as [why|] eqn:E; [by exists why|].
    apply Hl in E. apply Forall_cons in E as [_ [E _]%Forall_cons]. congruence.
Qed.

(** * Dispatch is unambiguous *)

Lemma segments_overlap_sound ps qs ss :
  segments_match ps ss = true → segments_match qs ss = true → segments_overlap ps qs = true.
Proof.
  revert qs ss. induction ps as [|p ps IH]; intros [|q qs] [|s ss];
    cbn [segments_match segments_overlap]; try done.
  rewrite !andb_true_iff. intros [Hp Hps] [Hq Hqs]. split; [|by eapply IH].
  unfold segment_matches in Hp, Hq.
  destruct (is_wildcard p), (is_wildcard q); try done. cbn.
  apply bool_decide_eq_true in Hp as ->. apply bool_decide_eq_true in Hq as ->.
  by apply bool_decide_eq_true.
Qed.

Lemma method_matches_same p q m :
  p = "GET" ∨ p = "POST" → q = "GET" ∨ q = "POST" →
  method_matches p m = true → method_matches q m = true → p = q.
Proof.
  unfold method_matches. rewrite !orb_true_iff, !andb_true_iff, !bool_decide_eq_true.
  intros [-> | ->] [-> | ->]; naive_solver.
Qed.

Lemma routes_methods r :
  r ∈ registerRoutes → rt_method r = "GET" ∨ rt_method r = "POST".
Proof.
  revert r. apply Forall_forall.
  repeat (apply Forall_cons; split; [by auto|]). by apply Forall_nil.
Qed.

(** No two routes overlap: each pair is compared. *)
Lemma routes_no_overlap i j r1 r2 :
  registerRoutes !! i = Some r1 → registerRoutes !! j = Some r2 →
  routes_overlap r1 r2 = true → i = j.
Proof.
  assert (Forall (λ '(i, r1), Forall (λ '(j, r2), routes_overlap r1 r2 = true → i = j)
    (imap pair registerRoutes)) (imap pair registerRoutes)) as Hall.
  { assert (forallb (λ '(i, r1), forallb (λ '(j, r2),
      negb (routes_overlap r1 r2) || (i =? j)%nat) (imap pair registerRoutes))
      (imap pair registerRoutes) = true) as E by by_compute.
    apply Forall_forall. intros [i1 x] Hx. apply Forall_forall. intros [j1 y] Hy Ho.
    apply list_elem_of_In in Hx, Hy.
    pose proof (proj1 (forallb_forall _ _) E _ Hx) as E'. cbv beta iota in E'.
    pose proof (proj1 (forallb_forall _ _) E' _ Hy) as E2. cbv beta iota in E2.
    rewrite Ho in E2. clear E E'. rename E2 into E.
    by apply Nat.eqb_eq in E. }
  intros H1 H2 Ho. rewrite Forall_forall in Hall.
  assert (∀ k r, registerRoutes !! k = Some r → (k, r) ∈ imap pair registerRoutes) as Hin.
  { intros k r Hk. apply list_elem_of_lookup_2 with k. by rewrite list_lookup_imap, Hk. }
  specialize (Hall _ (Hin _ _ H1)). cbn in Hall. rewrite Forall_forall in Hall.
  by apply (Hall _ (Hin _ _ H2)).
Qed.

Lemma routes_match_overlap r1 r2 method path :
  r1 ∈ registerRoutes → r2 ∈ registerRoutes →
  route_matches r1 method path = true → route_matches r2 method path = true →
  routes_overlap r1 r2 = true.
Proof.
  unfold route_matches, routes_overlap. rewrite !andb_true_iff.
  intros H1 H2 [Hm1 Hs1] [Hm2 Hs2]. split; [|by eapply segments_overlap_sound].
  apply bool_decide_eq_true. eapply method_matches_same; by eauto using routes_methods.
Qed.

Lemma route_unique r1 r2 method path :
  r1 ∈ registerRoutes → r2 ∈ registerRoutes →
  route_matches r1 method path = true → route_matches r2 method path = true → r1 = r2.
Proof.
  intros H1 H2 M1 M2. pose proof (routes_match_overlap _ _ _ _ H1 H2 M1 M2) as Ho.
  apply list_elem_of_lookup_1 in H1 as [i Hi], H2 as [j Hj].
  pose proof (routes_no_overlap _ _ _ _ Hi Hj Ho) as ->. congruence.
Qed.

(** Every request matches at most one route, so that registering them meets no
    conflict and the order in which they are registered does not matter: a request is
    dispatched to a handler exactly when a route for that handler matches it. *)
Theorem dispatch_unambiguous method path :
  (∀ h, dispatch method path = Some h ↔
     ∃ r, r ∈ registerRoutes ∧ route_matches r method path = true ∧ rt_handler r = h) ∧
  (length (filter (λ r, route_matches r method path = true) registerRoutes) ≤ 1)%nat.
Proof.
  unfold dispatch.
  assert (∀ r, r ∈ filter (λ r, route_matches r method path = true) registerRoutes ↔
    route_matches r method path = true ∧ r ∈ registerRoutes) as Hin
    by (intros r; by rewrite list_elem_of_filter).
  assert (NoDup (filter (λ r, route_matches r method path = true) registerRoutes)) as Hnd.
  { apply NoDup_filter. apply (NoDup_fmap_1 rt_handler). by_compute. }
  destruct (filter _ _) as [|r1 [|r2 l]].
  - split; [|cbn; lia]. intros h. split; [done|]. intros (r & Hr & Hm & _).
    destruct (Hin r) as [_ Hb]. by destruct (not_elem_of_nil r (Hb (conj Hm Hr))).
  - split; [|cbn; lia]. intros h. cbn. split.
    + intros [= <-]. exists r1. destruct (Hin r1) as [Hf _]. destruct Hf as [? ?]; [left|done].
    + intros (r & Hr & Hm & <-). f_equal. destruct (Hin r) as [_ Hb].
      specialize (Hb (conj Hm Hr)). apply list_elem_of_singleton in Hb as ->. done.
  - exfalso. destruct (Hin r1) as [H1 _]. destruct (Hin r2) as [H2 _].
    destruct H1 as [M1 R1]; [left|]. destruct H2 as [M2 R2]; [right; left|].
    apply NoDup_cons in Hnd as [Hni _]. apply Hni.
    rewrite (route_unique r1 r2 method path) by done. left.
Qed.
