(* ===== verification/ProtocolIndex.v ===== *)
(** The index of protocol resources (internal/service/protocol_resource_index.go):
    what the node offers over HTTP, CoAP and MQTT, with a counter per item.

    The JSON map of a schema is a parameter; the clock is read once per listing. *)
From S2P Require Import Prelude GoStrings GoTime Errors Metrics TopicFilter Acl Topics.
From S2P Require Import Mq Model Message Codec Registry PeerRegistry Catalog Config.

Open Scope string_scope.
Open Scope list_scope.
Open Scope Z_scope.

Record RuntimeStats := { st_QueryCount : Z; st_LastQueriedAt : Time }.

Definition zero_stats : RuntimeStats := {| st_QueryCount := 0; st_LastQueriedAt := time_zero |}.

#[export] Instance RuntimeStats_eq_dec : EqDecision RuntimeStats.
Proof. solve_decision. Defined.

(** [HTTPResourceItem] and [CoapResourceItem] have the same fields; [J] stands for
    the JSON maps. *)
Record ResourceItem (J : Type) := {
  it_Resource : string;
  it_Providers : list DdPeerInfo;
  it_TargetURL : string;
  it_RequestMetaSchema : option J;
  it_RuntimeStats : RuntimeStats
}.
Arguments it_Resource {J} _.
Arguments it_Providers {J} _.
Arguments it_TargetURL {J} _.
Arguments it_RequestMetaSchema {J} _.
Arguments it_RuntimeStats {J} _.

Record MqttTopicItem := {
  mi_Topic : string;
  mi_Direction : string;
  mi_QosDefault : Z;
  mi_Retain : bool;
  mi_Providers : list string;
  mi_Consumers : list string;
  mi_RuntimeStats : RuntimeStats
}.

#[export] Instance MqttTopicItem_eq_dec : EqDecision MqttTopicItem.
Proof. solve_decision. Defined.

(** The iteration order of the map of items. *)
Record item_order := {
  order_items : list MqttTopicItem → list MqttTopicItem;
  order_perm l : order_items l ≡ₚ l
}.

Definition item_order_std : item_order := {| order_items l := l; order_perm l := reflexivity _ |}.

(** The index itself; the configuration, the registry and the catalog it points to
    are passed to its operations. *)
Record ProtocolResourceIndex := { ix_stats : gmap string RuntimeStats }.

Definition NewProtocolResourceIndex : ProtocolResourceIndex := {| ix_stats := ∅ |}.

Definition bumpStat (now : Time) (i : ProtocolResourceIndex) (key : string)
    : ProtocolResourceIndex * RuntimeStats :=
  let s := default zero_stats (ix_stats i !! key) in
  let s := {| st_QueryCount := wrap64 (st_QueryCount s + 1);
              st_LastQueriedAt := st_LastQueriedAt s |} in
  let s := {| st_QueryCount := st_QueryCount s; st_LastQueriedAt := now |} in
  ({| ix_stats := <[key := s]> (ix_stats i) |}, s).

Definition peer_id_le (p q : DdPeerInfo) : Prop := string_le (p_Id p) (p_Id q).
#[export] Instance peer_id_le_dec : RelDecision peer_id_le.
Proof. intros p q. unfold peer_id_le. apply _. Defined.
#[export] Instance peer_id_le_total : Total peer_id_le.
Proof. intros p q. apply string_le_total. Qed.
#[export] Instance peer_id_le_trans : Transitive peer_id_le.
Proof. intros p q r. apply string_le_trans. Qed.

(** The order of [ListMqttTopics]: by topic, then by direction. *)
Definition item_le (a b : MqttTopicItem) : Prop :=
  if decide (mi_Topic a = mi_Topic b) then string_le (mi_Direction a) (mi_Direction b)
  else string_le (mi_Topic a) (mi_Topic b).
#[export] Instance item_le_dec : RelDecision item_le.
Proof. intros a b. unfold item_le. destruct (decide _); apply _. Defined.
#[export] Instance item_le_total : Total item_le.
Proof.
  intros a b. unfold item_le. destruct (decide (mi_Topic a = mi_Topic b)) as [->|Hne].
  - rewrite decide_True by done. apply string_le_total.
  - rewrite decide_False by congruence. apply string_le_total.
Qed.
#[export] Instance item_le_trans : Transitive item_le.
Proof.
  intros a b c. unfold item_le.
  destruct (decide (mi_Topic a = mi_Topic b)) as [->|H1].
  - case_decide; [apply string_le_trans|done].
  - destruct (decide (mi_Topic b = mi_Topic c)) as [<-|H2]; [by rewrite decide_False|].
    intros Hab Hbc. rewrite decide_False; [by etrans|].
    intros E. rewrite <- E in Hbc. apply H1. by apply string_le_antisymm.
Qed.

Section index.
Context {St J : Type} `{Store St} (toMap : ResourceMetaSchema → option J).
Implicit Types (i : ProtocolResourceIndex) (reg : PeerRegistryService St).

Definition lookupPeers reg (peerIDs : list string) : list DdPeerInfo :=
  let out := foldl (λ out id, match store_Get (pr_store reg) id with
                              | Some peer => out ++ [peer]
                              | None => out
                              end) [] peerIDs in
  merge_sort peer_id_le out.

Definition lookupSchemaMap (ρ : ranger) (now : Time) reg (resource : string) : option J :=
  match GetResourceMetaSchema ρ now reg resource with
  | (schema, true) => toMap schema
  | (_, false) => None
  end.

(** The loop of [ListHTTP] and [ListCoap]. *)
Fixpoint ListResources_loop (ρ : ranger) (now : Time) reg (cat : ResourceCatalog)
    (prefix targetUrl : string) i (resources : list string) (out : list (ResourceItem J))
    : ProtocolResourceIndex * list (ResourceItem J) :=
  match resources with
  | [] => (i, out)
  | r :: rest =>
      let r := TrimSpace r in
      if decide (r = "") then ListResources_loop ρ now reg cat prefix targetUrl i rest out
      else
        let providerIDs := GetProviders cat r in
        if decide (length providerIDs = 0)%nat
        then ListResources_loop ρ now reg cat prefix targetUrl i rest out
        else
          let '(i', stats) := bumpStat now i (prefix +:+ r) in
          ListResources_loop ρ now reg cat prefix targetUrl i' rest
            (out ++ [{| it_Resource := r; it_Providers := lookupPeers reg providerIDs;
                        it_TargetURL := targetUrl;
                        it_RequestMetaSchema := lookupSchemaMap ρ now reg r;
                        it_RuntimeStats := stats |}])
  end.

Definition listed_resources (ρ : ranger) (cat : ResourceCatalog) (resource : string)
    : list string :=
  let resources := ListResources ρ cat in
  let resources := if decide (resource ≠ "") then [resource] else resources in
  sort_Strings resources.

Definition ListHTTP (ρ : ranger) (now : Time) (cfg : Config) reg cat i (resource : string)
    : ProtocolResourceIndex * list (ResourceItem J) :=
  if decide (hb_TargetUrl (br_Http (cfg_Bridges cfg)) = "") then (i, [])
  else ListResources_loop ρ now reg cat "http/" (hb_TargetUrl (br_Http (cfg_Bridges cfg))) i
         (listed_resources ρ cat resource) [].

Definition ListCoap (ρ : ranger) (now : Time) (cfg : Config) reg cat i (resource : string)
    : ProtocolResourceIndex * list (ResourceItem J) :=
  if decide (cb_TargetUrl (br_Coap (cfg_Bridges cfg)) = "") then (i, [])
  else ListResources_loop ρ now reg cat "coap/" (cb_TargetUrl (br_Coap (cfg_Bridges cfg))) i
         (listed_resources ρ cat resource) [].
End index.

(** * MQTT topics *)

Definition mqtt_item (topic direction peer : string) : MqttTopicItem :=
  {| mi_Topic := topic; mi_Direction := direction; mi_QosDefault := 1; mi_Retain := false;
     mi_Providers := if decide (direction = "pub") then [peer] else [];
     mi_Consumers := if decide (direction = "pub") then [] else [peer];
     mi_RuntimeStats := zero_stats |}.

(** [add]. *)
Definition add_item (items : gmap (string * string) MqttTopicItem) (item : MqttTopicItem)
    : gmap (string * string) MqttTopicItem :=
  <[(mi_Topic item, mi_Direction item) := item]> items.

Definition core_topics (t : TopicSet) : list string :=
  [t_PeerRegister t; t_PeerHeartbeat t; t_PeerQuery t; t_PeerResourceReport t;
   t_PeerUnregister t; t_PeerResourceRegister t; t_PeerAuthVerify t; t_PeerListQuery t].

Definition core_items (t : TopicSet) (peer : string) : list MqttTopicItem :=
  core_topics t ≫= λ topic, [mqtt_item topic "pub" peer; mqtt_item topic "sub" peer].

Definition mapping_items (cfg : Config) (peer : string) : list MqttTopicItem :=
  br_MqttMappings (cfg_Bridges cfg) ≫= λ m,
    [mqtt_item (mm_Source m) "sub" peer; mqtt_item (mm_Target m) "pub" peer].

Definition set_stats (item : MqttTopicItem) (st : RuntimeStats) : MqttTopicItem :=
  {| mi_Topic := mi_Topic item; mi_Direction := mi_Direction item;
     mi_QosDefault := mi_QosDefault item; mi_Retain := mi_Retain item;
     mi_Providers := mi_Providers item; mi_Consumers := mi_Consumers item;
     mi_RuntimeStats := st |}.

Definition stat_key (item : MqttTopicItem) : string :=
  "mqtt/" +:+ mi_Topic item +:+ "/" +:+ mi_Direction item.

(** The last loop. *)
Fixpoint select_items (now : Time) (i : ProtocolResourceIndex) (direction : string) (qos : Z)
    (items out : list MqttTopicItem) : ProtocolResourceIndex * list MqttTopicItem :=
  match items with
  | [] => (i, out)
  | item :: rest =>
      if decide (direction ≠ "" ∧ direction ≠ "both" ∧ mi_Direction item ≠ direction)
      then select_items now i direction qos rest out
      else if decide (qos >= 0 ∧ mi_QosDefault item ≠ qos)
      then select_items now i direction qos rest out
      else
        let '(i', st) := bumpStat now i (stat_key item) in
        select_items now i' direction qos rest (out ++ [set_stats item st])
  end.

Definition ListMqttTopics (o : item_order) (now : Time) (cfg : Config) (topics : TopicSet)
    (i : ProtocolResourceIndex) (direction peerID : string) (qos : Z)
    : ProtocolResourceIndex * list MqttTopicItem :=
  let peer := if decide (peerID ≠ "") then peerID else pc_Id (cfg_Peer cfg) in
  let items := foldl add_item (∅ : gmap (string * string) MqttTopicItem)
                 (core_items topics peer ++ mapping_items cfg peer) in
  let '(i, out) := select_items now i direction qos
                     (order_items o (map_to_list items).*2) [] in
  (i, merge_sort item_le out).

Definition GetMqttTopic (o : item_order) (now : Time) (cfg : Config) (topics : TopicSet)
    (i : ProtocolResourceIndex) (name : string)
    : ProtocolResourceIndex * list MqttTopicItem :=
  let '(i, all) := ListMqttTopics o now cfg topics i "both" "" (-1) in
  (i, foldl (λ out item, if decide (mi_Topic item = name) then out ++ [item] else out) [] all).
