(* ===== verification/IndexProps.v ===== *)
(** Correctness of the protocol index: what each listing contains, in which order,
    and what it counts. *)
From S2P Require Import Prelude GoStrings GoTime Errors Metrics TopicFilter Acl Topics.
From S2P Require Import Mq MqProps Model Message Codec Registry PeerRegistry Catalog Config.
From S2P Require Import ProtocolIndex.
From Stdlib Require Import Ascii.

Open Scope string_scope.
Open Scope list_scope.
Open Scope Z_scope.

(** * MQTT topics *)

(** The topics with their directions that the node offers. *)
Definition offered (cfg : Config) (t : TopicSet) : list (string * string) :=
  (core_topics t ≫= λ topic, [(topic, "pub"); (topic, "sub")]) ++
  (br_MqttMappings (cfg_Bridges cfg) ≫= λ m, [(mm_Source m, "sub"); (mm_Target m, "pub")]).

Definition item_key (item : MqttTopicItem) : string * string :=
  (mi_Topic item, mi_Direction item).

Definition item_of (peer : string) (k : string * string) : MqttTopicItem :=
  mqtt_item k.1 k.2 peer.

Lemma item_of_key (peer : string) (k : string * string) : item_key (item_of peer k) = k.
Proof. by destruct k. Qed.

Lemma all_items_offered cfg t (peer : string) :
  core_items t peer ++ mapping_items cfg peer = item_of peer <$> offered cfg t.
Proof.
  unfold core_items, mapping_items, offered. rewrite fmap_app. f_equal.
  induction (br_MqttMappings (cfg_Bridges cfg)) as [|m l IH]; [done|].
  cbn. by rewrite IH.
Qed.

Lemma add_items_lookup (peer : string) (l : list (string * string))
    (m : gmap (string * string) MqttTopicItem) (k : string * string) :
  foldl add_item m (item_of peer <$> l) !! k =
  if decide (k ∈ l) then Some (item_of peer k) else m !! k.
Proof.
  revert m. induction l as [|k1 l IH]; intros m; cbn [fmap list_fmap foldl].
  - rewrite decide_False; [done|]. apply not_elem_of_nil.
  - rewrite IH. destruct (decide (k ∈ l)); [by rewrite decide_True by (by right)|].
    unfold add_item. fold (item_key (item_of peer k1)). rewrite item_of_key.
    destruct (decide (k = k1)) as [->|Hne].
    + rewrite lookup_insert_eq, decide_True; [done|left].
    + rewrite lookup_insert_ne, decide_False by (rewrite ?not_elem_of_cons; done). done.
Qed.

(** What the last loop keeps. *)
Definition wanted (direction : string) (qos : Z) (item : MqttTopicItem) : Prop :=
  (direction = "" ∨ direction = "both" ∨ mi_Direction item = direction) ∧
  (qos < 0 ∨ mi_QosDefault item = qos).

#[export] Instance wanted_dec direction qos item : Decision (wanted direction qos item).
Proof. unfold wanted. apply _. Defined.

Lemma wanted_iff direction qos item :
  ¬ (direction ≠ "" ∧ direction ≠ "both" ∧ mi_Direction item ≠ direction) →
  ¬ (qos >= 0 ∧ mi_QosDefault item ≠ qos) → wanted direction qos item.
Proof.
  intros Hd Hq. split.
  - destruct (decide (direction = "")); [by left|]. right.
    destruct (decide (direction = "both")); [by left|]. right.
    destruct (decide (mi_Direction item = direction)); [done|]. by destruct Hd.
  - destruct (decide (qos < 0)); [by left|right].
    destruct (decide (mi_QosDefault item = qos)); [done|]. destruct Hq. split; [lia|done].
Qed.

(** The counter of a key after a query. *)
Definition bumped (now : Time) (i : ProtocolResourceIndex) (key : string) : RuntimeStats :=
  (bumpStat now i key).2.

Lemma bumpStat_lookup now i key k :
  ix_stats (bumpStat now i key).1 !! k =
  if decide (k = key) then Some (bumped now i key) else ix_stats i !! k.
Proof.
  unfold bumped, bumpStat. simpl. destruct (decide (k = key)) as [->|Hne].
  - by rewrite lookup_insert_eq.
  - by rewrite lookup_insert_ne by done.
Qed.

Lemma bumped_other now i key k :
  k ≠ key → bumped now (bumpStat now i key).1 k = bumped now i k.
Proof.
  intros Hk. unfold bumped, bumpStat. simpl. by rewrite lookup_insert_ne by done.
Qed.

Definition with_stats now i (item : MqttTopicItem) : MqttTopicItem :=
  set_stats item (bumped now i (stat_key item)).

Lemma select_items_spec now direction qos items i out :
  NoDup (stat_key <$> items) →
  let sel := filter (wanted direction qos) items in
  (select_items now i direction qos items out).2 = out ++ (with_stats now i <$> sel) ∧
  ∀ k, ix_stats (select_items now i direction qos items out).1 !! k =
    if decide (k ∈ stat_key <$> sel) then Some (bumped now i k) else ix_stats i !! k.
Proof.
  revert i out. induction items as [|item items IH]; intros i out Hnd; cbn [select_items].
  { cbn [filter list_filter fmap list_fmap fst snd]. rewrite app_nil_r.
    split; [done|]. intros k. rewrite decide_False; [done|].
    apply not_elem_of_nil. }
  cbn [fmap list_fmap] in Hnd. apply NoDup_cons in Hnd as [Hni Hnd].
  cbv zeta. rewrite filter_cons. set (sel := filter (wanted direction qos) items).
  destruct (decide (direction ≠ "" ∧ _)) as [Hd|Hd].
  { rewrite decide_False by (unfold wanted; naive_solver). by apply IH. }
  destruct (decide (qos >= 0 ∧ _)) as [Hq|Hq].
  { rewrite decide_False by (intros [_ ?]; lia). by apply IH. }
  rewrite decide_True by by apply wanted_iff.
  pose proof (bumpStat_lookup now i (stat_key item)) as Hb.
  pose proof (bumped_other now i (stat_key item)) as Ho.
  fold (bumped now i (stat_key item)) in Hb.
  assert ((bumpStat now i (stat_key item)).2 = bumped now i (stat_key item)) as Hst by done.
  destruct (bumpStat now i (stat_key item)) as [i' st]. cbn [fst snd] in *. subst st.
  destruct (IH i' (out ++ [with_stats now i item]) Hnd) as [IH1 IH2].
  fold sel in IH1, IH2.
  fold (with_stats now i item). rewrite IH1. split.
  - rewrite <- app_assoc. cbn [app fmap list_fmap]. do 2 f_equal.
    apply list_fmap_ext. intros j x Hx. unfold with_stats. f_equal. apply Ho.
    intros E. apply Hni. rewrite <- E. apply list_elem_of_fmap. exists x. split; [done|].
    apply list_elem_of_lookup_2 in Hx. by apply list_elem_of_filter in Hx as [_ ?].
  - intros k. rewrite IH2. cbn [fmap list_fmap].
    destruct (decide (k ∈ stat_key <$> sel)) as [Hk|Hk].
    + rewrite (decide_True (Some (bumped now i k))) by (by right). f_equal. apply Ho. intros ->. apply Hni.
      apply list_elem_of_fmap in Hk as (x & -> & Hx).
      apply list_elem_of_fmap. exists x. apply list_elem_of_filter in Hx as [_ ?]. done.
    + rewrite Hb. destruct (decide (k = stat_key item)) as [->|Hne].
      * by rewrite decide_True by left.
      * by rewrite decide_False by (rewrite not_elem_of_cons; done).
Qed.

(** ** Keys *)

Lemma offered_direction cfg t (k : string * string) :
  k ∈ offered cfg t → k.2 = "pub" ∨ k.2 = "sub".
Proof.
  unfold offered. rewrite elem_of_app, !list_elem_of_bind.
  intros [(y & Hk & _)|(y & Hk & _)];
    repeat (apply elem_of_cons in Hk as [->|Hk]; [by auto|]); by apply not_elem_of_nil in Hk.
Qed.

Lemma direction_length (d e : string) :
  d = "pub" ∨ d = "sub" → e = "pub" ∨ e = "sub" →
  String.length ("/" +:+ d) = String.length ("/" +:+ e).
Proof. by intros [->| ->] [->| ->]. Qed.

Lemma stat_key_inj (peer : string) (k1 k2 : string * string) :
  k1.2 = "pub" ∨ k1.2 = "sub" → k2.2 = "pub" ∨ k2.2 = "sub" →
  stat_key (item_of peer k1) = stat_key (item_of peer k2) → k1 = k2.
Proof.
  destruct k1 as [t1 d1], k2 as [t2 d2]. cbn [fst snd]. intros H1 H2 E.
  unfold stat_key in E. apply string_app_inj_l in E. cbn [item_of mqtt_item mi_Topic mi_Direction fst snd] in E.
  apply string_app_inj_length in E as [-> E]; [|by apply direction_length].
  by apply string_app_inj_l in E as ->.
Qed.

(** ** What is listed *)

(** The map of the items, and its values in the order in which they are visited. *)
Definition offered_map (cfg : Config) (t : TopicSet) (peer : string)
    : gmap (string * string) MqttTopicItem :=
  foldl add_item ∅ (core_items t peer ++ mapping_items cfg peer).

Lemma offered_map_lookup cfg t (peer : string) (k : string * string) :
  offered_map cfg t peer !! k =
  if decide (k ∈ offered cfg t) then Some (item_of peer k) else None.
Proof.
  unfold offered_map. rewrite all_items_offered, add_items_lookup. done.
Qed.

Lemma offered_map_pairs cfg t (peer : string) (k : string * string) item :
  (k, item) ∈ map_to_list (offered_map cfg t peer) ↔
  k ∈ offered cfg t ∧ item = item_of peer k.
Proof.
  rewrite elem_of_map_to_list, offered_map_lookup. case_decide; naive_solver.
Qed.

Lemma visited_items o cfg t (peer : string) item :
  item ∈ order_items o (map_to_list (offered_map cfg t peer)).*2 ↔
  ∃ k, k ∈ offered cfg t ∧ item = item_of peer k.
Proof.
  rewrite order_perm, list_elem_of_fmap. split.
  - intros ([k x] & -> & Hx). exists k. by apply offered_map_pairs in Hx.
  - intros (k & Hk & ->). exists (k, item_of peer k). split; [done|].
    by apply offered_map_pairs.
Qed.

Lemma visited_keys_NoDup {B} (f : MqttTopicItem → B) o cfg t (peer : string) :
  (∀ k1 k2, k1 ∈ offered cfg t → k2 ∈ offered cfg t →
     f (item_of peer k1) = f (item_of peer k2) → k1 = k2) →
  NoDup (f <$> order_items o (map_to_list (offered_map cfg t peer)).*2).
Proof.
  intros Hf. rewrite order_perm, <- list_fmap_compose.
  apply NoDup_fmap_2_strong; [|apply NoDup_map_to_list].
  intros [k1 x1] [k2 x2] H1 H2.
  apply offered_map_pairs in H1 as [H1 ->], H2 as [H2 ->]. cbn.
  intros E. by rewrite (Hf _ _ H1 H2 E).
Qed.

Lemma ListMqttTopics_unfold o now cfg t i direction peerID qos :
  ListMqttTopics o now cfg t i direction peerID qos =
  let peer := if decide (peerID ≠ "") then peerID else pc_Id (cfg_Peer cfg) in
  let r := select_items now i direction qos
             (order_items o (map_to_list (offered_map cfg t peer)).*2) [] in
  (r.1, merge_sort item_le r.2).
Proof.
  unfold ListMqttTopics. cbv zeta. fold (offered_map cfg t (if decide (peerID ≠ "") then peerID else pc_Id (cfg_Peer cfg))).
  by destruct (select_items _ _ _ _ _ _).
Qed.

(** A listing of MQTT topics, whatever the iteration order of its map, is sorted by
    topic and direction, has no (topic, direction) twice, and holds exactly the topics
    of the node with their directions that the query wants (an empty direction or
    "both" wants both; a negative QoS wants any), each under the given peer or the
    node's own; it counts one query for each item listed and leaves every other
    counter as it was. *)
Theorem ListMqttTopics_lists_offered o now cfg t i direction peerID qos :
  let peer := if decide (peerID ≠ "") then peerID else pc_Id (cfg_Peer cfg) in
  let '(i', out) := ListMqttTopics o now cfg t i direction peerID qos in
  StronglySorted item_le out ∧
  NoDup (item_key <$> out) ∧
  (∀ item, item ∈ out ↔ ∃ k, k ∈ offered cfg t ∧ wanted direction qos (item_of peer k) ∧
                             item = with_stats now i (item_of peer k)) ∧
  (∀ key, ix_stats i' !! key =
     if decide (key ∈ stat_key <$> out) then Some (bumped now i key)
     else ix_stats i !! key).
Proof.
  cbv zeta. rewrite ListMqttTopics_unfold. cbv zeta.
  set (peer := if decide (peerID ≠ "") then peerID else pc_Id (cfg_Peer cfg)).
  set (items := order_items o _).
  assert (NoDup (stat_key <$> items)) as Hnd.
  { apply visited_keys_NoDup. intros k1 k2 H1 H2. apply stat_key_inj; by eapply offered_direction. }
  assert (NoDup (item_key <$> items)) as Hnk.
  { apply visited_keys_NoDup. intros k1 k2 _ _. by rewrite !item_of_key. }
  destruct (select_items_spec now direction qos items i [] Hnd) as [Hout Hst].
  set (sel := filter (wanted direction qos) items) in *.
  assert ((with_stats now i <$> sel) ≡ₚ merge_sort item_le (with_stats now i <$> sel)) as Hp
    by by rewrite merge_sort_Permutation.
  rewrite Hout. cbn [app]. split_and!.
  - apply (StronglySorted_merge_sort item_le).
  - rewrite <- Hp, <- list_fmap_compose. change (item_key ∘ with_stats now i) with item_key.
    eapply sublist_NoDup; [exact Hnk|]. apply fmap_sublist, sublist_filter.
  - intros item. rewrite <- Hp, list_elem_of_fmap. unfold sel.
    setoid_rewrite list_elem_of_filter. unfold items. setoid_rewrite visited_items. naive_solver.
  - intros key. rewrite Hst.
    assert (key ∈ stat_key <$> sel ↔
            key ∈ stat_key <$> merge_sort item_le (with_stats now i <$> sel)) as E.
    { rewrite <- Hp, <- list_fmap_compose. done. }
    by destruct (decide (key ∈ stat_key <$> sel)) as [Hk|Hk]; rewrite E in Hk; case_decide.
Qed.

(** The listing gives every topic QoS 1, but heartbeats and resource reports are
    published at QoS 0. *)
Lemma index_qos_differs (peer direction : string) :
  let t := NewDefaultTopicSet "default" in
  mi_QosDefault (item_of peer (t_PeerHeartbeat t, direction)) = 1 ∧
  qosForTopic (t_PeerHeartbeat t) = 0 ∧ qosForTopic (t_PeerResourceReport t) = 0.
Proof. split_and!; [done|by_compute..]. Qed.
