(* ===== verification/Api.v ===== *)
(** The HTTP API (api/router.go, api/handler.go): the server, the replies, the checks
    of a request against a resource's schema, and the direct route.

    Decoding a body is encoding/json's: a handler takes the decoded request, or
    [None].  net/http, net/url and net are parameters. *)
From S2P Require Import Prelude GoStrings GoTime Errors Metrics TopicFilter Acl Topics.
From S2P Require Import Mq Model Message Codec Registry PeerRegistry Catalog DataService.
From S2P Require Import Streams Config Route Coap CoapBridge Bridges HttpBridge ProtocolIndex.
From Stdlib Require Import Ascii.

Open Scope string_scope.
Open Scope list_scope.
Open Scope Z_scope.

(** * Replies *)

Definition StatusOK : Z := 200.
Definition StatusAccepted : Z := 202.
Definition StatusForbidden : Z := 403.
Definition StatusNotFound : Z := 404.
Definition StatusInternalServerError : Z := 500.
Definition StatusGatewayTimeout : Z := 504.

(** What [writeJSON] is given: maps and slices, and the model's structs as leaves. *)
Inductive json (J : Type) :=
| JStr (s : string)
| JInt (n : Z)
| JList (l : list (json J))
| JObj (fields : list (string * json J))
| JPeer (p : DdPeerInfo)
| JSchema (schema : ResourceMetaSchema)
| JSession (x : StreamSession)
| JRecord (rec : TransferRecord)
| JDdError (e : DdError)
| JItem (item : ResourceItem J)
| JTopic (item : MqttTopicItem).
Arguments JStr {J} _.
Arguments JInt {J} _.
Arguments JList {J} _.
Arguments JObj {J} _.
Arguments JPeer {J} _.
Arguments JSchema {J} _.
Arguments JSession {J} _.
Arguments JRecord {J} _.
Arguments JDdError {J} _.
Arguments JItem {J} _.
Arguments JTopic {J} _.

Record api_reply (J : Type) := { rep_status : Z; rep_body : json J }.
Arguments rep_status {J} _.
Arguments rep_body {J} _.

Definition writeJSON {J} (status : Z) (v : json J) : api_reply J :=
  {| rep_status := status; rep_body := v |}.

(** [map[string]string{"error": text}]. *)
Definition jerror {J} (text : string) : json J := JObj [("error", JStr text)].

Definition errorToHTTPStatus (code : DdErrorCode) : Z :=
  if decide (code ∈ [ErrInvalidEnvelope; ErrDuplicateRequest]) then StatusBadRequest
  else if decide (code ∈ [ErrUnauthorizedPeer; ErrAclDenied]) then StatusForbidden
  else if decide (code ∈ [ErrRouteNotFound; ErrPeerNotFound; ErrStreamNotFound])
  then StatusNotFound
  else if decide (code = ErrSyncTimeout) then StatusGatewayTimeout
  else if decide (code ∈ [ErrInternal; ErrInvalidConfig]) then StatusInternalServerError
  else StatusInternalServerError.

Definition writeError {J} (err : DdError) : api_reply J :=
  writeJSON (errorToHTTPStatus (e_Code err)) (JDdError err).

(** The two replies to an error of the data service: a [*DdError], or another. *)
Definition service_error {J} (err : error) : api_reply J :=
  match err with
  | EDd e => writeError e
  | EText text => writeJSON StatusInternalServerError (jerror text)
  end.

(** * The server *)

Record Server (St : Type) := {
  srv_cfg : option Config;
  srv_topics : TopicSet;
  srv_peerRegistry : PeerRegistryService St;
  srv_dataService : option DdDataService;
  srv_streamService : StreamService;
  srv_resourceCatalog : ResourceCatalog;
  srv_protocolIndex : option ProtocolResourceIndex
}.
Arguments srv_cfg {St} _.
Arguments srv_topics {St} _.
Arguments srv_peerRegistry {St} _.
Arguments srv_dataService {St} _.
Arguments srv_streamService {St} _.
Arguments srv_resourceCatalog {St} _.
Arguments srv_protocolIndex {St} _.

Definition NewServer {St} (cfg : option Config) (topics : TopicSet)
    (peerRegistry : PeerRegistryService St) (dataService : option DdDataService)
    (streamService : StreamService) (resourceCatalog : ResourceCatalog)
    (protocolIndex : option ProtocolResourceIndex) : Server St :=
  {| srv_cfg := cfg; srv_topics := topics; srv_peerRegistry := peerRegistry;
     srv_dataService := dataService; srv_streamService := streamService;
     srv_resourceCatalog := resourceCatalog; srv_protocolIndex := protocolIndex |}.

Definition set_registry {St} (s : Server St) (r : PeerRegistryService St) : Server St :=
  {| srv_cfg := srv_cfg s; srv_topics := srv_topics s; srv_peerRegistry := r;
     srv_dataService := srv_dataService s; srv_streamService := srv_streamService s;
     srv_resourceCatalog := srv_resourceCatalog s; srv_protocolIndex := srv_protocolIndex s |}.
Definition set_data {St} (s : Server St) (d : DdDataService) : Server St :=
  {| srv_cfg := srv_cfg s; srv_topics := srv_topics s; srv_peerRegistry := srv_peerRegistry s;
     srv_dataService := Some d; srv_streamService := srv_streamService s;
     srv_resourceCatalog := srv_resourceCatalog s; srv_protocolIndex := srv_protocolIndex s |}.
Definition set_catalog {St} (s : Server St) (c : ResourceCatalog) : Server St :=
  {| srv_cfg := srv_cfg s; srv_topics := srv_topics s; srv_peerRegistry := srv_peerRegistry s;
     srv_dataService := srv_dataService s; srv_streamService := srv_streamService s;
     srv_resourceCatalog := c; srv_protocolIndex := srv_protocolIndex s |}.
Definition set_index {St} (s : Server St) (i : ProtocolResourceIndex) : Server St :=
  {| srv_cfg := srv_cfg s; srv_topics := srv_topics s; srv_peerRegistry := srv_peerRegistry s;
     srv_dataService := srv_dataService s; srv_streamService := srv_streamService s;
     srv_resourceCatalog := srv_resourceCatalog s; srv_protocolIndex := Some i |}.

(** * Request checks *)

Definition hasMetaField (msg : DdMessage) (f : string) : bool :=
  let h := msg_Header msg in
  if decide (f = "request_id") then negb (bool_decide (h_RequestId h = ""))
  else if decide (f = "correlation_id") then negb (bool_decide (h_CorrelationId h = ""))
  else if decide (f = "reply_to") then negb (bool_decide (h_ReplyTo h = ""))
  else if decide (f = "source_peer_id") then negb (bool_decide (h_SourcePeerId h = ""))
  else if decide (f = "target_peer_id") then negb (bool_decide (h_TargetPeerId h = ""))
  else if decide (f = "tenant") then negb (bool_decide (h_Tenant h = ""))
  else if decide (f = "trace_id") then negb (bool_decide (h_TraceId h = ""))
  else if decide (f = "idempotency_key") then negb (bool_decide (h_IdempotencyKey h = ""))
  else if decide (f = "timeout_ms") then bool_decide (h_TimeoutMs h > 0)
  else false.

Definition validateConstraint (msg : DdMessage) (fields : gmap string string) (f : string)
    (c : ResourceMetaConstraint) : option error :=
  if decide (f = "timeout_ms") then
    let value := h_TimeoutMs (msg_Header msg) in
    match c_Min c with
    | Some lo =>
        if decide (value < lo)
        then Some (EText ("constraint violation: timeout_ms < " +:+ Itoa lo))
        else match c_Max c with
             | Some hi =>
                 if decide (value > hi)
                 then Some (EText ("constraint violation: timeout_ms > " +:+ Itoa hi)) else None
             | None => None
             end
    | None =>
        match c_Max c with
        | Some hi =>
            if decide (value > hi)
            then Some (EText ("constraint violation: timeout_ms > " +:+ Itoa hi)) else None
        | None => None
        end
    end
  else if decide (length (c_Enum c) = 0)%nat then None
  else
    let value := field fields f in
    if decide (value = "") then None
    else if decide (value ∈ c_Enum c) then None
    else Some (EText ("constraint violation: " +:+ f +:+ " not in enum")).

(** The three loops of [validateRequestMeta]. *)
Fixpoint check_required (msg : DdMessage) (required : list string) : option error :=
  match required with
  | [] => None
  | f :: rest =>
      if negb (hasMetaField msg f)
      then Some (EText ("missing required meta field: " +:+ f))
      else check_required msg rest
  end.

Fixpoint check_protocol_meta (fields : gmap string string) (keys : list string)
    : option error :=
  match keys with
  | [] => None
  | key :: rest =>
      if decide (field fields key = "")
      then Some (EText ("missing required protocol_meta field: " +:+ key))
      else check_protocol_meta fields rest
  end.

Fixpoint check_constraints (msg : DdMessage) (fields : gmap string string)
    (cs : list (string * ResourceMetaConstraint)) : option error :=
  match cs with
  | [] => None
  | (f, c) :: rest =>
      match validateConstraint msg fields f c with
      | Some err => Some err
      | None => check_constraints msg fields rest
      end
  end.

(** * The direct route *)

Section direct.
(** [http.NewRequest], the default client with the request's timeout, the host of a
    parsed URL ([None] when it does not parse or has none), address resolution, and
    the UDP socket with its deadline. *)
Context (NewRequest : string → string → option error)
  (Do : option Duration → http_request → http_outcome)
  (url_Host : string → option string) (ResolveUDPAddr : string → option error)
  (Udp : string → Time → bytes → udp_outcome).

(** The fields that become headers, in iteration order. *)
Definition direct_headers (ρ : ranger) (fields : gmap string string)
    : list (string * string) :=
  filter (λ kv, kv.1 ≠ "method" ∧ kv.1 ≠ "path") (range ρ fields).

(** [context.WithTimeout], when the message has a timeout. *)
Definition direct_timeout (msg : DdMessage) : option Duration :=
  if decide (h_TimeoutMs (msg_Header msg) > 0)
  then Some (dur_mul (h_TimeoutMs (msg_Header msg)) Millisecond) else None.

Definition sendDirectHTTP (ρ : ranger) (cfg : option Config) (msg : DdMessage)
    : DdMessage * result bytes :=
  match cfg with
  | None => (msg, Fail (EText "direct http target unavailable"))
  | Some cfg =>
      if negb (hb_Enabled (br_Http (cfg_Bridges cfg))) ||
         bool_decide (hb_TargetUrl (br_Http (cfg_Bridges cfg)) = "")
      then (msg, Fail (EText "direct http target unavailable"))
      else
        let '(msg, fields) := ProtocolFields msg in
        let method := if decide (field fields "method" = "") then "GET"
                      else field fields "method" in
        let path := if decide (field fields "path" = "") then "/" else field fields "path" in
        let url := hb_TargetUrl (br_Http (cfg_Bridges cfg)) +:+ path in
        match NewRequest method url with
        | Some err => (msg, Fail err)
        | None =>
            match Do (direct_timeout msg)
                    {| hreq_method := method; hreq_url := url;
                       hreq_headers := direct_headers ρ fields;
                       hreq_body := msg_Payload msg |} with
            | DoError err => (msg, Fail err)
            | DoResponse _ (Fail err) => (msg, Fail err)
            | DoResponse _ (Ok body) => (msg, Ok body)
            end
        end
  end.

(** The deadline of the socket: five seconds, the message's timeout, or the
    request's own deadline when that is earlier. *)
Definition direct_deadline (now : Time) (ctx_deadline : option Time) (msg : DdMessage) : Time :=
  let deadline := match direct_timeout msg with
                  | Some d => Add now d
                  | None => Add now (5 * Second)
                  end in
  match ctx_deadline with
  | Some dl => if Before dl deadline then dl else deadline
  | None => deadline
  end.

(** [nano] is the clock in nanoseconds, for the packet's message id.  A nil payload
    is the empty one. *)
Definition sendDirectCoap (now nano : Time) (ctx_deadline : option Time) (cfg : option Config)
    (msg : DdMessage) : go (DdMessage * result bytes) :=
  match cfg with
  | None => Ret (msg, Fail (EText "direct coap target unavailable"))
  | Some cfg =>
      if negb (cb_Enabled (br_Coap (cfg_Bridges cfg))) ||
         bool_decide (cb_TargetUrl (br_Coap (cfg_Bridges cfg)) = "")
      then Ret (msg, Fail (EText "direct coap target unavailable"))
      else
        let target := cb_TargetUrl (br_Coap (cfg_Bridges cfg)) in
        let target := default target (url_Host target) in
        match ResolveUDPAddr target with
        | Some err => Ret (msg, Fail err)
        | None =>
            let '(msg, fields) := ProtocolFields msg in
            let method := if decide (field fields "method" = "") then "GET"
                          else field fields "method" in
            let path := if decide (field fields "path" = "") then "/"
                        else field fields "path" in
            let reqPkt := buildCoapPacket nano method path (msg_Payload msg) in
            match Udp target (direct_deadline now ctx_deadline msg) reqPkt with
            | Received data =>
                (let? payload := parseCoapPayloadBytes data in
                 Ret (msg, Ok (default [] payload)))%go
            | DialError => Ret (msg, Fail (EText "dial"))
            | DeadlineError => Ret (msg, Fail (EText "deadline"))
            | WriteError => Ret (msg, Fail (EText "write"))
            | ReadClosed | ReadError => Ret (msg, Fail (EText "read"))
            end
        end
  end.

Definition sendDirectSync (ρ : ranger) (now nano : Time) (ctx_deadline : option Time)
    (cfg : option Config) (msg : DdMessage) : go (DdMessage * result bytes) :=
  if decide (msg_Protocol msg = DdProtocolHttp) then Ret (sendDirectHTTP ρ cfg msg)
  else if decide (msg_Protocol msg = DdProtocolCoap)
  then sendDirectCoap now nano ctx_deadline cfg msg
  else Ret (msg, Fail (EText ("direct route unsupported protocol: " +:+ msg_Protocol msg))).

Definition sendDirectAsync (ρ : ranger) (now nano : Time) (ctx_deadline : option Time)
    (cfg : option Config) (msg : DdMessage) : go (DdMessage * option error) :=
  if decide (msg_Protocol msg = DdProtocolHttp) then
    match sendDirectHTTP ρ cfg msg with
    | (msg, Ok _) => Ret (msg, None)
    | (msg, Fail err) => Ret (msg, Some err)
    end
  else if decide (msg_Protocol msg = DdProtocolCoap) then
    (let? (msg, r) := sendDirectCoap now nano ctx_deadline cfg msg in
     Ret (msg, match r with Ok _ => None | Fail err => Some err end))%go
  else Ret (msg, Some (EText ("direct route unsupported protocol: " +:+ msg_Protocol msg))).
End direct.
