(* ===== verification/ApiHandlers.v ===== *)
(** The handlers of the HTTP API (api/handler.go): one definition per handler, each
    a function from the state and the decoded request to the new state and the
    reply.  [handleTransferSync] blocks in [SendSync], so it has two parts. *)
From S2P Require Import Prelude GoStrings GoTime Errors Metrics TopicFilter Acl Topics.
From S2P Require Import Mq Model Message Codec Registry PeerRegistry Catalog DataService.
From S2P Require Import Streams Config Route Coap CoapBridge Bridges HttpBridge ProtocolIndex.
From S2P Require Import Api.
From Stdlib Require Import Ascii.

Open Scope string_scope.
Open Scope list_scope.
Open Scope Z_scope.

(** * The request bodies *)

Record PeerRegisterReq := {
  pq_Id : string;
  pq_Name : string;
  pq_Role : string;
  pq_Resources : list string;
  pq_Capabilities : list string;
  pq_ResourceSchemas : gmap string ResourceMetaSchema
}.

(** The body of the transfers; only the sync one has a timeout. *)
Record TransferReq := {
  tq_Resource : string;
  tq_Protocol : string;
  tq_SourcePeerId : string;
  tq_TargetPeerId : string;
  tq_TimeoutMs : Z;
  tq_TraceId : string;
  tq_Headers : gmap string string;
  tq_ProtocolMeta : gmap string (gmap string string);
  tq_Payload : bytes
}.

Record StreamOpenReq := {
  oq_Resource : string;
  oq_Profile : string;
  oq_SourcePeerId : string;
  oq_TargetPeerIds : list string;
  oq_IdleTimeoutMs : Z
}.

Record StreamCloseReq := { cq_StreamId : string; cq_Reason : string }.

(** An entry of the batch reply. *)
Record itemResult := {
  ir_Index : nat;
  ir_RequestID : string;
  ir_Resource : string;
  ir_RouteMode : RouteMode;
  ir_Status : string;
  ir_Error : string
}.

#[export] Instance itemResult_eq_dec : EqDecision itemResult.
Proof. solve_decision. Defined.

Section handlers.
Context {C St J : Type} `{MqClient C} `{Store St} `{JsonCodec DdMessage} `{Gzip}.
Context `{RegistryCodecs} `{StreamCodecs} (toMap : ResourceMetaSchema → option J).
(** net/http, net/url and net, as the direct route uses them. *)
Context (NewRequest : string → string → option error)
  (Do : option Duration → http_request → http_outcome)
  (url_Host : string → option string) (ResolveUDPAddr : string → option error)
  (Udp : string → Time → bytes → udp_outcome).
Implicit Types (w : World C) (s : Server St).

Abbreviation reply := (api_reply J).

(** * Peers *)

Definition handleHealth (uptime : string) : reply :=
  writeJSON StatusOK (JObj [("status", JStr "ok"); ("uptime", JStr uptime)]).

Definition handlePeerRegister (now : Time) w s (req : option PeerRegisterReq)
    : World C * Server St * reply :=
  match req with
  | None => (w, s, writeJSON StatusBadRequest (jerror "invalid body"))
  | Some req =>
      if decide (pq_Id req = "")
      then (w, s, writeJSON StatusBadRequest (jerror "id is required"))
      else
        let peer := {| p_Id := pq_Id req; p_Name := pq_Name req; p_Role := pq_Role req;
          p_Key := ""; p_Secret := ""; p_Status := ""; p_Resources := pq_Resources req;
          p_Capabilities := pq_Capabilities req; p_ResourceSchemas := pq_ResourceSchemas req;
          p_Tags := ∅; p_LastHeartbeatAt := time_zero; p_CreatedAt := time_zero;
          p_UpdatedAt := time_zero |} in
        let '(w, reg, err) := RegisterPeer now w (srv_peerRegistry s) peer in
        let s := set_registry s reg in
        match err with
        | Some err =>
            (w, s, writeJSON StatusInternalServerError (jerror (error_text err)))
        | None =>
            let s := set_catalog s (OnPeerRegistered (srv_resourceCatalog s) peer) in
            (w, s, writeJSON StatusAccepted
                     (JObj [("peer_id", JStr (pq_Id req));
                            ("status", JStr PeerStatusRegistering)]))
        end
  end.

Definition handlePeerHeartbeat (now : Time) w s (peerID : string) : World C * reply :=
  if decide (peerID = "") then (w, writeJSON StatusBadRequest (jerror "id is required"))
  else match HeartbeatPeer now w (srv_peerRegistry s) peerID with
       | (w, Some err) =>
           (w, writeJSON StatusInternalServerError (jerror (error_text err)))
       | (w, None) =>
           (w, writeJSON StatusOK (JObj [("peer_id", JStr peerID); ("status", JStr "ok")]))
       end.

Definition handlePeerUnregister (now : Time) w s (peerID : string)
    : World C * Server St * reply :=
  if decide (peerID = "") then (w, s, writeJSON StatusBadRequest (jerror "id is required"))
  else
    let '(w, reg, err) := UnregisterPeer now w (srv_peerRegistry s) peerID in
    let s := set_registry s reg in
    match err with
    | Some err => (w, s, writeJSON StatusInternalServerError (jerror (error_text err)))
    | None => (w, s, writeJSON StatusOK
                       (JObj [("peer_id", JStr peerID); ("status", JStr "unregistered")]))
    end.

Definition handlePeerGet s (peerID : string) : reply :=
  if decide (peerID = "") then writeJSON StatusBadRequest (jerror "id is required")
  else match store_Get (pr_store (srv_peerRegistry s)) peerID with
       | None => writeJSON StatusNotFound (jerror "peer not found")
       | Some peer => writeJSON StatusOK (JPeer peer)
       end.

(** The loop of [handlePeersQuery]. *)
Fixpoint peers_filter (role status : string) (peers filtered : list DdPeerInfo)
    : list DdPeerInfo :=
  match peers with
  | [] => filtered
  | p :: rest =>
      if decide (role ≠ "" ∧ p_Role p ≠ role) then peers_filter role status rest filtered
      else if decide (status ≠ "" ∧ p_Status p ≠ status)
      then peers_filter role status rest filtered
      else peers_filter role status rest (filtered ++ [p])
  end.

Definition handlePeersQuery (ρ : ranger) (now : Time) s (resource role status : string)
    : reply :=
  let peers := GetPeers ρ now (srv_peerRegistry s) resource in
  let filtered := peers_filter role status peers [] in
  writeJSON StatusOK (JObj [("peers", JList (JPeer <$> filtered));
                            ("count", JInt (Z.of_nat (length filtered)))]).

(** * Transfers *)

Definition validateRequestMeta (ρ : ranger) (now : Time) w s (resource : string)
    (msg : DdMessage) : World C * DdMessage * option error :=
  let validated w result := observe w (Inc ResourceMetaValidateTotal [resource; result]) in
  match GetResourceMetaSchema ρ now (srv_peerRegistry s) resource with
  | (_, false) => (validated w "skip", msg, None)
  | (schema, true) =>
      match check_required msg (s_Required schema) with
      | Some err => (validated w "invalid", msg, Some err)
      | None =>
          let '(msg, fields) := ProtocolFields msg in
          match check_protocol_meta fields (s_ProtocolMetaRequired schema) with
          | Some err => (validated w "invalid", msg, Some err)
          | None =>
              match check_constraints msg fields (range ρ (s_Constraints schema)) with
              | Some err => (validated w "invalid", msg, Some err)
              | None => (validated w "ok", msg, None)
              end
          end
      end
  end.

(** The message of a request: [stamp] is the formatted clock, [traceHeader] the
    request's X-Trace-Id header. *)
Definition request_message (prefix stamp traceHeader : string) (timeout : Z)
    (req : TransferReq) : DdMessage := {|
  msg_Version := ""; msg_Mode := ""; msg_Protocol := tq_Protocol req;
  msg_Resource := tq_Resource req;
  msg_Header := {|
    h_RequestId := prefix +:+ stamp; h_CorrelationId := ""; h_ReplyTo := "";
    h_TimeoutMs := timeout; h_SourcePeerId := tq_SourcePeerId req;
    h_TargetPeerId := tq_TargetPeerId req; h_Tenant := "";
    h_TraceId := if decide (tq_TraceId req = "") then traceHeader else tq_TraceId req;
    h_IdempotencyKey := "" |};
  msg_Meta := zero_header; msg_Headers := tq_Headers req;
  msg_ProtocolMeta := tq_ProtocolMeta req; msg_Payload := tq_Payload req;
  msg_CreatedAt := time_zero |}.

Definition newAsyncMessage (stamp traceHeader : string) (req : TransferReq) : DdMessage :=
  request_message "async-" stamp traceHeader 0 req.

(** A sync transfer is answered, or waits in [SendSync]. *)
Inductive sync_transfer :=
| SyncReplied (r : reply)
| SyncWaiting (msg : DdMessage) (ch : nat) (routeMode : RouteMode).

Definition sync_reply (routeMode : RouteMode) (resp : DdMessage) : reply :=
  writeJSON StatusOK (JObj [("response", JStr (of_bytes (msg_Payload resp)));
                            ("route_mode", JStr routeMode)]).

(** What [handleTransferSync] does once it goes through the broker. *)
Definition sync_broker (ρ : ranger) (now : Time) w s (resource : string)
    (routeMode : RouteMode) (msg : DdMessage) : World C * Server St * sync_transfer :=
  let w := observe w (Inc RouteDecisionTotal [routeMode]) in
  match srv_dataService s with
  | None => (w, s, SyncReplied (writeError (NewDdError ErrInternal "data service is unavailable")))
  | Some d =>
      match SendSync_begin ρ now w d (TransferRequest (srv_topics s) resource) (Some msg) with
      | (w, d, Returned (Ok resp)) => (w, set_data s d, SyncReplied (sync_reply routeMode resp))
      | (w, d, Returned (Fail err)) => (w, set_data s d, SyncReplied (service_error err))
      | (w, d, Waiting msg ch) => (w, set_data s d, SyncWaiting msg ch routeMode)
      end
  end.

(** The message of [handleTransferSync], as it is checked and routed. *)
Definition sync_message s (stamp traceHeader : string) (req : TransferReq) : DdMessage :=
  let msg := Normalize (request_message "req-" stamp traceHeader (tq_TimeoutMs req) req) in
  if decide (h_ReplyTo (msg_Header msg) = "")
  then set_Header msg (set_ReplyTo (msg_Header msg)
         (TransferResponseByRequest (srv_topics s) (h_RequestId (msg_Header msg))))
  else msg.

Definition handleTransferSync_begin (ρ : ranger) (now nano : Time) (ctx_deadline : option Time)
    (stamp traceHeader : string) w s (req : option TransferReq)
    : go (World C * Server St * sync_transfer) :=
  match req with
  | None => Ret (w, s, SyncReplied (writeJSON StatusBadRequest (jerror "invalid body")))
  | Some req =>
      if decide (tq_Resource req = "")
      then Ret (w, s, SyncReplied (writeJSON StatusBadRequest (jerror "resource is required")))
      else
        let msg := sync_message s stamp traceHeader req in
        match validateRequestMeta ρ now w s (tq_Resource req) msg with
        | (w, _, Some err) =>
            Ret (w, s, SyncReplied (writeJSON StatusBadRequest (jerror (error_text err))))
        | (w, msg, None) =>
            if decide (DecideRoute (srv_cfg s) (Some msg) = RouteModeDirect) then
              (let? (msg, direct) := sendDirectSync NewRequest Do url_Host ResolveUDPAddr Udp
                                       ρ now nano ctx_deadline (srv_cfg s) msg in
               match direct with
               | Ok body =>
                   Ret (observe w (Inc RouteDecisionTotal [RouteModeDirect]), s,
                        SyncReplied (writeJSON StatusOK
                          (JObj [("response", JStr (of_bytes body));
                                 ("route_mode", JStr RouteModeDirect)])))
               | Fail _ => Ret (sync_broker ρ now w s (tq_Resource req) RouteModeBroker msg)
               end)%go
            else Ret (sync_broker ρ now w s (tq_Resource req)
                        (DecideRoute (srv_cfg s) (Some msg)) msg)
        end
  end.

Definition handleTransferSync_end (start now : Time) w s (msg : DdMessage) (ch : nat)
    (routeMode : RouteMode) (why : wakeup) : option (World C * Server St * reply) :=
  match srv_dataService s with
  | None => None
  | Some d =>
      match SendSync_end start now w d msg ch why with
      | None => None
      | Some (w, d, Ok resp) => Some (w, set_data s d, sync_reply routeMode resp)
      | Some (w, d, Fail err) => Some (w, set_data s d, service_error err)
      end
  end.

(** The broker path of the async handlers: the state, and the error if any. *)
Definition async_broker (ρ : ranger) (now : Time) w s (d : DdDataService) (resource : string)
    (msg : DdMessage) : World C * Server St * option error :=
  match SendAsync ρ now now w d (EventPublish (srv_topics s) resource) (Some msg) with
  | (w, d, _, err) => (w, set_data s d, err)
  end.

Definition async_reply (resource : string) (routeMode : RouteMode) : reply :=
  writeJSON StatusAccepted (JObj [("resource", JStr resource); ("status", JStr "published");
                                  ("route_mode", JStr routeMode)]).

Definition async_publish (ρ : ranger) (now : Time) w s (resource : string)
    (routeMode : RouteMode) (msg : DdMessage) : World C * Server St * reply :=
  let w := observe w (Inc RouteDecisionTotal [routeMode]) in
  match srv_dataService s with
  | None => (w, s, writeError (NewDdError ErrInternal "data service is unavailable"))
  | Some d =>
      match async_broker ρ now w s d resource msg with
      | (w, s, Some err) => (w, s, service_error err)
      | (w, s, None) => (w, s, async_reply resource routeMode)
      end
  end.

Definition handleTransferAsync (ρ : ranger) (now nano : Time) (ctx_deadline : option Time)
    (stamp traceHeader : string) w s (req : option TransferReq)
    : go (World C * Server St * reply) :=
  match req with
  | None => Ret (w, s, writeJSON StatusBadRequest (jerror "invalid body"))
  | Some req =>
      if decide (tq_Resource req = "")
      then Ret (w, s, writeJSON StatusBadRequest (jerror "resource is required"))
      else
        let msg := Normalize (newAsyncMessage stamp traceHeader req) in
        match validateRequestMeta ρ now w s (tq_Resource req) msg with
        | (w, _, Some err) => Ret (w, s, writeJSON StatusBadRequest (jerror (error_text err)))
        | (w, msg, None) =>
            if decide (DecideRoute (srv_cfg s) (Some msg) = RouteModeDirect) then
              (let? (msg, err) := sendDirectAsync NewRequest Do url_Host ResolveUDPAddr Udp
                                    ρ now nano ctx_deadline (srv_cfg s) msg in
               match err with
               | None =>
                   Ret (observe w (Inc RouteDecisionTotal [RouteModeDirect]), s,
                        async_reply (tq_Resource req) RouteModeDirect)
               | Some _ => Ret (async_publish ρ now w s (tq_Resource req) RouteModeBroker msg)
               end)%go
            else Ret (async_publish ρ now w s (tq_Resource req)
                        (DecideRoute (srv_cfg s) (Some msg)) msg)
        end
  end.

(** One turn of the batch loop; [stamp] names its message. *)
Definition batch_item (ρ : ranger) (now nano : Time) (ctx_deadline : option Time)
    (stamp traceHeader : string) w s (d : DdDataService) (idx : nat) (item : TransferReq)
    : go (World C * Server St * itemResult) :=
  let result id mode status err :=
    {| ir_Index := idx; ir_RequestID := id; ir_Resource := tq_Resource item;
       ir_RouteMode := mode; ir_Status := status; ir_Error := err |} in
  if decide (tq_Resource item = "")
  then Ret (w, s, result "" "" "failed" "resource is required")
  else
    let msg := Normalize (newAsyncMessage stamp traceHeader item) in
    let id := h_RequestId (msg_Header msg) in
    match validateRequestMeta ρ now w s (tq_Resource item) msg with
    | (w, _, Some err) => Ret (w, s, result id "" "failed" (error_text err))
    | (w, msg, None) =>
        let routeMode := DecideRoute (srv_cfg s) (Some msg) in
        let w := observe w (Inc RouteDecisionTotal [routeMode]) in
        let broker routeMode msg :=
          match async_broker ρ now w s d (tq_Resource item) msg with
          | (w, s, Some err) => (w, s, result id routeMode "failed" (error_text err))
          | (w, s, None) => (w, s, result id routeMode "published" "")
          end in
        if decide (routeMode = RouteModeDirect) then
          (let? (msg, err) := sendDirectAsync NewRequest Do url_Host ResolveUDPAddr Udp
                                ρ now nano ctx_deadline (srv_cfg s) msg in
           match err with
           | None => Ret (w, s, result id RouteModeDirect "published" "")
           | Some _ => Ret (broker RouteModeBroker msg)
           end)%go
        else Ret (broker routeMode msg)
    end.

(** The loop: [accepted] and [failed] count as the code counts. *)
Fixpoint batch_loop (ρ : ranger) (now nano : Time) (ctx_deadline : option Time)
    (stamp : nat → string) (traceHeader : string) w s (idx : nat) (items : list TransferReq)
    (accepted failed : Z) (results : list itemResult)
    : go (World C * Server St * (Z * Z * list itemResult)) :=
  match items with
  | [] => Ret (w, s, (accepted, failed, results))
  | item :: rest =>
      match srv_dataService s with
      | None => Panic "nil pointer dereference"
      | Some d =>
          (let? (w, s, r) := batch_item ρ now nano ctx_deadline (stamp idx) traceHeader w s d
                               idx item in
           if decide (ir_Status r = "published")
           then batch_loop ρ now nano ctx_deadline stamp traceHeader w s (S idx) rest
                  (accepted + 1) failed (results ++ [r])
           else batch_loop ρ now nano ctx_deadline stamp traceHeader w s (S idx) rest
                  accepted (failed + 1) (results ++ [r]))%go
      end
  end.

Definition batch_status (accepted failed : Z) : string * Z :=
  if decide (accepted = 0) then ("error", StatusBadRequest)
  else if decide (failed > 0) then ("partial", StatusAccepted)
  else ("ok", StatusAccepted).

Definition item_json (r : itemResult) : json J :=
  JObj ([("index", JInt (Z.of_nat (ir_Index r))); ("request_id", JStr (ir_RequestID r));
         ("resource", JStr (ir_Resource r)); ("route_mode", JStr (ir_RouteMode r));
         ("status", JStr (ir_Status r))] ++
        (if decide (ir_Error r = "") then [] else [("error", JStr (ir_Error r))])).

Definition handleTransferAsyncBatch (ρ : ranger) (now nano : Time)
    (ctx_deadline : option Time) (stamp : nat → string) (traceHeader : string) w s
    (req : option (list TransferReq)) : go (World C * Server St * reply) :=
  match req with
  | None => Ret (w, s, writeJSON StatusBadRequest (jerror "invalid body"))
  | Some items =>
      if decide (length items = 0)%nat
      then Ret (w, s, writeJSON StatusBadRequest (jerror "items is required"))
      else match srv_dataService s with
      | None => Ret (w, s, writeError (NewDdError ErrInternal "data service is unavailable"))
      | Some _ =>
          (let? (w, s, (accepted, failed, results)) :=
             batch_loop ρ now nano ctx_deadline stamp traceHeader w s 0 items 0 0 [] in
           let '(status, code) := batch_status accepted failed in
           let w := observe w (Inc AsyncBatchRequestsTotal [status]) in
           Ret (w, s, writeJSON code
             (JObj [("requested", JInt (Z.of_nat (length items))); ("accepted", JInt accepted);
                    ("failed", JInt failed); ("status", JStr status);
                    ("results", JList (item_json <$> results))])))%go
      end
  end.

(** A nil data service is a nil pointer to these two. *)
Definition handleTransferStatus s (requestId : string) : go reply :=
  if decide (requestId = "")
  then Ret (writeJSON StatusBadRequest (jerror "requestId is required"))
  else match srv_dataService s with
  | None => Panic "nil pointer dereference"
  | Some d =>
      match GetTransferStatus d requestId with
      | None => Ret (writeJSON StatusNotFound (jerror "transfer not found"))
      | Some rec => Ret (writeJSON StatusOK (JRecord rec))
      end
  end.

Definition handleMetrics (ρ : ranger) s : go reply :=
  let '(active, stale) := count_status (store_List ρ (pr_store (srv_peerRegistry s))) in
  match srv_dataService s with
  | None => Panic "nil pointer dereference"
  | Some d =>
      Ret (writeJSON StatusOK
             (JObj [("active_peers", JInt active); ("stale_peers", JInt stale);
                    ("pending_requests", JInt (Z.of_nat (PendingRequestCount d)))]))
  end.

(** * Streams *)

Definition handleStreamOpenReq (stamp : string) w s (req : option StreamOpenReq)
    : World C * reply :=
  match req with
  | None => (w, writeJSON StatusBadRequest (jerror "invalid body"))
  | Some req =>
      if decide (oq_Resource req = "")
      then (w, writeJSON StatusBadRequest (jerror "resource is required"))
      else
        let evt := {| so_StreamId := ""; so_Resource := oq_Resource req;
                      so_Profile := oq_Profile req; so_SourcePeerId := oq_SourcePeerId req;
                      so_TargetPeerIds := oq_TargetPeerIds req;
                      so_IdleTimeoutMs := oq_IdleTimeoutMs req |} in
        match OpenStream stamp w (srv_streamService s) evt with
        | (w, Some err) =>
            (w, writeJSON StatusInternalServerError (jerror (error_text err)))
        | (w, None) =>
            (w, writeJSON StatusAccepted (JObj [("status", JStr "stream open requested")]))
        end
  end.

Definition handleStreamCloseReq w s (req : option StreamCloseReq) : World C * reply :=
  match req with
  | None => (w, writeJSON StatusBadRequest (jerror "invalid body"))
  | Some req =>
      if decide (cq_StreamId req = "")
      then (w, writeJSON StatusBadRequest (jerror "stream_id is required"))
      else match CloseStream w (srv_streamService s) (cq_StreamId req) (cq_Reason req) with
      | (w, Some err) => (w, writeJSON StatusInternalServerError (jerror (error_text err)))
      | (w, None) =>
          (w, writeJSON StatusOK (JObj [("status", JStr "stream close requested")]))
      end
  end.

Definition handleStreamsList (ρ : ranger) s : reply :=
  let sessions := ListSessions ρ (srv_streamService s) in
  writeJSON StatusOK
    (JObj [("streams", JList (JSession <$> omap (λ addr, st_heap (srv_streamService s) !! addr)
                                             sessions));
           ("count", JInt (Z.of_nat (length sessions)))]).

(** * Resources *)

Definition handleResourceProviders (ρ : ranger) (now : Time) s (resource : string) : reply :=
  if decide (resource = "") then writeJSON StatusBadRequest (jerror "resource is required")
  else
    let providers := GetProviders (srv_resourceCatalog s) resource in
    let peers := GetPeers ρ now (srv_peerRegistry s) resource in
    let result := foldl (λ result p, if decide (p_Id p ∈ providers) then result ++ [p]
                                     else result) [] peers in
    writeJSON StatusOK (JObj [("resource", JStr resource); ("providers", JList (JPeer <$> result));
                              ("count", JInt (Z.of_nat (length result)))]).

Definition handleResourcesList (ρ : ranger) s : reply :=
  let resources := ListResources ρ (srv_resourceCatalog s) in
  writeJSON StatusOK (JObj [("resources", JList (JStr <$> resources));
                            ("count", JInt (Z.of_nat (length resources)))]).

Definition handleResourceMetaSchema (ρ : ranger) (now : Time) s (resource : string) : reply :=
  if decide (resource = "") then writeJSON StatusBadRequest (jerror "resource is required")
  else match GetResourceMetaSchema ρ now (srv_peerRegistry s) resource with
       | (_, false) => writeJSON StatusNotFound (jerror "resource meta schema not found")
       | (schema, true) =>
           writeJSON StatusOK (JObj [("resource", JStr resource); ("schema", JSchema schema)])
       end.

Definition items_reply {A} (protocol : string) (leaf : A → json J) (items : list A) : reply :=
  writeJSON StatusOK (JObj [("protocol", JStr protocol); ("items", JList (leaf <$> items));
                            ("count", JInt (Z.of_nat (length items)))]).

Definition index_unavailable : reply :=
  writeJSON StatusServiceUnavailable (jerror "protocol resource index is unavailable").

(** The four handlers over HTTP and CoAP resources; [lister] is [ListHTTP] or
    [ListCoap]. *)
Definition list_with (lister : ranger → Time → Config → PeerRegistryService St →
      ResourceCatalog → ProtocolResourceIndex → string →
      ProtocolResourceIndex * list (ResourceItem J))
    (protocol : string) (ρ : ranger) (now : Time) (cfg : Config) w s
    : World C * Server St * reply :=
  match srv_protocolIndex s with
  | None => (w, s, index_unavailable)
  | Some i =>
      let w := observe w (Inc ProtocolResourceQueryTotal [protocol; "list"]) in
      let '(i, items) := lister ρ now cfg (srv_peerRegistry s) (srv_resourceCatalog s) i "" in
      (w, set_index s i, items_reply protocol JItem items)
  end.

Definition by_name_with (lister : ranger → Time → Config → PeerRegistryService St →
      ResourceCatalog → ProtocolResourceIndex → string →
      ProtocolResourceIndex * list (ResourceItem J))
    (protocol : string) (ρ : ranger) (now : Time) (cfg : Config) w s (resource : string)
    : World C * Server St * reply :=
  if decide (resource = "")
  then (w, s, writeJSON StatusBadRequest (jerror "resource is required"))
  else match srv_protocolIndex s with
  | None => (w, s, index_unavailable)
  | Some i =>
      let w := observe w (Inc ProtocolResourceQueryTotal [protocol; "detail"]) in
      let '(i, items) := lister ρ now cfg (srv_peerRegistry s) (srv_resourceCatalog s) i
                           resource in
      if decide (length items = 0)%nat
      then (w, set_index s i, writeJSON StatusNotFound (jerror "resource not found"))
      else (w, set_index s i, items_reply protocol JItem items)
  end.

Definition handleHTTPProtocolResources := list_with (ListHTTP toMap) "http".
Definition handleHTTPProtocolResourceByName := by_name_with (ListHTTP toMap) "http".
Definition handleCoapProtocolResources := list_with (ListCoap toMap) "coap".
Definition handleCoapProtocolResourceByName := by_name_with (ListCoap toMap) "coap".

(** The [qos] query parameter: absent, or one of the two accepted numbers
    ([strconv.Atoi] reads a sign and leading zeros). *)
Definition strip_sign (s : string) : string :=
  match s with
  | String c s' => if decide (c = "+"%char ∨ c = "-"%char) then s' else s
  | EmptyString => s
  end.

Definition atoi_qos (v : string) : option Z :=
  let digits := strip_sign v in
  let ds := to_bytes digits in
  if decide (ds = []) then None
  else if forallb (λ c, bool_decide (c = "0"%char)) ds then Some 0
  else if forallb (λ c, bool_decide (c = "0"%char)) (removelast ds) &&
          bool_decide (last ds = Some "1"%char) &&
          negb (HasPrefix v "-") then Some 1
  else None.

Definition handleMqttProtocolTopics (o : item_order) (now : Time) (cfg : Config) w s
    (direction peerID qos : string) : World C * Server St * reply :=
  match srv_protocolIndex s with
  | None => (w, s, index_unavailable)
  | Some i =>
      let w := observe w (Inc ProtocolResourceQueryTotal ["mqtt"; "list"]) in
      let direction := if decide (direction = "") then "both" else direction in
      match (if decide (qos = "") then Some (-1) else atoi_qos qos) with
      | None => (w, s, writeJSON StatusBadRequest (jerror "qos must be 0 or 1"))
      | Some qos =>
          let '(i, items) := ListMqttTopics o now cfg (srv_topics s) i direction peerID qos in
          (w, set_index s i, items_reply "mqtt" JTopic items)
      end
  end.

Definition handleMqttProtocolTopicByName (o : item_order) (now : Time) (cfg : Config) w s
    (name : string) : World C * Server St * reply :=
  if decide (name = "") then (w, s, writeJSON StatusBadRequest (jerror "name is required"))
  else match srv_protocolIndex s with
  | None => (w, s, index_unavailable)
  | Some i =>
      let w := observe w (Inc ProtocolResourceQueryTotal ["mqtt"; "detail"]) in
      let '(i, items) := GetMqttTopic o now cfg (srv_topics s) i name in
      if decide (length items = 0)%nat
      then (w, set_index s i, writeJSON StatusNotFound (jerror "topic not found"))
      else (w, set_index s i, items_reply "mqtt" JTopic items)
  end.

End handlers.
