(* ===== verification/Main.v ===== *)
(** The process (cmd/main.go): how the services are built from the configuration,
    in which order they start, and what the node then listens to.

    The connection to the broker is made before; the HTTP server, the signals and
    the log are the operating system's. *)
From S2P Require Import Prelude GoStrings GoTime Errors Metrics TopicFilter Acl Topics.
From S2P Require Import Mq Model Message Codec Registry PeerRegistry PeerList Catalog.
From S2P Require Import DataService Streams Config Route Auth Discovery Coap Bridges.
From S2P Require Import HttpBridge CoapBridge ProtocolIndex Api.

Open Scope string_scope.
Open Scope list_scope.
Open Scope Z_scope.

(** * Building *)

Definition acl_rule (r : AclRule) : TopicAclRule :=
  {| r_PeerId := ar_PeerId r; r_Action := ar_Action r; r_Pattern := ar_Pattern r;
     r_Allow := ar_Allow r |}.

Definition buildAclService (cfg : Config) : TopicAclService :=
  let acl := NewTopicAclService in
  let rules := foldl (λ rules r, rules ++ [acl_rule r]) [] (ac_Rules (cfg_Acl cfg)) in
  if decide (0 < length rules)%nat then SetRules acl rules else acl.

Definition buildPeerInfo (cfg : Config) : DdPeerInfo :=
  {| p_Id := pc_Id (cfg_Peer cfg); p_Name := pc_Name (cfg_Peer cfg);
     p_Role := pc_Role (cfg_Peer cfg); p_Key := p_Key zero_peer;
     p_Secret := p_Secret zero_peer; p_Resources := p_Resources zero_peer;
     p_Capabilities := p_Capabilities zero_peer;
     p_ResourceSchemas := p_ResourceSchemas zero_peer; p_Status := p_Status zero_peer;
     p_Tags := p_Tags zero_peer;
     p_LastHeartbeatAt := p_LastHeartbeatAt zero_peer; p_CreatedAt := p_CreatedAt zero_peer;
     p_UpdatedAt := p_UpdatedAt zero_peer |}.

(** [setupLogging]: the level and whether records are JSON. *)
Inductive log_level := LevelDebug | LevelInfo | LevelWarn | LevelError.

Definition setupLogging (cfg : Config) : log_level * bool :=
  let l := lg_Level (cfg_Logging cfg) in
  (if decide (l = "debug") then LevelDebug
   else if decide (l = "warn") then LevelWarn
   else if decide (l = "error") then LevelError else LevelInfo,
   bool_decide (lg_Format (cfg_Logging cfg) = "json")).

Definition broadcastInterval (cfg : Config) : Duration :=
  let interval := dur_mul (bc_IntervalSec (pc_Broadcast (cfg_Peer cfg))) Second in
  if decide (interval ≤ 0) then 10 * Second else interval.

Definition broadcastTtl (cfg : Config) : Z :=
  let ttl := bc_TtlSec (pc_Broadcast (cfg_Peer cfg)) in
  if decide (ttl ≤ 0) then 30 else ttl.

(** The secrets of the node's own auth service. *)
Definition main_auth (cfg : Config) (topics : TopicSet) : AuthPeerService :=
  let peer := cfg_Peer cfg in
  let s := NewAuthPeerService topics None (ap_Secret (pc_Auth peer)) in
  if decide (pc_Key peer ≠ "" ∧ pc_Secret peer ≠ "")
  then SetSecret s (pc_Key peer) (pc_Secret peer) else s.

(** * The node *)

Record Node := {
  nd_registry : PeerRegistryService MemoryStore;
  nd_data : DdDataService;
  nd_streams : StreamService;
  nd_discovery : HubDiscoveryService;
  nd_auth : AuthPeerService;
  nd_peerList : PeerListService;
  nd_http : option HttpBridge;
  nd_coap : option CoapBridge;
  nd_mqtt : list MqttMapping;
  nd_server : Server MemoryStore;
  nd_broadcasts : bool;
  nd_registers : option DdPeerInfo
}.

(** How [main] comes to its end of startup: the node is up, or the process exits
    with a message. *)
Inductive startup :=
| Started (n : Node)
| Exited (message : string) (err : error).

Definition is_started (r : startup) : bool :=
  match r with Started _ => true | Exited _ _ => false end.

Definition main_http (cfg : Config) (topics : TopicSet) : option HttpBridge :=
  let b := br_Http (cfg_Bridges cfg) in
  if decide (hb_Enabled b = true ∧ hb_TargetUrl b ≠ "")
  then Some (NewHttpBridge topics (pc_Id (cfg_Peer cfg)) (hb_TargetUrl b)) else None.

Definition main_coap (cfg : Config) (topics : TopicSet) (counter : Z) : option CoapBridge :=
  let b := br_Coap (cfg_Bridges cfg) in
  if decide (cb_Enabled b = true ∧ cb_TargetUrl b ≠ "")
  then Some (NewCoapBridge topics (pc_Id (cfg_Peer cfg)) (cb_TargetUrl b) counter) else None.

Definition main_mappings (cfg : Config) : list MqttMapping :=
  (λ m, {| map_Source := mm_Source m; map_Target := mm_Target m |}) <$>
  br_MqttMappings (cfg_Bridges cfg).

Section main.
Context {C : Type} `{MqClient C} `{JsonCodec AuthBroadcast}.
Implicit Types (w : World C).

(** [if err := ...; err != nil { slog.Error(message, ...); os.Exit(1) }] *)
Definition start_or_exit (r : World C * option error) (message : string)
    (k : World C → World C * startup) : World C * startup :=
  match r with
  | (w, Some err) => (w, Exited message err)
  | (w, None) => k w
  end.

(** A component that is started only when it is configured. *)
Definition start_opt {A} (b : option A) (start : World C → A → World C * option error) w
    : World C * option error :=
  match b with Some b => start w b | None => (w, None) end.

Definition main_start (now : Time) (counter : Z) w (cfg : Config) : World C * startup :=
  let aclService := Some (buildAclService cfg) in
  let topics := NewDefaultTopicSet (cfg_Tenant cfg) in
  let peerRegistry := NewPeerRegistryService topics
    (dur_mul (dc_LeaseTtlSec (cfg_Discovery cfg)) Second) aclService in
  let dataService := NewDdDataService
    (dur_mul (sy_DefaultTimeoutMs (cfg_Sync cfg)) Millisecond) aclService in
  start_or_exit (SubscribeSyncResponses w (TransferResponseStream topics))
    "failed to subscribe sync response stream" (λ w,
  start_or_exit (SubscribeSyncResponses w (TransferResponseByRequestStream topics))
    "failed to subscribe request response stream" (λ w,
  start_or_exit (Registry_Start w peerRegistry) "failed to start peer registry" (λ w,
  let streamService := NewStreamService topics in
  start_or_exit (Streams_Start w streamService) "failed to start stream service" (λ w,
  let hubDiscovery := NewHubDiscoveryService topics (pc_Id (cfg_Peer cfg))
    (pc_Name (cfg_Peer cfg)) (pc_Role (cfg_Peer cfg)) (broadcastInterval cfg)
    (broadcastTtl cfg) in
  let '(w, err, broadcasts) := Discovery_Start w hubDiscovery in
  start_or_exit (w, err) "failed to start hub discovery" (λ w,
  let authPeerService := main_auth cfg topics in
  start_or_exit (Auth_Start w authPeerService) "failed to start auth peer service" (λ w,
  let w := if decide (pc_Role (cfg_Peer cfg) = "auth")
           then BroadcastAuth now w hubDiscovery
                  (ap_VerifyTopicSuffix (pc_Auth (cfg_Peer cfg))) ""
           else w in
  let peerListService := NewPeerListService topics aclService
    (dc_MaxPageSize (cfg_Discovery cfg)) in
  start_or_exit (PeerList_Start w peerListService) "failed to start peer list service" (λ w,
  start_or_exit (start_opt (main_http cfg topics) HttpBridge_Start w)
    "failed to start http bridge" (λ w,
  start_or_exit (start_opt (main_coap cfg topics counter) CoapBridge_Start w)
    "failed to start coap bridge" (λ w,
  let mappings := main_mappings cfg in
  start_or_exit (start_opt (if decide (0 < length mappings)%nat then Some mappings else None)
                   MqttBridge_Start w)
    "failed to start mqtt bridge" (λ w,
  (w, Started {|
    nd_registry := peerRegistry; nd_data := dataService; nd_streams := streamService;
    nd_discovery := hubDiscovery; nd_auth := authPeerService;
    nd_peerList := peerListService; nd_http := main_http cfg topics;
    nd_coap := main_coap cfg topics counter; nd_mqtt := mappings;
    nd_server := NewServer (Some cfg) topics peerRegistry (Some dataService) streamService
                   NewResourceCatalog (Some NewProtocolResourceIndex);
    nd_broadcasts := broadcasts;
    nd_registers := if decide (pc_Id (cfg_Peer cfg) ≠ "") then Some (buildPeerInfo cfg)
                    else None |}))))))))))).
End main.

(** * What the node subscribes *)

Definition response_subs (cfg : Config) : list (string * MessageHandler) :=
  let t := NewDefaultTopicSet (cfg_Tenant cfg) in
  [(TransferResponseStream t, hSyncResponse);
   (TransferResponseByRequestStream t, hSyncResponse)].

Definition registry_subs (cfg : Config) : list (string * MessageHandler) :=
  let t := NewDefaultTopicSet (cfg_Tenant cfg) in
  [(t_PeerRegister t, hRegister); (t_PeerHeartbeat t, hHeartbeat); (t_PeerQuery t, hQuery);
   (t_PeerResourceReport t, hResourceReport); (t_PeerUnregister t, hUnregister)].

Definition stream_subs (cfg : Config) : list (string * MessageHandler) :=
  let t := NewDefaultTopicSet (cfg_Tenant cfg) in
  [(StreamOpen t "*", hStreamOpen); (StreamClose t "*", hStreamClose)].

Definition discovery_subs (cfg : Config) : list (string * MessageHandler) :=
  let t := NewDefaultTopicSet (cfg_Tenant cfg) in
  [(t_HubBroadcast t, hHubBroadcast); (t_AuthBroadcast t, hAuthBroadcast)].

Definition auth_subs (cfg : Config) : list (string * MessageHandler) :=
  [(t_PeerAuthVerify (NewDefaultTopicSet (cfg_Tenant cfg)), hVerifyReq)].

Definition list_subs (cfg : Config) : list (string * MessageHandler) :=
  [(t_PeerListQuery (NewDefaultTopicSet (cfg_Tenant cfg)), hPeerListQuery)].

Definition bridge_subs (cfg : Config) (sync async : MessageHandler)
    : list (string * MessageHandler) :=
  let t := NewDefaultTopicSet (cfg_Tenant cfg) in
  [(TransferRequest t (pc_Id (cfg_Peer cfg)), sync);
   (EventPublish t (pc_Id (cfg_Peer cfg)), async)].

Definition http_subs (cfg : Config) : list (string * MessageHandler) :=
  let b := br_Http (cfg_Bridges cfg) in
  if decide (hb_Enabled b = true ∧ hb_TargetUrl b ≠ "")
  then bridge_subs cfg hHttpSyncRequest hHttpAsyncEvent else [].

Definition coap_subs (cfg : Config) : list (string * MessageHandler) :=
  let b := br_Coap (cfg_Bridges cfg) in
  if decide (cb_Enabled b = true ∧ cb_TargetUrl b ≠ "")
  then bridge_subs cfg hCoapSyncRequest hCoapAsyncEvent else [].

Definition mqtt_subs (cfg : Config) : list (string * MessageHandler) :=
  imap (λ i m, (map_Source m, hMqttForward i)) (main_mappings cfg).

(** Before and after the announcement of an auth peer. *)
Definition subs_before (cfg : Config) : list (string * MessageHandler) :=
  response_subs cfg ++ registry_subs cfg ++ stream_subs cfg ++ discovery_subs cfg ++
  auth_subs cfg.

Definition subs_after (cfg : Config) : list (string * MessageHandler) :=
  list_subs cfg ++ http_subs cfg ++ coap_subs cfg ++ mqtt_subs cfg.

Section subscriptions.
Context {C : Type} `{MqClient C} `{JsonCodec AuthBroadcast}.
Implicit Types (w : World C) (c : C).

(** The announcement. *)
Definition announced (now : Time) (cfg : Config) c : C :=
  let t := NewDefaultTopicSet (cfg_Tenant cfg) in
  let peer := cfg_Peer cfg in
  if decide (pc_Role peer = "auth") then
    let msg := {| auth_AuthId := pc_Id peer; auth_AuthName := pc_Name peer;
                  auth_VerifyTopic := ap_VerifyTopicSuffix (pc_Auth peer);
                  auth_PublicKey := ""; auth_TtlSec := broadcastTtl cfg;
                  auth_Timestamp := now |} in
    let data := match json_Marshal msg with Ok d => d | Fail _ => [] end in
    (mq_Publish c (t_AuthBroadcast t) data).1
  else c.

(** A start method amounts to a sequence of subscriptions. *)
Definition starts (r : World C * option error) c (subs : list (string * MessageHandler))
    : Prop :=
  w_mq r.1 = (Subscribe_all c subs).1 ∧
  (r.2 = None ↔ (Subscribe_all c subs).2 = None).

(** The outcome [r] of what remains of a startup is a failure among [subs], or what
    [post] says of the client after them. *)
Definition flat c (subs : list (string * MessageHandler)) (r : World C * startup)
    (post : C → World C * startup → Prop) : Prop :=
  match Subscribe_all c subs with
  | (c', Some _) => w_mq r.1 = c' ∧ is_started r.2 = false
  | (c', None) => post c' r
  end.

Lemma flat_app c s1 s2 r post :
  flat c s1 r (λ c' r, flat c' s2 r post) → flat c (s1 ++ s2) r post.
Proof using Type.
  unfold flat. revert c. induction s1 as [|[t h] s1 IH]; intros c; [done|].
  cbn [app Subscribe_all]. destruct (mq_Subscribe c t h) as [c' [e|]]; [done|apply IH].
Qed.

Lemma flat_start r c subs message k post :
  starts r c subs → (∀ w', post (w_mq w') (k w')) →
  flat c subs (start_or_exit r message k) post.
Proof using Type.
  destruct r as [w' err]. unfold starts, flat, start_or_exit. cbn [fst snd].
  destruct (Subscribe_all c subs) as [c' [e|]], err as [e'|]; cbn [fst snd];
    intros [Hc He] Hk; subst.
  - done.
  - by destruct He as [He _]; specialize (He eq_refl).
  - by destruct He as [_ He]; specialize (He eq_refl).
  - apply Hk.
Qed.

Lemma starts_response w topic :
  starts (SubscribeSyncResponses w topic) (w_mq w) [(topic, hSyncResponse)].
Proof using Type.
  unfold starts, SubscribeSyncResponses. simpl. by destruct (mq_Subscribe _ _ _) as [? []].
Qed.

Lemma starts_all w subs :
  starts (let '(c, err) := Subscribe_all (w_mq w) subs in (set_mq w c, err)) (w_mq w) subs.
Proof using Type. unfold starts. by destruct (Subscribe_all _ _). Qed.

Lemma starts_auth cfg w :
  starts (Auth_Start w (main_auth cfg (NewDefaultTopicSet (cfg_Tenant cfg))))
    (w_mq w) (auth_subs cfg).
Proof using Type.
  unfold Auth_Start, main_auth, auth_subs, starts. cbv zeta.
  case_decide; cbn; by destruct (mq_Subscribe _ _ _) as [? []].
Qed.

Lemma starts_list cfg acl w :
  starts (PeerList_Start w (NewPeerListService (NewDefaultTopicSet (cfg_Tenant cfg)) acl
            (dc_MaxPageSize (cfg_Discovery cfg)))) (w_mq w) (list_subs cfg).
Proof using Type.
  unfold PeerList_Start, list_subs, starts. cbn. by destruct (mq_Subscribe _ _ _) as [? []].
Qed.

Lemma starts_bridge cfg w sync async :
  let t := NewDefaultTopicSet (cfg_Tenant cfg) in
  starts (match mq_Subscribe (w_mq w) (TransferRequest t (pc_Id (cfg_Peer cfg))) sync with
          | (c, Some err) => (set_mq w c, Some (EText ("subscribe request topic " +:+
              TransferRequest t (pc_Id (cfg_Peer cfg)) +:+ ": " +:+ error_text err)))
          | (c, None) =>
              match mq_Subscribe c (EventPublish t (pc_Id (cfg_Peer cfg))) async with
              | (c, Some err) => (set_mq w c, Some (EText ("subscribe event topic " +:+
                  EventPublish t (pc_Id (cfg_Peer cfg)) +:+ ": " +:+ error_text err)))
              | (c, None) => (set_mq w c, None)
              end
          end) (w_mq w) (bridge_subs cfg sync async).
Proof using Type.
  cbv zeta. unfold starts, bridge_subs. cbn [Subscribe_all].
  destruct (mq_Subscribe _ _ sync) as [c [e|]]; [done|].
  by destruct (mq_Subscribe c _ async) as [c' [e|]].
Qed.

Lemma starts_http cfg w :
  starts (start_opt (main_http cfg (NewDefaultTopicSet (cfg_Tenant cfg))) HttpBridge_Start w)
    (w_mq w) (http_subs cfg).
Proof using Type.
  unfold main_http, http_subs. case_decide; [|done]. apply (starts_bridge cfg w).
Qed.

Lemma starts_coap cfg counter w :
  starts (start_opt (main_coap cfg (NewDefaultTopicSet (cfg_Tenant cfg)) counter)
            CoapBridge_Start w)
    (w_mq w) (coap_subs cfg).
Proof using Type.
  unfold main_coap, coap_subs. case_decide; [|done]. apply (starts_bridge cfg w).
Qed.

Lemma MqttBridge_Start_loop_subs c i mappings :
  let r := MqttBridge_Start_loop c i mappings in
  let r' := Subscribe_all c (imap (λ j m, (map_Source m, hMqttForward (i + j))) mappings) in
  r.1 = r'.1 ∧ (r.2 = None ↔ r'.2 = None).
Proof using Type.
  cbv zeta. revert c i. induction mappings as [|m l IH]; intros c i; [done|].
  cbn [imap Subscribe_all MqttBridge_Start_loop]. rewrite Nat.add_0_r.
  destruct (mq_Subscribe c _ _) as [c' [e|]]; [done|].
  destruct (IH c' (S i)) as [IH1 IH2]. rewrite IH1, IH2.
  assert (imap (λ j m0, (map_Source m0, hMqttForward (S i + j))) l =
          imap ((λ j m0, (map_Source m0, hMqttForward (i + j))) ∘ S) l) as ->; [|done].
  apply imap_ext. intros j x _. cbn. do 2 f_equal. lia.
Qed.

Lemma starts_mqtt cfg w :
  starts (start_opt (if decide (0 < length (main_mappings cfg))%nat
                     then Some (main_mappings cfg) else None) MqttBridge_Start w)
    (w_mq w) (mqtt_subs cfg).
Proof using Type.
  unfold mqtt_subs. case_decide as Hl.
  - unfold start_opt, MqttBridge_Start, starts.
    pose proof (MqttBridge_Start_loop_subs (w_mq w) 0 (main_mappings cfg)) as E. cbv zeta in E.
    by destruct (MqttBridge_Start_loop _ _ _).
  - destruct (main_mappings cfg); [done|simpl in Hl; lia].
Qed.

Ltac next_start tac :=
  try apply flat_app; apply flat_start; [tac|]; clear; intros w.

Lemma main_start_flat now counter w cfg :
  flat (w_mq w) (subs_before cfg) (main_start now counter w cfg) (λ c1 r,
    flat (announced now cfg c1) (subs_after cfg) r
      (λ c2 r, w_mq r.1 = c2 ∧ is_started r.2 = true)).
Proof using Type.
  unfold main_start, subs_before, subs_after. cbv zeta.
  change (response_subs cfg) with
    ([(TransferResponseStream (NewDefaultTopicSet (cfg_Tenant cfg)), hSyncResponse)] ++
     [(TransferResponseByRequestStream (NewDefaultTopicSet (cfg_Tenant cfg)), hSyncResponse)]).
  rewrite <- app_assoc.
  next_start ltac:(apply starts_response). next_start ltac:(apply starts_response).
  next_start ltac:(apply starts_all). next_start ltac:(apply starts_all).
  pose proof (starts_all w (discovery_subs cfg)) as Hd. unfold Discovery_Start.
  match goal with |- context [Subscribe_all (w_mq w) ?l] =>
    change l with (discovery_subs cfg) end.
  destruct (Subscribe_all (w_mq w) (discovery_subs cfg)) as [cd ed].
  next_start ltac:(exact Hd).
  apply flat_start; [apply starts_auth|]. clear. intros w.
  match goal with |- flat _ _ (start_or_exit (PeerList_Start ?w1 _) _ _) _ =>
    assert (announced now cfg (w_mq w) = w_mq w1) as -> end.
  { unfold announced, BroadcastAuth. by case_decide. }
  next_start ltac:(apply starts_list). next_start ltac:(apply starts_http).
  next_start ltac:(apply starts_coap). apply flat_start; [apply starts_mqtt|]. done.
Qed.
(** What a node that is up has subscribed. *)
Lemma main_start_subscribed now counter w cfg w' n :
  main_start now counter w cfg = (w', Started n) →
  ∃ c1, Subscribe_all (w_mq w) (subs_before cfg) = (c1, None) ∧
    Subscribe_all (announced now cfg c1) (subs_after cfg) = (w_mq w', None).
Proof using Type.
  intros E. pose proof (main_start_flat now counter w cfg) as Hf. rewrite E in Hf.
  unfold flat in Hf. cbn [fst snd is_started] in Hf.
  destruct (Subscribe_all (w_mq w) _) as [c1 [e|]]; [by destruct Hf|].
  destruct (Subscribe_all _ (subs_after cfg)) as [c2 [e|]] eqn:E2; [by destruct Hf|].
  exists c1. split; [done|]. by destruct Hf as [-> _].
Qed.

(** A startup whose subscriptions are all accepted does not end. *)
Lemma main_start_refused now counter w cfg w' message err c1 c2 :
  main_start now counter w cfg = (w', Exited message err) →
  Subscribe_all (w_mq w) (subs_before cfg) = (c1, None) →
  Subscribe_all (announced now cfg c1) (subs_after cfg) = (c2, None) → False.
Proof using Type.
  intros E E1 E2. pose proof (main_start_flat now counter w cfg) as Hf. revert Hf.
  unfold flat. rewrite E1, E2, E. by intros [_ ?].
Qed.

(** C25: the startup of a node is one sequence of subscriptions with the announcement
    of an auth peer in between: it stops with the process at the first subscription
    that the broker refuses, and the node is up exactly when all are accepted, the
    response topics first; the HTTP and CoAP bridges take the request and event topics
    of the node's own id, and only when enabled with a target. *)
Theorem main_start_subscriptions now counter w cfg :
  let '(w', r) := main_start now counter w cfg in
  match Subscribe_all (w_mq w) (subs_before cfg) with
  | (c1, Some _) => w_mq w' = c1 ∧ is_started r = false
  | (c1, None) =>
      let '(c2, err) := Subscribe_all (announced now cfg c1) (subs_after cfg) in
      w_mq w' = c2 ∧ (is_started r = true ↔ err = None)
  end.
Proof using Type.
  pose proof (main_start_flat now counter w cfg) as Hf.
  destruct (main_start now counter w cfg) as [w' r]. unfold flat in Hf. cbn [fst snd] in Hf.
  destruct (Subscribe_all (w_mq w) _) as [c1 [e|]]; [done|].
  destruct (Subscribe_all _ (subs_after cfg)) as [c2 [e|]]; destruct Hf as [-> ->]; done.
Qed.
End subscriptions.

(** * Who may publish *)

Lemma buildAclService_rules cfg :
  rules (buildAclService cfg) = acl_rule <$> ac_Rules (cfg_Acl cfg).
Proof.
  unfold buildAclService. cbv zeta.
  assert (∀ l acc, foldl (λ rules r, rules ++ [acl_rule r]) acc l = acc ++ (acl_rule <$> l))
    as ->.
  { induction l as [|r l IH]; intros acc; cbn; [by rewrite app_nil_r|].
    by rewrite IH, <- app_assoc. }
  cbn [app]. case_decide as Hl; [done|].
  destruct (ac_Rules (cfg_Acl cfg)); [done|cbn in Hl; lia].
Qed.

Section denied.
Context {C : Type} `{MqClient C} `{JsonCodec AuthBroadcast} `{JsonCodec DdMessage} `{Gzip}.
Implicit Types (w : World C).

Lemma start_or_exit_Started (r : World C * option error) message k w' n :
  start_or_exit r message k = (w', Started n) → ∃ w1, k w1 = (w', Started n).
Proof using Type. destruct r as [w1 [e|]]; cbn; [done|eauto]. Qed.

Lemma main_start_acl now counter w cfg w' n :
  main_start now counter w cfg = (w', Started n) →
  ds_aclService (nd_data n) = Some (buildAclService cfg).
Proof using Type.
  unfold main_start. cbv zeta. intros E.
  do 4 (apply start_or_exit_Started in E as [? E]).
  match type of E with context [Discovery_Start ?w ?s] =>
    destruct (Discovery_Start w s) as [[? ?] ?] end.
  do 6 (apply start_or_exit_Started in E as [? E]).
  by injection E as _ <-.
Qed.

(** The peer id of a configured rule is a literal name, and a node always has an
    access list: a transfer from a peer that no rule names, whether the rules are
    empty or written for ["*"], is denied, sync or async, and nothing is sent. *)
Theorem unnamed_peer_denied ρ now counter w cfg w' n w1 d topic m :
  main_start now counter w cfg = (w', Started n) →
  ds_aclService d = ds_aclService (nd_data n) →
  let p := h_SourcePeerId (msg_Header (Normalize m)) in
  (∀ r, r ∈ ac_Rules (cfg_Acl cfg) → ar_PeerId r ≠ p) →
  let err := EDd (ErrAclDeniedMsg p "pub" topic) in
  (let '(wa, da, _, res) := SendAsync ρ now now w1 d topic (Some m) in
   w_mq wa = w_mq w1 ∧ da = d ∧ res = Some err) ∧
  (let '(ws, ds, res) := SendSync_begin ρ now w1 d topic (Some m) in
   w_mq ws = w_mq w1 ∧ ds = d ∧ res = Returned (Fail err)).
Proof using Type.
  intros Hm Hd p Hr err. apply main_start_acl in Hm. rewrite Hm in Hd.
  assert (checkAcl w1 d p "pub" topic = (observe w1 (Inc AclDeniedTotal []), Some err)) as Hc.
  { unfold checkAcl. rewrite Hd, Authorize_no_rule; [done|].
    rewrite buildAclService_rules. intros rule (r & -> & Hin)%list_elem_of_fmap. by apply Hr. }
  unfold SendAsync, SendSync_begin, SendSync_prepare. cbv zeta. fold p. by rewrite Hc.
Qed.
End denied.

(** The rules of the shipped config.yaml. *)
Definition star_rule (action : string) : AclRule :=
  {| ar_PeerId := "*"; ar_Action := action; ar_Pattern := "dd/default/transfer/#";
     ar_Allow := true |}.

Definition shipped_config : Config := {|
  cfg_Server := cfg_Server defaultConfig; cfg_Peer := cfg_Peer defaultConfig;
  cfg_Mq := cfg_Mq defaultConfig; cfg_Tenant := cfg_Tenant defaultConfig;
  cfg_Sync := cfg_Sync defaultConfig; cfg_Discovery := cfg_Discovery defaultConfig;
  cfg_Bridges := cfg_Bridges defaultConfig;
  cfg_Acl := {| ac_Rules := [star_rule "pub"; star_rule "sub"] |};
  cfg_Logging := cfg_Logging defaultConfig |}.

Definition shipped_world : World MockClient := {| w_mq := NewMockClient; w_metrics := [] |}.

#[local] Instance auth_broadcast_codec : JsonCodec AuthBroadcast := table_codec [].
#[local] Instance main_mock : MqClient MockClient := MockClient_client ranger_std.
#[local] Instance main_gzip : Gzip := gzip_store.
#[local] Instance main_message_codec : JsonCodec DdMessage := table_codec [].

(** A node with the shipped configuration denies its own transfers. *)
Lemma unnamed_peer_denied_witness :
  ∃ w' n,
    main_start 0 0 shipped_world shipped_config = (w', Started n) ∧
    (SendAsync ranger_std 0 0 w' (nd_data n) "dd/default/transfer/order/request"
       (Some msg_sample)).2 =
    Some (EDd (ErrAclDeniedMsg (h_SourcePeerId (msg_Header (Normalize msg_sample))) "pub"
                 "dd/default/transfer/order/request")).
Proof.
  destruct (main_start 0 0 shipped_world shipped_config) as [w' [n|]] eqn:E;
    [|by vm_compute in E].
  exists w', n. split; [done|].
  pose proof (unnamed_peer_denied ranger_std 0 0 shipped_world shipped_config w' n w'
    (nd_data n) "dd/default/transfer/order/request" msg_sample E eq_refl) as Hd.
  destruct Hd as [Hd _].
  { intros r. change (ac_Rules _) with [star_rule "pub"; star_rule "sub"].
    rewrite !elem_of_cons, elem_of_nil. by intros [->|[->|[]]]. }
  destruct (SendAsync _ _ _ _ _ _ _) as [[[? ?] ?] res]. by destruct Hd as (_ & _ & ->).
Defined.
