(* ===== verification/Process.v ===== *)
(** The process (cmd/main.go): from the command line through the configuration and the
    connection to the broker to the running node. *)
From S2P Require Import Prelude GoStrings GoTime Errors Metrics TopicFilter Acl Topics Mq.
From S2P Require Import MqttConnect Model Message Codec Registry PeerRegistry PeerList Catalog.
From S2P Require Import DataService Streams Config Auth Discovery Bridges HttpBridge CoapBridge.
From S2P Require Import ProtocolIndex Api Main.

Open Scope string_scope.
Open Scope list_scope.
Open Scope Z_scope.

(** How the process comes to the end of [main]'s startup. *)
Inductive process {P : Type} :=
| Exit (message : string) (err : error)
| Running (cfg : Config) (log : log_level * bool) (w : World (MqttClient (P := P))) (n : Node).
Arguments process : clear implicits.

Section process.
Context `{!ConfigCodecs} `{!JsonCodec AuthBroadcast}.
(** The operating system: files and the environment; crypto/x509, crypto/tls and paho. *)
Context (ReadFile : string → result bytes) (Getenv : string → string).
Context {Pool Cert P : Type} (AppendCertsFromPEM : bytes → option Pool)
  (LoadX509KeyPair : string → string → result Cert)
  (Connect : client_options (Pool := Pool) (Cert := Cert) → P * (Duration → bool) * option error)
  (paho_Publish : P → string → Z → bool → bytes → P * (wait_outcome * option error))
  (paho_Subscribe : P → string → Z → MessageHandler → P * (wait_outcome * option error))
  (paho_sent : P → list (string * bytes)).

#[local] Instance paho_client : MqClient (MqttClient (P := P)) :=
  MqttClient_client paho_Publish paho_Subscribe paho_sent.

(** [main] for the arguments after the program name; the message ids of CoAP start at
    zero. *)
Definition main (now : Time) (args : list string) : process P :=
  let cli := ParseCliArgs args in
  match LoadWithArgs ReadFile Getenv cli with
  | Fail err => Exit "failed to load config" err
  | Ok cfg =>
      let log := setupLogging cfg in
      match NewMqttClient ReadFile AppendCertsFromPEM LoadX509KeyPair Connect
              (main_mqtt_config cfg) with
      | Fail err => Exit "failed to connect to MQTT broker" err
      | Ok mqClient =>
          match main_start now 0 {| w_mq := mqClient; w_metrics := [] |} cfg with
          | (_, Exited message err) => Exit message err
          | (w, Started n) => Running cfg log w n
          end
      end
  end.

(** * What the command line decides *)

(** The arguments that spell a list of settings. *)
Definition render_args (settings : list (flag_style * cli_flag * string)) : list string :=
  concat ((λ '(st, f, v), render_flag st f v) <$> settings).

(** A setting of the command line that is not empty holds. *)
Record cli_obeyed (cli : CliConfig) (cfg : Config) : Prop := {
  obeyed_tenant : cli_Tenant cli ≠ "" → cfg_Tenant cfg = cli_Tenant cli;
  obeyed_id : cli_PeerId cli ≠ "" → pc_Id (cfg_Peer cfg) = cli_PeerId cli;
  obeyed_name : cli_PeerName cli ≠ "" → pc_Name (cfg_Peer cfg) = cli_PeerName cli;
  obeyed_role : cli_Role cli ≠ "" → pc_Role (cfg_Peer cfg) = cli_Role cli;
  obeyed_addr : cli_ListenAddr cli ≠ "" → sv_ListenAddr (cfg_Server cfg) = cli_ListenAddr cli;
  obeyed_broker : cli_MqttBroker cli ≠ "" →
    mt_BrokerUrl (mq_Mqtt (cfg_Mq cfg)) = cli_MqttBroker cli;
  obeyed_level : cli_LogLevel cli ≠ "" → lg_Level (cfg_Logging cfg) = cli_LogLevel cli;
  obeyed_format : cli_LogFormat cli ≠ "" → lg_Format (cfg_Logging cfg) = cli_LogFormat cli
}.

Lemma or_string_set v d : v ≠ "" → or_string v d = v.
Proof using Type. unfold or_string. intros. by case_decide. Qed.

Lemma applyCliOverrides_obeyed cli cfg : cli_obeyed cli (applyCliOverrides cli cfg).
Proof using Type. split; apply or_string_set. Qed.

(** Only malformed inline JSON keeps the configuration from loading. *)
Lemma LoadWithArgs_outcome cli :
  match LoadWithArgs ReadFile Getenv cli with
  | Ok cfg => cli_obeyed cli cfg
  | Fail _ => cli_ConfigJson cli ≠ "" ∧
      ∃ err, config_json (to_bytes (cli_ConfigJson cli)) zero_config = Fail err
  end.
Proof using Type.
  unfold LoadWithArgs, MergeJson. case_decide as Hj; [|apply applyCliOverrides_obeyed].
  rewrite decide_False by done. destruct (config_json _ _) as [o|err] eqn:E.
  - apply applyCliOverrides_obeyed.
  - split; [done|]. by exists err.
Qed.

(** * What the configuration decides *)

(** The names of the log levels; any other name means [LevelInfo]. *)
Definition level_names : list (string * log_level) :=
  [("debug", LevelDebug); ("warn", LevelWarn); ("error", LevelError)].

Lemma setupLogging_level cfg :
  (setupLogging cfg).1 =
  default LevelInfo (list_to_map (M := gmap string log_level) level_names
                       !! lg_Level (cfg_Logging cfg)).
Proof using Type.
  unfold setupLogging, level_names. cbn [list_to_map foldr curry fst snd].
  generalize (lg_Level (cfg_Logging cfg)) as l. intros l.
  repeat case_decide; subst; [by simplify_map_eq..|].
  by rewrite !lookup_insert_ne, lookup_empty by done.
Qed.

Lemma setupLogging_json cfg :
  (setupLogging cfg).2 = true ↔ lg_Format (cfg_Logging cfg) = "json".
Proof using Type. apply bool_decide_eq_true. Qed.

(** The settings that a node is built from. *)
Record node_configured (cfg : Config) (n : Node) : Prop := {
  nc_tenant : pr_topics (nd_registry n) = NewDefaultTopicSet (cfg_Tenant cfg);
  nc_lease : pr_leaseTtl (nd_registry n) = dur_mul (dc_LeaseTtlSec (cfg_Discovery cfg)) Second;
  nc_timeout : ds_defaultTimeout (nd_data n) =
    dur_mul (sy_DefaultTimeoutMs (cfg_Sync cfg)) Millisecond;
  nc_acl : rules <$> ds_aclService (nd_data n) = Some (acl_rule <$> ac_Rules (cfg_Acl cfg));
  nc_hub : (hd_peerId (nd_discovery n), hd_peerName (nd_discovery n), hd_role (nd_discovery n)) =
    (pc_Id (cfg_Peer cfg), pc_Name (cfg_Peer cfg), pc_Role (cfg_Peer cfg));
  nc_page : pl_maxPageSize (nd_peerList n) =
    if decide (dc_MaxPageSize (cfg_Discovery cfg) ≤ 0) then 100
    else dc_MaxPageSize (cfg_Discovery cfg);
  nc_http : (λ b, (hbr_peerId b, hbr_targetUrl b)) <$> nd_http n =
    if hb_Enabled (br_Http (cfg_Bridges cfg))
       && bool_decide (hb_TargetUrl (br_Http (cfg_Bridges cfg)) ≠ "")
    then Some (pc_Id (cfg_Peer cfg), hb_TargetUrl (br_Http (cfg_Bridges cfg))) else None;
  nc_coap : (λ b, (cbr_peerId b, cbr_targetUrl b)) <$> nd_coap n =
    if cb_Enabled (br_Coap (cfg_Bridges cfg))
       && bool_decide (cb_TargetUrl (br_Coap (cfg_Bridges cfg)) ≠ "")
    then Some (pc_Id (cfg_Peer cfg), cb_TargetUrl (br_Coap (cfg_Bridges cfg))) else None;
  nc_server : srv_cfg (nd_server n) = Some cfg;
  nc_registers : (λ p, (p_Id p, p_Name p, p_Role p)) <$> nd_registers n =
    if decide (pc_Id (cfg_Peer cfg) = "") then None
    else Some (pc_Id (cfg_Peer cfg), pc_Name (cfg_Peer cfg), pc_Role (cfg_Peer cfg))
}.

Lemma main_http_configured cfg topics :
  (λ b, (hbr_peerId b, hbr_targetUrl b)) <$> main_http cfg topics =
  if hb_Enabled (br_Http (cfg_Bridges cfg))
     && bool_decide (hb_TargetUrl (br_Http (cfg_Bridges cfg)) ≠ "")
  then Some (pc_Id (cfg_Peer cfg), hb_TargetUrl (br_Http (cfg_Bridges cfg))) else None.
Proof using Type.
  unfold main_http. destruct (hb_Enabled _); case_decide; case_bool_decide; naive_solver.
Qed.

Lemma main_coap_configured cfg topics counter :
  (λ b, (cbr_peerId b, cbr_targetUrl b)) <$> main_coap cfg topics counter =
  if cb_Enabled (br_Coap (cfg_Bridges cfg))
     && bool_decide (cb_TargetUrl (br_Coap (cfg_Bridges cfg)) ≠ "")
  then Some (pc_Id (cfg_Peer cfg), cb_TargetUrl (br_Coap (cfg_Bridges cfg))) else None.
Proof using Type.
  unfold main_coap. destruct (cb_Enabled _); case_decide; case_bool_decide; naive_solver.
Qed.

Lemma main_start_configured now counter w cfg w' n :
  main_start now counter w cfg = (w', Started n) → node_configured cfg n.
Proof using Type.
  unfold main_start. cbv zeta. intros E.
  do 4 (apply start_or_exit_Started in E as [? E]).
  match type of E with context [Discovery_Start ?w ?s] =>
    destruct (Discovery_Start w s) as [[? ?] ?] end.
  do 6 (apply start_or_exit_Started in E as [? E]).
  injection E as _ <-. split; cbn; try done.
  - by rewrite buildAclService_rules.
  - apply main_http_configured.
  - apply main_coap_configured.
  - by repeat case_decide.
Qed.

(** * The topics of a node *)

(** The topics are those of the tenant, the sources of the MQTT mappings apart. *)
Definition own_subs (cfg : Config) : list (string * MessageHandler) :=
  subs_before cfg ++ list_subs cfg ++ http_subs cfg ++ coap_subs cfg.

Definition in_tenant (cfg : Config) (s : string * MessageHandler) : Prop :=
  ∃ rest, s.1 = "dd/" +:+ cfg_Tenant cfg +:+ "/" +:+ rest.

Lemma in_tenant_base cfg rest h :
  in_tenant cfg (("dd/" +:+ cfg_Tenant cfg) +:+ ("/" +:+ rest), h).
Proof using Type. exists rest. cbn [fst]. by rewrite <- string_app_assoc. Qed.

Lemma in_tenant_topic cfg rest h :
  in_tenant cfg ("dd/" +:+ cfg_Tenant cfg +:+ ("/" +:+ rest), h).
Proof using Type. by exists rest. Qed.

Ltac solve_in_tenant :=
  repeat apply Forall_cons_2; try apply Forall_nil_2; apply in_tenant_base || apply in_tenant_topic.

Lemma bridge_subs_in_tenant cfg sync async :
  Forall (in_tenant cfg) (bridge_subs cfg sync async).
Proof using Type. solve_in_tenant. Qed.

Lemma own_subs_in_tenant cfg : Forall (in_tenant cfg) (own_subs cfg).
Proof using Type.
  unfold own_subs, subs_before, http_subs, coap_subs. rewrite !Forall_app. split_and!.
  all: try (case_decide; [apply bridge_subs_in_tenant|apply Forall_nil_2]).
  all: solve_in_tenant.
Qed.

Lemma subs_own cfg : subs_before cfg ++ subs_after cfg = own_subs cfg ++ mqtt_subs cfg.
Proof using Type. unfold own_subs, subs_after. by rewrite !app_assoc. Qed.

Lemma subs_in_tenant cfg s :
  s ∈ own_subs cfg ++ mqtt_subs cfg →
  in_tenant cfg s ∨ ∃ m, m ∈ main_mappings cfg ∧ s.1 = map_Source m.
Proof using Type.
  intros [Hs|Hs]%elem_of_app; [left|right].
  - by apply (proj1 (Forall_forall _ _) (own_subs_in_tenant cfg)).
  - unfold mqtt_subs in Hs. apply elem_of_lookup_imap in Hs as (i & m & -> & Hm).
    exists m. split; [by eapply list_elem_of_lookup_2|done].
Qed.

End process.

(** * The process at work *)

#[local] Existing Instance auth_broadcast_codec.

(** A broker library that accepts everything and keeps the topics subscribed. *)
Definition open_connect (o : client_options (Pool := bytes) (Cert := string))
    : list string * (Duration → bool) * option error := ([], λ _, true, None).
Definition open_publish (c : list string) (_ : string) (_ : Z) (_ : bool) (_ : bytes)
    : list string * (wait_outcome * option error) := (c, (TokenDone, None)).
Definition open_subscribe (c : list string) (topic : string) (_ : Z) (_ : MessageHandler)
    : list string * (wait_outcome * option error) := (c ++ [topic], (TokenDone, None)).
Definition no_file (f : string) : result bytes := Fail (EText ("open " +:+ f)).

Definition open_main (getenv : string → string) (settings : list (flag_style * cli_flag * string))
    : process (list string) :=
  @main tenant_codecs _ no_file getenv bytes string (list string) (λ pem, Some pem)
    (λ c _, Ok c) open_connect open_publish open_subscribe (λ _, []) 100 (render_args settings).

(** Without a file, and with nothing but a tenant given: the thirteen topics of a node. *)
Example open_main_tenant :
  match open_main (λ _, "") [(DashDashEquals, FTenant, "t9")] with
  | Running cfg _ w _ => cfg_Tenant cfg = "t9" ∧ length (mc_client (w_mq w)) = 13%nat
  | Exit _ _ => False
  end.
Proof. vm_compute. split; reflexivity. Qed.

Example open_main_bad_json :
  open_main (λ _, "") [(DashSpace, FConfigJson, "{")] =
  Exit "failed to load config" (EText "merge json: invalid character").
Proof. vm_compute. reflexivity. Qed.

(** TLS without its CA file ends before any connection. *)
Example open_main_no_ca :
  open_main (λ v, if decide (v = "DD_MQTT_TLS_ENABLED") then "true"
                  else if decide (v = "DD_MQTT_TLS_CA_CERT_FILE") then "ca.pem" else "") [] =
  Exit "failed to connect to MQTT broker" (EText "read ca cert: open ca.pem").
Proof. vm_compute. reflexivity. Qed.
