(* ===== verification/ApiProps.v ===== *)
(** Properties of the HTTP API: request validation, the outcome of a sync transfer,
    the accounting of a batch, what the direct route skips, and what unregistering
    leaves behind. *)
From S2P Require Import Prelude GoStrings GoTime Errors Metrics TopicFilter Acl Topics.
From S2P Require Import Mq Model Message Codec Registry PeerRegistry PeerRegistryProps Catalog.
From S2P Require Import DataService DataServiceProps Streams Config Route Coap CoapBridge.
From S2P Require Import Bridges HttpBridge ProtocolIndex Api ApiHandlers.
From Stdlib Require Import Ascii.

Open Scope string_scope.
Open Scope list_scope.
Open Scope Z_scope.

(** * The checks *)

Lemma check_required_None msg required :
  check_required msg required = None ↔ ∀ f, f ∈ required → hasMetaField msg f = true.
Proof.
  induction required as [|f l IH]; simpl; [split; [by intros _ f ?%elem_of_nil|done]|].
  setoid_rewrite elem_of_cons. destruct (hasMetaField msg f) eqn:E; simpl.
  - rewrite IH. naive_solver.
  - split; [done|]. intros H. rewrite H in E by auto. done.
Qed.

Lemma check_protocol_meta_None fields keys :
  check_protocol_meta fields keys = None ↔ ∀ k, k ∈ keys → field fields k ≠ "".
Proof.
  induction keys as [|k l IH]; simpl; [split; [by intros _ f ?%elem_of_nil|done]|].
  setoid_rewrite elem_of_cons. case_decide; [|rewrite IH; naive_solver].
  split; [done|]. intros H'. exfalso. apply (H' k); auto.
Qed.

(** What one constraint asks of a message. *)
Definition constraint_ok (msg : DdMessage) (fields : gmap string string) (f : string)
    (c : ResourceMetaConstraint) : Prop :=
  if decide (f = "timeout_ms") then in_bounds c (h_TimeoutMs (msg_Header msg))
  else field fields f = "" ∨ enum_admits c (field fields f).

Lemma validateConstraint_None msg fields f c :
  validateConstraint msg fields f c = None ↔ constraint_ok msg fields f c.
Proof.
  unfold validateConstraint, constraint_ok, in_bounds, enum_admits. case_decide.
  - destruct (c_Min c) as [lo|], (c_Max c) as [hi|]; repeat case_decide; split;
      try done; try (intros _; split; intros m [= <-]; lia); try (by split);
      intros [Hlo Hhi]; first [specialize (Hlo _ eq_refl); lia|specialize (Hhi _ eq_refl); lia].
  - case_decide as Hl; [apply length_zero_iff_nil in Hl; rewrite Hl; tauto|].
    case_decide as Hv; [tauto|]. case_decide as He; [tauto|]. split; [done|].
    intros [?|[Hn|?]]; [done| |done]. by rewrite Hn in Hl.
Qed.

Lemma check_constraints_None msg fields cs :
  check_constraints msg fields cs = None ↔
  ∀ f c, (f, c) ∈ cs → constraint_ok msg fields f c.
Proof.
  induction cs as [|[f c] l IH]; simpl; [split; [by intros _ f c ?%elem_of_nil|done]|].
  setoid_rewrite elem_of_cons. pose proof (validateConstraint_None msg fields f c) as Hc.
  destruct (validateConstraint msg fields f c).
  - split; [done|]. intros H'. assert (constraint_ok msg fields f c) as Ho by (apply H'; auto).
    by apply Hc in Ho.
  - rewrite IH. naive_solver.
Qed.

(** The constraint on the timeout, and the others. *)
Lemma constraints_split msg fields (cs : gmap string ResourceMetaConstraint) :
  (∀ f c, cs !! f = Some c → constraint_ok msg fields f c) ↔
  (∀ c, cs !! "timeout_ms" = Some c → in_bounds c (h_TimeoutMs (msg_Header msg))) ∧
  (∀ f c, f ≠ "timeout_ms" → cs !! f = Some c →
     field fields f = "" ∨ enum_admits c (field fields f)).
Proof.
  unfold constraint_ok. split.
  - intros Hall. split.
    + intros c E. specialize (Hall _ _ E). by rewrite decide_True in Hall.
    + intros f c Hf E. specialize (Hall _ _ E). by rewrite decide_False in Hall.
  - intros [Ht He] f c E. case_decide; subst; eauto.
Qed.

Section api.
Context {C St J : Type} `{!MqClient C} `{!Store St} `{!StoreLaws St} `{!JsonCodec DdMessage}.
Context `{!Gzip} `{!RegistryCodecs} `{!StreamCodecs}.
Implicit Types (w : World C) (s : Server St).

(** C38: a request is admitted exactly when it satisfies what every listed provider
    of the resource with a schema declares: all its required meta fields and
    protocol fields are there, and the timeout is within its bounds; and, for the
    other constrained fields, a value that is given is admitted by the merged
    enumeration.  The verdict does not depend on the order of the iteration. *)
Theorem validateRequestMeta_all_providers ρ now w s resource msg :
  let declared := omap (λ p, peer_schema p resource)
                    (GetPeers ρ now (srv_peerRegistry s) resource) in
  let merged := (GetResourceMetaSchema ρ now (srv_peerRegistry s) resource).1 in
  let fields := (ProtocolFields msg).2 in
  (validateRequestMeta ρ now w s resource msg).2 = None ↔
  (∀ sc, sc ∈ declared →
     (∀ f, f ∈ s_Required sc → hasMetaField msg f = true) ∧
     (∀ k, k ∈ s_ProtocolMetaRequired sc → field fields k ≠ "") ∧
     (∀ c, s_Constraints sc !! "timeout_ms" = Some c →
        in_bounds c (h_TimeoutMs (msg_Header (Normalize msg))))) ∧
  (∀ f c, f ≠ "timeout_ms" → s_Constraints merged !! f = Some c →
     field fields f = "" ∨ enum_admits c (field fields f)).
Proof.
  cbv zeta. unfold validateRequestMeta.
  pose proof (GetResourceMetaSchema_merges ρ now (srv_peerRegistry s) resource) as Hm.
  cbv zeta in Hm. revert Hm.
  generalize (omap (λ p, peer_schema p resource)
    (GetPeers ρ now (srv_peerRegistry s) resource)) as declared. intros declared.
  destruct (GetResourceMetaSchema ρ now (srv_peerRegistry s) resource) as [m [|]] eqn:Em.
  2:{ intros (Hf & _). assert (declared = []) as ->.
      { destruct declared; [done|]. destruct Hf as [_ Hf]. by discriminate Hf. }
      assert (m = zero_schema) as ->.
      { unfold GetResourceMetaSchema in Em. destruct (negb _); congruence. }
      simpl. split; [|done]. intros _. split; [by intros sc ?%elem_of_nil|].
      intros f c _. by rewrite lookup_empty. }
  intros (_ & _ & _ & _ & HR & _ & HP & HB). cbn [fst].
  pose proof (check_required_None msg (s_Required m)) as Hr.
  pose proof (ProtocolFields_msg msg) as Hmsg.
  destruct (ProtocolFields msg) as [n fields]. cbn [fst snd] in *. subst n.
  pose proof (check_protocol_meta_None fields (s_ProtocolMetaRequired m)) as Hp.
  pose proof (check_constraints_None (Normalize msg) fields (range ρ (s_Constraints m))) as Hc.
  setoid_rewrite range_lookup in Hc.
  specialize (HB "timeout_ms" (h_TimeoutMs (msg_Header (Normalize msg)))).
  rewrite constraints_split, HB in Hc. clear HB.
  destruct (check_required msg (s_Required m)); cbn [snd].
  { split; [done|]. intros [Hd _]. apply Hr. intros f (sc & Hsc & Hf)%HR.
    by apply (Hd sc Hsc). }
  destruct (check_protocol_meta fields _); cbn [snd].
  { split; [done|]. intros [Hd _]. apply Hp. intros k (sc & Hsc & Hk)%HP.
    by apply (Hd sc Hsc). }
  destruct Hr as [Hr _], Hp as [Hp _]. specialize (Hr eq_refl). specialize (Hp eq_refl).
  destruct (check_constraints _ _ _); cbn [snd].
  - split; [done|]. intros [Hd He]. apply Hc. split; [|done].
    intros sc c Hsc. by apply (Hd sc Hsc).
  - split; [|done]. intros _. destruct Hc as [Hc _]. destruct (Hc eq_refl) as [Ht He].
    split; [|done]. intros sc Hsc. split_and!.
    + intros f Hf. apply Hr, HR. eauto.
    + intros k Hk. apply Hp, HP. eauto.
    + intros c. by apply Ht.
Qed.

(** * The batch *)

(** net/http, net/url and net, as the direct route uses them. *)
Context (NewRequest : string → string → option error)
  (Do : option Duration → http_request → http_outcome)
  (url_Host : string → option string) (ResolveUDPAddr : string → option error)
  (Udp : string → Time → bytes → udp_outcome).

Lemma sendDirectCoap_ret now nano dl cfg msg :
  ∃ m r, sendDirectCoap url_Host ResolveUDPAddr Udp now nano dl cfg msg = Ret (m, r).
Proof using Type.
  unfold sendDirectCoap. destruct cfg as [cfg|]; [|by eauto].
  destruct (_ || _); [by eauto|]. destruct (ResolveUDPAddr _); [by eauto|].
  destruct (ProtocolFields msg) as [m fields].
  destruct (Udp _ _ _) as [| | | | |data]; [by eauto..|].
  destruct (parsers_total data) as (p & _ & ->). by eauto.
Qed.

Lemma sendDirectAsync_ret ρ now nano dl cfg msg :
  ∃ m e, sendDirectAsync NewRequest Do url_Host ResolveUDPAddr Udp ρ now nano dl cfg msg =
         Ret (m, e).
Proof using Type.
  unfold sendDirectAsync. case_decide.
  - destruct (sendDirectHTTP _ _ _ _ _) as [m [r|e]]; by eauto.
  - case_decide; [|by eauto].
    destruct (sendDirectCoap_ret now nano dl cfg msg) as (m & r & ->). by eauto.
Qed.

Lemma sendDirectSync_ret ρ now nano dl cfg msg :
  ∃ m r, sendDirectSync NewRequest Do url_Host ResolveUDPAddr Udp ρ now nano dl cfg msg =
         Ret (m, r).
Proof using Type.
  unfold sendDirectSync. case_decide.
  - destruct (sendDirectHTTP _ _ _ _ _) as [m r]; by eauto.
  - case_decide; [|by eauto]. apply sendDirectCoap_ret.
Qed.

(** What the loop relies on in each turn. *)
Definition item_done s' (idx : nat) (item : TransferReq) (r : itemResult) : Prop :=
  is_Some (srv_dataService s') ∧ ir_Index r = idx ∧ ir_Resource r = tq_Resource item ∧
  (ir_Status r = "published" ∨ ir_Status r = "failed").

Lemma batch_item_ret ρ now nano dl stamp tr w s d idx item :
  srv_dataService s = Some d →
  ∃ w' s' r, batch_item NewRequest Do url_Host ResolveUDPAddr Udp ρ now nano dl stamp tr
               w s d idx item = Ret (w', s', r) ∧ item_done s' idx item r.
Proof using Type.
  intros Hd. assert (is_Some (srv_dataService s)) as Hs by eauto.
  unfold batch_item, item_done. case_decide; [by eauto 10|].
  generalize (Normalize (newAsyncMessage stamp tr item)) as msg. intros msg.
  destruct (validateRequestMeta ρ now w s (tq_Resource item) msg) as [[w1 m1] [e|]];
    [by eauto 10|].
  assert (∀ w mode m, ∃ w' s' r,
    match async_broker ρ now w s d (tq_Resource item) m with
    | (w, s, Some err) => (w, s, {| ir_Index := idx; ir_RequestID := h_RequestId (msg_Header msg);
        ir_Resource := tq_Resource item; ir_RouteMode := mode; ir_Status := "failed";
        ir_Error := error_text err |})
    | (w, s, None) => (w, s, {| ir_Index := idx; ir_RequestID := h_RequestId (msg_Header msg);
        ir_Resource := tq_Resource item; ir_RouteMode := mode; ir_Status := "published";
        ir_Error := "" |})
    end = (w', s', r) ∧ item_done s' idx item r) as Hb.
  { intros w2 mode m. unfold async_broker, item_done.
    destruct (SendAsync _ _ _ _ _ _ _) as [[[w3 d3] m3] [e|]];
      eexists _, _, _; (split; [reflexivity|]); simpl; eauto 10. }
  case_decide as Hr.
  - destruct (sendDirectAsync_ret ρ now nano dl (srv_cfg s) m1) as (m2 & e & ->).
    cbn [go_bind]. destruct e; [|by eauto 10].
    destruct (Hb (observe w1 (Inc RouteDecisionTotal [DecideRoute (srv_cfg s) (Some m1)]))
      RouteModeBroker m2) as (w' & s' & r & E & Hdone).
    rewrite E. by eauto.
  - destruct (Hb (observe w1 (Inc RouteDecisionTotal [DecideRoute (srv_cfg s) (Some m1)]))
      (DecideRoute (srv_cfg s) (Some m1)) m1) as (w' & s' & r & E & Hdone).
    rewrite E. by eauto.
Qed.

Lemma batch_loop_ret ρ now nano dl stamp tr items w s idx a f results :
  is_Some (srv_dataService s) →
  ∃ w' s' rs (na nf : nat), batch_loop NewRequest Do url_Host ResolveUDPAddr Udp ρ now nano dl stamp tr
                w s idx items a f results =
    Ret (w', s', (a + Z.of_nat na, f + Z.of_nat nf, results ++ rs)) ∧
    na = length (filter (λ r, ir_Status r = "published") rs) ∧ (na + nf)%nat = length rs ∧
    length rs = length items ∧
    ∀ k item, items !! k = Some item → ∃ r, rs !! k = Some r ∧ ir_Index r = (idx + k)%nat ∧
      ir_Resource r = tq_Resource item ∧ (ir_Status r = "published" ∨ ir_Status r = "failed").
Proof using Type.
  revert w s idx a f results. induction items as [|item items IH];
    intros w s idx a f results Hs; simpl.
  { exists w, s, [], 0%nat, 0%nat. simpl. rewrite app_nil_r. split; [do 4 f_equal; lia|].
    do 3 (split; [done|]). intros k item. by rewrite lookup_nil. }
  destruct Hs as [d Hd]. rewrite Hd.
  destruct (batch_item_ret ρ now nano dl (stamp idx) tr w s d idx item Hd)
    as (w1 & s1 & r & -> & Hs1 & Hidx & Hres & Hst). cbn [go_bind].
  assert (∀ rs, length rs = length items → (∀ k item, items !! k = Some item →
      ∃ r, rs !! k = Some r ∧ ir_Index r = (S idx + k)%nat ∧ ir_Resource r = tq_Resource item ∧
        (ir_Status r = "published" ∨ ir_Status r = "failed")) →
    ∀ k it, (item :: items) !! k = Some it →
      ∃ r', (r :: rs) !! k = Some r' ∧ ir_Index r' = (idx + k)%nat ∧
        ir_Resource r' = tq_Resource it ∧
        (ir_Status r' = "published" ∨ ir_Status r' = "failed")) as Hcons.
  { intros rs _ Hall [|k] it; simpl; [intros [= <-]; exists r; split_and!; auto; lia|].
    intros Hk. destruct (Hall k it Hk) as (r' & ? & ? & ? & ?). exists r'.
    split_and!; auto; lia. }
  case_decide as Hp.
  - destruct (IH w1 s1 (S idx) (a + 1) f (results ++ [r]) Hs1)
      as (w' & s' & rs & na & nf & -> & Hna & Hsum & Hlen & Hall).
    exists w', s', (r :: rs), (S na), nf. rewrite filter_cons, decide_True by done.
    rewrite <- app_assoc. simpl. split_and!; [do 4 f_equal; lia|lia..|by apply Hcons].
  - destruct (IH w1 s1 (S idx) a (f + 1) (results ++ [r]) Hs1)
      as (w' & s' & rs & na & nf & -> & Hna & Hsum & Hlen & Hall).
    exists w', s', (r :: rs), na, (S nf). rewrite filter_cons, decide_False by done.
    rewrite <- app_assoc. simpl. split_and!; [do 4 f_equal; lia|lia..|by apply Hcons].
Qed.

(** C39: a batch always answers (nothing in it can panic), with one result per item
    in the order of the items; [accepted] is the number of published results, and
    with [failed] it makes up the number requested; the status is an error exactly
    when nothing was published, ok when nothing failed, and partial otherwise. *)
Theorem handleTransferAsyncBatch_accounts ρ now nano dl stamp tr w s d items :
  srv_dataService s = Some d → items ≠ [] →
  ∃ w' s' rs accepted failed status code,
    handleTransferAsyncBatch (J := J) NewRequest Do url_Host ResolveUDPAddr Udp ρ now nano dl
      stamp tr w s (Some items) =
    Ret (w', s', writeJSON code
      (JObj [("requested", JInt (Z.of_nat (length items))); ("accepted", JInt accepted);
             ("failed", JInt failed); ("status", JStr status);
             ("results", JList (item_json <$> rs))])) ∧
    accepted = Z.of_nat (length (filter (λ r, ir_Status r = "published") rs)) ∧
    accepted + failed = Z.of_nat (length items) ∧
    (code = 400 ↔ accepted = 0) ∧ (code = 202 ↔ accepted ≠ 0) ∧
    (status = "error" ↔ accepted = 0) ∧ (status = "ok" ↔ failed = 0) ∧
    (status = "partial" ↔ accepted ≠ 0 ∧ failed ≠ 0) ∧
    length rs = length items ∧
    ∀ k item, items !! k = Some item → ∃ r, rs !! k = Some r ∧ ir_Index r = k ∧
      ir_Resource r = tq_Resource item.
Proof using Type.
  intros Hd Hi. unfold handleTransferAsyncBatch.
  assert (length items ≠ 0%nat) as Hne by (by intros ?%length_zero_iff_nil).
  rewrite decide_False by done. rewrite Hd.
  destruct (batch_loop_ret ρ now nano dl stamp tr items w s 0 0 0 [])
    as (w' & s' & rs & na & nf & -> & Hna & Hsum & Hlen & Hall); [by eauto|]. cbn [go_bind app].
  destruct (batch_status _ _) as [status code] eqn:Es.
  eexists _, _, rs, _, _, status, code. split; [reflexivity|]. revert Es.
  unfold batch_status. repeat case_decide; intros [= <- <-]; split_and!; try done;
    try (intros k item Hk; destruct (Hall k item Hk) as (r & ? & ? & ? & _); by eauto);
    try lia; (split; [intros ?; first [discriminate|lia]|intros ?; first [reflexivity|lia]]).
Qed.

(** * Sync transfers *)

Lemma sync_message_id s stamp tr req :
  let h := msg_Header (sync_message s stamp tr req) in
  h_RequestId h = "req-" +:+ stamp ∧ h_SourcePeerId h = tq_SourcePeerId req ∧
  h_ReplyTo h = TransferResponseByRequest (srv_topics s) ("req-" +:+ stamp) ∧
  msg_Header (Normalize (sync_message s stamp tr req)) = h.
Proof using Type.
  cbv zeta.
  assert (msg_Header (Normalize (request_message "req-" stamp tr (tq_TimeoutMs req) req)) =
    msg_Header (request_message "req-" stamp tr (tq_TimeoutMs req) req)) as E
    by (by apply Normalize_RequestId).
  assert (h_RequestId (msg_Header (sync_message s stamp tr req)) = "req-" +:+ stamp) as Hid.
  { unfold sync_message. case_decide; by rewrite E. }
  split_and!; [done| | |apply Normalize_RequestId; by rewrite Hid].
  - unfold sync_message. case_decide; by rewrite E.
  - unfold sync_message. rewrite E. by rewrite decide_True.
Qed.

(** Checking or sending a message normalises it at most. *)
Lemma validateRequestMeta_msg ρ now w s resource msg w' m e :
  validateRequestMeta ρ now w s resource msg = (w', m, e) →
  w_mq w' = w_mq w ∧ (m = msg ∨ m = Normalize msg).
Proof using Type.
  unfold validateRequestMeta. destruct (GetResourceMetaSchema _ _ _ _) as [schema [|]].
  2:{ intros (<- & <- & _)%pair3_inj. auto. }
  destruct (check_required _ _); [intros (<- & <- & _)%pair3_inj; by auto|].
  pose proof (ProtocolFields_msg msg) as Hm.
  destruct (ProtocolFields msg) as [n fields]. cbn [fst] in Hm. subst n.
  destruct (check_protocol_meta _ _); [intros (<- & <- & _)%pair3_inj; by auto|].
  destruct (check_constraints _ _ _); intros (<- & <- & _)%pair3_inj; by auto.
Qed.

Lemma sendDirectHTTP_msg ρ cfg msg m r :
  sendDirectHTTP NewRequest Do ρ cfg msg = (m, r) → m = msg ∨ m = Normalize msg.
Proof using Type.
  unfold sendDirectHTTP. destruct cfg as [cfg|]; [|intros [= <- _]; by auto].
  destruct (_ || _); [intros [= <- _]; by auto|].
  pose proof (ProtocolFields_msg msg) as Hm.
  destruct (ProtocolFields msg) as [n fields]. cbn [fst] in Hm. subst n.
  generalize (Normalize msg). intros n. destruct (NewRequest _ _); [intros [= <- _]; by auto|].
  destruct (Do _ _) as [e|st [body|e]]; intros [= <- _]; by auto.
Qed.

Lemma sendDirectCoap_msg now nano dl cfg msg m r :
  sendDirectCoap url_Host ResolveUDPAddr Udp now nano dl cfg msg = Ret (m, r) →
  m = msg ∨ m = Normalize msg.
Proof using Type.
  unfold sendDirectCoap. destruct cfg as [cfg|]; [|intros [= <- _]; by auto].
  destruct (_ || _); [intros [= <- _]; by auto|].
  destruct (ResolveUDPAddr _); [intros [= <- _]; by auto|].
  pose proof (ProtocolFields_msg msg) as Hm.
  destruct (ProtocolFields msg) as [n fields]. cbn [fst] in Hm. subst n.
  generalize (Normalize msg). intros n.
  destruct (Udp _ _ _) as [| | | | |data]; try (intros [= <- _]; by auto).
  destruct (parsers_total data) as (p & _ & ->). intros [= <- _]. by auto.
Qed.

Lemma sendDirectSync_msg ρ now nano dl cfg msg m r :
  sendDirectSync NewRequest Do url_Host ResolveUDPAddr Udp ρ now nano dl cfg msg = Ret (m, r) →
  m = msg ∨ m = Normalize msg.
Proof using Type.
  unfold sendDirectSync. case_decide.
  - intros [= E]. by eapply sendDirectHTTP_msg.
  - case_decide; [by apply sendDirectCoap_msg|]. intros [= <- _]. by auto.
Qed.

Lemma SendSync_begin_denied ρ now w d topic msg acl :
  ds_aclService d = Some acl →
  Authorize acl (h_SourcePeerId (msg_Header (Normalize msg))) "pub" topic = false →
  ∃ w', SendSync_begin ρ now w d topic (Some msg) =
    (w', d, Returned (Fail (EDd (ErrAclDeniedMsg
       (h_SourcePeerId (msg_Header (Normalize msg))) "pub" topic)))).
Proof using Type.
  intros Ha Hd. unfold SendSync_begin, SendSync_prepare, checkAcl. rewrite Ha, Hd.
  cbn [negb]. by eexists.
Qed.

(** C40: the direct route skips the access control of the broker route: a sync
    request that names this node as its target is forwarded to the bridge target and
    answered with 200, whatever the rules say about its source peer, without a
    message, a transfer record or any other change of the services; the same request
    is refused with 403 when it goes through the broker. *)
Theorem direct_route_skips_acl ρ now nano dl stamp tr w s req d acl w1 msg m body :
  srv_dataService s = Some d → ds_aclService d = Some acl →
  Authorize acl (tq_SourcePeerId req) "pub" (TransferRequest (srv_topics s) (tq_Resource req))
    = false →
  tq_Resource req ≠ "" →
  validateRequestMeta ρ now w s (tq_Resource req) (sync_message s stamp tr req) =
    (w1, msg, None) →
  DecideRoute (srv_cfg s) (Some msg) = RouteModeDirect →
  sendDirectSync NewRequest Do url_Host ResolveUDPAddr Udp ρ now nano dl (srv_cfg s) msg =
    Ret (m, Ok body) →
  handleTransferSync_begin (J := J) NewRequest Do url_Host ResolveUDPAddr Udp ρ now nano dl
    stamp tr w s (Some req) =
  Ret (observe w1 (Inc RouteDecisionTotal [RouteModeDirect]), s,
       SyncReplied (writeJSON 200 (JObj [("response", JStr (of_bytes body));
                                         ("route_mode", JStr "direct")]))) ∧
  ∃ w2 s2 r, sync_broker (J := J) ρ now w s (tq_Resource req) RouteModeBroker
      (sync_message s stamp tr req) = (w2, s2, SyncReplied r) ∧ rep_status r = 403.
Proof using Type.
  intros Hd Ha Hdeny Hr Hv Hroute Hsend. split.
  - unfold handleTransferSync_begin. rewrite decide_False by done. rewrite Hv.
    rewrite decide_True by done. rewrite Hsend. done.
  - unfold sync_broker. rewrite Hd.
    destruct (sync_message_id s stamp tr req) as (Hid & Hsrc & _ & E).
    destruct (SendSync_begin_denied ρ now (observe w (Inc RouteDecisionTotal [RouteModeBroker]))
      d (TransferRequest (srv_topics s) (tq_Resource req)) (sync_message s stamp tr req) acl)
      as (w2 & ->); [done|by rewrite E, Hsrc|].
    eexists _, _, _. split; [reflexivity|]. done.
Qed.

(** How a waiting sync transfer is answered: with 504 and a transfer recorded as
    timed out when the timer fires; with 200 and the payload of the delivered
    response, recorded as responded, when there is one; with 500 and the record left
    as it was when the caller gives up.  In every case the request is no longer
    pending. *)
Theorem handleTransferSync_end_outcomes start now w s msg ch mode why w' s' r d :
  srv_dataService s = Some d →
  handleTransferSync_end (J := J) start now w s msg ch mode why = Some (w', s', r) →
  let id := h_RequestId (msg_Header msg) in
  ∃ d', srv_dataService s' = Some d' ∧ ds_pendingRequests d' !! id = None ∧
  match why with
  | WakeTimer => rep_status r = 504 ∧
      ∃ rec, GetTransferStatus d' id = Some rec ∧ tr_Status rec = TransferStatusTimeout
  | WakeResponse => ∃ resp rec, ds_channels d !! ch = Some (Some resp) ∧
      r = writeJSON 200 (JObj [("response", JStr (of_bytes (msg_Payload resp)));
                               ("route_mode", JStr mode)]) ∧
      GetTransferStatus d' id = Some rec ∧ tr_Status rec = TransferStatusResponded
  | WakeDone (EText _) => rep_status r = 500 ∧ GetTransferStatus d' id = GetTransferStatus d id
  | WakeDone (EDd _) => GetTransferStatus d' id = GetTransferStatus d id
  end.
Proof using Type.
  intros Hd E id. unfold handleTransferSync_end, SendSync_end in E. rewrite Hd in E.
  destruct why as [e| |]; cbn [SendSync_select] in E.
  - destruct e; apply Some_inj, pair3_inj in E as (<- & <- & <-); eexists;
      (split; [reflexivity|]); (split; [apply lookup_delete_eq|]); done.
  - apply Some_inj, pair3_inj in E as (<- & <- & <-). eexists. split; [reflexivity|].
    split; [apply lookup_delete_eq|]. split; [done|].
    destruct (recordStatus_lookup now d id msg TransferStatusTimeout 0) as (rec & Er & ? & _).
    by exists rec.
  - unfold try_recv in E. destruct (ds_channels d !! ch) as [[resp|]|] eqn:Ech; [|done..].
    apply Some_inj, pair3_inj in E as (<- & <- & <-). eexists. split; [reflexivity|].
    split; [apply lookup_delete_eq|].
    destruct (recordStatus_lookup now (set_channels d (<[ch := None]> (ds_channels d))) id msg
      TransferStatusResponded (Milliseconds (Sub now start))) as (rec & Er & Est & _).
    exists resp, rec. split_and!; [done|done| |done].
    unfold GetTransferStatus, SendSync_cleanup. cbn [ds_transferStatuses set_pending].
    by rewrite storeIdempotent_statuses.
Qed.

(** * Resources *)

Lemma ListResources_elem ρ c r :
  r ∈ ListResources ρ c ↔ is_Some (cat_index c !! r).
Proof using Type.
  unfold ListResources.
  assert (∀ (l : list (string * list string)) acc,
    foldl (λ result '(resource, _), result ++ [resource]) acc l = acc ++ l.*1) as Hl.
  { intros l. induction l as [|[k v] l IH]; intros acc; simpl; [by rewrite app_nil_r|].
    by rewrite IH, <- app_assoc. }
  rewrite Hl. simpl. rewrite list_elem_of_fmap. split.
  - intros ([k v] & -> & Hin). apply range_lookup in Hin. by eexists.
  - intros [v E]. exists (r, v). split; [done|]. by apply range_lookup.
Qed.

Lemma GetProviders_listed ρ c r p : p ∈ GetProviders c r → r ∈ ListResources ρ c.
Proof using Type.
  unfold GetProviders. rewrite ListResources_elem.
  destruct (cat_index c !! r); [by eexists|]. by intros ?%elem_of_nil.
Qed.

Lemma addProvider_keeps c r id r' p :
  p ∈ GetProviders c r' → p ∈ GetProviders (addProvider c r id) r'.
Proof using Type.
  rewrite addProvider_lookup. case_decide; [|done]. rewrite elem_of_app. by left.
Qed.

Lemma OnPeerRegistered_provides c peer r :
  r ∈ p_Resources peer → p_Id peer ∈ GetProviders (OnPeerRegistered c peer) r.
Proof using Type.
  unfold OnPeerRegistered. generalize (p_Id peer) as id. intros id.
  assert (∀ l c, id ∈ GetProviders c r →
    id ∈ GetProviders (foldl (λ c resource, addProvider c resource id) c l) r) as Hkeep.
  { intros l. induction l as [|x l IH]; intros c' Hc; simpl; [done|].
    by apply IH, addProvider_keeps. }
  revert c. induction (p_Resources peer) as [|x l IH]; intros c; [by intros ?%elem_of_nil|].
  rewrite elem_of_cons. simpl. intros [->|Hr]; [|by apply IH].
  apply Hkeep. rewrite addProvider_lookup. case_decide as Hd.
  - rewrite elem_of_app. right. by left.
  - destruct (decide (id ∈ GetProviders c x)); [done|]. by destruct Hd.
Qed.

(** Unregistering a peer through the API removes it from the registry but not
    from the resource catalog: its resources are still listed, with the peer as
    their provider, although no such peer exists any more. *)
Theorem unregistered_resources_remain ρ now now2 w s req w1 s1 r1 w1' w2 s2 r2 resource :
  handlePeerRegister (J := J) now w s (Some req) = (w1, s1, r1) → rep_status r1 = 202 →
  handlePeerUnregister (J := J) now2 w1' s1 (pq_Id req) = (w2, s2, r2) →
  resource ∈ pq_Resources req →
  store_Get (pr_store (srv_peerRegistry s2)) (pq_Id req) = None ∧
  pq_Id req ∈ GetProviders (srv_resourceCatalog s2) resource ∧
  resource ∈ ListResources ρ (srv_resourceCatalog s2).
Proof using StoreLaws0.
  unfold handlePeerRegister. destruct (decide (pq_Id req = "")) as [|Hid].
  { by intros (_ & _ & <-)%pair3_inj. }
  set (peer := {| p_Id := pq_Id req |}).
  destruct (RegisterPeer now w (srv_peerRegistry s) peer) as [[w0 reg] [e|]].
  { by intros (_ & _ & <-)%pair3_inj. }
  intros (_ & <- & _)%pair3_inj _. unfold handlePeerUnregister. rewrite decide_False by done.
  unfold UnregisterPeer. destruct (publish_event _ _ _) as [w3 [e|]];
    intros (_ & <- & _)%pair3_inj Hr; cbn.
  all: rewrite store_get_delete, decide_True by done; split; [done|].
  all: assert (pq_Id req ∈ GetProviders (OnPeerRegistered (srv_resourceCatalog s) peer) resource)
    as Hp by (by apply (OnPeerRegistered_provides _ peer)).
  all: split; [done|]; by eapply GetProviders_listed.
Qed.

End api.

(** * The properties at a concrete node *)

#[local] Existing Instance mock_client.
#[local] Existing Instance store_gzip.
#[local] Existing Instance sample_codecs.
#[local] Existing Instance message_codec.

Definition order_request : TransferReq := {|
  tq_Resource := "order"; tq_Protocol := "http"; tq_SourcePeerId := "app";
  tq_TargetPeerId := ""; tq_TimeoutMs := 1000; tq_TraceId := "t1"; tq_Headers := ∅;
  tq_ProtocolMeta := {[ "http" := {[ "path" := "/orders" ]} ]}; tq_Payload := [] |}.

Definition api_node : Server MemoryStore := {|
  srv_cfg := None; srv_topics := NewDefaultTopicSet "default";
  srv_peerRegistry := NewPeerRegistryService (NewDefaultTopicSet "default") (30 * Second) None;
  srv_dataService := Some node_data;
  srv_streamService := NewStreamService (NewDefaultTopicSet "default");
  srv_resourceCatalog := NewResourceCatalog; srv_protocolIndex := None |}.

(** The node with access rules (none: everything is denied) and an HTTP bridge. *)
Definition guarded_config : Config :=
  mergeInto defaultConfig
    {| cfg_Server := cfg_Server zero_config;
       cfg_Peer := {| pc_Id := "edge-1"; pc_Name := ""; pc_Role := ""; pc_Key := "";
                      pc_Secret := ""; pc_Broadcast := pc_Broadcast (cfg_Peer zero_config);
                      pc_Auth := pc_Auth (cfg_Peer zero_config) |};
       cfg_Mq := cfg_Mq zero_config; cfg_Tenant := ""; cfg_Sync := cfg_Sync zero_config;
       cfg_Discovery := cfg_Discovery zero_config;
       cfg_Bridges := {| br_Http := {| hb_Enabled := true; hb_TargetUrl := "http://t" |};
                         br_Coap := br_Coap (cfg_Bridges zero_config);
                         br_MqttMappings := [] |};
       cfg_Acl := cfg_Acl zero_config; cfg_Logging := cfg_Logging zero_config |}.

Definition guarded_data : DdDataService :=
  NewDdDataService (5 * Second) (Some NewTopicAclService).

Definition guarded_node : Server MemoryStore := {|
  srv_cfg := Some guarded_config; srv_topics := srv_topics api_node;
  srv_peerRegistry := srv_peerRegistry api_node; srv_dataService := Some guarded_data;
  srv_streamService := srv_streamService api_node;
  srv_resourceCatalog := srv_resourceCatalog api_node; srv_protocolIndex := None |}.

Definition local_request : TransferReq := {|
  tq_Resource := "order"; tq_Protocol := "http"; tq_SourcePeerId := "stranger";
  tq_TargetPeerId := "edge-1"; tq_TimeoutMs := 1000; tq_TraceId := ""; tq_Headers := ∅;
  tq_ProtocolMeta := ∅; tq_Payload := [] |}.

Definition local_target_answers (_ : option Duration) (_ : http_request) : http_outcome :=
  DoResponse 500 (Ok (to_bytes "secret")).

Lemma handleTransferAsyncBatch_accounts_witness :
  srv_dataService api_node = Some node_data ∧
  ∃ w' s' rs accepted failed status code,
    handleTransferAsyncBatch (J := unit) (λ _ _, None) local_target_answers (λ _, None)
      (λ _, None) (λ _ _ _, DialError) ranger_std 100 0 None (λ i, Itoa (Z.of_nat i)) ""
      node_world api_node (Some [order_request; local_request]) =
    Ret (w', s', writeJSON code
      (JObj [("requested", JInt 2); ("accepted", JInt accepted); ("failed", JInt failed);
             ("status", JStr status); ("results", JList (item_json <$> rs))])) ∧
    accepted + failed = 2.
Proof.
  split; [reflexivity|].
  destruct (handleTransferAsyncBatch_accounts (J := unit) (λ _ _, None) local_target_answers
    (λ _, None) (λ _, None) (λ _ _ _, DialError) ranger_std 100 0 None
    (λ i, Itoa (Z.of_nat i)) "" node_world api_node node_data [order_request; local_request])
    as (w' & s' & rs & a & f & st & code & E & _ & Hsum & _); [reflexivity|done|].
  exists w', s', rs, a, f, st, code. split; [exact E|exact Hsum].
Defined.

Lemma direct_route_skips_acl_witness :
  Authorize NewTopicAclService "stranger" "pub" "dd/default/transfer/order/request" = false ∧
  ∃ w', handleTransferSync_begin (J := unit) (λ _ _, None) local_target_answers (λ _, None)
    (λ _, None) (λ _ _ _, DialError) ranger_std 100 0 None "1" "" node_world guarded_node
    (Some local_request) =
  Ret (w', guarded_node,
       SyncReplied (writeJSON 200 (JObj [("response", JStr "secret");
                                         ("route_mode", JStr "direct")]))).
Proof.
  split; [vm_compute; reflexivity|].
  pose (msg := sync_message guarded_node "1" "" local_request).
  destruct (direct_route_skips_acl (J := unit) (λ _ _, None) local_target_answers (λ _, None)
    (λ _, None) (λ _ _ _, DialError) ranger_std 100 0 None "1" "" node_world guarded_node
    local_request guarded_data NewTopicAclService
    (observe node_world (Inc ResourceMetaValidateTotal ["order"; "skip"])) msg msg
    (to_bytes "secret")) as [E _].
  - reflexivity.
  - reflexivity.
  - vm_compute. reflexivity.
  - done.
  - vm_compute. reflexivity.
  - vm_compute. reflexivity.
  - vm_compute. reflexivity.
  - eexists. exact E.
Defined.

Lemma handleTransferSync_end_outcomes_witness :
  ∃ w' s' r, handleTransferSync_end (J := unit) 100 300 node_world api_node request_sample 0
    "broker" WakeTimer = Some (w', s', r) ∧ rep_status r = 504.
Proof.
  eexists _, _, _. split; [reflexivity|].
  edestruct (handleTransferSync_end_outcomes (J := unit) 100 300 node_world api_node
    request_sample 0 "broker" WakeTimer) as (d' & _ & _ & Hst & _);
    [reflexivity|reflexivity|exact Hst].
Defined.

Definition edge_request : PeerRegisterReq := {|
  pq_Id := "edge-1"; pq_Name := "edge"; pq_Role := "edge"; pq_Resources := ["temp"];
  pq_Capabilities := []; pq_ResourceSchemas := ∅ |}.

Lemma unregistered_resources_remain_witness :
  let r1 := handlePeerRegister (J := unit) 7 node_world api_node (Some edge_request) in
  let r2 := handlePeerUnregister (J := unit) 9 r1.1.1 r1.1.2 "edge-1" in
  rep_status r1.2 = 202 ∧
  store_Get (pr_store (srv_peerRegistry r2.1.2)) "edge-1" = None ∧
  "temp" ∈ ListResources ranger_std (srv_resourceCatalog r2.1.2).
Proof.
  cbv zeta. split; [vm_compute; reflexivity|].
  destruct (unregistered_resources_remain (J := unit) ranger_std 7 9 node_world api_node
    edge_request
    (handlePeerRegister (J := unit) 7 node_world api_node (Some edge_request)).1.1
    (handlePeerRegister (J := unit) 7 node_world api_node (Some edge_request)).1.2
    (handlePeerRegister (J := unit) 7 node_world api_node (Some edge_request)).2
    (handlePeerRegister (J := unit) 7 node_world api_node (Some edge_request)).1.1
    (handlePeerUnregister (J := unit) 9
      (handlePeerRegister (J := unit) 7 node_world api_node (Some edge_request)).1.1
      (handlePeerRegister (J := unit) 7 node_world api_node (Some edge_request)).1.2
      "edge-1").1.1
    (handlePeerUnregister (J := unit) 9
      (handlePeerRegister (J := unit) 7 node_world api_node (Some edge_request)).1.1
      (handlePeerRegister (J := unit) 7 node_world api_node (Some edge_request)).1.2
      "edge-1").1.2
    (handlePeerUnregister (J := unit) 9
      (handlePeerRegister (J := unit) 7 node_world api_node (Some edge_request)).1.1
      (handlePeerRegister (J := unit) 7 node_world api_node (Some edge_request)).1.2
      "edge-1").2 "temp") as (Hg & _ & Hl).
  - vm_compute. reflexivity.
  - vm_compute. reflexivity.
  - vm_compute. reflexivity.
  - by_compute.
  - split; [exact Hg|exact Hl].
Defined.
