(* ===== verification/EndToEnd.v ===== *)
(** The composition of the components: a sync transfer from the HTTP API of one node
    through the broker to the HTTP bridge of another and back. *)
From S2P Require Import Prelude GoStrings GoTime Errors Metrics TopicFilter Acl Topics.
From S2P Require Import Mq Model Message Codec Registry PeerRegistry PeerRegistryProps Catalog.
From S2P Require Import DataService DataServiceProps Streams Config Route Coap CoapBridge.
From S2P Require Import Bridges HttpBridge ProtocolIndex Api ApiHandlers ApiProps.
From Stdlib Require Import Ascii.

Open Scope string_scope.
Open Scope list_scope.
Open Scope Z_scope.

(** * What [SendSync] sends *)

Section sender.
Context {C : Type} `{!MqClient C} `{!JsonCodec DdMessage} `{!Gzip}.
Implicit Types (w : World C) (d : DdDataService).

(** A request that is ready: normalised, valid, and the caller's but for the mode,
    the timeout, the trace and the creation time. *)
Lemma SendSync_prepare_ready ρ t1 t2 t3 w d topic m0 w' d' m :
  SendSync_prepare ρ t1 t2 t3 w d topic (Some m0) = (w', d', PReady m) →
  w_mq w' = w_mq w ∧ Normalize m = m ∧ envelope_ok m ∧ msg_Mode m = DdTransferModeSync ∧
  h_RequestId (msg_Header m) = h_RequestId (msg_Header (Normalize m0)) ∧
  h_ReplyTo (msg_Header m) = h_ReplyTo (msg_Header (Normalize m0)).
Proof using Type.
  unfold SendSync_prepare. cbv zeta. generalize (Normalize m0) as n. clear m0. intros n.
  pose proof (checkAcl_mq w d (h_SourcePeerId (msg_Header n)) "pub" topic) as Hw.
  destruct (checkAcl _ _ _ _ _) as [w1 [err|]]; simpl in Hw; [by intros (_ & _ & [=])%pair3_inj|].
  destruct (lookupIdempotent t1 d n); [by intros (_ & _ & [=])%pair3_inj|].
  match goal with |- context [if decide (h_RequestId (msg_Header ?x) = "") then _ else _] =>
    assert (msg_Mode x = DdTransferModeSync ∧
      h_RequestId (msg_Header x) = h_RequestId (msg_Header n) ∧
      h_ReplyTo (msg_Header x) = h_ReplyTo (msg_Header n)) as (Hmode & Hreq & Hrep);
    [unfold set_created; by repeat case_match|]; revert Hmode Hreq Hrep; generalize x end.
  intros m1 Hmode Hreq Hrep.
  case_decide as Hid; [by intros (_ & _ & [=])%pair3_inj|].
  pose proof (Validate_msg_normalizes ρ (set_trace m1)) as Hn.
  pose proof (Validate_msg_None ρ (set_trace m1)) as Hok.
  destruct (Validate_msg ρ (set_trace m1)) as [m2 [err|]]; simpl in *; subst m2;
    [by intros (_ & _ & [=])%pair3_inj|].
  intros (<- & _ & E)%pair3_inj. assert (∀ a b, PReady a = PReady b → a = b) as Hinj by congruence.
  apply Hinj in E as <-. destruct Hok as [Hok _].
  assert (msg_Header (Normalize (set_trace m1)) = msg_Header (set_trace m1)) as Hh.
  { apply Normalize_RequestId. by rewrite set_trace_RequestId. }
  split_and!; [done|apply Normalize_idemp|by apply Hok| | |].
  - by rewrite Normalize_Mode, set_trace_Mode.
  - by rewrite Hh, set_trace_RequestId.
  - rewrite Hh. unfold set_trace. case_decide; [|done]. done.
Qed.

Context `{!MqClientLaws C} `{!JsonLaws DdMessage} `{!GzipLaws}.

(** A call that waits has published its message once, and nothing else. *)
Lemma SendSync_begin_published ρ now w d topic m0 w1 d1 msg ch :
  SendSync_begin ρ now w d topic (Some m0) = (w1, d1, Waiting msg ch) →
  Normalize msg = msg ∧ envelope_ok msg ∧ msg_Mode msg = DdTransferModeSync ∧
  h_RequestId (msg_Header msg) = h_RequestId (msg_Header (Normalize m0)) ∧
  h_ReplyTo (msg_Header msg) = h_ReplyTo (msg_Header (Normalize m0)) ∧
  ∃ data, mq_sent (w_mq w1) = mq_sent (w_mq w) ++ [(mq_wire (w_mq w) topic, data)] ∧
    (json_valid msg → DecodeDdMessage data = Ok msg).
Proof using All.
  unfold SendSync_begin.
  destruct (SendSync_prepare _ _ _ _ _ _ _ _) as [[w2 d2] [resp|err|m]] eqn:Ep; [done..|].
  apply SendSync_prepare_ready in Ep as (Hw & Hn & Hok & Hmode & Hreq & Hrep).
  destruct (SendSync_register d2 m) as [d3 [err|ch']]; [done|]. unfold SendSync_publish.
  pose proof (EncodeDdMessage_msg m) as Hm. pose proof (Decode_Encode m) as Hdec.
  match goal with |- context [EncodeDdMessage m ?c] =>
    specialize (Hm c); specialize (Hdec c); destruct (EncodeDdMessage m c) as [m' [data|e]] end;
    [|done].
  cbn [fst snd] in Hm, Hdec. rewrite Hn in Hm, Hdec. subst m'. rewrite Hw.
  destruct (mq_Publish (w_mq w) topic data) as [c [e|]] eqn:Epub; [done|].
  intros (<- & _ & E)%pair3_inj.
  assert (m = msg) as <- by congruence.
  split_and!; [done..|]. exists data. rewrite set_mq_mq. split; [by apply mq_publish_ok|].
  intros Hv. by apply Hdec.
Qed.
End sender.

(** * The bridge's side *)

(** A normalised sync request with a timeout is accepted as it is. *)
Lemma http_accepted_id_msg msg :
  Normalize msg = msg → envelope_ok msg → msg_Mode msg = DdTransferModeSync →
  http_accepted msg = msg.
Proof.
  intros Hn Hok Hm. unfold http_accepted. rewrite Hn.
  assert (set_Mode msg DdTransferModeSync = msg) as -> by (rewrite <- Hm; by destruct msg).
  unfold with_default_timeout. destruct (ok_sync _ Hok Hm) as [_ Ht].
  by rewrite decide_False by lia.
Qed.

(** The payload and the status survive the normalisation of the reply. *)
Lemma http_reply_contents now b n r :
  msg_Payload (http_reply now b n r) = r.1 ∧
  msg_Headers (http_reply now b n r) !! "http-status" = Some (Itoa r.2).
Proof.
  unfold http_reply. rewrite Normalize_Payload. split; [done|].
  rewrite Normalize_eq. cbv zeta. cbn [msg_Headers http_response].
  rewrite decide_False by apply map_non_empty_singleton. apply lookup_singleton_eq.
Qed.

(** * The round trip *)

Section round_trip.
(** The API node's client and store, and the bridge node's client. *)
Context {C B St J : Type} `{!MqClient C} `{!MqClientLaws C} `{!MqClient B} `{!MqClientLaws B}.
Context `{!Store St} `{!JsonCodec DdMessage} `{!JsonLaws DdMessage} `{!Gzip} `{!GzipLaws}.
Context `{!JsonCodec DlqEvent}.
(** The API node's direct route; the bridge's clock and its HTTP client. *)
Context (NewRequestA : string → string → option error)
  (DoA : option Duration → http_request → http_outcome)
  (url_Host : string → option string) (ResolveUDPAddr : string → option error)
  (Udp : string → Time → bytes → udp_outcome).
Context (clk : nat → Time) (NewRequest : string → string → option error)
  (Do : nat → http_request → http_outcome).
Implicit Types (w : World C) (v : World B) (s : Server St).

Abbreviation begin_sync := (handleTransferSync_begin (J := J) NewRequestA DoA url_Host
  ResolveUDPAddr Udp).

Lemma sync_broker_waiting ρ now w s resource mode m0 w1 s1 msg ch mode' :
  sync_broker (J := J) ρ now w s resource mode m0 = (w1, s1, SyncWaiting msg ch mode') →
  ∃ d d1 w0, srv_dataService s = Some d ∧ w_mq w0 = w_mq w ∧
    SendSync_begin ρ now w0 d (TransferRequest (srv_topics s) resource) (Some m0) =
      (w1, d1, Waiting msg ch) ∧ s1 = set_data s d1.
Proof using Type.
  unfold sync_broker. destruct (srv_dataService s) as [d|] eqn:Hd; [|by intros (_ & _ & [=])%pair3_inj].
  destruct (SendSync_begin _ _ _ _ _ _) as [[w2 d2] [[resp|err]|m c]] eqn:E;
    intros (<- & <- & Ew)%pair3_inj; [done..|].
  assert (m = msg ∧ c = ch) as [<- <-] by (split; congruence).
  by exists d, d2, (observe w (Inc RouteDecisionTotal [mode])).
Qed.

(** A handler that waits has gone through [SendSync] with its message. *)
Lemma handleTransferSync_begin_waiting ρ now nano dl stamp tr w s req w1 s1 msg ch mode :
  begin_sync ρ now nano dl stamp tr w s (Some req) = Ret (w1, s1, SyncWaiting msg ch mode) →
  ∃ d d1 w0 m0, srv_dataService s = Some d ∧ w_mq w0 = w_mq w ∧
    msg_Header (Normalize m0) = msg_Header (sync_message s stamp tr req) ∧
    SendSync_begin ρ now w0 d (TransferRequest (srv_topics s) (tq_Resource req)) (Some m0) =
      (w1, d1, Waiting msg ch) ∧ s1 = set_data s d1.
Proof using Type.
  unfold handleTransferSync_begin. case_decide; [done|].
  destruct (sync_message_id s stamp tr req) as (_ & _ & _ & Hh).
  destruct (validateRequestMeta _ _ _ _ _ _) as [[w2 m] [e|]] eqn:Ev; [done|].
  apply validateRequestMeta_msg in Ev as [Hw Hm].
  assert (∀ w' m', w_mq w' = w_mq w → (m' = m ∨ m' = Normalize m) → ∀ mode',
    sync_broker (J := J) ρ now w' s (tq_Resource req) mode' m' =
      (w1, s1, SyncWaiting msg ch mode) →
    ∃ d d1 w0 m0, srv_dataService s = Some d ∧ w_mq w0 = w_mq w ∧
      msg_Header (Normalize m0) = msg_Header (sync_message s stamp tr req) ∧
      SendSync_begin ρ now w0 d (TransferRequest (srv_topics s) (tq_Resource req)) (Some m0) =
        (w1, d1, Waiting msg ch) ∧ s1 = set_data s d1) as Hb.
  { intros w' m' Hw' Hm' mode' (d & d1 & w0 & ? & ? & ? & ?)%sync_broker_waiting.
    exists d, d1, w0, m'. split_and!; [done|congruence| |done..].
    destruct Hm as [->| ->], Hm' as [->| ->]; rewrite ?Normalize_idemp; done. }
  case_decide.
  - destruct (sendDirectSync_ret NewRequestA DoA url_Host ResolveUDPAddr Udp ρ now nano dl
      (srv_cfg s) m) as (m' & r & E). rewrite E. cbn [go_bind].
    apply sendDirectSync_msg in E. destruct r; [done|]. intros [= Eb]. by eapply Hb, Eb.
  - intros [= Eb]. eapply Hb, Eb; by auto.
Qed.

(** A sync transfer end to end.  When the API handler waits, it has published
    one message on the resource's request topic; the HTTP bridge that handles that
    message calls its target and publishes one reply, on a topic that the node's
    response subscription accepts; whatever responses the node handles in between,
    once it has handled this reply the waiting handler answers 200 with the body the
    target gave. *)
Theorem sync_transfer_round_trip ρ now nano dl stamp tr w s req w1 s1 msg ch mode
    ρ2 start2 now2 v b topic raw c' payloads start3 now3 w3 :
  begin_sync ρ now nano dl stamp tr w s (Some req) = Ret (w1, s1, SyncWaiting msg ch mode) →
  let target := (doHttp clk NewRequest Do ρ2 now2 v b msg).2 in
  let resp := http_reply now2 b msg target in
  json_valid msg → json_valid resp →
  (EncodeDdMessage resp (bool_decide (128 ≤ length (msg_Payload resp))%nat)).2 = Ok raw →
  mq_Publish (w_mq v) (reply_topic b msg) raw = (c', None) →
  plain_level (t_tenant (srv_topics s)) → level_name ("req-" +:+ stamp) →
  ∃ data d1 w4 s4,
    mq_sent (w_mq w1) = mq_sent (w_mq w) ++
      [(mq_wire (w_mq w) (TransferRequest (srv_topics s) (tq_Resource req)), data)] ∧
    w_mq (Http_handleSyncRequest clk NewRequest Do ρ2 start2 now2 v b topic data).1 = c' ∧
    mq_sent c' = mq_sent (w_mq v) ++ [(mq_wire (w_mq v) (reply_topic b msg), raw)] ∧
    matchMQTTTopic (TransferResponseByRequestStream (srv_topics s)) (reply_topic b msg) = true ∧
    srv_dataService s1 = Some d1 ∧
    let d2 := handleSyncResponse (foldl handleSyncResponse d1 payloads) raw in
    handleTransferSync_end start3 now3 w3 (set_data s1 d2) msg ch mode WakeResponse =
      Some (w4, s4, writeJSON (J := J) 200
        (JObj [("response", JStr (of_bytes target.1)); ("route_mode", JStr mode)])).
Proof using All.
  intros Hbegin target resp Hvm Hvr Hraw Hpub Hten Hstamp.
  apply handleTransferSync_begin_waiting in Hbegin as (d & d1 & w0 & m0 & Hd & Hw0 & Hh & Hb & ->).
  apply SendSync_begin_published in Hb as Hmsg; [|done..].
  destruct Hmsg as (Hn & Hok & Hmode & Hreq & Hrep & data & Hsent & Hdec).
  specialize (Hdec Hvm). rewrite Hh in Hreq, Hrep.
  destruct (sync_message_id s stamp tr req) as (Hid & _ & Hto & _).
  rewrite Hid in Hreq. rewrite Hto in Hrep.
  assert (reply_topic b msg = TransferResponseByRequest (srv_topics s) ("req-" +:+ stamp))
    as Hreply.
  { unfold reply_topic. rewrite Hrep. by rewrite decide_False by done. }
  assert (DecodeDdMessage raw = Ok resp) as Hdr.
  { apply Decode_Encode in Hraw; unfold resp, http_reply in *; by rewrite Normalize_idemp in *. }
  assert (response_id resp = h_RequestId (msg_Header msg)) as Hrid.
  { apply http_response_id. rewrite Hreq. done. }
  destruct (SendSync_end_latest ρ now w0 d
    (TransferRequest (srv_topics s) (tq_Resource req)) (Some m0) w1 d1 msg ch payloads raw resp start3 now3 w3)
    as (w4 & d4 & rec & E & _); [exact Hb|exact Hdr|exact Hrid|].
  exists data, d1, w4, (set_data (set_data s d1) d4). split_and!.
  - by rewrite Hsent, Hw0.
  - eapply Http_handleSyncRequest_reply; [exact Hdec| |exact Hok|exact Hraw|exact Hpub].
    by rewrite http_accepted_id_msg, Hn.
  - by apply mq_publish_ok.
  - rewrite Hreply. apply matchMQTTTopic_accepts. unfold topic_accepts.
    destruct Hten as (Ht & ? & ?). autorewrite with topic_levels. solve_levels.
  - done.
  - unfold handleTransferSync_end. cbn [srv_dataService set_data]. rewrite E.
    unfold sync_reply. destruct (http_reply_contents now2 b msg target) as [Hp _].
    unfold resp. by rewrite Hp.
Qed.

End round_trip.

(** The API publishes a request under its resource and a bridge subscribes under its
    node's id, so the bridge receives it only when the two names are the same. *)
Lemma bridge_hears_own_id t1 t2 peerId resource :
  plain_level (t_tenant t1) → plain_level peerId →
  level_name (t_tenant t2) → level_name resource →
  matchMQTTTopic (TransferRequest t1 peerId) (TransferRequest t2 resource) = true ↔
  t_tenant t1 = t_tenant t2 ∧ peerId = resource.
Proof.
  intros (Hn1 & ? & ?) (Hp & ? & ?) Hn2 Hr.
  rewrite matchMQTTTopic_accepts. unfold topic_accepts.
  autorewrite with topic_levels. solve_levels.
Qed.

(** * The round trip at two concrete nodes *)

#[local] Existing Instance mock_client.
#[local] Existing Instance store_gzip.
#[local] Existing Instance store_gzip_laws.
#[local] Instance dlq_codec : JsonCodec DlqEvent := table_codec [].

Definition order_header (replyTo : string) : DdHeader := {|
  h_RequestId := "req-1"; h_CorrelationId := ""; h_ReplyTo := replyTo; h_TimeoutMs := 1000;
  h_SourcePeerId := "app"; h_TargetPeerId := ""; h_Tenant := ""; h_TraceId := "t1";
  h_IdempotencyKey := "" |}.

(** The message on the request topic, and the reply. *)
Definition order_msg : DdMessage := {|
  msg_Version := "v1"; msg_Mode := DdTransferModeSync; msg_Protocol := DdProtocolHttp;
  msg_Resource := "order"; msg_Header := order_header "dd/default/transfer/response/req-1";
  msg_Meta := order_header ""; msg_Headers := {[ "path" := "/orders" ]};
  msg_ProtocolMeta := {[ "http" := {[ "path" := "/orders" ]} ]}; msg_Payload := [];
  msg_CreatedAt := 100 |}.

Definition edge_bridge : HttpBridge :=
  NewHttpBridge (NewDefaultTopicSet "default") "order" "http://orders.local".

Definition order_reply : DdMessage :=
  http_reply 200 edge_bridge order_msg (to_bytes "done", 200).

Definition order_table : list (DdMessage * string) :=
  [(order_msg, json_text "{'mode':'sync','header':{'request_id':'req-1'}}");
   (order_reply, json_text "{'mode':'sync','header':{'correlation_id':'req-1'}}")].

#[local] Instance order_codec : JsonCodec DdMessage := table_codec order_table.
#[local] Instance order_laws : JsonLaws DdMessage.
Proof. apply table_codec_laws; [by_compute|]. by repeat constructor. Defined.

Definition order_target (_ : nat) (_ : http_request) : http_outcome :=
  DoResponse 200 (Ok (to_bytes "done")).

Abbreviation begin_order := (handleTransferSync_begin (C := MockClient) (St := MemoryStore)
  (J := unit) (λ _ _, None) (λ _ _, DoError (EText "")) (λ _, None) (λ _, None)
  (λ _ _ _, DialError) ranger_std 100 0 None "1" "" node_world api_node (Some order_request)).

Lemma sync_transfer_round_trip_witness :
  ∃ w1 s1 ch d1 raw w4 s4,
    begin_order = Ret (w1, s1, SyncWaiting order_msg ch "broker") ∧
    srv_dataService s1 = Some d1 ∧
    handleTransferSync_end (J := unit) 100 300 w1 (set_data s1 (handleSyncResponse d1 raw)) order_msg ch
      "broker" WakeResponse =
    Some (w4, s4, writeJSON 200 (JObj [("response", JStr "done");
                                       ("route_mode", JStr "broker")])).
Proof.
  assert (∃ w1 s1 ch, begin_order = Ret (w1, s1, SyncWaiting order_msg ch "broker")) as
    (w1 & s1 & ch & E) by (eexists _, _, _; vm_compute; reflexivity).
  destruct (sync_transfer_round_trip (J := unit) (λ _ _, None) (λ _ _, DoError (EText "")) (λ _, None)
    (λ _, None) (λ _ _ _, DialError) (λ _, 200) (λ _ _, None) order_target
    ranger_std 100 0 None "1" "" node_world api_node order_request w1 s1 order_msg ch "broker"
    ranger_std 200 200 node_world edge_bridge "dd/default/transfer/order/request"
    (to_bytes (json_text "{'mode':'sync','header':{'correlation_id':'req-1'}}"))
    (mq_Publish (w_mq node_world) (reply_topic edge_bridge order_msg)
      (to_bytes (json_text "{'mode':'sync','header':{'correlation_id':'req-1'}}"))).1
    [] 100 300 w1) as (data & d1 & w4 & s4 & _ & _ & _ & _ & Hd1 & Hend).
  - exact E.
  - exact I.
  - exact I.
  - vm_compute. reflexivity.
  - vm_compute. reflexivity.
  - by_compute.
  - by_compute.
  - eexists w1, s1, ch, d1, _, w4, s4. split; [exact E|]. split; [exact Hd1|].
    etransitivity; [exact Hend|]. vm_compute. reflexivity.
Defined.
