(* ===== verification/Node.v ===== *)
(** The running node: the services that [main] has started, and everything that
    can happen to them afterwards, one event after another: a message from the
    broker, a request to the HTTP API, the end of a waiting transfer, a tick of a
    timer, a worker of the CoAP bridge, and the shutdown.

    What the surroundings give during an event (clocks, iteration order, the network)
    comes with the event.  A message for the CoAP bridge takes two events, between which
    others can come, as its handler can be overtaken between its two selects; the two
    closes of the bridge's [Stop] are one event, since what is sent between them is sent
    before both, and what is ignored there is ignored after both.  The other handlers are
    one event each; their own interleavings are the subject of DataServiceProps,
    PeerRegistryProps, Replicas and CoapBridge. *)
From S2P Require Import Prelude GoStrings GoTime Errors Metrics TopicFilter Acl Topics.
From S2P Require Import Mq Model Message Codec Registry PeerRegistry PeerList Catalog.
From S2P Require Import DataService Streams Config Route Auth Discovery Coap Bridges.
From S2P Require Import HttpBridge CoapBridge Router ProtocolIndex Api ApiHandlers Main.

Open Scope string_scope.
Open Scope list_scope.
Open Scope Z_scope.

(** What an event reads from outside the program. *)
Record env := {
  e_range : ranger;
  e_ranges : nat → ranger;
  e_items : item_order;
  e_now : Time;
  e_nano : Time;
  e_clk : nat → Time;
  e_stamp : nat → string;
  e_ctx_deadline : option Time;
  e_NewRequest : string → string → option error;
  e_Do : nat → http_request → http_outcome;
  e_DirectDo : option Duration → http_request → http_outcome;
  e_url_Host : string → option string;
  e_ResolveUDPAddr : string → option error;
  e_Udp : nat → string → Duration → bytes → udp_outcome;
  e_DirectUdp : string → Time → bytes → udp_outcome
}.

(** A request to the API, routed and with its body decoded ([None]: invalid). *)
Inductive api_request :=
| ApiHealth (uptime : string)
| ApiPeerRegister (req : option PeerRegisterReq)
| ApiPeerHeartbeat (id : string)
| ApiPeerUnregister (id : string)
| ApiPeerGet (id : string)
| ApiPeersQuery (resource role status : string)
| ApiResourceProviders (resource : string)
| ApiResourceMetaSchema (resource : string)
| ApiResourcesList
| ApiHTTPProtocolResources
| ApiHTTPProtocolResourceByName (resource : string)
| ApiCoapProtocolResources
| ApiCoapProtocolResourceByName (resource : string)
| ApiMqttProtocolTopics (direction peerID qos : string)
| ApiMqttProtocolTopicByName (name : string)
| ApiTransferSync (traceHeader : string) (req : option TransferReq)
| ApiTransferAsync (traceHeader : string) (req : option TransferReq)
| ApiTransferAsyncBatch (traceHeader : string) (req : option (list TransferReq))
| ApiTransferStatus (requestId : string)
| ApiStreamOpen (req : option StreamOpenReq)
| ApiStreamClose (req : option StreamCloseReq)
| ApiStreamsList
| ApiMetrics.

(** [EvCoapSend i]: the [i]-th of the calls of [enqueueTask] that are between their two
    selects goes on.  [conn] names the connection of a request; a connection carries one
    request at a time.  After [EvStop] the listener is closed and no request comes; the model
    allows them, and the properties hold with them. *)
Inductive event :=
| EvMessage (h : MessageHandler) (topic : string) (payload : bytes)
| EvRequest (conn : nat) (req : api_request)
| EvWake (conn : nat) (why : wakeup)
| EvAutoRegister
| EvBroadcast
| EvSweepIdle
| EvSweepIdempotent
| EvSweepStatuses
| EvCoapSend (i : nat)
| EvCoapWorker
| EvStop.

(** A sync transfer that waits for its response. *)
Record waiting := {
  wt_start : Time;
  wt_msg : DdMessage;
  wt_ch : nat;
  wt_mode : RouteMode
}.

Record NodeState (C J : Type) := {
  ns_world : World C;
  ns_server : Server MemoryStore;
  ns_discovery : HubDiscoveryService;
  ns_auth : AuthPeerService;
  ns_peerList : PeerListService;
  ns_http : option HttpBridge;
  ns_coap : option (CoapBridge * coap_queue);
  ns_entering : list coapTask;
  ns_mqtt : list MqttMapping;
  ns_registers : option DdPeerInfo;
  ns_broadcasts : bool;
  ns_waiting : gmap nat waiting;
  ns_replies : list (nat * api_reply J)
}.
Arguments ns_world {C J} _.
Arguments ns_server {C J} _.
Arguments ns_discovery {C J} _.
Arguments ns_auth {C J} _.
Arguments ns_peerList {C J} _.
Arguments ns_http {C J} _.
Arguments ns_coap {C J} _.
Arguments ns_entering {C J} _.
Arguments ns_mqtt {C J} _.
Arguments ns_registers {C J} _.
Arguments ns_broadcasts {C J} _.
Arguments ns_waiting {C J} _.
Arguments ns_replies {C J} _.

Section setters.
Context {C J : Type}.
Implicit Types (n : NodeState C J) (w : World C).

(** The services behind the API and the world change together. *)
Definition with_server n w (s : Server MemoryStore) : NodeState C J :=
  {| ns_world := w; ns_server := s; ns_discovery := ns_discovery n; ns_auth := ns_auth n;
     ns_peerList := ns_peerList n; ns_http := ns_http n; ns_coap := ns_coap n;
     ns_entering := ns_entering n;
     ns_mqtt := ns_mqtt n; ns_registers := ns_registers n; ns_broadcasts := ns_broadcasts n;
     ns_waiting := ns_waiting n; ns_replies := ns_replies n |}.
Definition with_world n w : NodeState C J := with_server n w (ns_server n).
Definition with_discovery n d : NodeState C J :=
  {| ns_world := ns_world n; ns_server := ns_server n; ns_discovery := d; ns_auth := ns_auth n;
     ns_peerList := ns_peerList n; ns_http := ns_http n; ns_coap := ns_coap n;
     ns_entering := ns_entering n;
     ns_mqtt := ns_mqtt n; ns_registers := ns_registers n; ns_broadcasts := ns_broadcasts n;
     ns_waiting := ns_waiting n; ns_replies := ns_replies n |}.
Definition with_bridges n w http coap : NodeState C J :=
  {| ns_world := w; ns_server := ns_server n; ns_discovery := ns_discovery n;
     ns_auth := ns_auth n; ns_peerList := ns_peerList n; ns_http := http; ns_coap := coap;
     ns_entering := ns_entering n;
     ns_mqtt := ns_mqtt n; ns_registers := ns_registers n; ns_broadcasts := ns_broadcasts n;
     ns_waiting := ns_waiting n; ns_replies := ns_replies n |}.
Definition with_waiting n (wt : gmap nat waiting) : NodeState C J :=
  {| ns_world := ns_world n; ns_server := ns_server n; ns_discovery := ns_discovery n;
     ns_auth := ns_auth n; ns_peerList := ns_peerList n; ns_http := ns_http n;
     ns_coap := ns_coap n; ns_entering := ns_entering n;
     ns_mqtt := ns_mqtt n; ns_registers := ns_registers n;
     ns_broadcasts := ns_broadcasts n; ns_waiting := wt; ns_replies := ns_replies n |}.

Definition with_entering n (l : list coapTask) : NodeState C J :=
  {| ns_world := ns_world n; ns_server := ns_server n; ns_discovery := ns_discovery n;
     ns_auth := ns_auth n; ns_peerList := ns_peerList n; ns_http := ns_http n;
     ns_coap := ns_coap n; ns_entering := l; ns_mqtt := ns_mqtt n;
     ns_registers := ns_registers n; ns_broadcasts := ns_broadcasts n;
     ns_waiting := ns_waiting n; ns_replies := ns_replies n |}.

Definition with_replies n (l : list (nat * api_reply J)) : NodeState C J :=
  {| ns_world := ns_world n; ns_server := ns_server n; ns_discovery := ns_discovery n;
     ns_auth := ns_auth n; ns_peerList := ns_peerList n; ns_http := ns_http n;
     ns_coap := ns_coap n; ns_entering := ns_entering n; ns_mqtt := ns_mqtt n;
     ns_registers := ns_registers n; ns_broadcasts := ns_broadcasts n;
     ns_waiting := ns_waiting n; ns_replies := l |}.

Definition answer (conn : nat) n (r : api_reply J) : NodeState C J :=
  {| ns_world := ns_world n; ns_server := ns_server n; ns_discovery := ns_discovery n;
     ns_auth := ns_auth n; ns_peerList := ns_peerList n; ns_http := ns_http n;
     ns_coap := ns_coap n; ns_entering := ns_entering n;
     ns_mqtt := ns_mqtt n; ns_registers := ns_registers n;
     ns_broadcasts := ns_broadcasts n; ns_waiting := ns_waiting n;
     ns_replies := ns_replies n ++ [(conn, r)] |}.

(** Assignments to one service. *)
Definition put_registry n w (r : PeerRegistryService MemoryStore) : NodeState C J :=
  with_server n w (set_registry (ns_server n) r).
Definition put_data n w (d : DdDataService) : NodeState C J :=
  with_server n w (set_data (ns_server n) d).
Definition put_streams n (s : StreamService) : NodeState C J :=
  with_server n (ns_world n)
    {| srv_cfg := srv_cfg (ns_server n); srv_topics := srv_topics (ns_server n);
       srv_peerRegistry := srv_peerRegistry (ns_server n);
       srv_dataService := srv_dataService (ns_server n); srv_streamService := s;
       srv_resourceCatalog := srv_resourceCatalog (ns_server n);
       srv_protocolIndex := srv_protocolIndex (ns_server n) |}.
End setters.

(** The node that [main] leaves running. *)
Definition node_init {C J} (w : World C) (n : Node) : NodeState C J := {|
  ns_world := w; ns_server := nd_server n; ns_discovery := nd_discovery n;
  ns_auth := nd_auth n; ns_peerList := nd_peerList n; ns_http := nd_http n;
  ns_coap := match nd_coap n with Some b => Some (b, coap_queue0) | None => None end;
  ns_entering := [];
  ns_mqtt := nd_mqtt n; ns_registers := nd_registers n; ns_broadcasts := nd_broadcasts n;
  ns_waiting := ∅; ns_replies := []
|}.

Section node.
Context {C J : Type} `{MqClient C} `{JsonCodec DdMessage} `{Gzip}.
Context `{RegistryCodecs} `{StreamCodecs} `{JsonCodec HubBroadcast} `{JsonCodec AuthBroadcast}.
Context `{JsonCodec PeerAuthRequest} `{JsonCodec PeerAuthResponse}.
Context `{JsonCodec PeerListQuery} `{JsonCodec PeerListResponse} `{JsonCodec DlqEvent}.
Context (toMap : ResourceMetaSchema → option J).
Implicit Types (e : env) (n : NodeState C J).

(** The closures that the CoAP bridge subscribes: [enqueueTask], up to its second select,
    and from there. *)
Definition enqueueTask n (q : coap_queue) (task : coapTask) : NodeState C J :=
  if enqueue_enter q then with_entering n (ns_entering n ++ [task]) else n.

Definition enqueueTask_send e n (i : nat) : go (NodeState C J) :=
  match ns_coap n, ns_entering n !! i with
  | Some (b, q), Some task =>
      (let? (w, q) := enqueue_send (e_now e) (ns_world n) b q task in
       Ret (with_entering (with_bridges n w (ns_http n) (Some (b, q)))
              (delete i (ns_entering n))))%go
  | _, _ => Ret n
  end.

(** The method that a subscription calls. *)
Definition node_message e n (h : MessageHandler) (topic : string) (payload : bytes)
    : go (NodeState C J) :=
  let w := ns_world n in
  let s := ns_server n in
  let reg := srv_peerRegistry s in
  match h with
  | hRegister =>
      let '(w, reg) := handleRegister (e_range e) (e_now e) w reg payload in
      Ret (put_registry n w reg)
  | hHeartbeat => Ret (put_registry n w (handleHeartbeat (e_now e) (e_now e) reg payload))
  | hQuery => Ret (with_world n (handleQuery (e_range e) (e_now e) w reg payload))
  | hResourceReport => Ret (put_registry n w (handleResourceReport (e_now e) reg payload))
  | hUnregister => Ret (put_registry n w (handleUnregister reg payload))
  | hSyncResponse =>
      match srv_dataService s with
      | Some d => Ret (put_data n w (handleSyncResponse d payload))
      | None => Ret n
      end
  | hStreamOpen => Ret (put_streams n (handleStreamOpen (e_now e) (srv_streamService s) payload))
  | hStreamClose =>
      Ret (put_streams n (handleStreamClose (e_now e) (srv_streamService s) payload))
  | hHubBroadcast => Ret (with_discovery n (handleHubBroadcast (ns_discovery n) payload).1)
  | hAuthBroadcast => Ret (with_discovery n (handleAuthBroadcast (ns_discovery n) payload).1)
  | hVerifyReq => Ret (with_world n (handleVerifyReq w (ns_auth n) payload))
  | hPeerListQuery =>
      (let? w := PeerList_handleQuery (e_range e) (e_now e) w reg (ns_peerList n) payload in
       Ret (with_world n w))%go
  | hHttpSyncRequest =>
      match ns_http n with
      | Some b =>
          let '(w, b) := Http_handleSyncRequest (e_clk e) (e_NewRequest e) (e_Do e) (e_range e)
                           (e_now e) (e_now e) w b topic payload in
          Ret (with_bridges n w (Some b) (ns_coap n))
      | None => Ret n
      end
  | hHttpAsyncEvent =>
      match ns_http n with
      | Some b =>
          let '(w, b) := Http_handleAsyncEvent (e_clk e) (e_NewRequest e) (e_Do e) (e_range e)
                           (e_now e) (e_now e) w b topic payload in
          Ret (with_bridges n w (Some b) (ns_coap n))
      | None => Ret n
      end
  | hCoapSyncRequest | hCoapAsyncEvent =>
      match ns_coap n with
      | Some (_, q) =>
          Ret (enqueueTask n q {| task_topic := topic; task_payload := payload;
                                  task_isSync := bool_decide (h = hCoapSyncRequest) |})
      | None => Ret n
      end
  | hMqttForward i =>
      match ns_mqtt n !! i with
      | Some m => Ret (with_world n (mqtt_forward (e_now e) (e_now e) w m topic payload))
      | None => Ret n
      end
  end.

(** The index points to the configuration of the server. *)
Definition index_cfg n : Config := default zero_config (srv_cfg (ns_server n)).

Definition node_request e n (conn : nat) (req : api_request) : go (NodeState C J) :=
  let w := ns_world n in
  let s := ns_server n in
  let ρ := e_range e in
  let now := e_now e in
  let whole '(w, s, r) := Ret (answer conn (with_server n w s) r) in
  let world '(w, r) := Ret (answer conn (with_world n w) r) in
  let plain r := Ret (answer conn n r) in
  match req with
  | ApiHealth uptime => plain (handleHealth uptime)
  | ApiPeerRegister req => whole (handlePeerRegister now w s req)
  | ApiPeerHeartbeat id => world (handlePeerHeartbeat now w s id)
  | ApiPeerUnregister id => whole (handlePeerUnregister now w s id)
  | ApiPeerGet id => plain (handlePeerGet s id)
  | ApiPeersQuery resource role status => plain (handlePeersQuery ρ now s resource role status)
  | ApiResourceProviders resource => plain (handleResourceProviders ρ now s resource)
  | ApiResourceMetaSchema resource => plain (handleResourceMetaSchema ρ now s resource)
  | ApiResourcesList => plain (handleResourcesList ρ s)
  | ApiHTTPProtocolResources =>
      whole (handleHTTPProtocolResources toMap ρ now (index_cfg n) w s)
  | ApiHTTPProtocolResourceByName resource =>
      whole (handleHTTPProtocolResourceByName toMap ρ now (index_cfg n) w s resource)
  | ApiCoapProtocolResources =>
      whole (handleCoapProtocolResources toMap ρ now (index_cfg n) w s)
  | ApiCoapProtocolResourceByName resource =>
      whole (handleCoapProtocolResourceByName toMap ρ now (index_cfg n) w s resource)
  | ApiMqttProtocolTopics direction peerID qos =>
      whole (handleMqttProtocolTopics (e_items e) now (index_cfg n) w s direction peerID qos)
  | ApiMqttProtocolTopicByName name =>
      whole (handleMqttProtocolTopicByName (e_items e) now (index_cfg n) w s name)
  | ApiTransferSync traceHeader req =>
      (let? (w, s, t) := handleTransferSync_begin (e_NewRequest e) (e_DirectDo e)
                           (e_url_Host e) (e_ResolveUDPAddr e) (e_DirectUdp e) ρ now (e_nano e)
                           (e_ctx_deadline e) (e_stamp e 0) traceHeader w s req in
       let n := with_server n w s in
       match t with
       | SyncReplied r => Ret (answer conn n r)
       | SyncWaiting msg ch mode =>
           Ret (with_waiting n
                  (<[conn := {| wt_start := now; wt_msg := msg; wt_ch := ch; wt_mode := mode |}]>
                     (ns_waiting n)))
       end)%go
  | ApiTransferAsync traceHeader req =>
      (let? r := handleTransferAsync (e_NewRequest e) (e_DirectDo e) (e_url_Host e)
                   (e_ResolveUDPAddr e) (e_DirectUdp e) ρ now (e_nano e) (e_ctx_deadline e)
                   (e_stamp e 0) traceHeader w s req in
       whole r)%go
  | ApiTransferAsyncBatch traceHeader req =>
      (let? r := handleTransferAsyncBatch (e_NewRequest e) (e_DirectDo e) (e_url_Host e)
                   (e_ResolveUDPAddr e) (e_DirectUdp e) ρ now (e_nano e) (e_ctx_deadline e)
                   (e_stamp e) traceHeader w s req in
       whole r)%go
  | ApiTransferStatus requestId =>
      (let? r := handleTransferStatus s requestId in plain r)%go
  | ApiStreamOpen req => world (handleStreamOpenReq (e_stamp e 0) w s req)
  | ApiStreamClose req => world (handleStreamCloseReq w s req)
  | ApiStreamsList => plain (handleStreamsList ρ s)
  | ApiMetrics => (let? r := handleMetrics ρ s in plain r)%go
  end.

(** A waiting transfer whose [select] has something to take goes on; otherwise the
    event is none of its own. *)
Definition node_wake e n (conn : nat) (why : wakeup) : NodeState C J :=
  match ns_waiting n !! conn with
  | None => n
  | Some t =>
      match handleTransferSync_end (wt_start t) (e_now e) (ns_world n) (ns_server n)
              (wt_msg t) (wt_ch t) (wt_mode t) why with
      | None => n
      | Some (w, s, r) =>
          answer conn (with_waiting (with_server n w s) (delete conn (ns_waiting n))) r
      end
  end.

(** A worker takes the first task of the queue, while there is one. *)
Definition coap_worker e n : go (NodeState C J) :=
  match ns_coap n with
  | Some (b, q) =>
      match q_reqCh q with
      | [] => Ret n
      | task :: rest =>
          (let? (w, b) := worker_task (e_clk e) (e_ResolveUDPAddr e) (e_Udp e) (e_range e)
                            (e_now e) (e_now e) (ns_world n) b task in
           Ret (with_bridges n w (ns_http n)
                  (Some (b, {| q_reqCh := rest; q_reqClosed := q_reqClosed q;
                               q_stopClosed := q_stopClosed q |}))))%go
      end
  | None => Ret n
  end.

(** [CoapBridge.Stop] under its [sync.Once]; the other bridges have nothing to stop. *)
Definition coap_Stop (q : coap_queue) : coap_queue :=
  stop_close_reqCh (stop_close_stopCh q).

Definition node_stop n : NodeState C J :=
  with_bridges n (ns_world n) (ns_http n)
    (match ns_coap n with Some (b, q) => Some (b, coap_Stop q) | None => None end).

(** The goroutine that registers the node itself; a failure is only logged. *)
Definition auto_register e n : NodeState C J :=
  match ns_registers n with
  | Some peer =>
      let '(w, reg, _) := RegisterPeer (e_now e) (ns_world n) (srv_peerRegistry (ns_server n)) peer in
      put_registry n w reg
  | None => n
  end.

(** The tickers of [main] and of the hub. *)
Definition sweep_idle e n : NodeState C J :=
  put_streams n (SweepIdle (e_range e) (e_now e) (15 * Second) (srv_streamService (ns_server n))).
Definition broadcast_tick e n : NodeState C J :=
  if ns_broadcasts n then with_world n (broadcast (e_now e) (ns_world n) (ns_discovery n)) else n.

Definition node_event e n (ev : event) : go (NodeState C J) :=
  let w := ns_world n in
  let s := ns_server n in
  match ev with
  | EvMessage h topic payload => node_message e n h topic payload
  | EvRequest conn req =>
      if decide (is_Some (ns_waiting n !! conn)) then Ret n else node_request e n conn req
  | EvWake conn why => Ret (node_wake e n conn why)
  | EvAutoRegister => Ret (auto_register e n)
  | EvBroadcast => Ret (broadcast_tick e n)
  | EvSweepIdle => Ret (sweep_idle e n)
  | EvSweepIdempotent =>
      match srv_dataService s with
      | Some d => Ret (put_data n w (sweepIdempotent (e_range e) (e_ranges e) (e_now e) d))
      | None => Ret n
      end
  | EvSweepStatuses =>
      match srv_dataService s with
      | Some d => Ret (put_data n w (sweepTransferStatuses (e_range e) (e_now e) d))
      | None => Ret n
      end
  | EvCoapSend i => enqueueTask_send e n i
  | EvCoapWorker => coap_worker e n
  | EvStop => Ret (node_stop n)
  end.

Fixpoint node_run (n : NodeState C J) (evs : list (env * event)) : go (NodeState C J) :=
  match evs with
  | [] => Ret n
  | (e, ev) :: evs => (let? n := node_event e n ev in node_run n evs)%go
  end.

(** * Behind the middleware *)

(** [main] wraps the routes in [RequestLoggingMiddleware].  The method and the decoded
    path of a request, as its label values. *)
Definition request_line (req : api_request) : string * string :=
  match req with
  | ApiHealth _ => ("GET", prefix +:+ "/health")
  | ApiPeerRegister _ => ("POST", prefix +:+ "/peers/register")
  | ApiPeerHeartbeat id => ("POST", prefix +:+ "/peers/" +:+ id +:+ "/heartbeat")
  | ApiPeerUnregister id => ("POST", prefix +:+ "/peers/" +:+ id +:+ "/unregister")
  | ApiPeerGet id => ("GET", prefix +:+ "/peers/" +:+ id)
  | ApiPeersQuery _ _ _ => ("GET", prefix +:+ "/peers")
  | ApiResourceProviders r => ("GET", prefix +:+ "/resources/" +:+ r +:+ "/providers")
  | ApiResourceMetaSchema r => ("GET", prefix +:+ "/resources/" +:+ r +:+ "/meta-schema")
  | ApiResourcesList => ("GET", prefix +:+ "/resources")
  | ApiHTTPProtocolResources => ("GET", prefix +:+ "/protocol-resources/http")
  | ApiHTTPProtocolResourceByName r => ("GET", prefix +:+ "/protocol-resources/http/" +:+ r)
  | ApiCoapProtocolResources => ("GET", prefix +:+ "/protocol-resources/coap")
  | ApiCoapProtocolResourceByName r => ("GET", prefix +:+ "/protocol-resources/coap/" +:+ r)
  | ApiMqttProtocolTopics _ _ _ => ("GET", prefix +:+ "/protocol-resources/mqtt/topics")
  | ApiMqttProtocolTopicByName name =>
      ("GET", prefix +:+ "/protocol-resources/mqtt/topics/" +:+ name)
  | ApiTransferSync _ _ => ("POST", prefix +:+ "/transfer/sync")
  | ApiTransferAsync _ _ => ("POST", prefix +:+ "/transfer/async")
  | ApiTransferAsyncBatch _ _ => ("POST", prefix +:+ "/transfer/async/batch")
  | ApiTransferStatus id => ("GET", prefix +:+ "/transfer/" +:+ id)
  | ApiStreamOpen _ => ("POST", prefix +:+ "/transfer/stream/open")
  | ApiStreamClose _ => ("POST", prefix +:+ "/transfer/stream/close")
  | ApiStreamsList => ("GET", prefix +:+ "/streams")
  | ApiMetrics => ("GET", prefix +:+ "/metrics")
  end.

Context (label_error : list string → option string).

(** The middleware goes on when the handler has written its reply.  Its panic is
    recovered by net/http, which drops the connection and with it the reply; what the
    handler did stays. *)
Definition logged e n n' (start : Time) (line : string * string) : NodeState C J :=
  match drop (length (ns_replies n)) (ns_replies n') with
  | [] => n'
  | (_, r) :: _ =>
      match RequestLoggingMiddleware label_error (ns_world n') start (e_now e) line.1 line.2
              [rep_status r] with
      | Ret w => with_world n' w
      | Panic _ => with_replies n' (ns_replies n)
      end
  end.

Definition serve_event e n (ev : event) : go (NodeState C J) :=
  (let? n' := node_event e n ev in
   Ret match ev with
       | EvRequest conn req => logged e n n' (e_now e) (request_line req)
       | EvWake conn _ =>
           logged e n n' (default (e_now e) (wt_start <$> ns_waiting n !! conn))
             ("POST", prefix +:+ "/transfer/sync")
       | _ => n'
       end)%go.

Fixpoint serve_run (n : NodeState C J) (evs : list (env * event)) : go (NodeState C J) :=
  match evs with
  | [] => Ret n
  | (e, ev) :: evs => (let? n := serve_event e n ev in serve_run n evs)%go
  end.

End node.
