(* ===== verification/NodeCalls.v ===== *)
(** The data service of a running node: every operation on it is a sequence of steps
    of the system of calls of DataServiceProps, and leaves alone what is held for
    the calls that wait. *)
From S2P Require Import Prelude GoStrings GoTime Errors Metrics TopicFilter Acl Topics.
From S2P Require Import Mq Model Message Codec DataService DataServiceProps.
From stdpp Require Import relations fin_map_dom.

Open Scope string_scope.
Open Scope list_scope.
Open Scope Z_scope.

(** * The data service as a system of calls *)

(** A thread that owns nothing: a call that is over, or a response handled. *)
Definition quiet (th : thread) : Prop := holds th = None ∧ answers th = None.

Section calls.
Context {C : Type} `{MqClient C} `{JsonCodec DdMessage} `{Gzip}.
Implicit Types (w : World C) (d : DdDataService).

Definition sys w d (ts : gmap nat thread) : System (C := C) :=
  {| sys_w := w; sys_s := d; sys_threads := ts |}.

(** The service has gone from one state to another by steps of the system, whatever
    calls were there, and has left them alone. *)
Definition sys_evolves w d w' d' : Prop :=
  ∀ ts, ∃ ts', rtc sys_step (sys w d ts) (sys w' d' ts') ∧ ts ⊆ ts' ∧
    ∀ tid th, ts' !! tid = Some th → ts !! tid = Some th ∨ quiet th.

Lemma sys_evolves_refl w d : sys_evolves w d w d.
Proof using Type. intros ts. exists ts. split_and!; [apply rtc_refl|done|by left]. Qed.

Lemma sys_evolves_trans w1 d1 w2 d2 w3 d3 :
  sys_evolves w1 d1 w2 d2 → sys_evolves w2 d2 w3 d3 → sys_evolves w1 d1 w3 d3.
Proof using Type.
  intros H12 H23 ts. destruct (H12 ts) as (ts2 & R2 & S2 & Q2).
  destruct (H23 ts2) as (ts3 & R3 & S3 & Q3).
  exists ts3. split_and!; [by etrans|by etrans|].
  intros tid th E. destruct (Q3 _ _ E) as [E2|]; [by apply Q2|by right].
Qed.

(** One more thread that owns nothing. *)
Lemma sys_evolves_thread w d w' d' :
  (∀ ts tid, ts !! tid = None →
     ∃ th, quiet th ∧ rtc sys_step (sys w d ts) (sys w' d' (<[tid := th]> ts))) →
  sys_evolves w d w' d'.
Proof using Type.
  intros Hstep ts. set (tid := fresh (dom ts)).
  assert (ts !! tid = None) as Hf by apply not_elem_of_dom, is_fresh.
  destruct (Hstep ts tid Hf) as (th & Hq & Hr). exists (<[tid := th]> ts).
  split_and!; [done|by apply insert_subseteq|].
  intros tid' th'. rewrite lookup_insert. case_decide; [intros [= <-]; by right|by left].
Qed.

Lemma sys_evolves_once w d w' d' :
  (∀ ts, sys_step (sys w d ts) (sys w' d' ts)) → sys_evolves w d w' d'.
Proof using Type.
  intros Hs ts. exists ts. split_and!; [by apply rtc_once|done|by left].
Qed.

Lemma evolves_world w w' d : sys_evolves w d w' d.
Proof using Type. apply sys_evolves_once. intros ts. apply (step_world w' (sys w d ts)). Qed.

Lemma evolves_async ρ t1 t2 w d topic msg w' d' m err :
  SendAsync ρ t1 t2 w d topic msg = (w', d', m, err) → sys_evolves w d w' d'.
Proof using Type.
  intros E. apply sys_evolves_once. intros ts. by apply (step_async ρ t1 t2 (sys w d ts) topic msg _ _ m err).
Qed.

Lemma evolves_sweepIdempotent ρ ρs now w d : sys_evolves w d w (sweepIdempotent ρ ρs now d).
Proof using Type.
  apply sys_evolves_once. intros ts. apply (step_sweep_idempotent ρ ρs now (sys w d ts)).
Qed.

Lemma evolves_sweepStatuses ρ now w d : sys_evolves w d w (sweepTransferStatuses ρ now d).
Proof using Type.
  apply sys_evolves_once. intros ts. apply (step_sweep_statuses ρ now (sys w d ts)).
Qed.

Lemma with_thread_twice w d w' d' ts tid th th' :
  with_thread (sys w d (<[tid := th]> ts)) w' d' tid th' = sys w' d' (<[tid := th']> ts).
Proof using Type. unfold with_thread, sys. simpl. by rewrite insert_insert_eq. Qed.

(** A step of a thread that is already there. *)
Lemma thread_step w d ts tid th w' d' th' σ' :
  sys_step (sys w d (<[tid := th]> ts)) (with_thread (sys w d (<[tid := th]> ts)) w' d' tid th') →
  rtc sys_step (sys w' d' (<[tid := th']> ts)) σ' →
  rtc sys_step (sys w d (<[tid := th]> ts)) σ'.
Proof using Type. intros Hs Hr. eapply rtc_l; [exact Hs|]. by rewrite with_thread_twice. Qed.

(** [SendSync] up to its [select], as steps of one call. *)
Lemma begin_steps ρ now w d topic msg w' d' r ts tid :
  SendSync_begin ρ now w d topic msg = (w', d', r) → ts !! tid = None →
  ∃ th, rtc sys_step (sys w d ts) (sys w' d' (<[tid := th]> ts)) ∧
    match r with
    | Waiting m ch => th = DataServiceProps.SyncWaiting now m ch
    | Returned _ => quiet th
    end.
Proof using Type.
  intros E Hf. unfold SendSync_begin in E.
  destruct (SendSync_prepare _ _ _ _ _ _ _ _) as [[w1 d1] p] eqn:Ep.
  pose proof (step_call ρ now now now (sys w d ts) tid topic msg w1 d1 p Hf Ep) as Hcall.
  change (with_thread _ _ _ _ _) with (sys w1 d1 (<[tid := prepared_thread topic msg p]> ts)) in Hcall.
  destruct p as [resp|err|m]; cbn [prepared_thread] in Hcall.
  - apply pair3_inj in E as (-> & -> & <-). eexists. split; [by apply rtc_once|done].
  - apply pair3_inj in E as (-> & -> & <-). eexists. split; [by apply rtc_once|done].
  - destruct (SendSync_register d1 m) as [d2 [err|ch]] eqn:Er.
    + apply pair3_inj in E as (-> & -> & <-). eexists. split.
      * eapply rtc_l; [exact Hcall|]. eapply thread_step; [|apply rtc_refl].
        eapply step_refuse; [apply lookup_insert_eq|exact Er].
      * done.
    + destruct (SendSync_publish _ _ _ _ _ _) as [[[w3 d3] m'] [err|]] eqn:Eb;
        apply pair3_inj in E as (-> & <- & <-); eexists; (split; [eapply rtc_l; [exact Hcall|]|]).
      * eapply thread_step; [eapply step_register; [apply lookup_insert_eq|exact Er]|].
        eapply thread_step; [eapply step_publish_fail; [apply lookup_insert_eq|exact Eb]|].
        eapply thread_step; [eapply step_cleanup; apply lookup_insert_eq|apply rtc_refl].
      * done.
      * eapply thread_step; [eapply step_register; [apply lookup_insert_eq|exact Er]|].
        eapply thread_step; [eapply (step_publish now); [apply lookup_insert_eq|exact Eb]|].
        apply rtc_refl.
      * done.
Qed.

Lemma end_steps start now w d msg ch why w' d' res ts tid :
  SendSync_end start now w d msg ch why = Some (w', d', res) →
  ts !! tid = Some (DataServiceProps.SyncWaiting start msg ch) →
  rtc sys_step (sys w d ts) (sys w' d' (<[tid := SyncDone msg res]> ts)).
Proof using Type.
  intros E Ht. unfold SendSync_end in E.
  destruct (SendSync_select _ _ _ _ _ _ _ _ _) as [[[w1 d1] r]|] eqn:Es; [|done].
  apply Some_inj, pair3_inj in E as (-> & <- & ->).
  rewrite <- (insert_id _ _ _ Ht) at 1.
  eapply thread_step; [eapply step_select; [apply lookup_insert_eq|exact Es]|].
  eapply thread_step; [eapply step_cleanup; apply lookup_insert_eq|apply rtc_refl].
Qed.

Lemma evolves_begin ρ now w d topic msg w' d' res :
  SendSync_begin ρ now w d topic msg = (w', d', Returned res) → sys_evolves w d w' d'.
Proof using Type.
  intros E. apply sys_evolves_thread. intros ts tid Hf.
  destruct (begin_steps _ _ _ _ _ _ _ _ _ _ _ E Hf) as (th & Hr & Hq). by exists th.
Qed.

Lemma evolves_response w d payload : sys_evolves w d w (handleSyncResponse d payload).
Proof using Type.
  unfold handleSyncResponse. destruct (response_lookup d payload) as [[ch msg]|] eqn:E;
    [|apply sys_evolves_refl].
  apply sys_evolves_thread. intros ts tid Hf. exists RespDone. split; [done|].
  eapply rtc_l; [by apply (step_response (sys w d ts) tid payload ch msg)|].
  change (with_thread _ _ _ _ _) with (sys w d (<[tid := RespOffer msg ch]> ts)).
  unfold deliver. destruct (try_send d ch msg) as [d1 [|]] eqn:E1.
  - eapply thread_step; [eapply step_offer; [apply lookup_insert_eq|exact E1]|apply rtc_refl].
  - eapply thread_step; [eapply step_offer_full; [apply lookup_insert_eq|exact E1]|].
    destruct (try_recv d1 ch) as [d2 o] eqn:E2.
    eapply thread_step; [eapply step_drain; apply lookup_insert_eq|].
    eapply thread_step; [eapply step_retry; apply lookup_insert_eq|].
    cbn [sys sys_s]. rewrite E2. apply rtc_refl.
Qed.


(** * What is held for a waiting call *)

(** The call with request id [id] waits on the channel [ch], on which no other call
    waits, and the buffer of the channel is [r]. *)
Definition held d (id : string) (ch : nat) (r : channel) : Prop :=
  ds_pendingRequests d !! id = Some ch ∧ ds_channels d !! ch = Some r ∧
  ∀ id', ds_pendingRequests d !! id' = Some ch → id' = id.

(** Nothing held for a call is touched. *)
Definition calls_kept d d' : Prop := ∀ id ch r, held d id ch r → held d' id ch r.

#[export] Instance calls_kept_preorder : PreOrder calls_kept.
Proof using Type. split; [by intros d id ch r|]. intros d1 d2 d3 K1 K2 id ch r Hh. by apply K2, K1. Qed.

Lemma same_calls_kept d d' : same_calls d d' → calls_kept d d'.
Proof using Type. intros (Ep & Ec & _) id ch r. unfold held. by rewrite Ep, Ec. Qed.

Lemma held_delete d id ch r id' : id' ≠ id → held d id ch r →
  held (set_pending d (delete id' (ds_pendingRequests d))) id ch r.
Proof using Type.
  intros Hne (Hp & Hc & Hl). unfold held. cbn. split_and!; [by rewrite lookup_delete_ne|done|].
  intros id2 [_ ?]%lookup_delete_Some. by apply Hl.
Qed.

Lemma kept_register d msg d' ch :
  SendSync_register d msg = (d', inr ch) → calls_kept d d'.
Proof using Type.
  intros (Hf & Hn & _ & Ep & Ec & _)%SendSync_register_spec id c r (Hp & Hc & Hl).
  assert (c ≠ ch) as Hch by congruence.
  assert (id ≠ h_RequestId (msg_Header msg)) as Hid by congruence.
  unfold held. rewrite Ep, Ec. split_and!; [by rewrite lookup_insert_ne|by rewrite lookup_insert_ne|].
  intros id'. rewrite lookup_insert. case_decide; [congruence|apply Hl].
Qed.

Lemma kept_begin ρ now w d topic msg w' d' res :
  SendSync_begin ρ now w d topic msg = (w', d', res) → calls_kept d d'.
Proof using Type.
  unfold SendSync_begin.
  destruct (SendSync_prepare _ _ _ _ _ _ _ _) as [[w1 d1] p] eqn:Ep.
  apply SendSync_prepare_spec in Ep as (Hs & _ & _ & Hready & _). apply same_calls_kept in Hs.
  destruct p as [resp|err|m]; [by intros (_ & <- & _)%pair3_inj..|].
  destruct (Hready m eq_refl) as (Hid & _ & _).
  destruct (SendSync_register d1 m) as [d2 [err|ch]] eqn:Er.
  { apply SendSync_register_spec in Er as ->. by intros (_ & <- & _)%pair3_inj. }
  apply kept_register in Er as Hk. apply SendSync_register_spec in Er as (_ & Hn & _ & Ep' & _).
  destruct (SendSync_publish _ _ _ _ _ _) as [[[w3 d3] m'] err] eqn:Eb.
  apply SendSync_publish_spec in Eb as (Hs3 & Hh & _); [|done]. apply same_calls_kept in Hs3.
  assert (calls_kept d d3) as Hd3 by (etrans; [exact Hs|]; etrans; [exact Hk|exact Hs3]).
  destruct err as [err|]; intros (_ & <- & _)%pair3_inj; [|done].
  intros id c r Hheld. apply held_delete; [|by apply Hd3].
  rewrite Hh. intros <-. apply Hs in Hheld as (Hp & _). congruence.
Qed.

(** The end of another call. *)
Lemma held_end start now w d msg ch why w' d' res id c r :
  SendSync_end start now w d msg ch why = Some (w', d', res) →
  ds_pendingRequests d !! h_RequestId (msg_Header msg) = Some ch →
  h_RequestId (msg_Header msg) ≠ id → held d id c r → held d' id c r.
Proof using Type.
  intros E Hpm Hne Hheld. unfold SendSync_end in E.
  destruct (SendSync_select _ _ _ _ _ _ _ _ _) as [[[w1 d1] r1]|] eqn:Es; [|done].
  apply Some_inj, pair3_inj in E as (_ & <- & _). apply held_delete; [done|].
  unfold SendSync_select in Es. destruct why as [err| |].
  - by apply Some_inj, pair3_inj in Es as (_ & <- & _).
  - apply Some_inj, pair3_inj in Es as (_ & <- & _). by apply (same_calls_kept d).
  - destruct (try_recv d ch) as [d2 [resp|]] eqn:Et; [|done].
    apply Some_inj, pair3_inj in Es as (_ & <- & _).
    apply (same_calls_kept d2); [etrans; [apply recordStatus_same|apply storeIdempotent_same]|].
    revert Et. unfold try_recv. destruct (ds_channels d !! ch) as [[m|]|]; [|done..].
    intros [= <- _]. destruct Hheld as (Hp & Hc & Hl). split_and!; [done| |done].
    cbn. rewrite lookup_insert_ne; [done|]. intros ->. by apply Hne, Hl.
Qed.

(** A response for another call, or none at all. *)
Lemma held_other_response d payload id ch r :
  (∀ resp, DecodeDdMessage payload = Ok resp → response_id resp ≠ id) →
  held d id ch r → held (handleSyncResponse d payload) id ch r.
Proof using Type.
  intros Hno Hheld. unfold handleSyncResponse, response_lookup.
  destruct (DecodeDdMessage payload) as [resp|]; [|done]. case_decide; [done|].
  destruct (ds_pendingRequests d !! response_id resp) as [c|] eqn:Ep; [|done].
  destruct Hheld as (Hp & Hc & Hl).
  assert (c ≠ ch) as Hne. { intros ->. by apply (Hno resp), Hl. }
  destruct (ds_channels d !! c) as [b|] eqn:Eb.
  - destruct (deliver_spec d c resp) as [Dp Dc]; [by eauto|].
    unfold held. rewrite Dp, Dc. by rewrite lookup_insert_ne.
  - assert (try_send d c resp = (d, false)) as Es by (unfold try_send; by rewrite Eb).
    assert (try_recv d c = (d, None)) as Er by (unfold try_recv; by rewrite Eb).
    unfold deliver. rewrite Es, Er. cbn [fst]. rewrite Es. by split.
Qed.

(** A response for the call replaces whatever its channel held. *)
Lemma held_response d payload resp id ch r :
  DecodeDdMessage payload = Ok resp → response_id resp = id → id ≠ "" →
  held d id ch r → held (handleSyncResponse d payload) id ch (Some resp).
Proof using Type.
  intros Hd Hid Hne (Hp & Hc & Hl). unfold handleSyncResponse, response_lookup.
  rewrite Hd, Hid. rewrite decide_False by done. rewrite Hp.
  destruct (deliver_spec d ch resp) as [Dp Dc]; [by eauto|].
  unfold held. rewrite Dp, Dc. by rewrite lookup_insert_eq.
Qed.

(** The waiting call takes what its channel holds. *)
Lemma held_select start now w d msg ch resp :
  held d (h_RequestId (msg_Header msg)) ch (Some resp) →
  ∃ w' d', SendSync_end start now w d msg ch WakeResponse = Some (w', d', Ok resp).
Proof using Type.
  intros (_ & Hc & _). unfold SendSync_end, SendSync_select, try_recv. rewrite Hc. by eauto.
Qed.

(** Both: steps of the system, and nothing held is touched. *)
Definition data_evolves w d w' d' : Prop := sys_evolves w d w' d' ∧ calls_kept d d'.

Lemma data_evolves_world w w' d : data_evolves w d w' d.
Proof using Type. split; [apply evolves_world|done]. Qed.

Lemma data_evolves_trans w1 d1 w2 d2 w3 d3 :
  data_evolves w1 d1 w2 d2 → data_evolves w2 d2 w3 d3 → data_evolves w1 d1 w3 d3.
Proof using Type.
  intros [] []. split; [by eapply sys_evolves_trans|by etrans].
Qed.

Lemma data_evolves_async ρ t1 t2 w d topic msg w' d' m err :
  SendAsync ρ t1 t2 w d topic msg = (w', d', m, err) → data_evolves w d w' d'.
Proof using Type.
  intros E. split; [by eapply evolves_async|]. by eapply same_calls_kept, SendAsync_same.
Qed.

Lemma data_evolves_begin ρ now w d topic msg w' d' res :
  SendSync_begin ρ now w d topic msg = (w', d', Returned res) → data_evolves w d w' d'.
Proof using Type. intros E. split; [by eapply evolves_begin|by eapply kept_begin]. Qed.

Lemma data_evolves_sweepIdempotent ρ ρs now w d :
  data_evolves w d w (sweepIdempotent ρ ρs now d).
Proof using Type. split; [apply evolves_sweepIdempotent|by apply same_calls_kept]. Qed.

Lemma data_evolves_sweepStatuses ρ now w d :
  data_evolves w d w (sweepTransferStatuses ρ now d).
Proof using Type. split; [apply evolves_sweepStatuses|by apply same_calls_kept]. Qed.

End calls.
