(* ===== verification/NodeServices.v ===== *)
(** The services behind the API of a node: every handler is, for each of them, a
    sequence of the component's own steps, and none panics. *)
From S2P Require Import Prelude GoStrings GoTime Errors Metrics TopicFilter Acl Topics.
From S2P Require Import Mq Model Message Codec Registry PeerRegistry PeerRegistryProps.
From S2P Require Import PeerList Catalog DataService DataServiceProps Streams Config Route.
From S2P Require Import Auth Discovery Coap Bridges HttpBridge CoapBridge ProtocolIndex.
From S2P Require Import Api ApiHandlers ApiProps Main EndToEnd Node NodeCalls.
From stdpp Require Import relations fin_map_dom.

Open Scope string_scope.
Open Scope list_scope.
Open Scope Z_scope.

(** * The services behind the API *)

Section services.
Context {C J : Type} `{!MqClient C} `{!JsonCodec DdMessage} `{!Gzip}.
Context `{!RegistryCodecs} `{!StreamCodecs}.
Context (toMap : ResourceMetaSchema → option J).
Context (NewRequest : string → string → option error)
  (Do : option Duration → http_request → http_outcome)
  (url_Host : string → option string) (ResolveUDPAddr : string → option error)
  (Udp : string → Time → bytes → udp_outcome).
Implicit Types (w : World C) (s : Server MemoryStore) (d : DdDataService).

(** The server has gone from one state to another by steps of its services; its
    configuration and topics stay. *)
Record srv_evolves w s w' s' : Prop := {
  se_cfg : srv_cfg s' = srv_cfg s;
  se_topics : srv_topics s' = srv_topics s;
  se_registry : rtc (registry_step (C := C)) (srv_peerRegistry s) (srv_peerRegistry s');
  se_streams : rtc stream_step (srv_streamService s) (srv_streamService s');
  se_data : match srv_dataService s, srv_dataService s' with
            | Some d, Some d' => data_evolves w d w' d'
            | None, None => True
            | _, _ => False
            end
}.

Lemma srv_evolves_world w w' s : srv_evolves w s w' s.
Proof using Type.
  split; [done..|]. destruct (srv_dataService s); [apply data_evolves_world|done].
Qed.

Lemma srv_evolves_trans w1 s1 w2 s2 w3 s3 :
  srv_evolves w1 s1 w2 s2 → srv_evolves w2 s2 w3 s3 → srv_evolves w1 s1 w3 s3.
Proof using Type.
  intros [c1 t1 r1 st1 d1] [c2 t2 r2 st2 d2]. split; [congruence..|by etrans|by etrans|].
  destruct (srv_dataService s1), (srv_dataService s2), (srv_dataService s3); try done.
  by eapply data_evolves_trans.
Qed.

Lemma srv_evolves_registry w s w' r :
  registry_step (C := C) (srv_peerRegistry s) r → srv_evolves w s w' (set_registry s r).
Proof using Type.
  intros Hr. split; try done; [by apply rtc_once|].
  cbn. destruct (srv_dataService s); [apply data_evolves_world|done].
Qed.

Lemma srv_evolves_catalog w s w' c : srv_evolves w s w' (set_catalog s c).
Proof using Type.
  split; try done. cbn. destruct (srv_dataService s); [apply data_evolves_world|done].
Qed.

Lemma srv_evolves_index w s w' i : srv_evolves w s w' (set_index s i).
Proof using Type.
  split; try done. cbn. destruct (srv_dataService s); [apply data_evolves_world|done].
Qed.

Lemma srv_evolves_data w s w' d d' :
  srv_dataService s = Some d → data_evolves w d w' d' → srv_evolves w s w' (set_data s d').
Proof using Type. intros Hd He. split; try done. cbn. by rewrite Hd. Qed.

(** A step before which only the client and the metrics have changed. *)
Lemma srv_evolves_after w w1 s w' s' : srv_evolves w1 s w' s' → srv_evolves w s w' s'.
Proof using Type. apply srv_evolves_trans, srv_evolves_world. Qed.

(** A result that leaves the services as they are. *)
Ltac no_change :=
  solve [intros (<- & <- & _)%pair3_inj; apply srv_evolves_world
        |intros (<- & <- & _)%Ret_inj%pair3_inj; apply srv_evolves_world].

(** * The handlers of the API *)

Lemma evolves_handlePeerRegister now w s req w' s' r : now ≠ 0 →
  handlePeerRegister (J := J) now w s req = (w', s', r) → srv_evolves w s w' s'.
Proof using Type.
  intros Hn. unfold handlePeerRegister. destruct req as [req|].
  2:{ no_change. }
  case_decide; [no_change|].
  match goal with |- context [RegisterPeer now w ?reg ?peer] =>
    pose proof (step_RegisterPeer now w reg peer Hn) as Hstep;
    destruct (RegisterPeer now w reg peer) as [[w1 r1] [e|]] end;
    intros (<- & <- & _)%pair3_inj; cbn [fst snd] in Hstep.
  - by apply srv_evolves_registry.
  - eapply srv_evolves_trans; [by apply (srv_evolves_registry w s w1)|apply srv_evolves_catalog].
Qed.

Lemma evolves_handlePeerUnregister now w s id w' s' r :
  handlePeerUnregister (J := J) now w s id = (w', s', r) → srv_evolves w s w' s'.
Proof using Type.
  unfold handlePeerUnregister.
  case_decide; [no_change|].
  pose proof (step_UnregisterPeer now w (srv_peerRegistry s) id) as Hstep.
  destruct (UnregisterPeer _ _ _ _) as [[w1 r1] [e|]];
    intros (<- & <- & _)%pair3_inj; by apply srv_evolves_registry.
Qed.

Lemma evolves_list_with lister protocol ρ now cfg w s w' s' r :
  list_with (J := J) lister protocol ρ now cfg w s = (w', s', r) → srv_evolves w s w' s'.
Proof using Type.
  unfold list_with. destruct (srv_protocolIndex s) as [i|].
  - destruct (lister _ _ _ _ _ _ _). intros (<- & <- & _)%pair3_inj. apply srv_evolves_index.
  - no_change.
Qed.

Lemma evolves_by_name_with lister protocol ρ now cfg w s resource w' s' r :
  by_name_with (J := J) lister protocol ρ now cfg w s resource = (w', s', r) →
  srv_evolves w s w' s'.
Proof using Type.
  unfold by_name_with.
  case_decide; [no_change|].
  destruct (srv_protocolIndex s) as [i|].
  - destruct (lister _ _ _ _ _ _ _). case_decide; intros (<- & <- & _)%pair3_inj;
      apply srv_evolves_index.
  - no_change.
Qed.

Lemma evolves_mqtt_topics o now cfg w s direction peerID qos w' s' r :
  handleMqttProtocolTopics (J := J) o now cfg w s direction peerID qos = (w', s', r) →
  srv_evolves w s w' s'.
Proof using Type.
  unfold handleMqttProtocolTopics. destruct (srv_protocolIndex s) as [i|].
  - destruct (if decide (qos = "") then Some (-1) else atoi_qos qos).
    + destruct (ListMqttTopics _ _ _ _ _ _ _ _). intros (<- & <- & _)%pair3_inj.
      apply srv_evolves_index.
    + no_change.
  - no_change.
Qed.

Lemma evolves_mqtt_topic o now cfg w s name w' s' r :
  handleMqttProtocolTopicByName (J := J) o now cfg w s name = (w', s', r) →
  srv_evolves w s w' s'.
Proof using Type.
  unfold handleMqttProtocolTopicByName.
  case_decide; [no_change|].
  destruct (srv_protocolIndex s) as [i|].
  - destruct (GetMqttTopic _ _ _ _ _ _). case_decide; intros (<- & <- & _)%pair3_inj;
      apply srv_evolves_index.
  - no_change.
Qed.

(** * Transfers *)

Lemma evolves_async_broker ρ now w s d resource msg w' s' err :
  srv_dataService s = Some d →
  async_broker ρ now w s d resource msg = (w', s', err) → srv_evolves w s w' s'.
Proof using Type.
  intros Hd. unfold async_broker.
  destruct (SendAsync _ _ _ _ _ _ _) as [[[w1 d1] m1] e] eqn:E.
  intros (<- & <- & _)%pair3_inj. eapply srv_evolves_data; [done|]. by eapply data_evolves_async.
Qed.

Lemma evolves_async_publish ρ now w s resource mode msg w' s' r :
  async_publish (J := J) ρ now w s resource mode msg = (w', s', r) → srv_evolves w s w' s'.
Proof using Type.
  unfold async_publish. destruct (srv_dataService s) as [d|] eqn:Hd.
  2:{ no_change. }
  destruct (async_broker _ _ _ _ _ _ _) as [[w1 s1] [e|]] eqn:E;
    intros (<- & <- & _)%pair3_inj; eapply srv_evolves_after, evolves_async_broker; done.
Qed.

Lemma evolves_handleTransferAsync ρ now nano dl stamp tr w s req w' s' r :
  handleTransferAsync (J := J) NewRequest Do url_Host ResolveUDPAddr Udp ρ now nano dl stamp tr
    w s req = Ret (w', s', r) → srv_evolves w s w' s'.
Proof using Type.
  unfold handleTransferAsync. destruct req as [req|].
  2:{ no_change. }
  case_decide; [no_change|].
  destruct (validateRequestMeta _ _ _ _ _ _) as [[w1 m] [e|]].
  { no_change. }
  case_decide.
  - destruct (sendDirectAsync_ret NewRequest Do url_Host ResolveUDPAddr Udp ρ now nano dl
      (srv_cfg s) m) as (m' & e & ->). cbn [go_bind]. destruct e as [e|].
    + intros E%Ret_inj. eapply srv_evolves_after, evolves_async_publish, E.
    + no_change.
  - intros E%Ret_inj. eapply srv_evolves_after, evolves_async_publish, E.
Qed.

Lemma evolves_batch_item ρ now nano dl stamp tr w s d idx item w' s' r :
  srv_dataService s = Some d →
  batch_item NewRequest Do url_Host ResolveUDPAddr Udp ρ now nano dl stamp tr w s d idx item =
    Ret (w', s', r) → srv_evolves w s w' s'.
Proof using Type.
  intros Hd. unfold batch_item.
  case_decide; [no_change|].
  destruct (validateRequestMeta _ _ _ _ _ _) as [[w1 m] [e|]].
  { no_change. }
  assert (∀ w2 (ok : itemResult) m0 (f : error → itemResult),
    (match async_broker ρ now w2 s d (tq_Resource item) m0 with
     | (w, s, Some err) => (w, s, f err)
     | (w, s, None) => (w, s, ok)
     end) = (w', s', r) → srv_evolves w s w' s') as Hb.
  { intros w2 ok m0 f.
    destruct (async_broker _ _ _ _ _ _ _) as [[w3 s3] [e|]] eqn:E;
      intros (<- & <- & _)%pair3_inj; eapply srv_evolves_after, evolves_async_broker; done. }
  case_decide.
  - destruct (sendDirectAsync_ret NewRequest Do url_Host ResolveUDPAddr Udp ρ now nano dl
      (srv_cfg s) m) as (m' & e & ->). cbn [go_bind]. destruct e as [e|].
    + intros E%Ret_inj. eapply Hb, E.
    + no_change.
  - intros E%Ret_inj. eapply Hb, E.
Qed.

Lemma evolves_batch_loop ρ now nano dl stamp tr items w s idx a f results w' s' r :
  batch_loop NewRequest Do url_Host ResolveUDPAddr Udp ρ now nano dl stamp tr w s idx items
    a f results = Ret (w', s', r) → srv_evolves w s w' s'.
Proof using Type.
  revert w s idx a f results. induction items as [|item items IH]; intros w s idx a f results;
    cbn [batch_loop].
  { no_change. }
  destruct (srv_dataService s) as [d|] eqn:Hd; [|done].
  destruct (batch_item _ _ _ _ _ _ _ _ _ _ _ _ _ _ _ _) as [[[w1 s1] r1]|] eqn:E; [|done].
  cbn [go_bind]. apply evolves_batch_item in E; [|done].
  case_decide; intros Hr; eapply srv_evolves_trans; eauto.
Qed.

Lemma evolves_handleTransferAsyncBatch ρ now nano dl stamp tr w s req w' s' r :
  handleTransferAsyncBatch (J := J) NewRequest Do url_Host ResolveUDPAddr Udp ρ now nano dl
    stamp tr w s req = Ret (w', s', r) → srv_evolves w s w' s'.
Proof using Type.
  unfold handleTransferAsyncBatch. destruct req as [items|].
  2:{ no_change. }
  case_decide; [no_change|].
  destruct (srv_dataService s).
  2:{ no_change. }
  destruct (batch_loop _ _ _ _ _ _ _ _ _ _ _ _ _ _ _ _ _ _) as [[[w1 s1] [[a f] rs]]|] eqn:E;
    [|done]. cbn [go_bind]. apply evolves_batch_loop in E.
  destruct (batch_status a f) as [status code]. intros (<- & <- & _)%Ret_inj%pair3_inj.
  eapply srv_evolves_trans; [exact E|apply srv_evolves_world].
Qed.

(** A sync transfer that is answered at once. *)
Lemma evolves_sync_broker ρ now w s resource mode msg w' s' r :
  sync_broker (J := J) ρ now w s resource mode msg = (w', s', SyncReplied r) →
  srv_evolves w s w' s'.
Proof using Type.
  unfold sync_broker. destruct (srv_dataService s) as [d|] eqn:Hd; [|no_change].
  destruct (SendSync_begin _ _ _ _ _ _) as [[w2 d2] [[resp|err]|m c]] eqn:E;
    intros (<- & <- & Er)%pair3_inj; [| |done];
    (eapply srv_evolves_after, srv_evolves_data; [exact Hd|by eapply data_evolves_begin]).
Qed.

Lemma evolves_handleTransferSync ρ now nano dl stamp tr w s req w' s' r :
  handleTransferSync_begin (J := J) NewRequest Do url_Host ResolveUDPAddr Udp ρ now nano dl
    stamp tr w s req = Ret (w', s', SyncReplied r) → srv_evolves w s w' s'.
Proof using Type.
  unfold handleTransferSync_begin. destruct req as [req|]; [|no_change].
  case_decide; [no_change|].
  destruct (validateRequestMeta _ _ _ _ _ _) as [[w2 m] [e|]]; [no_change|].
  case_decide.
  - destruct (sendDirectSync_ret NewRequest Do url_Host ResolveUDPAddr Udp ρ now nano dl
      (srv_cfg s) m) as (m' & [body|e] & ->); cbn [go_bind]; [no_change|].
    intros E%Ret_inj. eapply srv_evolves_after, evolves_sync_broker, E.
  - intros E%Ret_inj. eapply srv_evolves_after, evolves_sync_broker, E.
Qed.

(** * No handler panics *)

Lemma handleTransferSync_begin_ret ρ now nano dl stamp tr w s req :
  ∃ r, handleTransferSync_begin (J := J) NewRequest Do url_Host ResolveUDPAddr Udp ρ now nano dl
    stamp tr w s req = Ret r.
Proof using Type.
  unfold handleTransferSync_begin. destruct req as [req|]; [|by eauto].
  case_decide; [by eauto|].
  destruct (validateRequestMeta _ _ _ _ _ _) as [[w2 m] [e|]]; [by eauto|].
  case_decide; [|by eauto].
  destruct (sendDirectSync_ret NewRequest Do url_Host ResolveUDPAddr Udp ρ now nano dl
    (srv_cfg s) m) as (m' & [body|e] & ->); by eauto.
Qed.

Lemma handleTransferAsync_ret ρ now nano dl stamp tr w s req :
  ∃ r, handleTransferAsync (J := J) NewRequest Do url_Host ResolveUDPAddr Udp ρ now nano dl
    stamp tr w s req = Ret r.
Proof using Type.
  unfold handleTransferAsync. destruct req as [req|]; [|by eauto].
  case_decide; [by eauto|].
  destruct (validateRequestMeta _ _ _ _ _ _) as [[w2 m] [e|]]; [by eauto|].
  case_decide; [|by eauto].
  destruct (sendDirectAsync_ret NewRequest Do url_Host ResolveUDPAddr Udp ρ now nano dl
    (srv_cfg s) m) as (m' & [e|] & ->); by eauto.
Qed.

Lemma handleTransferAsyncBatch_ret ρ now nano dl stamp tr w s req :
  ∃ r, handleTransferAsyncBatch (J := J) NewRequest Do url_Host ResolveUDPAddr Udp ρ now nano dl
    stamp tr w s req = Ret r.
Proof using Type.
  unfold handleTransferAsyncBatch. destruct req as [items|]; [|by eauto].
  case_decide; [by eauto|]. destruct (srv_dataService s) as [d|] eqn:Hd; [|by eauto].
  destruct (batch_loop_ret NewRequest Do url_Host ResolveUDPAddr Udp ρ now nano dl stamp tr items
    w s 0 0 0 []) as (w' & s' & rs & na & nf & -> & _); [by eauto|]. cbn [go_bind].
  destruct (batch_status _ _). by eauto.
Qed.

End services.
