(* ===== verification/NodeSim.v ===== *)
(** The running node and its components: each event is, for every service, a sequence
    of the component's own steps; and no event panics, apart from a query of PeerList and
    the send of a message to the CoAP bridge once it has been stopped. *)
From S2P Require Import Prelude GoStrings GoTime Errors Metrics TopicFilter Acl Topics.
From S2P Require Import Mq Model Message Codec Registry PeerRegistry PeerRegistryProps.
From S2P Require Import PeerList Catalog DataService DataServiceProps Streams Config Route.
From S2P Require Import Auth Discovery Coap Bridges HttpBridge CoapBridge ProtocolIndex.
From S2P Require Import Api ApiHandlers ApiProps Main EndToEnd Node NodeCalls NodeServices.
From stdpp Require Import relations fin_map_dom.

Open Scope string_scope.
Open Scope list_scope.
Open Scope Z_scope.

(** * The node *)

Section node.
Context {C J : Type} `{!MqClient C} `{!JsonCodec DdMessage} `{!Gzip}.
Context `{!RegistryCodecs} `{!StreamCodecs} `{!JsonCodec HubBroadcast} `{!JsonCodec AuthBroadcast}.
Context `{!JsonCodec PeerAuthRequest} `{!JsonCodec PeerAuthResponse}.
Context `{!JsonCodec PeerListQuery} `{!JsonCodec PeerListResponse} `{!JsonCodec DlqEvent}.
Context (toMap : ResourceMetaSchema → option J).
Implicit Types (e : env) (n : NodeState C J) (w : World C) (d : DdDataService).

Abbreviation event_of := (node_event toMap).

(** The waiting connections of the node are the waiting calls of a reachable system
    of calls over the same client and the same service: [f] names the call of each,
    and every other call is over. *)
Definition calls_match (d0 : DdDataService) w0 w (od : option DdDataService)
    (wt : gmap nat waiting) : Prop :=
  ∃ d ts (f : nat → nat),
    od = Some d ∧ rtc sys_step (sys w0 d0 ∅) (sys w d ts) ∧
    (∀ conn t, wt !! conn = Some t →
       ts !! f conn = Some (DataServiceProps.SyncWaiting (wt_start t) (wt_msg t) (wt_ch t))) ∧
    (∀ conn conn', is_Some (wt !! conn) → is_Some (wt !! conn') → f conn = f conn' →
       conn = conn') ∧
    (∀ tid th, ts !! tid = Some th → quiet th ∨ ∃ conn, is_Some (wt !! conn) ∧ f conn = tid).

Lemma calls_match_evolves d0 w0 w d w' d' wt :
  calls_match d0 w0 w (Some d) wt → sys_evolves w d w' d' → calls_match d0 w0 w' (Some d') wt.
Proof using Type.
  intros (? & ts & f & [= <-] & Hr & Hw & Hf & Hq) He.
  destruct (He ts) as (ts' & Hr' & Hsub & Hq').
  exists d', ts', f. split; [done|]. split; [by etrans|]. split_and!; [|done|].
  - intros conn t Ht. eapply lookup_weaken; [by apply Hw|done].
  - intros tid th Ht. destruct (Hq' _ _ Ht) as [E|]; [by eapply Hq|by left].
Qed.

(** A transfer that starts to wait. *)
Lemma calls_match_wait ρ now d0 w0 w w1 d topic msg w' d' m ch wt conn mode :
  calls_match d0 w0 w (Some d) wt → wt !! conn = None →
  SendSync_begin ρ now w1 d topic msg = (w', d', Waiting m ch) →
  calls_match d0 w0 w' (Some d')
    (<[conn := {| wt_start := now; wt_msg := m; wt_ch := ch; wt_mode := mode |}]> wt).
Proof using Type.
  intros Hc Hn E. apply (calls_match_evolves _ _ _ _ w1 d) in Hc; [|apply data_evolves_world].
  destruct Hc as (? & ts & f & [= <-] & Hr & Hw & Hf & Hq).
  set (tid := fresh (dom ts)).
  assert (ts !! tid = None) as Hfr by apply not_elem_of_dom, is_fresh.
  assert (∀ c, is_Some (wt !! c) → f c ≠ tid) as Hne.
  { intros c [t Ht] Hc. apply Hw in Ht. by rewrite Hc, Hfr in Ht. }
  assert (∀ c, is_Some (wt !! c) → c ≠ conn) as Hnc.
  { intros c [t Ht] ->. by rewrite Hn in Ht. }
  destruct (begin_steps _ _ _ _ _ _ _ _ _ _ _ E Hfr) as (th & Hs & ->).
  exists d', (<[tid := DataServiceProps.SyncWaiting now m ch]> ts), (λ c, if decide (c = conn) then tid else f c).
  split; [done|]. split; [by etrans|]. split_and!.
  - intros c t. rewrite lookup_insert. case_decide as Hc; subst.
    + intros [= <-]. rewrite decide_True by done. by rewrite lookup_insert_eq.
    + intros Ht. rewrite decide_False by done.
      rewrite lookup_insert_ne; [by apply Hw|]. apply not_eq_sym, Hne. by eauto.
  - intros c c'. rewrite !lookup_insert_is_Some.
    intros Hc Hc'. repeat case_decide; subst; try done.
    + intros Ht. destruct Hc' as [<-|[_ Hc']]; [done|]. by edestruct Hne.
    + intros Ht. destruct Hc as [<-|[_ Hc]]; [done|]. by edestruct Hne.
    + apply Hf; [destruct Hc as [<-|[_ ?]]|destruct Hc' as [<-|[_ ?]]]; done.
  - intros tid' th. rewrite lookup_insert. case_decide as Ht; subst.
    + intros _. right. exists conn. rewrite decide_True, lookup_insert_eq by done. by eauto.
    + intros E'. destruct (Hq _ _ E') as [|(c & Hc & <-)]; [by left|right]. exists c.
      rewrite decide_False by by apply Hnc.
      by rewrite lookup_insert_ne by by apply not_eq_sym, Hnc.
Qed.

(** A transfer that ends. *)
Lemma calls_match_end start now d0 w0 w d msg ch why w' d' res wt conn t :
  calls_match d0 w0 w (Some d) wt → wt !! conn = Some t →
  wt_start t = start → wt_msg t = msg → wt_ch t = ch →
  SendSync_end start now w d msg ch why = Some (w', d', res) →
  calls_match d0 w0 w' (Some d') (delete conn wt).
Proof using Type.
  intros (? & ts & f & [= <-] & Hr & Hw & Hf & Hq) Ht <- <- <- E.
  apply Hw in Ht as Hts.
  exists d', (<[f conn := SyncDone (wt_msg t) res]> ts), f.
  split; [done|]. split; [etrans; [exact Hr|by eapply end_steps]|]. split_and!.
  - intros c tc [Hne Hc]%lookup_delete_Some. rewrite lookup_insert_ne; [by apply Hw|].
    intros Heq. apply Hne, Hf; by eauto.
  - intros c c' [? [_ ?]%lookup_delete_Some] [? [_ ?]%lookup_delete_Some]. apply Hf; by eauto.
  - intros tid th. rewrite lookup_insert. case_decide; [intros [= <-]; by left|].
    intros E'. destruct (Hq _ _ E') as [|(c & Hc & Hfc)]; [by left|right]. exists c.
    split; [|done]. rewrite lookup_delete_ne; [done|]. congruence.
Qed.

(** Between events, the CoAP queue is within its bound, and its two channels are
    both open or both closed. *)
Definition coap_bounded (o : option (CoapBridge * coap_queue)) : Prop :=
  match o with
  | Some (b, q) => cbr_queueSize b = 256%nat ∧ (length (q_reqCh q) ≤ 256)%nat ∧
                   q_reqClosed q = q_stopClosed q
  | None => True
  end.

(** The services as [main] builds them. *)
Definition main_registry (cfg : Config) : PeerRegistryService MemoryStore :=
  NewPeerRegistryService (NewDefaultTopicSet (cfg_Tenant cfg))
    (dur_mul (dc_LeaseTtlSec (cfg_Discovery cfg)) Second) (Some (buildAclService cfg)).
Definition main_data (cfg : Config) : DdDataService :=
  NewDdDataService (dur_mul (sy_DefaultTimeoutMs (cfg_Sync cfg)) Millisecond)
    (Some (buildAclService cfg)).

(** The node implements its components: each service is in a state that the
    component's own steps reach from the one [main] built. *)
Record node_sim (cfg : Config) w0 n : Prop := {
  sim_cfg : srv_cfg (ns_server n) = Some cfg;
  sim_topics : srv_topics (ns_server n) = NewDefaultTopicSet (cfg_Tenant cfg);
  sim_registry : rtc (registry_step (C := C)) (main_registry cfg)
                   (srv_peerRegistry (ns_server n));
  sim_streams : rtc stream_step (NewStreamService (NewDefaultTopicSet (cfg_Tenant cfg)))
                  (srv_streamService (ns_server n));
  sim_calls : calls_match (main_data cfg) w0 (ns_world n) (srv_dataService (ns_server n))
                (ns_waiting n);
  sim_coap : coap_bounded (ns_coap n);
  sim_peerList : ns_peerList n =
    NewPeerListService (NewDefaultTopicSet (cfg_Tenant cfg)) (Some (buildAclService cfg))
      (dc_MaxPageSize (cfg_Discovery cfg))
}.

Lemma sim_data cfg w0 n : node_sim cfg w0 n →
  ∃ d, srv_dataService (ns_server n) = Some d.
Proof using Type. intros [_ _ _ _ (d & _ & _ & -> & _) _ _]. by eauto. Qed.

Lemma sim_server cfg w0 n w s :
  node_sim cfg w0 n → srv_evolves (ns_world n) (ns_server n) w s →
  node_sim cfg w0 (with_server n w s).
Proof using Type.
  intros Hs [Hc Ht Hr Hst Hd]. destruct (sim_data _ _ _ Hs) as [d Ed].
  destruct Hs as [S1 S2 S3 S4 S5 S6 S7]. rewrite Ed in Hd, S5.
  split; cbn; try done; [congruence|congruence|by etrans|by etrans|].
  destruct (srv_dataService s) as [d'|]; [|done]. destruct Hd as [Hd _].
  by eapply calls_match_evolves.
Qed.

Lemma sim_answer cfg w0 n conn r : node_sim cfg w0 n → node_sim cfg w0 (answer conn n r).
Proof using Type. by intros []. Qed.

Lemma sim_discovery cfg w0 n h : node_sim cfg w0 n → node_sim cfg w0 (with_discovery n h).
Proof using Type. by intros []. Qed.

Lemma sim_world cfg w0 n w : node_sim cfg w0 n → node_sim cfg w0 (with_world n w).
Proof using Type. intros Hs. apply sim_server; [done|apply srv_evolves_world]. Qed.

Lemma sim_bridges cfg w0 n w http coap :
  node_sim cfg w0 n → coap_bounded coap → node_sim cfg w0 (with_bridges n w http coap).
Proof using Type.
  intros Hs Hb. apply (sim_world _ _ _ w) in Hs as []. by split.
Qed.

Lemma sim_registry_step cfg w0 n w r :
  node_sim cfg w0 n → registry_step (C := C) (srv_peerRegistry (ns_server n)) r →
  node_sim cfg w0 (put_registry n w r).
Proof using Type. intros Hs Hr. apply sim_server; [done|by apply srv_evolves_registry]. Qed.

Lemma sim_data_step cfg w0 n w d d' :
  node_sim cfg w0 n → srv_dataService (ns_server n) = Some d →
  sys_evolves (ns_world n) d w d' → node_sim cfg w0 (put_data n w d').
Proof using Type.
  intros [S1 S2 S3 S4 S5 S6 S7] Hd Hr. split; cbn; try done. rewrite Hd in S5.
  by eapply calls_match_evolves.
Qed.

Lemma sim_streams_step cfg w0 n st :
  node_sim cfg w0 n → stream_step (srv_streamService (ns_server n)) st →
  node_sim cfg w0 (put_streams n st).
Proof using Type.
  intros Hs Hst. apply sim_server; [done|]. split; try done; [by apply rtc_once|].
  cbn. destruct (srv_dataService (ns_server n)); [apply data_evolves_world|done].
Qed.

(** * Every event *)

Lemma sim_entering cfg w0 n l : node_sim cfg w0 n → node_sim cfg w0 (with_entering n l).
Proof using Type. by intros []. Qed.

Lemma sim_enqueueTask cfg w0 n q t : node_sim cfg w0 n → node_sim cfg w0 (enqueueTask n q t).
Proof using Type.
  intros Hs. unfold enqueueTask. destruct (enqueue_enter q); [by apply sim_entering|done].
Qed.

Lemma sim_enqueueTask_send cfg w0 e n i n' :
  node_sim cfg w0 n → enqueueTask_send e n i = Ret n' → node_sim cfg w0 n'.
Proof using Type.
  intros Hs. pose proof (sim_coap _ _ _ Hs) as Hc. unfold enqueueTask_send.
  destruct (ns_coap n) as [[b q]|]; [|by intros <-%Ret_inj].
  destruct (ns_entering n !! i) as [t|]; [|by intros <-%Ret_inj].
  destruct Hc as (Hz & Hl & Hcl).
  destruct (enqueue_send_cases (e_now e) (ns_world n) b q t) as
    [[Hq ->]|[(Hq & Hlt & ->)|(Hq & Hge & w' & -> & _)]]; cbn [go_bind]; [done| |];
    intros <-%Ret_inj; apply sim_entering, sim_bridges; try done.
  split_and!; [done| |done]. cbn [q_reqCh reqCh_rest]. rewrite length_app. cbn. lia.
Qed.

(** A turn of a CoAP worker. *)
Definition is_worker (ev : event) : bool :=
  match ev with EvCoapWorker => true | _ => false end.

(** The queue and the workers only move the bridge's part of the node. *)
Definition coap_move n n' : Prop :=
  n' = n ∨ ∃ w coap l, n' = with_entering (with_bridges n w (ns_http n) coap) l.

Lemma with_entering_same n w http coap :
  with_bridges n w http coap = with_entering (with_bridges n w http coap) (ns_entering n).
Proof using Type. done. Qed.

Lemma enqueueTask_move n q t : coap_move n (enqueueTask n q t).
Proof using Type.
  unfold enqueueTask. destruct (enqueue_enter q); [|by left]. right.
  exists (ns_world n), (ns_coap n), (ns_entering n ++ [t]). by destruct n.
Qed.

Lemma enqueueTask_send_move e n i n' : enqueueTask_send e n i = Ret n' → coap_move n n'.
Proof using Type.
  unfold enqueueTask_send. destruct (ns_coap n) as [[b q]|]; [|by intros <-%Ret_inj; left].
  destruct (ns_entering n !! i) as [t|]; [|by intros <-%Ret_inj; left].
  destruct (enqueue_send _ _ _ _ _) as [[w q']|]; [|done]. cbn [go_bind].
  intros <-%Ret_inj. right. by eexists _, _, _.
Qed.

Lemma coap_worker_move e n n' : coap_worker e n = Ret n' → coap_move n n'.
Proof using Type.
  unfold coap_worker. destruct (ns_coap n) as [[b q]|]; [|by intros <-%Ret_inj; left].
  destruct (q_reqCh q); [by intros <-%Ret_inj; left|].
  destruct (worker_task _ _ _ _ _ _ _ _ _) as [[w b']|]; [|done]. cbn [go_bind].
  intros <-%Ret_inj. right. rewrite with_entering_same. by eexists _, _, _.
Qed.

(** Everything but requests and their wake-ups. *)
Definition is_background (ev : event) : bool :=
  match ev with EvRequest _ _ | EvWake _ _ => false | _ => true end.

(** What such an event comes to: a step of one component. *)
Inductive background e n (ev : event) : NodeState C J → Prop :=
| bg_same : background e n ev n
| bg_world w : background e n ev (with_world n w)
| bg_registry w r :
    registry_step (C := C) (srv_peerRegistry (ns_server n)) r →
    background e n ev (put_registry n w r)
| bg_streams st :
    stream_step (srv_streamService (ns_server n)) st → background e n ev (put_streams n st)
| bg_data d d' :
    srv_dataService (ns_server n) = Some d → data_evolves (ns_world n) d (ns_world n) d' →
    background e n ev (put_data n (ns_world n) d')
| bg_response d topic payload :
    ev = EvMessage hSyncResponse topic payload → srv_dataService (ns_server n) = Some d →
    background e n ev (put_data n (ns_world n) (handleSyncResponse d payload))
| bg_discovery h : background e n ev (with_discovery n h)
| bg_http w http : background e n ev (with_bridges n w http (ns_coap n))
| bg_task b q t :
    ns_coap n = Some (b, q) → is_worker ev = false → background e n ev (enqueueTask n q t)
| bg_send i n' :
    ev = EvCoapSend i → enqueueTask_send e n i = Ret n' → background e n ev n'
| bg_worker n' : ev = EvCoapWorker → coap_worker e n = Ret n' → background e n ev n'
| bg_stop : ev = EvStop → background e n ev (node_stop n).

Lemma message_spec e n h topic payload n' :
  e_now e ≠ 0 → node_message e n h topic payload = Ret n' →
  background e n (EvMessage h topic payload) n'.
Proof using Type.
  intros Hn. unfold node_message.
  destruct h as [| | | | | | | | | | | | | | | |i];
    try solve [intros <-%Ret_inj; first [apply bg_world|apply bg_discovery]].
  - pose proof (step_handleRegister (e_range e) (e_now e) (ns_world n)
      (srv_peerRegistry (ns_server n)) payload Hn) as Hst.
    destruct (handleRegister _ _ _ _ _) as [w r]. intros <-%Ret_inj. by apply bg_registry.
  - intros <-%Ret_inj. by apply bg_registry, step_handleHeartbeat.
  - intros <-%Ret_inj. apply bg_registry, step_handleResourceReport.
  - intros <-%Ret_inj. apply bg_registry, step_handleUnregister.
  - destruct (srv_dataService (ns_server n)) as [d|] eqn:Ed; intros <-%Ret_inj;
      [by eapply bg_response|apply bg_same].
  - intros <-%Ret_inj. apply bg_streams, stream_open.
  - intros <-%Ret_inj. apply bg_streams, stream_close.
  - destruct (PeerList_handleQuery _ _ _ _ _ _) as [w|]; [|done].
    intros <-%Ret_inj. apply bg_world.
  - destruct (ns_http n) as [b|]; [|intros <-%Ret_inj; apply bg_same].
    destruct (Http_handleSyncRequest _ _ _ _ _ _ _ _ _ _). intros <-%Ret_inj. apply bg_http.
  - destruct (ns_http n) as [b|]; [|intros <-%Ret_inj; apply bg_same].
    destruct (Http_handleAsyncEvent _ _ _ _ _ _ _ _ _ _). intros <-%Ret_inj. apply bg_http.
  - destruct (ns_coap n) as [[b q]|] eqn:Eb; intros <-%Ret_inj; [by eapply bg_task|apply bg_same].
  - destruct (ns_coap n) as [[b q]|] eqn:Eb; intros <-%Ret_inj; [by eapply bg_task|apply bg_same].
  - destruct (ns_mqtt n !! i); intros <-%Ret_inj; [apply bg_world|apply bg_same].
Qed.

Lemma background_spec e n ev n' :
  e_now e ≠ 0 → is_background ev = true → event_of e n ev = Ret n' → background e n ev n'.
Proof using Type.
  intros Hn Hb. destruct ev as [h topic payload|conn req|conn why| | | | | |i| |];
    try done; cbn [node_event]; unfold auto_register, sweep_idle, broadcast_tick.
  - by apply message_spec.
  - intros <-%Ret_inj. destruct (ns_registers n) as [peer|]; [|apply bg_same].
    pose proof (step_RegisterPeer (e_now e) (ns_world n) (srv_peerRegistry (ns_server n)) peer Hn)
      as Hst. destruct (RegisterPeer _ _ _ _) as [[w r] err]. by apply bg_registry.
  - intros <-%Ret_inj. destruct (ns_broadcasts n); [apply bg_world|apply bg_same].
  - intros <-%Ret_inj. apply bg_streams, stream_sweep.
  - destruct (srv_dataService (ns_server n)) as [d|] eqn:Ed; intros <-%Ret_inj; [|apply bg_same].
    by eapply bg_data, data_evolves_sweepIdempotent.
  - destruct (srv_dataService (ns_server n)) as [d|] eqn:Ed; intros <-%Ret_inj; [|apply bg_same].
    by eapply bg_data, data_evolves_sweepStatuses.
  - by eapply bg_send.
  - by apply bg_worker.
  - intros <-%Ret_inj. by apply bg_stop.
Qed.

(** A transfer that waits. *)
Lemma sim_waits cfg w0 n ρ now nano dl NewRequest Do url_Host ResolveUDPAddr Udp stamp tr req
    conn w s msg ch mode :
  node_sim cfg w0 n → ns_waiting n !! conn = None →
  handleTransferSync_begin (J := J) NewRequest Do url_Host ResolveUDPAddr Udp ρ now nano dl
    stamp tr (ns_world n) (ns_server n) req = Ret (w, s, SyncWaiting msg ch mode) →
  node_sim cfg w0 (with_waiting (with_server n w s)
    (<[conn := {| wt_start := now; wt_msg := msg; wt_ch := ch; wt_mode := mode |}]>
       (ns_waiting n))).
Proof using Type.
  intros Hs Hw E. destruct req as [req|]; [|done].
  apply handleTransferSync_begin_waiting in E
    as (d & d' & w1 & m0 & Ed & _ & _ & Hb & ->).
  destruct Hs as [S1 S2 S3 S4 S5 S6 S7]. split; cbn; try done.
  rewrite Ed in S5. by eapply calls_match_wait.
Qed.

(** A request is answered at once, the services having taken steps, or its transfer
    waits. *)
Inductive request_result e n (conn : nat) : NodeState C J → Prop :=
| request_answered w s r :
    srv_evolves (ns_world n) (ns_server n) w s →
    request_result e n conn (answer conn (with_server n w s) r)
| request_waits tr req w s msg ch mode :
    handleTransferSync_begin (J := J) (e_NewRequest e) (e_DirectDo e) (e_url_Host e)
      (e_ResolveUDPAddr e) (e_DirectUdp e) (e_range e) (e_now e) (e_nano e)
      (e_ctx_deadline e) (e_stamp e 0) tr (ns_world n) (ns_server n) req =
      Ret (w, s, SyncWaiting msg ch mode) →
    request_result e n conn (with_waiting (with_server n w s)
      (<[conn := {| wt_start := e_now e; wt_msg := msg; wt_ch := ch; wt_mode := mode |}]>
         (ns_waiting n))).

Lemma request_plain e n conn r : request_result e n conn (answer conn n r).
Proof using Type.
  pose proof (request_answered e n conn _ _ r (srv_evolves_world (ns_world n) (ns_world n) (ns_server n)))
    as Hr. by destruct n.
Qed.

Lemma request_world e n conn w r : request_result e n conn (answer conn (with_world n w) r).
Proof using Type. apply request_answered, srv_evolves_world. Qed.

Lemma request_spec e n conn req n' :
  e_now e ≠ 0 → node_request toMap e n conn req = Ret n' → request_result e n conn n'.
Proof using Type.
  intros Hn. unfold node_request. cbv zeta.
  destruct req as [uptime|req|id|id|id|resource role status|resource|resource| | |resource| |
    resource|direction peerID qos|name|tr req|tr req|tr req|id|req|req| |];
    try solve [intros <-%Ret_inj; apply request_plain].
  - destruct (handlePeerRegister _ _ _ _) as [[w s] r] eqn:E. intros <-%Ret_inj.
    apply request_answered; by eapply evolves_handlePeerRegister.
  - destruct (handlePeerHeartbeat _ _ _ _) as [w r]. intros <-%Ret_inj.
    apply request_world.
  - destruct (handlePeerUnregister _ _ _ _) as [[w s] r] eqn:E. intros <-%Ret_inj.
    apply request_answered; by eapply evolves_handlePeerUnregister.
  - destruct (handleHTTPProtocolResources _ _ _ _ _ _) as [[w s] r] eqn:E. intros <-%Ret_inj.
    apply request_answered; by eapply evolves_list_with.
  - destruct (handleHTTPProtocolResourceByName _ _ _ _ _ _ _) as [[w s] r] eqn:E.
    intros <-%Ret_inj. apply request_answered; by eapply evolves_by_name_with.
  - destruct (handleCoapProtocolResources _ _ _ _ _ _) as [[w s] r] eqn:E. intros <-%Ret_inj.
    apply request_answered; by eapply evolves_list_with.
  - destruct (handleCoapProtocolResourceByName _ _ _ _ _ _ _) as [[w s] r] eqn:E.
    intros <-%Ret_inj. apply request_answered; by eapply evolves_by_name_with.
  - destruct (handleMqttProtocolTopics _ _ _ _ _ _ _ _) as [[w s] r] eqn:E.
    intros <-%Ret_inj. apply request_answered; by eapply evolves_mqtt_topics.
  - destruct (handleMqttProtocolTopicByName _ _ _ _ _ _) as [[w s] r] eqn:E.
    intros <-%Ret_inj. apply request_answered; by eapply evolves_mqtt_topic.
  - destruct (handleTransferSync_begin _ _ _ _ _ _ _ _ _ _ _ _ _ _) as [[[w s] t]|] eqn:E;
      [|done]. cbn [go_bind]. destruct t as [r|msg ch mode].
    + intros <-%Ret_inj. apply request_answered; by eapply evolves_handleTransferSync.
    + intros <-%Ret_inj. exact (request_waits e n conn tr req w s msg ch mode E).
  - destruct (handleTransferAsync _ _ _ _ _ _ _ _ _ _ _ _ _ _) as [[[w s] r]|] eqn:E; [|done].
    cbn [go_bind]. intros <-%Ret_inj.
    apply request_answered; by eapply evolves_handleTransferAsync.
  - destruct (handleTransferAsyncBatch _ _ _ _ _ _ _ _ _ _ _ _ _ _) as [[[w s] r]|] eqn:E;
      [|done]. cbn [go_bind]. intros <-%Ret_inj.
    apply request_answered; by eapply evolves_handleTransferAsyncBatch.
  - destruct (handleTransferStatus _ _); [|done]. cbn [go_bind]. intros <-%Ret_inj.
    apply request_plain.
  - destruct (handleStreamOpenReq _ _ _ _) as [w r]. intros <-%Ret_inj.
    apply request_world.
  - destruct (handleStreamCloseReq _ _ _) as [w r]. intros <-%Ret_inj.
    apply request_world.
  - destruct (handleMetrics _ _); [|done]. cbn [go_bind]. intros <-%Ret_inj.
    apply request_plain.
Qed.

Lemma sim_request cfg w0 e n conn req n' :
  e_now e ≠ 0 → node_sim cfg w0 n → ns_waiting n !! conn = None →
  node_request toMap e n conn req = Ret n' → node_sim cfg w0 n'.
Proof using Type.
  intros Hn Hs Hw [w s r He|tr r w s msg ch mode E]%request_spec; [| |done].
  - by apply sim_answer, sim_server.
  - by eapply sim_waits.
Qed.

Lemma sim_wake cfg w0 e n conn why :
  node_sim cfg w0 n → node_sim cfg w0 (node_wake e n conn why).
Proof using Type.
  intros Hs. unfold node_wake. destruct (ns_waiting n !! conn) as [t|] eqn:Ht; [|done].
  unfold handleTransferSync_end. destruct (sim_data _ _ _ Hs) as [d Ed]. rewrite Ed.
  destruct (SendSync_end _ _ _ _ _ _ _) as [[[w d'] res]|] eqn:E; [|done].
  assert (node_sim cfg w0 (with_waiting (with_server n w (set_data (ns_server n) d'))
            (delete conn (ns_waiting n)))) as Hd.
  { destruct Hs as [S1 S2 S3 S4 S5 S6 S7]. split; cbn; try done.
    rewrite Ed in S5. by eapply calls_match_end. }
  destruct res; by apply sim_answer.
Qed.

Lemma sim_worker cfg w0 e n n' :
  node_sim cfg w0 n → coap_worker e n = Ret n' → node_sim cfg w0 n'.
Proof using Type.
  intros Hs. unfold coap_worker. pose proof (sim_coap _ _ _ Hs) as Hc.
  destruct (ns_coap n) as [[b q]|]; [|by intros <-%Ret_inj].
  destruct Hc as (Hz & Hl & Hcl). destruct (q_reqCh q) as [|t rest] eqn:Hq;
    [by intros <-%Ret_inj|].
  destruct (worker_task_ret (e_clk e) (e_ResolveUDPAddr e) (e_Udp e) (e_range e) (e_now e)
    (e_now e) (ns_world n) b t) as (w & b' & -> & Hb). cbn [go_bind]. intros <-%Ret_inj.
  apply sim_bridges; [done|]. split_and!; [congruence| |done]. cbn in *. lia.
Qed.

Lemma sim_stop cfg w0 n : node_sim cfg w0 n → node_sim cfg w0 (node_stop n).
Proof using Type.
  intros Hs. pose proof (sim_coap _ _ _ Hs) as Hc. apply sim_bridges; [done|].
  destruct (ns_coap n) as [[b q]|]; [|done]. destruct Hc as (Hz & Hl & Hcl). done.
Qed.

Lemma sim_background cfg w0 e n ev n' :
  node_sim cfg w0 n → background e n ev n' → node_sim cfg w0 n'.
Proof using Type.
  intros Hs [|w|w r Hst|st Hst|d d' Ed [Hd _]|d topic payload Hev Ed|h|w http
    |b q t Eb _|i n1 _ Ht|n1 _ Hw|]; try done.
  - by apply sim_world.
  - by apply sim_registry_step.
  - by apply sim_streams_step.
  - by eapply sim_data_step.
  - by eapply sim_data_step, evolves_response.
  - by apply sim_discovery.
  - apply sim_bridges; [done|apply (sim_coap _ _ _ Hs)].
  - by apply sim_enqueueTask.
  - by eapply sim_enqueueTask_send.
  - by eapply sim_worker.
  - by apply sim_stop.
Qed.

Lemma sim_event cfg w0 e n ev n' :
  e_now e ≠ 0 → node_sim cfg w0 n → event_of e n ev = Ret n' → node_sim cfg w0 n'.
Proof using Type.
  intros Hn Hs. destruct (is_background ev) eqn:Hb.
  - intros E%background_spec; [|done..]. by eapply sim_background.
  - destruct ev as [|conn req|conn why| | | | | |i| |]; try done; cbn [node_event].
    + case_decide as Hw; [by intros <-%Ret_inj|]. apply eq_None_not_Some in Hw.
      by apply sim_request.
    + intros <-%Ret_inj. by apply sim_wake.
Qed.

Lemma sim_run cfg w0 evs n n' :
  Forall (λ ev, e_now ev.1 ≠ 0) evs → node_sim cfg w0 n →
  node_run toMap n evs = Ret n' → node_sim cfg w0 n'.
Proof using Type.
  intros Hevs. revert n. induction Hevs as [|[e ev] evs Hn _ IH]; intros n Hs; cbn [node_run].
  - by intros <-%Ret_inj.
  - destruct (event_of e n ev) as [n1|] eqn:E; [|done]. cbn [go_bind]. apply IH.
    by eapply sim_event.
Qed.

(** * The node that [main] starts *)

Lemma main_start_node now counter w cfg w' nd :
  main_start now counter w cfg = (w', Started nd) →
  nd_server nd = NewServer (Some cfg) (NewDefaultTopicSet (cfg_Tenant cfg)) (main_registry cfg)
    (Some (main_data cfg)) (NewStreamService (NewDefaultTopicSet (cfg_Tenant cfg)))
    NewResourceCatalog (Some NewProtocolResourceIndex) ∧
  nd_registry nd = main_registry cfg ∧ nd_data nd = main_data cfg ∧
  nd_streams nd = NewStreamService (NewDefaultTopicSet (cfg_Tenant cfg)) ∧
  nd_coap nd = main_coap cfg (NewDefaultTopicSet (cfg_Tenant cfg)) counter ∧
  nd_peerList nd = NewPeerListService (NewDefaultTopicSet (cfg_Tenant cfg))
    (Some (buildAclService cfg)) (dc_MaxPageSize (cfg_Discovery cfg)).
Proof using Type.
  unfold main_start. cbv zeta. intros E.
  do 4 (apply start_or_exit_Started in E as [? E]).
  match type of E with context [Discovery_Start ?w ?s] =>
    destruct (Discovery_Start w s) as [[? ?] ?] end.
  do 6 (apply start_or_exit_Started in E as [? E]).
  by injection E as _ <-.
Qed.

Lemma sim_init now counter w cfg w0 nd :
  main_start now counter w cfg = (w0, Started nd) →
  node_sim cfg w0 (node_init (J := J) w0 nd).
Proof using Type.
  intros (Hsrv & _ & _ & _ & Hcoap & Hlist)%main_start_node.
  split; cbn [node_init ns_server ns_coap ns_world ns_waiting ns_peerList]; rewrite ?Hsrv; try done.
  - exists (main_data cfg), ∅, id. do 2 (split; [done|]). done.
  - rewrite Hcoap. unfold main_coap. case_decide; [|done]. cbn. split_and!; [done|lia|done].
Qed.

(** * What can panic *)

(** The query whose page end leaves the range of Go's [int]. *)
Definition overflows (s : PeerListService) (ev : event) : Prop :=
  match ev with
  | EvMessage hPeerListQuery _ payload =>
      match json_Unmarshal (A := PeerListQuery) payload with
      | Ok req =>
          int64_max < page_offset (plq_PageOffset req) + page_size s (plq_PageSize req)
      | Fail _ => False
      end
  | _ => False
  end.

#[export] Instance overflows_dec s ev : Decision (overflows s ev).
Proof using Type.
  destruct ev as [[]| | | | | | | | | |]; cbn; try apply _. destruct (json_Unmarshal _); apply _.
Defined.

(** The call of [enqueueTask] that goes on after [Stop]. *)
Definition sends_closed n (ev : event) : Prop :=
  match ev with
  | EvCoapSend i =>
      is_Some (ns_entering n !! i) ∧ ∃ b q, ns_coap n = Some (b, q) ∧ q_stopClosed q = true
  | _ => False
  end.

Lemma message_ret cfg w0 e n h topic payload :
  node_sim cfg w0 n → ¬ overflows (ns_peerList n) (EvMessage h topic payload) →
  ∃ n', node_message e n h topic payload = Ret n'.
Proof using Type.
  intros Hs Hno. unfold node_message.
  destruct h as [| | | | | | | | | | | | | | | |i]; try by eauto.
  - destruct (handleRegister _ _ _ _ _). by eauto.
  - destruct (srv_dataService _); by eauto.
  - unfold PeerList_handleQuery.
    destruct (json_Unmarshal payload) as [req|] eqn:Er; [|cbn; by eauto].
    unfold list_response.
    match goal with |- context [page ?l ?o ?z] =>
      destruct (page_ok l o z) as (p & -> & _) end.
    + apply page_offset_nonneg.
    + apply page_size_pos.
    + apply Z.le_ngt. intros Hov. apply Hno. cbn. by rewrite Er.
    + cbn [go_bind]. destruct (json_Marshal _); [|cbn; by eauto]. case_decide; cbn; by eauto.
  - destruct (ns_http n); [|by eauto].
    destruct (Http_handleSyncRequest _ _ _ _ _ _ _ _ _ _). by eauto.
  - destruct (ns_http n); [|by eauto].
    destruct (Http_handleAsyncEvent _ _ _ _ _ _ _ _ _ _). by eauto.
  - destruct (ns_coap n) as [[b q]|]; by eauto.
  - destruct (ns_coap n) as [[b q]|]; by eauto.
  - destruct (ns_mqtt n !! i); by eauto.
Qed.

Lemma request_ret cfg w0 e n conn req :
  node_sim cfg w0 n → ∃ n', node_request toMap e n conn req = Ret n'.
Proof using Type.
  intros Hs. destruct (sim_data _ _ _ Hs) as [d Ed]. unfold node_request. cbv zeta.
  destruct req as [uptime|req|id|id|id|resource role status|resource|resource| | |resource| |
    resource|direction peerID qos|name|tr req|tr req|tr req|id|req|req| |]; try by eauto.
  - destruct (handlePeerRegister _ _ _ _) as [[w s] r]. by eauto.
  - destruct (handlePeerHeartbeat _ _ _ _) as [w r]. by eauto.
  - destruct (handlePeerUnregister _ _ _ _) as [[w s] r]. by eauto.
  - destruct (handleHTTPProtocolResources _ _ _ _ _ _) as [[w s] r]. by eauto.
  - destruct (handleHTTPProtocolResourceByName _ _ _ _ _ _ _) as [[w s] r]. by eauto.
  - destruct (handleCoapProtocolResources _ _ _ _ _ _) as [[w s] r]. by eauto.
  - destruct (handleCoapProtocolResourceByName _ _ _ _ _ _ _) as [[w s] r]. by eauto.
  - destruct (handleMqttProtocolTopics _ _ _ _ _ _ _ _) as [[w s] r]. by eauto.
  - destruct (handleMqttProtocolTopicByName _ _ _ _ _ _) as [[w s] r]. by eauto.
  - edestruct (handleTransferSync_begin_ret (J := J)) as [[[w s] t] ->]. cbn [go_bind].
    destruct t; by eauto.
  - edestruct (handleTransferAsync_ret (J := J)) as [[[w s] r] ->]. cbn. by eauto.
  - edestruct (handleTransferAsyncBatch_ret (J := J)) as [[[w s] r] ->]. cbn. by eauto.
  - unfold handleTransferStatus. rewrite Ed. case_decide; [cbn; by eauto|].
    destruct (GetTransferStatus d id); cbn; by eauto.
  - destruct (handleStreamOpenReq _ _ _ _) as [w r]. by eauto.
  - destruct (handleStreamCloseReq _ _ _) as [w r]. by eauto.
  - unfold handleMetrics. rewrite Ed. destruct (count_status _). cbn. by eauto.
Qed.

Lemma send_ret cfg w0 e n i :
  node_sim cfg w0 n → ¬ sends_closed n (EvCoapSend i) → ∃ n', enqueueTask_send e n i = Ret n'.
Proof using Type.
  intros Hs Hno. pose proof (sim_coap _ _ _ Hs) as Hc. unfold enqueueTask_send.
  destruct (ns_coap n) as [[b q]|] eqn:Ec; [|by eauto].
  destruct (ns_entering n !! i) as [t|] eqn:Et; [|by eauto]. destruct Hc as (_ & _ & Hcl).
  destruct (enqueue_send_cases (e_now e) (ns_world n) b q t) as
    [[Hq _]|[(_ & _ & ->)|(_ & _ & w' & -> & _)]]; [|cbn; eauto..].
  exfalso. apply Hno. split; [by rewrite Et|]. exists b, q. split; [done|]. congruence.
Qed.

Lemma event_ret cfg w0 e n ev :
  node_sim cfg w0 n → ¬ overflows (ns_peerList n) ev → ¬ sends_closed n ev →
  ∃ n', event_of e n ev = Ret n'.
Proof using Type.
  intros Hs Hno Hns. destruct (sim_data _ _ _ Hs) as [d Ed].
  destruct ev as [h topic payload|conn req|conn why| | | | | |i| |]; cbn [node_event];
    unfold auto_register, sweep_idle, broadcast_tick; try by eauto.
  - by eapply message_ret.
  - case_decide; [by eauto|]. by eapply request_ret.
  - rewrite Ed. by eauto.
  - rewrite Ed. by eauto.
  - by eapply send_ret.
  - unfold coap_worker. destruct (ns_coap n) as [[b q]|]; [|by eauto].
    destruct (q_reqCh q) as [|t rest]; [by eauto|].
    destruct (worker_task_ret (e_clk e) (e_ResolveUDPAddr e) (e_Udp e) (e_range e) (e_now e)
      (e_now e) (ns_world n) b t) as (w & b' & -> & _). cbn. by eauto.
Qed.

(** With what each of the two panics. *)
Lemma send_panic e n i why :
  enqueueTask_send e n i = Panic why →
  is_Some (ns_entering n !! i) ∧ why = "send on closed channel" ∧
  ∃ b q, ns_coap n = Some (b, q) ∧ q_reqClosed q = true.
Proof using Type.
  unfold enqueueTask_send. destruct (ns_coap n) as [[b q]|] eqn:Ec; [|done].
  destruct (ns_entering n !! i) as [t|]; [|done].
  destruct (enqueue_send_cases (e_now e) (ns_world n) b q t) as
    [[Hq ->]|[(_ & _ & ->)|(_ & _ & w' & -> & _)]]; [|done..].
  cbn [go_bind]. intros [= <-]. split_and!; [done|done|]. by exists b, q.
Qed.

Lemma query_panic e n topic payload why :
  node_message e n hPeerListQuery topic payload = Panic why → why = "slice bounds out of range".
Proof using Type.
  unfold node_message, PeerList_handleQuery. destruct (json_Unmarshal payload) as [req|]; [|done].
  unfold list_response, page, slice.
  repeat case_decide; cbn [go_bind]; try (by intros [= <-]);
    destruct (json_Marshal _); cbn [go_bind]; try case_decide; done.
Qed.

Lemma event_panic cfg w0 e n ev why :
  node_sim cfg w0 n → event_of e n ev = Panic why →
  (overflows (ns_peerList n) ev ∧ why = "slice bounds out of range") ∨
  (∃ i t, ev = EvCoapSend i ∧ ns_entering n !! i = Some t ∧
     (∃ b q, ns_coap n = Some (b, q) ∧ q_stopClosed q = true) ∧ why = "send on closed channel").
Proof using Type.
  intros Hs E. destruct (decide (overflows (ns_peerList n) ev)) as [Ho|Hno].
  - left. split; [done|]. destruct ev as [[] topic payload| | | | | | | | | |]; try done.
    exact (query_panic e n topic payload why E).
  - destruct ev as [h topic payload|conn req|conn why'| | | | | |i| |];
      try (destruct (event_ret cfg w0 e n _ Hs Hno) as [n' E']; [by intros []|]; congruence).
    right. cbn [node_event] in E. apply send_panic in E as ([t Ht] & -> & b & q & Ec & Hcl).
    exists i, t. split_and!; try done. exists b, q. split; [done|].
    pose proof (sim_coap _ _ _ Hs) as Hc. rewrite Ec in Hc. destruct Hc as (_ & _ & Hcq). congruence.
Qed.
End node.
