(* ===== verification/NodeWait.v ===== *)
(** What the events of a node do to a transfer that waits, to the replies, and to the
    tasks of a CoAP bridge that has been stopped. *)
From S2P Require Import Prelude GoStrings GoTime Errors Metrics TopicFilter Acl Topics.
From S2P Require Import Mq Model Message Codec Registry PeerRegistry PeerRegistryProps.
From S2P Require Import PeerList Catalog DataService DataServiceProps Streams Config Route.
From S2P Require Import Auth Discovery Coap Bridges HttpBridge CoapBridge Router ProtocolIndex.
From S2P Require Import Api ApiHandlers ApiProps Main EndToEnd Node NodeCalls NodeServices.
From S2P Require Import NodeSim.
From stdpp Require Import relations fin_map_dom.

Open Scope string_scope.
Open Scope list_scope.
Open Scope Z_scope.

Section wait.
Context {C J : Type} `{!MqClient C} `{!JsonCodec DdMessage} `{!Gzip}.
Context `{!RegistryCodecs} `{!StreamCodecs} `{!JsonCodec HubBroadcast} `{!JsonCodec AuthBroadcast}.
Context `{!JsonCodec PeerAuthRequest} `{!JsonCodec PeerAuthResponse}.
Context `{!JsonCodec PeerListQuery} `{!JsonCodec PeerListResponse} `{!JsonCodec DlqEvent}.
Context (toMap : ResourceMetaSchema → option J).
Implicit Types (e : env) (n : NodeState C J) (w : World C) (d : DdDataService).

Abbreviation event_of := (node_event toMap).

(** * What an event does to a waiting transfer *)

Definition wt_id (t : waiting) : string := h_RequestId (msg_Header (wt_msg t)).

(** The transfer [t] waits on the connection [conn], and its channel holds [r]. *)
Definition waits n (conn : nat) (t : waiting) (r : channel) : Prop :=
  ns_waiting n !! conn = Some t ∧
  ∃ d, srv_dataService (ns_server n) = Some d ∧ held d (wt_id t) (wt_ch t) r.

(** The pending entries of two waiting connections. *)
Lemma sim_held cfg w0 n d conn t :
  node_sim cfg w0 n → srv_dataService (ns_server n) = Some d → ns_waiting n !! conn = Some t →
  wt_id t ≠ "" ∧ (∃ r, held d (wt_id t) (wt_ch t) r) ∧
  ∀ conn' t', ns_waiting n !! conn' = Some t' → wt_id t' = wt_id t → conn' = conn.
Proof using Type.
  intros Hs Ed Ht. destruct (sim_calls _ _ _ Hs) as (d1 & ts & f & E1 & Hr & Hw & Hf & _).
  rewrite Ed in E1. apply Some_inj in E1 as <-.
  apply sys_reachable_ok in Hr as Hok;
    [|apply (init_system_ok w0 (dur_mul (sy_DefaultTimeoutMs (cfg_Sync cfg)) Millisecond))].
  assert (∀ c u, ns_waiting n !! c = Some u → holder ts (f c) = Some (wt_id u, wt_ch u)) as Hh.
  { intros c u Hu. unfold holder. by rewrite (Hw _ _ Hu). }
  split_and!.
  - apply Hw in Ht. by apply (inv_thread _ Hok) in Ht.
  - apply Hh in Ht. destruct (inv_alloc _ Hok _ _ _ Ht) as [r Hc]. exists r. split_and!.
    + apply (inv_pending _ Hok). by eauto.
    + exact Hc.
    + intros id' [tid Ht']%(inv_pending _ Hok).
      pose proof (inv_owner _ Hok _ _ _ _ _ Ht Ht') as <-.
      change (sys_threads _) with ts in Ht'. congruence.
  - intros c u Hu Heq. apply Hh in Ht as H1', Hu as H2'. apply Hf; [by eauto..|].
    assert (wt_ch u = wt_ch t) as Hch.
    { apply Some_inj. trans (ds_pendingRequests d !! wt_id t); [symmetry|];
        apply (inv_pending _ Hok); [exists (f c); by rewrite <- Heq|by exists (f conn)]. }
    rewrite Hch in H2'. by eapply (inv_owner _ Hok).
Qed.

Lemma sim_waiting cfg w0 n conn t :
  node_sim cfg w0 n → ns_waiting n !! conn = Some t → ∃ r, waits n conn t r.
Proof using Type.
  intros Hs Ht. destruct (sim_data _ _ _ Hs) as [d Ed].
  destruct (sim_held _ _ _ _ _ _ Hs Ed Ht) as (_ & [r Hh] & _). exists r. split; [done|].
  by exists d.
Qed.

(** The pending map from the other side. *)
Lemma sim_pending cfg w0 n d :
  node_sim cfg w0 n → srv_dataService (ns_server n) = Some d →
  (∀ id ch, ds_pendingRequests d !! id = Some ch →
     ∃ conn t, ns_waiting n !! conn = Some t ∧ wt_id t = id) ∧
  (size (ds_pendingRequests d) ≤ 1024)%nat.
Proof using Type.
  intros Hs Ed. destruct (sim_calls _ _ _ Hs) as (d1 & ts & f & E1 & Hr & Hw & Hf & Hq).
  rewrite Ed in E1. apply Some_inj in E1 as <-.
  apply sys_reachable_ok in Hr as Hok;
    [|apply (init_system_ok w0 (dur_mul (sy_DefaultTimeoutMs (cfg_Sync cfg)) Millisecond))].
  split; [|pose proof (inv_bound _ Hok); cbn in *; lia].
  intros id ch [tid Hh]%(inv_pending _ Hok). unfold holder in Hh. cbn [sys sys_threads] in Hh.
  destruct (ts !! tid) as [th|] eqn:Et; [|done]. cbn in Hh.
  destruct (Hq _ _ Et) as [[Hno _]|(conn & [t Ht] & <-)]; [congruence|].
  exists conn, t. split; [done|]. rewrite (Hw _ _ Ht) in Et. apply Some_inj in Et as <-.
  cbn in Hh. unfold wt_id. congruence.
Qed.

(** A message that could touch the transfer: a response with its request id. *)
Definition responds (ev : event) (id : string) (resp : DdMessage) : Prop :=
  ∃ topic payload, ev = EvMessage hSyncResponse topic payload ∧
    DecodeDdMessage payload = Ok resp ∧ response_id resp = id.

Lemma background_waits e n ev n' conn t r :
  waits n conn t r → (∀ resp, ¬ responds ev (wt_id t) resp) → background e n ev n' →
  waits n' conn t r.
Proof using Type.
  intros Hw Hno Hbg. pose proof Hw as (Ht & d & Ed & Hh).
  assert (∀ n1, coap_move n n1 → waits n1 conn t r) as Hmove
    by (intros n1 [->|(w & coap & l & ->)]; [done|split; [done|by exists d]]).
  destruct Hbg as [|w|w r1 Hst|st Hst|d1 d' Ed1 [_ Hk]|d1 topic payload -> Ed1|h|w http
    |b q task Eb _|i n1 _ E|n1 _ E|]; try done; try (split; [done|by exists d]).
  - assert (d1 = d) as -> by congruence. split; [done|]. exists d'. split; [done|]. by apply Hk.
  - assert (d1 = d) as -> by congruence. split; [done|]. eexists. split; [done|].
    apply held_other_response; [|done]. intros resp Hd Hid. apply (Hno resp). by eexists _, _.
  - apply Hmove, enqueueTask_move.
  - by eapply Hmove, enqueueTask_send_move.
  - by eapply Hmove, coap_worker_move.
Qed.

Lemma request_keeps e n conn' req n' conn t r :
  e_now e ≠ 0 → waits n conn t r → ns_waiting n !! conn' = None →
  node_request toMap e n conn' req = Ret n' → waits n' conn t r.
Proof using Type.
  intros Hn (Ht & d & Ed & Hh) Hfree
    [w s rep [_ _ _ _ Hd]|tr rq w s msg ch mode E]%request_spec; [| |done].
  - split; [done|]. rewrite Ed in Hd. cbn. destruct (srv_dataService s) as [d'|]; [|done].
    exists d'. split; [done|]. by apply Hd.
  - destruct rq as [rq|]; [|done].
    apply handleTransferSync_begin_waiting in E as (d1 & d' & w1 & m0 & Ed1 & _ & _ & Hb & ->).
    assert (d1 = d) as -> by congruence. split.
    + cbn. rewrite lookup_insert_ne; [done|]. congruence.
    + exists d'. split; [done|]. eapply kept_begin; [exact Hb|done].
Qed.

Lemma wake_keeps cfg w0 e n conn' why conn t r :
  node_sim cfg w0 n → waits n conn t r → conn' ≠ conn → waits (node_wake e n conn' why) conn t r.
Proof using Type.
  intros Hs Hw Hne. pose proof Hw as (Ht & d & Ed & Hh). unfold node_wake.
  destruct (ns_waiting n !! conn') as [t'|] eqn:Ht'; [|done].
  unfold handleTransferSync_end. rewrite Ed.
  destruct (SendSync_end _ _ _ _ _ _ _) as [[[w d'] res]|] eqn:E; [|done].
  destruct (sim_held _ _ _ _ _ _ Hs Ed Ht') as (_ & (r' & Hp' & _ & _) & Huniq).
  assert (held d' (wt_id t) (wt_ch t) r) as Hh'.
  { eapply held_end; [exact E|exact Hp'| |done]. intros Heq.
    apply Hne. symmetry. by eapply Huniq. }
  destruct res; (split; [cbn; by rewrite lookup_delete_ne|]); by exists d'.
Qed.

Lemma event_waits cfg w0 e n ev n' conn t r :
  e_now e ≠ 0 → node_sim cfg w0 n → waits n conn t r →
  (∀ why, ev ≠ EvWake conn why) → (∀ resp, ¬ responds ev (wt_id t) resp) →
  event_of e n ev = Ret n' → waits n' conn t r.
Proof using Type.
  intros Hn Hs Hw Hnw Hno. destruct (is_background ev) eqn:Hb.
  - intros E%background_spec; [|done..]. by eapply background_waits.
  - destruct ev as [|conn' req|conn' why| | | | | |i| |]; try done; cbn [node_event].
    + case_decide as Hc; [by intros <-%Ret_inj|]. apply eq_None_not_Some in Hc.
      by apply request_keeps.
    + intros <-%Ret_inj. eapply wake_keeps; [done..|]. intros ->. by apply (Hnw why).
Qed.

Lemma run_waits cfg w0 evs n n' conn t r :
  Forall (λ ev, e_now ev.1 ≠ 0) evs → node_sim cfg w0 n → waits n conn t r →
  Forall (λ ev, (∀ why, ev.2 ≠ EvWake conn why) ∧ ∀ resp, ¬ responds ev.2 (wt_id t) resp) evs →
  node_run toMap n evs = Ret n' → waits n' conn t r.
Proof using Type.
  intros Hevs. revert n. induction Hevs as [|[e ev] evs Hn _ IH]; intros n Hs Hw Hno;
    cbn [node_run]; [by intros <-%Ret_inj|].
  apply Forall_cons in Hno as [[Hnw Hno] Hnos].
  destruct (event_of e n ev) as [n1|] eqn:E; [|done]. cbn [go_bind].
  apply IH; [by eapply sim_event|by eapply event_waits|done].
Qed.

(** * Replies *)

Lemma background_replies e n ev n' : background e n ev n' → ns_replies n' = ns_replies n.
Proof using Type.
  assert (∀ n1, coap_move n n1 → ns_replies n1 = ns_replies n) as Hmove
    by (by intros n1 [->|(w & coap & l & ->)]).
  destruct 1 as [| | | | | | | |b q task Eb _|i n1 _ E|n1 _ E|]; try done.
  - apply Hmove, enqueueTask_move.
  - by eapply Hmove, enqueueTask_send_move.
  - by eapply Hmove, coap_worker_move.
Qed.

(** Nothing but its own wake-up answers a connection that waits. *)
Lemma event_replies e n ev n' conn :
  e_now e ≠ 0 → is_Some (ns_waiting n !! conn) → (∀ why, ev ≠ EvWake conn why) →
  event_of e n ev = Ret n' →
  ∃ l, ns_replies n' = ns_replies n ++ l ∧ Forall (λ p, p.1 ≠ conn) l.
Proof using Type.
  intros Hn Hw Hno.
  assert (∀ n1, ns_replies n1 = ns_replies n →
    ∃ l, ns_replies n1 = ns_replies n ++ l ∧ Forall (λ p, p.1 ≠ conn) l) as Hsame.
  { intros n1 E. exists []. by rewrite app_nil_r. }
  assert (∀ n1 c r, c ≠ conn → ns_replies n1 = ns_replies n ++ [(c, r)] →
    ∃ l, ns_replies n1 = ns_replies n ++ l ∧ Forall (λ p, p.1 ≠ conn) l) as Hone.
  { intros n1 c r Hc E. exists [(c, r)]. split; [done|]. by constructor. }
  destruct (is_background ev) eqn:Hb.
  { intros E%background_spec; [|done..]. by eapply Hsame, background_replies. }
  destruct ev as [|c req|c why| | | | | |i| |]; try done; cbn [node_event].
  - case_decide as Hc; [intros <-%Ret_inj; by apply Hsame|].
    assert (c ≠ conn) as Hne by (by intros ->).
    intros [w1 s1 r1 _|tr rq w1 s1 msg ch mode _]%request_spec; [by eapply Hone|by apply Hsame|done].
  - assert (c ≠ conn) as Hne by (intros ->; by apply (Hno why)).
    intros <-%Ret_inj. unfold node_wake. destruct (ns_waiting n !! c); [|by apply Hsame].
    destruct (handleTransferSync_end _ _ _ _ _ _ _ _) as [[[w1 s1] r1]|]; [|by apply Hsame].
    by eapply Hone.
Qed.

(** A response for the transfer. *)
Lemma response_waits cfg w0 e n ev n' conn t resp r :
  node_sim cfg w0 n → waits n conn t r → responds ev (wt_id t) resp →
  event_of e n ev = Ret n' → waits n' conn t (Some resp).
Proof using Type.
  intros Hs (Ht & d & Ed & Hh) (topic & payload & -> & Hd & Hid). cbn [node_event node_message].
  rewrite Ed. intros <-%Ret_inj. split; [done|]. eexists. split; [done|].
  eapply held_response; [done..| |done]. by eapply sim_held.
Qed.

(** The end of a wait: with the response, if the channel holds one; at any time by the
    timer or the end of the request's context. *)
Lemma wake_answers cfg w0 e n conn t r why :
  node_sim cfg w0 n → waits n conn t r →
  (why = WakeResponse → is_Some r) →
  let n' := node_wake e n conn why in
  ns_waiting n' = delete conn (ns_waiting n) ∧
  ns_replies n' = ns_replies n ++ [(conn, match why, r with
    | WakeResponse, Some resp => sync_reply (wt_mode t) resp
    | WakeResponse, None => service_error (EText "")
    | WakeTimer, _ => service_error (EDd (ErrSyncTimeoutMsg (wt_id t)))
    | WakeDone err, _ => service_error err
    end)].
Proof using Type.
  intros Hs (Ht & d & Ed & Hh) Hwhy. cbv zeta. unfold node_wake. rewrite Ht.
  unfold handleTransferSync_end. rewrite Ed. destruct why as [err| |].
  - done.
  - done.
  - destruct Hwhy as [resp ->]; [done|].
    destruct (held_select (wt_start t) (e_now e) (ns_world n) _ _ _ _ Hh) as (w' & d' & ->). done.
Qed.

Lemma responds_or_not ev id : (∃ resp, responds ev id resp) ∨ ∀ resp, ¬ responds ev id resp.
Proof using Type.
  destruct ev as [h topic payload| | | | | | | | | |]; try (right; by intros resp (? & ? & ? & _)).
  destruct (decide (h = hSyncResponse)) as [->|]; [|right; intros resp (? & ? & ? & _); congruence].
  destruct (DecodeDdMessage payload) as [resp|err] eqn:Ed.
  - destruct (decide (response_id resp = id)).
    + left. exists resp. by exists topic, payload.
    + right. intros resp' (? & ? & ? & ? & ?). congruence.
  - right. intros resp' (? & ? & ? & ? & ?). congruence.
Qed.

(** A transfer waits until it is woken, with whatever response has come last. *)
Lemma run_keeps_waiting cfg w0 evs n n' conn t r :
  Forall (λ ev, e_now ev.1 ≠ 0) evs → node_sim cfg w0 n → waits n conn t r →
  Forall (λ ev, ∀ why, ev.2 ≠ EvWake conn why) evs →
  node_run toMap n evs = Ret n' →
  (∃ r', waits n' conn t r') ∧
  ∃ l, ns_replies n' = ns_replies n ++ l ∧ Forall (λ p, p.1 ≠ conn) l.
Proof using Type.
  intros Hevs. revert n r. induction Hevs as [|[e ev] evs Hn _ IH]; intros n r Hs Hw Hno;
    cbn [node_run].
  { intros <-%Ret_inj. split; [by exists r|]. exists []. by rewrite app_nil_r. }
  apply Forall_cons in Hno as [Hnw Hnos].
  destruct (event_of e n ev) as [n1|] eqn:E; [|done]. cbn [go_bind].
  assert (∃ r1, waits n1 conn t r1) as [r1 Hw1].
  { destruct (responds_or_not ev (wt_id t)) as [[resp Hresp]|Hno].
    - eexists. by eapply response_waits.
    - eexists. by eapply event_waits. }
  intros Hr. destruct (event_replies e n ev n1 conn Hn) as (l1 & E1 & F1);
    [by destruct Hw as [-> _]|done|done|].
  destruct (IH n1 r1) as (Hw' & l2 & E2 & F2); [by eapply sim_event|done..|].
  split; [done|]. exists (l1 ++ l2). rewrite E2, E1, app_assoc. split; [done|].
  by apply Forall_app.
Qed.

(** * The CoAP queue after the shutdown *)

(** The tasks that wait in a bridge that has been stopped. *)
Definition stopped_with n (tasks : list coapTask) : Prop :=
  ∃ b q, ns_coap n = Some (b, q) ∧ q_stopClosed q = true ∧ q_reqClosed q = true ∧
    q_reqCh q = tasks.

Lemma background_stopped e n ev n' tasks :
  stopped_with n tasks → background e n ev n' →
  if is_worker ev then True else stopped_with n' tasks.
Proof using Type.
  intros Hst Hbg. destruct (is_worker ev) eqn:Hi; [done|].
  pose proof Hst as (b & q & Ec & Hs & Hcl & Hq).
  destruct Hbg as [| | | | | | | |b1 q1 task Eb _|i n1 -> E|n1 -> E|]; try done.
  - assert (q1 = q) as -> by congruence. unfold enqueueTask, enqueue_enter. by rewrite Hs.
  - revert E. unfold enqueueTask_send. rewrite Ec.
    destruct (ns_entering n !! i); [|by intros <-%Ret_inj].
    unfold enqueue_send. by rewrite Hcl.
  - exists b, (coap_Stop q). unfold node_stop. by rewrite Ec.
Qed.

Lemma event_stopped e n ev n' tasks :
  e_now e ≠ 0 → stopped_with n tasks → event_of e n ev = Ret n' →
  stopped_with n' (if is_worker ev then tail tasks else tasks).
Proof using Type.
  intros Hn Hst. destruct (is_worker ev) eqn:Hi.
  - destruct ev; try done. cbn [node_event]. destruct Hst as (b & q & Ec & Hs & Hcl & Hq).
    unfold coap_worker. rewrite Ec, Hq.
    destruct tasks as [|t rest]; [intros <-%Ret_inj; by exists b, q|].
    destruct (worker_task _ _ _ _ _ _ _ _ _) as [[w1 b']|]; [|done]. intros <-%Ret_inj.
    by eexists _, _.
  - destruct (is_background ev) eqn:Hb.
    + intros E%background_spec; [|done..].
      pose proof (background_stopped _ _ _ _ _ Hst E) as Hst'. by rewrite Hi in Hst'.
    + destruct ev as [|c req|c why| | | | | |i| |]; try done; cbn [node_event].
      * case_decide; [by intros <-%Ret_inj|].
        by intros [w1 s1 r _|tr rq w1 s1 msg ch mode _]%request_spec.
      * intros <-%Ret_inj. unfold node_wake. destruct (ns_waiting n !! c); [|done].
        by destruct (handleTransferSync_end _ _ _ _ _ _ _ _) as [[[w1 s1] r1]|].
Qed.

Lemma run_stopped evs n n' tasks :
  Forall (λ ev, e_now ev.1 ≠ 0) evs → stopped_with n tasks → node_run toMap n evs = Ret n' →
  stopped_with n' (drop (length (filter (λ ev, is_worker ev.2 = true) evs)) tasks).
Proof using Type.
  intros Hevs. revert n tasks. induction Hevs as [|[e ev] evs Hn _ IH]; intros n tasks Hs;
    cbn [node_run]; [by intros <-%Ret_inj|].
  destruct (event_of e n ev) as [n1|] eqn:E; [|done]. cbn [go_bind]. intros Hr.
  apply event_stopped with (tasks := tasks) in E; [|done..].
  specialize (IH _ _ E Hr). rewrite filter_cons. cbn [snd].
  destruct (is_worker ev); [rewrite decide_True by done|by rewrite decide_False].
  by destruct tasks; rewrite ?drop_nil in *.
Qed.

(** After the shutdown no call of [enqueueTask] enters, and none gets through. *)
Lemma event_entering e n ev n' tasks :
  e_now e ≠ 0 → stopped_with n tasks → event_of e n ev = Ret n' →
  ns_entering n' = ns_entering n.
Proof using Type.
  intros Hn (b & q & Ec & Hs & Hcl & Hq). destruct (is_background ev) eqn:Hb.
  - intros E%background_spec; [|done..].
    destruct E as [| | | | | | | |b1 q1 task Eb _|i n1 -> E|n1 -> E|]; try done.
    + assert (q1 = q) as -> by congruence. unfold enqueueTask, enqueue_enter. by rewrite Hs.
    + revert E. unfold enqueueTask_send. rewrite Ec.
      destruct (ns_entering n !! i); [|by intros <-%Ret_inj].
      unfold enqueue_send. by rewrite Hcl.
    + revert E. unfold coap_worker. rewrite Ec. destruct (q_reqCh q); [by intros <-%Ret_inj|].
      destruct (worker_task _ _ _ _ _ _ _ _ _) as [[w1 b']|]; [|done]. by intros <-%Ret_inj.
  - destruct ev as [|c req|c why| | | | | |i| |]; try done; cbn [node_event].
    + case_decide; [by intros <-%Ret_inj|].
      by intros [w1 s1 r _|tr rq w1 s1 msg ch mode _]%request_spec.
    + intros <-%Ret_inj. unfold node_wake. destruct (ns_waiting n !! c); [|done].
      by destruct (handleTransferSync_end _ _ _ _ _ _ _ _) as [[[w1 s1] r1]|].
Qed.

(** A run after the shutdown ends, or the send of a call that had entered panics. *)
Lemma run_stopped_ret cfg w0 evs n tasks :
  Forall (λ ev, e_now ev.1 ≠ 0) evs → node_sim cfg w0 n → stopped_with n tasks →
  Forall (λ ev, ¬ overflows (ns_peerList n) ev.2) evs →
  (∃ n', node_run toMap n evs = Ret n') ∨
  (node_run toMap n evs = Panic "send on closed channel" ∧ ns_entering n ≠ []).
Proof using Type.
  intros Hevs. revert n tasks. induction Hevs as [|[e ev] evs Hn _ IH];
    intros n tasks Hs Hst Hno; cbn [node_run]; [by eauto|].
  apply Forall_cons in Hno as [Hno Hnos]. cbn [snd fst] in *.
  destruct (event_of e n ev) as [n1|why] eqn:E; cbn [go_bind].
  - pose proof (sim_event toMap _ _ _ _ _ _ Hn Hs E) as Hs1.
    rewrite <- (event_entering _ _ _ _ _ Hn Hst E).
    apply (event_stopped _ _ _ _ _ Hn Hst) in E. eapply IH; [done|exact E|].
    rewrite (sim_peerList _ _ _ Hs1), <- (sim_peerList _ _ _ Hs). done.
  - right. destruct (event_panic toMap cfg w0 e n ev why Hs E) as [[Hov _]|(i & t & -> & Ht & _ & ->)];
      [done|]. split; [done|]. by intros E1; rewrite E1 in Ht.
Qed.

(** * The CoAP channels before the shutdown *)

Definition coap_open n : Prop := ∀ b q, ns_coap n = Some (b, q) → q_stopClosed q = false.

(** Nothing but the shutdown closes them. *)
Lemma event_open e n ev n' :
  e_now e ≠ 0 → ev ≠ EvStop → coap_open n → event_of e n ev = Ret n' → coap_open n'.
Proof using Type.
  intros Hn Hne Ho. destruct (is_background ev) eqn:Hb.
  - intros E%background_spec; [|done..].
    destruct E as [| | | | | | | |b1 q1 task Eb _|i n1 -> E|n1 -> E|]; try done.
    + unfold enqueueTask. by destruct (enqueue_enter q1).
    + revert E. unfold enqueueTask_send. destruct (ns_coap n) as [[b q]|] eqn:Ec;
        [|by intros <-%Ret_inj]. destruct (ns_entering n !! i) as [t|]; [|by intros <-%Ret_inj].
      destruct (enqueue_send_cases (e_now e) (ns_world n) b q t) as
        [[Hq ->]|[(Hq & Hlt & ->)|(Hq & Hge & w' & -> & _)]]; cbn [go_bind]; [done| |];
        intros <-%Ret_inj b2 q2 [= <- <-]; by apply (Ho b q).
    + revert E. unfold coap_worker. destruct (ns_coap n) as [[b q]|] eqn:Ec;
        [|by intros <-%Ret_inj]. destruct (q_reqCh q); [by intros <-%Ret_inj|].
      destruct (worker_task _ _ _ _ _ _ _ _ _) as [[w1 b']|]; [|done].
      intros <-%Ret_inj b2 q2 [= <- <-]. by apply (Ho b q).
  - destruct ev as [|c req|c why| | | | | |i| |]; try done; cbn [node_event].
    + case_decide; [by intros <-%Ret_inj|].
      by intros [w1 s1 r _|tr rq w1 s1 msg ch mode _]%request_spec.
    + intros <-%Ret_inj. unfold node_wake. destruct (ns_waiting n !! c); [|done].
      by destruct (handleTransferSync_end _ _ _ _ _ _ _ _) as [[[w1 s1] r1]|].
Qed.

(** * Behind the middleware *)

Context (label_error : list string → option string).

(** The middleware changes nothing but the metrics and the replies. *)
Lemma logged_cases e n n' start line :
  (∃ w, logged label_error e n n' start line = with_world n' w) ∨
  (∃ l, logged label_error e n n' start line = with_replies n' l).
Proof using Type.
  unfold logged. destruct (drop _ _) as [|[c r] l].
  - right. exists (ns_replies n'). by destruct n'.
  - destruct (RequestLoggingMiddleware _ _ _ _ _ _ _); by eauto.
Qed.

Lemma sim_replies cfg w0 n l : node_sim cfg w0 n → node_sim cfg w0 (with_replies n l).
Proof using Type. by intros []. Qed.

Lemma serve_event_cases e n ev n' :
  serve_event toMap label_error e n ev = Ret n' →
  ∃ n1, event_of e n ev = Ret n1 ∧
    ((∃ w, n' = with_world n1 w) ∨ (∃ l, n' = with_replies n1 l)).
Proof using Type.
  unfold serve_event. destruct (event_of e n ev) as [n1|]; [|done]. cbn [go_bind].
  intros E. exists n1. split; [done|].
  assert (n1 = n' → (∃ w, n' = with_world n1 w) ∨ (∃ l, n' = with_replies n1 l)) as Hsame
    by (intros <-; right; exists (ns_replies n1); by destruct n1).
  destruct ev; apply Ret_inj in E; try (by apply Hsame); subst n'; apply logged_cases.
Qed.

Lemma serve_event_panic e n ev why :
  serve_event toMap label_error e n ev = Panic why → event_of e n ev = Panic why.
Proof using Type. unfold serve_event. by destruct (event_of e n ev). Qed.

Lemma serve_event_sim cfg w0 e n ev n' :
  e_now e ≠ 0 → node_sim cfg w0 n → serve_event toMap label_error e n ev = Ret n' →
  node_sim cfg w0 n'.
Proof using Type.
  intros Hn Hs (n1 & E & [[w ->]|[l ->]])%serve_event_cases;
    apply (sim_event toMap cfg w0) in E; try done; [by apply sim_world|by apply sim_replies].
Qed.

Lemma serve_event_open e n ev n' :
  e_now e ≠ 0 → ev ≠ EvStop → coap_open n → serve_event toMap label_error e n ev = Ret n' →
  coap_open n'.
Proof using Type.
  intros Hn Hne Ho (n1 & E & [[w ->]|[l ->]])%serve_event_cases;
    by apply event_open in E.
Qed.
End wait.
