(* ===== verification/NodeProps.v ===== *)
(** Correctness of the running node: its services behave, however the events fall, as
    the components proved correct on their own; only the query that PeerList describes
    and a message that races the shutdown make it panic; and every request that it
    takes is answered once, unless the middleware loses the reply. *)
From S2P Require Import Prelude GoStrings GoTime Errors Metrics TopicFilter Acl Topics.
From S2P Require Import Mq Model Message Codec Registry PeerRegistry PeerRegistryProps.
From S2P Require Import PeerList Catalog DataService DataServiceProps Streams Config Route.
From S2P Require Import Auth Discovery Coap Bridges HttpBridge CoapBridge Router ProtocolIndex.
From S2P Require Import Api ApiHandlers ApiProps Main EndToEnd.
From S2P Require Import Node NodeCalls NodeServices NodeSim NodeWait.
From stdpp Require Import relations fin_map_dom.

Open Scope string_scope.
Open Scope list_scope.
Open Scope Z_scope.

Section claims.
Context {C J : Type} `{!MqClient C} `{!JsonCodec DdMessage} `{!Gzip}.
Context `{!RegistryCodecs} `{!StreamCodecs} `{!JsonCodec HubBroadcast} `{!JsonCodec AuthBroadcast}.
Context `{!JsonCodec PeerAuthRequest} `{!JsonCodec PeerAuthResponse}.
Context `{!JsonCodec PeerListQuery} `{!JsonCodec PeerListResponse} `{!JsonCodec DlqEvent}.
Context (toMap : ResourceMetaSchema → option J).
Implicit Types (w : World C) (n : NodeState C J) (evs : list (env * event)).

(** The clock has started at every event. *)
Abbreviation clocked := (Forall (λ ev : env * event, e_now ev.1 ≠ 0)).

(** What a run of a started node has in common. *)
Lemma started_sim now counter w cfg w0 nd evs n :
  main_start now counter w cfg = (w0, Started nd) → clocked evs →
  node_run toMap (node_init w0 nd) evs = Ret n → node_sim cfg w0 n.
Proof using Type. intros Hm Hc Hr. eapply sim_run; [exact Hc| |exact Hr]. by eapply sim_init. Qed.

(** C5: from startup on, whatever messages, requests, timers and workers follow one
    another, the peer registry and the streams are in states that the components'
    own steps reach from those that [main] built, and the data service is in the
    state of a system of concurrent calls, over the same client, whose unfinished
    calls are exactly the transfers that the node keeps waiting. *)
Theorem node_refines_components now counter w cfg w0 nd evs n :
  main_start now counter w cfg = (w0, Started nd) → clocked evs →
  node_run toMap (node_init w0 nd) evs = Ret n →
  rtc (registry_step (C := C)) (nd_registry nd) (srv_peerRegistry (ns_server n)) ∧
  rtc stream_step (nd_streams nd) (srv_streamService (ns_server n)) ∧
  calls_match (nd_data nd) w0 (ns_world n) (srv_dataService (ns_server n)) (ns_waiting n).
Proof using Type.
  intros Hm Hc Hr. pose proof (started_sim _ _ _ _ _ _ _ _ Hm Hc Hr) as [S1 S2 S3 S4 S5 S6 S7].
  apply main_start_node in Hm as (_ & -> & -> & -> & _). done.
Qed.

(** C6: the invariants of a running node hold together after every event: every peer
    is stored under its own id with a heartbeat and a status of the protocol, every
    stream pointer leads to a well-formed session, the pending requests of the data
    service are exactly those of the connections that wait, one each and at most 1024,
    and the CoAP queue is within its 256 places with its two channels closed together. *)
Theorem node_invariants now counter w cfg w0 nd evs n :
  main_start now counter w cfg = (w0, Started nd) → clocked evs →
  node_run toMap (node_init w0 nd) evs = Ret n →
  registry_ok (srv_peerRegistry (ns_server n)) ∧
  streams_ok (srv_streamService (ns_server n)) ∧
  (∃ d, srv_dataService (ns_server n) = Some d ∧
     (∀ id, is_Some (ds_pendingRequests d !! id) ↔
        ∃ conn t, ns_waiting n !! conn = Some t ∧ wt_id t = id) ∧
     (∀ conn conn' t t', ns_waiting n !! conn = Some t → ns_waiting n !! conn' = Some t' →
        wt_id t = wt_id t' → conn = conn') ∧
     (size (ds_pendingRequests d) ≤ 1024)%nat) ∧
  coap_bounded (ns_coap n).
Proof using Type.
  intros Hm Hc Hr. pose proof (started_sim _ _ _ _ _ _ _ _ Hm Hc Hr) as Hs.
  split_and!.
  - eapply registry_reachable_ok; [by apply (sim_registry _ _ _ Hs)|].
    intros id p. unfold main_registry. cbn. unfold MemoryStore_Get. cbn. by rewrite lookup_empty.
  - eapply streams_ok_reachable, (sim_streams _ _ _ Hs).
  - destruct (sim_data _ _ _ Hs) as [d Ed]. exists d. split; [done|]. split_and!.
    + intros id. split.
      * intros [ch Hp]. by eapply (proj1 (sim_pending _ _ _ _ Hs Ed)).
      * intros (conn & t & Ht & <-).
        destruct (sim_held _ _ _ _ _ _ Hs Ed Ht) as (_ & (r & Hp & _) & _). by eauto.
    + intros conn conn' t t' Ht Ht' Heq.
      destruct (sim_held _ _ _ _ _ _ Hs Ed Ht') as (_ & _ & Hu). by eapply Hu.
    + by apply (sim_pending _ _ _ _ Hs Ed).
  - apply (sim_coap _ _ _ Hs).
Qed.

Definition decide_event_stop (ev : event) : {ev = EvStop} + {ev ≠ EvStop}.
Proof using Type. destruct ev; (by left) || (by right). Defined.

(** The runs that panic, with what happened before. *)
Lemma serve_run_panics label_error cfg w0 evs n past why :
  clocked evs → node_sim cfg w0 n → EvStop ∈ past ∨ coap_open n →
  serve_run toMap label_error n evs = Panic why →
  ∃ evs1 e ev evs2 n', evs = evs1 ++ (e, ev) :: evs2 ∧
    serve_run toMap label_error n evs1 = Ret n' ∧ node_sim cfg w0 n' ∧
    ((overflows (ns_peerList n') ev ∧ why = "slice bounds out of range") ∨
     ∃ i t, ev = EvCoapSend i ∧ ns_entering n' !! i = Some t ∧ EvStop ∈ past ++ evs1.*2 ∧
       why = "send on closed channel").
Proof using Type.
  intros Hc. revert n past. induction Hc as [|[e ev] evs Hn _ IH]; intros n past Hs Hopen;
    cbn [serve_run]; [done|].
  destruct (serve_event toMap label_error e n ev) as [n1|why1] eqn:E; cbn [go_bind].
  - intros Hr. cbn [fst] in Hn.
    destruct (IH n1 (past ++ [ev])) as (evs1 & e1 & ev1 & evs2 & n' & -> & Hr1 & Hs' & Hcase).
    + by eapply serve_event_sim.
    + destruct Hopen as [Hin|Ho]; [left; set_solver|].
      destruct (decide_event_stop ev) as [->|Hne]; [left; set_solver|right].
      by eapply serve_event_open.
    + exact Hr.
    + exists ((e, ev) :: evs1), e1, ev1, evs2, n'. split; [done|]. split.
      { cbn [serve_run]. by rewrite E. }
      split; [done|]. by rewrite fmap_cons, (assoc_L (++) past [ev]) in Hcase || 
        (cbn [fmap list_fmap snd]; rewrite <- app_assoc in Hcase).
  - intros [= <-]. apply serve_event_panic in E. exists [], e, ev, evs, n.
    split; [done|]. split; [done|]. split; [done|].
    destruct (event_panic toMap cfg w0 e n ev why1 Hs E)
      as [Ho|(i & t & -> & Ht & (b & q & Ec & Hst) & ->)]; [by left|right].
    exists i, t. split_and!; [done|done| |done]. rewrite app_nil_r.
    destruct Hopen as [Hin|Ho]; [done|]. apply Ho in Ec. congruence.
Qed.

(** C7: a running node, its API behind the middleware, panics only in two ways, whatever
    messages, requests, timers and workers follow one another, before and after the
    shutdown: it is sent a peer list query whose page end overflows Go's [int]; or a
    message for the CoAP bridge has passed its check for the shutdown, the shutdown comes,
    and the message is sent to the closed channel.  (A panic of the middleware is the
    request's alone: see [serve_keeps_reply].) *)
Theorem node_panics label_error now counter w cfg w0 nd evs why :
  main_start now counter w cfg = (w0, Started nd) → clocked evs →
  serve_run toMap label_error (node_init w0 nd) evs = Panic why →
  ∃ evs1 e ev evs2 n, evs = evs1 ++ (e, ev) :: evs2 ∧
    serve_run toMap label_error (node_init w0 nd) evs1 = Ret n ∧
    ((∃ topic payload req, ev = EvMessage hPeerListQuery topic payload ∧
        json_Unmarshal payload = Ok req ∧
        int64_max < page_offset (plq_PageOffset req) +
          page_size (nd_peerList nd) (plq_PageSize req) ∧
        why = "slice bounds out of range") ∨
     (∃ i t, ev = EvCoapSend i ∧ ns_entering n !! i = Some t ∧ EvStop ∈ evs1.*2 ∧
        why = "send on closed channel")).
Proof using Type.
  intros Hm Hc Hr. pose proof (sim_init (J := J) _ _ _ _ _ _ Hm) as Hs.
  destruct (serve_run_panics label_error cfg w0 evs (node_init w0 nd) [] why Hc Hs)
    as (evs1 & e & ev & evs2 & n & -> & Hr1 & Hs1 & Hcase).
  { right. intros b q. cbn. destruct (nd_coap nd); [|done]. by intros [= <- <-]. }
  { exact Hr. }
  exists evs1, e, ev, evs2, n. split; [done|]. split; [done|].
  destruct Hcase as [[Ho ->]|(i & t & -> & Ht & Hin & ->)]; [left|right; by exists i, t].
  rewrite (sim_peerList _ _ _ Hs1) in Ho.
  apply main_start_node in Hm as (_ & _ & _ & _ & _ & Hl). rewrite <- Hl in Ho.
  destruct ev as [[] topic payload| | | | | | | | | |]; try done. cbn in Ho.
  destruct (json_Unmarshal payload) as [req|] eqn:Er; [|done]. by exists topic, payload, req.
Qed.

(** The middleware and the reply of a request: it is kept, and counted, when the path is
    UTF-8; else the middleware panics on its label values after the handler has done its
    work, and the reply is lost. *)
Theorem serve_keeps_reply label_error e n conn req n' r :
  labels_utf8 label_error →
  node_event toMap e n (EvRequest conn req) = Ret n' →
  ns_replies n' = ns_replies n ++ [(conn, r)] →
  ∃ n2, serve_event toMap label_error e n (EvRequest conn req) = Ret n2 ∧
    ns_server n2 = ns_server n' ∧ w_mq (ns_world n2) = w_mq (ns_world n') ∧
    ns_replies n2 = if utf8_ValidString (request_line req).2 then ns_replies n'
                    else ns_replies n.
Proof using Type.
  intros Hl E Hr. unfold serve_event. rewrite E. cbn [go_bind]. eexists. split; [done|].
  unfold logged. rewrite Hr, drop_app_length.
  assert (utf8_ValidString (request_line req).1 = true) as Hmeth
    by (by destruct req; vm_compute).
  pose proof (RequestLoggingMiddleware_utf8 label_error (ns_world n') (e_now e) (e_now e)
    (request_line req).1 (request_line req).2 [rep_status r] Hl Hmeth) as Hmw.
  destruct (utf8_ValidString (request_line req).2).
  - by destruct Hmw as (w' & -> & Hw).
  - by destruct Hmw as (why & ->).
Qed.

(** C3: every request is answered, and once.  A request on a free connection is
    answered at once, or its transfer waits; a transfer that waits is neither answered
    nor lost by whatever happens on other connections, timers and topics, until it
    wakes up; and its own timer always wakes it up, is answered with the timeout and
    frees the connection. *)
Theorem node_requests_answered now counter w cfg w0 nd evs n e conn req :
  main_start now counter w cfg = (w0, Started nd) → clocked evs →
  node_run toMap (node_init w0 nd) evs = Ret n →
  ns_waiting n !! conn = None → e_now e ≠ 0 →
  ∃ n1, node_event toMap e n (EvRequest conn req) = Ret n1 ∧
    ((∃ r, ns_replies n1 = ns_replies n ++ [(conn, r)] ∧ ns_waiting n1 = ns_waiting n) ∨
     (∃ t, ns_replies n1 = ns_replies n ∧ ns_waiting n1 = <[conn := t]> (ns_waiting n) ∧
        ∀ evs' n2, clocked evs' → Forall (λ ev, ∀ why, ev.2 ≠ EvWake conn why) evs' →
          node_run toMap n1 evs' = Ret n2 →
          (∃ l, ns_replies n2 = ns_replies n1 ++ l ∧ Forall (λ p, p.1 ≠ conn) l) ∧
          ∀ e', ∃ n3, node_event toMap e' n2 (EvWake conn WakeTimer) = Ret n3 ∧
            ns_replies n3 = ns_replies n2 ++ [(conn, service_error (EDd (ErrSyncTimeoutMsg (wt_id t))))] ∧
            ns_waiting n3 !! conn = None)).
Proof using Type.
  intros Hm Hc Hr Hfree Hn. pose proof (started_sim _ _ _ _ _ _ _ _ Hm Hc Hr) as Hs.
  destruct (request_ret toMap cfg w0 e n conn req Hs) as [n1 E]. exists n1.
  assert (node_event toMap e n (EvRequest conn req) = Ret n1) as Ev.
  { cbn [node_event]. rewrite decide_False by (by apply eq_None_not_Some). exact E. }
  split; [exact Ev|]. pose proof (sim_event _ _ _ _ _ _ _ Hn Hs Ev) as Hs1.
  destruct (request_spec toMap e n conn req n1 Hn E) as [w1 s1 r He|tr rq w1 s1 msg ch mode Eb].
  - left. by exists r.
  - set (t := {| wt_start := e_now e; wt_msg := msg; wt_ch := ch; wt_mode := mode |}).
    right. exists t. split; [done|]. split; [done|]. intros evs' n2 Hc' Hnw Hr2.
    destruct (sim_waiting cfg w0 _ conn t Hs1) as [r0 Hw1]; [apply lookup_insert_eq|].
    destruct (run_keeps_waiting toMap cfg w0 evs' _ n2 conn t r0 Hc' Hs1 Hw1 Hnw Hr2)
      as [[r Hw2] Hl].
    split; [exact Hl|]. intros e'. eexists. split; [done|].
    assert (node_sim cfg w0 n2) as Hs2 by (eapply sim_run; [exact Hc'|exact Hs1|exact Hr2]).
    destruct (wake_answers cfg w0 e' n2 conn t r WakeTimer Hs2 Hw2) as [Ew Er]; [done|].
    split; [exact Er|]. rewrite Ew. apply lookup_delete_eq.
Qed.

(** C2: a transfer that waits is answered with the last response to its request id,
    whatever else happens: once the node has handled the response, and before it
    handles another with the same id, the waiting handler finds it, answers 200 with
    its payload and the transfer's route, and frees the connection; other requests,
    responses, sweeps, bridges and the shutdown do not disturb it. *)
Theorem node_answers_last_response now counter w cfg w0 nd evs1 n1 conn t e1 ev n2 resp evs2 n3 e2 :
  main_start now counter w cfg = (w0, Started nd) → clocked evs1 → clocked evs2 →
  node_run toMap (node_init w0 nd) evs1 = Ret n1 → ns_waiting n1 !! conn = Some t →
  e_now e1 ≠ 0 → responds ev (wt_id t) resp → node_event toMap e1 n1 ev = Ret n2 →
  Forall (λ ev, (∀ why, ev.2 ≠ EvWake conn why) ∧ ∀ resp', ¬ responds ev.2 (wt_id t) resp') evs2 →
  node_run toMap n2 evs2 = Ret n3 →
  ∃ n4, node_event toMap e2 n3 (EvWake conn WakeResponse) = Ret n4 ∧
    ns_replies n4 = ns_replies n3 ++ [(conn, writeJSON 200
      (JObj [("response", JStr (of_bytes (msg_Payload resp)));
             ("route_mode", JStr (wt_mode t))]))] ∧
    ns_waiting n4 = delete conn (ns_waiting n3).
Proof using Type.
  intros Hm Hc1 Hc2 Hr1 Ht Hn1 Hresp He Hquiet Hr2.
  pose proof (started_sim _ _ _ _ _ _ _ _ Hm Hc1 Hr1) as Hs1.
  destruct (sim_waiting cfg w0 n1 conn t Hs1 Ht) as [r Hw1].
  pose proof (sim_event toMap _ _ _ _ _ _ Hn1 Hs1 He) as Hs2.
  apply (response_waits toMap cfg w0) with (conn := conn) (t := t) (resp := resp) (r := r) in He
    as Hw2; [|done..].
  pose proof (run_waits toMap cfg w0 evs2 n2 n3 conn t (Some resp) Hc2 Hs2 Hw2 Hquiet Hr2) as Hw3.
  pose proof (sim_run toMap cfg w0 evs2 n2 n3 Hc2 Hs2 Hr2) as Hs3.
  destruct (wake_answers cfg w0 e2 n3 conn t (Some resp) WakeResponse Hs3 Hw3) as [Ew Er];
    [by eauto|].
  eexists. split; [done|]. split; [exact Er|exact Ew].
Qed.

End claims.

(** * The properties at a concrete node *)

#[local] Existing Instance mock_client.
#[local] Existing Instance store_gzip.
#[local] Existing Instance order_codec.
#[local] Existing Instance sample_codecs.
#[local] Existing Instance stream_codecs.
#[local] Existing Instance list_query_codec.
#[local] Existing Instance list_response_codec.
#[local] Existing Instance auth_request_codec.
#[local] Existing Instance auth_response_codec.
#[local] Existing Instance auth_broadcast_codec.
#[local] Existing Instance EndToEnd.dlq_codec.
#[local] Instance hub_broadcast_codec : JsonCodec HubBroadcast := table_codec [].

(** A node whose rules let the peer [app] publish transfers. *)
Definition app_config : Config := {|
  cfg_Server := cfg_Server defaultConfig; cfg_Peer := cfg_Peer defaultConfig;
  cfg_Mq := cfg_Mq defaultConfig; cfg_Tenant := cfg_Tenant defaultConfig;
  cfg_Sync := cfg_Sync defaultConfig; cfg_Discovery := cfg_Discovery defaultConfig;
  cfg_Bridges := cfg_Bridges defaultConfig;
  cfg_Acl := {| ac_Rules := [{| ar_PeerId := "app"; ar_Action := "pub";
                                ar_Pattern := "dd/default/transfer/#"; ar_Allow := true |}] |};
  cfg_Logging := cfg_Logging defaultConfig |}.

(** Surroundings in which nothing answers. *)
Definition silent_env : env := {|
  e_range := ranger_std; e_ranges := λ _, ranger_std; e_items := item_order_std;
  e_now := 100; e_nano := 0; e_clk := λ _, 100; e_stamp := λ _, "1"; e_ctx_deadline := None;
  e_NewRequest := λ _ _, None; e_Do := λ _ _, DoError (EText "");
  e_DirectDo := λ _ _, DoError (EText ""); e_url_Host := λ _, None;
  e_ResolveUDPAddr := λ _, None; e_Udp := λ _ _ _ _, DialError;
  e_DirectUdp := λ _ _ _, DialError |}.

Definition started : World MockClient * startup := main_start 100 0 node_world app_config.
Definition started_node : Node :=
  match started.2 with
  | Started nd => nd
  | Exited _ _ => {| nd_registry := main_registry app_config; nd_data := main_data app_config;
      nd_streams := NewStreamService (NewDefaultTopicSet "");
      nd_discovery := NewHubDiscoveryService (NewDefaultTopicSet "") "" "" "" 0 0;
      nd_auth := main_auth app_config (NewDefaultTopicSet "");
      nd_peerList := NewPeerListService (NewDefaultTopicSet "") None 0; nd_http := None;
      nd_coap := None; nd_mqtt := []; nd_server := api_node; nd_broadcasts := false;
      nd_registers := None |}
  end.

Lemma started_up : main_start 100 0 node_world app_config = (started.1, Started started_node).
Proof. vm_compute. reflexivity. Defined.

Definition no_schema (_ : ResourceMetaSchema) : option unit := None.
Abbreviation running evs :=
  (node_run no_schema (node_init started.1 started_node) ((silent_env,.) <$> evs)).

(** A transfer that waits, a query that is answered, a sweep and a shutdown. *)
Definition busy : list event :=
  [EvRequest 7 (ApiTransferSync "" (Some order_request)); EvRequest 8 ApiResourcesList;
   EvSweepIdle; EvStop].
Definition busy_node : NodeState MockClient unit :=
  match running busy with Ret n => n | Panic _ => node_init started.1 started_node end.

Lemma busy_runs : running busy = Ret busy_node.
Proof. vm_compute. reflexivity. Defined.
Lemma all_clocked (evs : list event) : Forall (λ ev : env * event, e_now ev.1 ≠ 0) ((silent_env,.) <$> evs).
Proof. apply Forall_fmap, Forall_true. done. Defined.

Lemma node_refines_components_witness :
  is_Some (ns_waiting busy_node !! 7%nat) ∧
  calls_match (nd_data started_node) started.1 (ns_world busy_node)
    (srv_dataService (ns_server busy_node)) (ns_waiting busy_node).
Proof.
  split; [by_compute|].
  apply (node_refines_components no_schema 100 0 node_world app_config started.1 started_node
    ((silent_env,.) <$> busy)); [exact started_up|exact (all_clocked busy)|exact busy_runs].
Defined.

Lemma node_invariants_witness :
  is_Some (ns_waiting busy_node !! 7%nat) ∧ registry_ok (srv_peerRegistry (ns_server busy_node)) ∧
  coap_bounded (ns_coap busy_node).
Proof.
  split; [by_compute|].
  destruct (node_invariants no_schema 100 0 node_world app_config started.1 started_node
    ((silent_env,.) <$> busy) busy_node) as (Hr & _ & _ & Hc);
    [exact started_up|exact (all_clocked busy)|exact busy_runs|].
  split; [exact Hr|exact Hc].
Defined.

Definition overflowing : event :=
  EvMessage hPeerListQuery "dd/default/peer/list/query"
    (to_bytes (json_text "{'page_offset':9223372036854775807}")).

(** A client_golang that refuses nothing. *)
Definition no_label_error (_ : list string) : option string := None.
Abbreviation serving := (serve_run no_schema no_label_error (node_init started.1 started_node)).

Lemma node_panics_witness :
  serving ((silent_env,.) <$> busy ++ [overflowing]) = Panic "slice bounds out of range" ∧
  ∃ evs1 e ev evs2, ((silent_env,.) <$> busy ++ [overflowing]) = evs1 ++ (e, ev) :: evs2 ∧
    ((∃ topic payload, ev = EvMessage hPeerListQuery topic payload) ∨
     ∃ i, ev = EvCoapSend i ∧ EvStop ∈ evs1.*2).
Proof.
  assert (serving ((silent_env,.) <$> busy ++ [overflowing]) = Panic "slice bounds out of range")
    as Hp by (vm_compute; reflexivity).
  split; [exact Hp|].
  destruct (node_panics no_schema no_label_error 100 0 node_world app_config started.1
    started_node ((silent_env,.) <$> busy ++ [overflowing]) "slice bounds out of range")
    as (evs1 & e & ev & evs2 & n & E & _ & Hcase);
    [exact started_up|exact (all_clocked (busy ++ [overflowing]))|exact Hp|].
  exists evs1, e, ev, evs2. split; [exact E|].
  destruct Hcase as [(topic & payload & _ & Ev & _)|(i & t & Ev & _ & Hin & _)];
    [left; exists topic, payload; exact Ev|right; exists i; split; [exact Ev|exact Hin]].
Defined.

Lemma node_requests_answered_witness :
  ns_waiting busy_node !! 9%nat = None ∧
  ∃ n1, node_event no_schema silent_env busy_node (EvRequest 9 ApiStreamsList) = Ret n1.
Proof.
  split; [by_compute|].
  destruct (node_requests_answered no_schema 100 0 node_world app_config started.1 started_node
    ((silent_env,.) <$> busy) busy_node silent_env 9 ApiStreamsList) as (n1 & E & _);
    [exact started_up|exact (all_clocked busy)|exact busy_runs|by_compute|done|].
  exists n1. exact E.
Defined.

(** The same node with a CoAP bridge, one task in its queue. *)
Definition lamp_config : Config := {|
  cfg_Server := cfg_Server app_config;
  cfg_Peer := {| pc_Id := "lamp"; pc_Name := ""; pc_Role := "edge"; pc_Key := "";
                 pc_Secret := ""; pc_Broadcast := pc_Broadcast (cfg_Peer app_config);
                 pc_Auth := pc_Auth (cfg_Peer app_config) |};
  cfg_Mq := cfg_Mq app_config; cfg_Tenant := cfg_Tenant app_config;
  cfg_Sync := cfg_Sync app_config; cfg_Discovery := cfg_Discovery app_config;
  cfg_Bridges := {| br_Http := br_Http (cfg_Bridges app_config);
                    br_Coap := {| cb_Enabled := true; cb_TargetUrl := "10.0.0.7:5683" |};
                    br_MqttMappings := [] |};
  cfg_Acl := cfg_Acl app_config; cfg_Logging := cfg_Logging app_config |}.

Definition lamp_event : event :=
  EvMessage hCoapAsyncEvent "dd/default/event/lamp/publish" (to_bytes "on").

Definition lamp_evs : list (env * event) := [(silent_env, lamp_event); (silent_env, EvCoapSend 0)].
Definition lamp_queue (l : list coapTask) : coap_queue :=
  {| q_reqCh := l; q_reqClosed := false; q_stopClosed := false |}.
Definition lamp_started : World MockClient * startup := main_start 100 0 node_world lamp_config.

Lemma lamp_up : ∃ w0 nd, main_start 100 0 node_world lamp_config = (w0, Started nd) ∧
  nd_coap nd = Some (NewCoapBridge (NewDefaultTopicSet "default") "lamp" "10.0.0.7:5683" 0).
Proof.
  destruct (main_start 100 0 node_world lamp_config) as [w0 [nd|]] eqn:E;
    [|by vm_compute in E].
  exists w0, nd. split; [done|]. apply main_start_node in E as (_ & _ & _ & _ & -> & _).
  vm_compute. reflexivity.
Qed.

Lemma lamp_runs (w0 : World MockClient) nd :
  nd_coap nd = Some (NewCoapBridge (NewDefaultTopicSet "default") "lamp" "10.0.0.7:5683" 0) →
  ∃ b n task, node_run no_schema (node_init w0 nd) lamp_evs = Ret n ∧
    ns_coap n = Some (b, lamp_queue [task]) ∧ ns_entering n = [].
Proof.
  intros Hb. cbn [node_run node_event lamp_evs lamp_event node_message node_init ns_coap].
  rewrite Hb. unfold enqueueTask, enqueue_enter.
  cbn. unfold enqueueTask_send. cbn [ns_coap with_entering node_init]. rewrite Hb.
  cbn. eexists _, _, _. split; [reflexivity|]. split; reflexivity.
Qed.


(** The race, at this node: a message has entered, the shutdown comes, and the send goes
    on. *)
Theorem node_stop_race :
  ∃ w0 nd, main_start 100 0 node_world lamp_config = (w0, Started nd) ∧
    node_run no_schema (node_init w0 nd)
      ((silent_env,.) <$> [lamp_event; EvStop; EvCoapSend 0]) = Panic "send on closed channel".
Proof.
  destruct lamp_up as (w0 & nd & E & Hb). exists w0, nd. split; [done|].
  cbn [fmap list_fmap node_run node_event lamp_event node_message node_init ns_coap].
  rewrite Hb. unfold enqueueTask, enqueue_enter. cbn. unfold enqueueTask_send, node_stop.
  cbn [ns_coap with_entering with_bridges node_init]. rewrite Hb. by cbn.
Qed.

(** The response to the waiting transfer, and what comes after it. *)
Definition answered : event :=
  EvMessage hSyncResponse "dd/default/transfer/response/req-1"
    (to_bytes (json_text "{'mode':'sync','header':{'correlation_id':'req-1'}}")).
Definition later : list event :=
  [EvRequest 7 ApiStreamsList; EvSweepIdempotent; EvWake 8 WakeTimer].
Definition waiting7 : waiting :=
  {| wt_start := 100; wt_msg := order_msg; wt_ch := 0; wt_mode := "broker" |}.

Lemma node_answers_last_response_witness :
  ∃ n2 n3 n4,
    node_event no_schema silent_env busy_node answered = Ret n2 ∧
    node_run no_schema n2 ((silent_env,.) <$> later) = Ret n3 ∧
    node_event no_schema silent_env n3 (EvWake 7 WakeResponse) = Ret n4 ∧
    ns_replies n4 = ns_replies n3 ++ [(7%nat, writeJSON 200
      (JObj [("response", JStr "done"); ("route_mode", JStr "broker")]))].
Proof.
  destruct (node_event no_schema silent_env busy_node answered) as [n2|] eqn:E2;
    [|by vm_compute in E2].
  destruct (node_run no_schema n2 ((silent_env,.) <$> later)) as [n3|] eqn:E3.
  2:{ assert (node_run no_schema busy_node ((silent_env,.) <$> answered :: later) = Panic why)
        as Hp by (cbn [fmap list_fmap node_run]; rewrite E2; exact E3).
      by vm_compute in Hp. }
  exists n2, n3.
  assert (responds answered (wt_id waiting7) order_reply) as Hresp
    by (eexists _, _; split; [reflexivity|]; split; vm_compute; reflexivity).
  assert (ns_waiting busy_node !! 7%nat = Some waiting7) as Ht by (vm_compute; reflexivity).
  assert (Forall (λ ev : env * event, (∀ why, ev.2 ≠ EvWake 7 why) ∧
            ∀ resp', ¬ responds ev.2 (wt_id waiting7) resp') ((silent_env,.) <$> later)) as Hq
    by (repeat first [apply Forall_nil_2|apply Forall_cons_2]; cbn [snd];
        (split; [intros why [=]|intros resp' (? & ? & [=] & _)])).
  pose proof (node_answers_last_response no_schema 100 0 node_world app_config started.1
    started_node ((silent_env,.) <$> busy) busy_node 7 waiting7 silent_env answered n2 order_reply
    ((silent_env,.) <$> later) n3 silent_env started_up (all_clocked busy) (all_clocked later)
    busy_runs Ht ltac:(done) Hresp E2 Hq E3) as (n4 & E4 & Er & _).
  exists n4. split; [done|]. split; [exact E3|]. split; [exact E4|].
  etransitivity; [exact Er|]. do 3 f_equal.
Defined.
