(* ===== verification/NodeAcl.v ===== *)
(** What a running node never publishes: a transfer for a peer that no configured rule
    names goes nowhere over the broker, whichever handler takes it. *)
From S2P Require Import Prelude GoStrings GoTime Errors Metrics TopicFilter Acl Topics.
From S2P Require Import Mq Model Message Codec Registry PeerRegistry PeerRegistryProps.
From S2P Require Import PeerList Catalog DataService DataServiceProps Streams Config Route.
From S2P Require Import Auth Discovery Coap Bridges HttpBridge CoapBridge ProtocolIndex.
From S2P Require Import Api ApiHandlers ApiProps Main EndToEnd.
From S2P Require Import Node NodeCalls NodeServices NodeSim NodeWait NodeProps.
From stdpp Require Import relations fin_map_dom.

Open Scope string_scope.
Open Scope list_scope.
Open Scope Z_scope.

(** * The access list of the data service *)

Section acl.
Context {C : Type} `{!MqClient C} `{!JsonCodec DdMessage} `{!Gzip}.
Implicit Types (w : World C) (d : DdDataService).

Lemma try_send_acl d ch m : ds_aclService (try_send d ch m).1 = ds_aclService d.
Proof using Type. unfold try_send. by destruct (ds_channels d !! ch) as [[m0|]|]. Qed.
Lemma try_recv_acl d ch : ds_aclService (try_recv d ch).1 = ds_aclService d.
Proof using Type. unfold try_recv. by destruct (ds_channels d !! ch) as [[m0|]|]. Qed.

Lemma SendSync_select_acl start t1 t2 t3 w d msg ch why w' d' res :
  SendSync_select start t1 t2 t3 w d msg ch why = Some (w', d', res) →
  ds_aclService d' = ds_aclService d.
Proof using Type.
  unfold SendSync_select. destruct why as [err| |].
  - by intros (_ & <- & _)%Some_inj%pair3_inj.
  - by intros (_ & <- & _)%Some_inj%pair3_inj.
  - pose proof (try_recv_acl d ch) as Ha.
    destruct (try_recv d ch) as [d1 [resp|]]; [|done]. intros (_ & <- & _)%Some_inj%pair3_inj.
    unfold storeIdempotent. by case_decide.
Qed.

(** No step of the calls changes it. *)
Lemma sys_step_acl (σ σ' : System (C := C)) :
  sys_step σ σ' → ds_aclService (sys_s σ') = ds_aclService (sys_s σ).
Proof using Type.
  destruct 1 as [ρ t1 t2 t3 σ tid topic msg w d p Hf E|σ tid topic msg d err Ht E
    |σ tid topic msg d ch Ht E|t1 t2 σ tid topic msg ch w d msg' err Ht E
    |start t1 t2 σ tid topic msg ch w d msg' Ht E|t1 t2 t3 σ tid start msg ch why w d res Ht E
    |σ tid msg ch res Ht|σ tid payload ch msg Hf E|σ tid msg ch d Ht E|σ tid msg ch d Ht E
    |σ tid msg ch Ht|σ tid msg ch Ht|ρ t1 t2 σ topic msg w d msg' err E|ρ ρs now σ|ρ now σ
    |w σ]; cbn; try done.
  - by apply SendSync_prepare_spec in E as ((_ & _ & _ & Ha) & _).
  - by apply SendSync_register_spec in E as ->.
  - by apply SendSync_register_spec in E as (_ & _ & _ & _ & _ & _ & _ & Ha).
  - unfold SendSync_publish in E. destruct (EncodeDdMessage _ _) as [m [data|e]].
    + destruct (mq_Publish _ _ _) as [c [e|]]; by apply pair4_inj in E as (_ & <- & _).
    + by apply pair4_inj in E as (_ & <- & _).
  - unfold SendSync_publish in E. destruct (EncodeDdMessage _ _) as [m [data|e]].
    + destruct (mq_Publish _ _ _) as [c [e|]]; by apply pair4_inj in E as (_ & <- & _).
    + by apply pair4_inj in E as (_ & <- & _).
  - by apply SendSync_select_acl in E.
  - pose proof (try_send_acl (sys_s σ) ch msg) as Ha. by rewrite E in Ha.
  - pose proof (try_send_acl (sys_s σ) ch msg) as Ha. by rewrite E in Ha.
  - apply try_recv_acl.
  - apply try_send_acl.
  - by apply SendAsync_same in E as (_ & _ & _ & Ha).
Qed.

Lemma sys_reachable_acl (σ σ' : System (C := C)) :
  rtc sys_step σ σ' → ds_aclService (sys_s σ') = ds_aclService (sys_s σ).
Proof using Type. induction 1 as [|σ1 σ2 σ3 Hs _ ->]; [done|]. by apply sys_step_acl. Qed.

(** * Denied transfers *)

(** The service denies what [p] publishes, on any topic. *)
Definition denies (od : option DdDataService) (p : string) : Prop :=
  ∀ d, od = Some d → ∃ acl, ds_aclService d = Some acl ∧
    ∀ topic, Authorize acl p "pub" topic = false.

Lemma checkAcl_denies w d acl p topic :
  ds_aclService d = Some acl → Authorize acl p "pub" topic = false →
  checkAcl w d p "pub" topic =
    (observe w (Inc AclDeniedTotal []), Some (EDd (ErrAclDeniedMsg p "pub" topic))).
Proof using Type. intros Ha Hd. unfold checkAcl. by rewrite Ha, Hd. Qed.

Lemma SendAsync_denied ρ t1 t2 w d topic m p :
  denies (Some d) p → h_SourcePeerId (msg_Header (Normalize m)) = p →
  ∃ w' m' err, SendAsync ρ t1 t2 w d topic (Some m) = (w', d, m', Some err) ∧
    w_mq w' = w_mq w.
Proof using Type.
  intros Hden Hp. destruct (Hden d eq_refl) as (acl & Ha & Hd).
  unfold SendAsync. cbv zeta. rewrite Hp, (checkAcl_denies _ _ acl) by done.
  by eexists _, _, _.
Qed.

Lemma SendSync_denied ρ now w d topic m p :
  denies (Some d) p → h_SourcePeerId (msg_Header (Normalize m)) = p →
  ∃ w' err, SendSync_begin ρ now w d topic (Some m) = (w', d, Returned (Fail err)) ∧
    w_mq w' = w_mq w.
Proof using Type.
  intros Hden Hp. destruct (Hden d eq_refl) as (acl & Ha & Hd).
  unfold SendSync_begin, SendSync_prepare. cbv zeta. rewrite Hp, (checkAcl_denies _ _ acl) by done.
  by eexists _, _.
Qed.

(** * Denied requests *)

Context {J : Type} `{!RegistryCodecs}.
Context (NewRequest : string → string → option error)
  (Do : option Duration → http_request → http_outcome)
  (url_Host : string → option string) (ResolveUDPAddr : string → option error)
  (Udp : string → Time → bytes → udp_outcome).
Implicit Types (s : Server MemoryStore).

(** [m] speaks for the peer [p], normalised or not. *)
Definition speaks_for (m : DdMessage) (p : string) : Prop :=
  h_SourcePeerId (msg_Header (Normalize m)) = p.

Lemma speaks_for_again m m' p : speaks_for m p → m' = m ∨ m' = Normalize m → speaks_for m' p.
Proof using Type. unfold speaks_for. intros Hm [->| ->]; [done|by rewrite Normalize_idemp]. Qed.

Lemma async_message_speaks stamp tr req :
  speaks_for (Normalize (newAsyncMessage stamp tr req)) (tq_SourcePeerId req).
Proof using Type.
  apply (speaks_for_again (newAsyncMessage stamp tr req)); [|by right].
  unfold speaks_for. by rewrite Normalize_RequestId.
Qed.

Lemma sync_message_speaks s stamp tr req :
  speaks_for (sync_message s stamp tr req) (tq_SourcePeerId req).
Proof using Type.
  unfold speaks_for. destruct (sync_message_id s stamp tr req) as (_ & Hs & _ & ->). exact Hs.
Qed.

Lemma sendDirectAsync_msg ρ now nano dl cfg msg m e :
  sendDirectAsync NewRequest Do url_Host ResolveUDPAddr Udp ρ now nano dl cfg msg = Ret (m, e) →
  m = msg ∨ m = Normalize msg.
Proof using Type.
  unfold sendDirectAsync. case_decide.
  - destruct (sendDirectHTTP _ _ _ _ _) as [m' [r|err]] eqn:E;
      intros [= <- _]; by eapply sendDirectHTTP_msg.
  - case_decide; [|intros [= <- _]; by left].
    destruct (sendDirectCoap _ _ _ _ _ _ _ _) as [[m' r]|] eqn:E; [|done].
    intros [= <- _]. by eapply sendDirectCoap_msg.
Qed.

Lemma sync_broker_denied ρ now w s resource mode m p :
  denies (srv_dataService s) p → speaks_for m p →
  ∃ w' s' r, sync_broker (J := J) ρ now w s resource mode m = (w', s', SyncReplied r) ∧
    w_mq w' = w_mq w.
Proof using Type.
  intros Hden Hm. unfold sync_broker. destruct (srv_dataService s) as [d|]; [|by eexists _, _, _].
  edestruct (SendSync_denied ρ now (observe w (Inc RouteDecisionTotal [mode])) d
    (TransferRequest (srv_topics s) resource) m p Hden Hm) as (w' & err & -> & Hw).
  by eexists _, _, _.
Qed.

(** A sync transfer is answered at once, and nothing is published. *)
Lemma transfer_sync_denied ρ now nano dl stamp tr w s req :
  denies (srv_dataService s) (tq_SourcePeerId req) →
  ∃ w' s' r, handleTransferSync_begin (J := J) NewRequest Do url_Host ResolveUDPAddr Udp ρ now
      nano dl stamp tr w s (Some req) = Ret (w', s', SyncReplied r) ∧ w_mq w' = w_mq w.
Proof using Type.
  intros Hden. unfold handleTransferSync_begin. case_decide; [by eexists _, _, _|].
  pose proof (sync_message_speaks s stamp tr req) as Hsp.
  destruct (validateRequestMeta _ _ _ _ _ _) as [[w1 m] e] eqn:Ev.
  apply validateRequestMeta_msg in Ev as [Hw Hm]. apply (speaks_for_again _ m) in Hsp; [|done].
  destruct e as [e|]; [by eexists _, _, _|].
  assert (∀ mode m', speaks_for m' (tq_SourcePeerId req) →
    ∃ w' s' r, sync_broker (J := J) ρ now w1 s (tq_Resource req) mode m' =
      (w', s', SyncReplied r) ∧ w_mq w' = w_mq w) as Hb.
  { intros mode m' Hm'. rewrite <- Hw. by eapply sync_broker_denied. }
  case_decide.
  - destruct (sendDirectSync_ret NewRequest Do url_Host ResolveUDPAddr Udp ρ now nano dl
      (srv_cfg s) m) as (m' & [body|e] & E); rewrite E; cbn [go_bind]; [by eexists _, _, _|].
    apply sendDirectSync_msg in E. apply (speaks_for_again _ m') in Hsp; [|done].
    destruct (Hb RouteModeBroker m' Hsp) as (w' & s' & r & -> & Hw'). by eexists _, _, _.
  - destruct (Hb (DecideRoute (srv_cfg s) (Some m)) m Hsp) as (w' & s' & r & -> & Hw').
    by eexists _, _, _.
Qed.

Lemma async_broker_denied ρ now w s d resource m p :
  denies (Some d) p → speaks_for m p →
  ∃ w' err, async_broker ρ now w s d resource m = (w', set_data s d, Some err) ∧
    w_mq w' = w_mq w.
Proof using Type.
  intros Hden Hm. unfold async_broker.
  destruct (SendAsync_denied ρ now now w d (EventPublish (srv_topics s) resource) m p Hden Hm)
    as (w' & m' & err & -> & Hw). by eexists _, _.
Qed.

Lemma async_publish_denied ρ now w s resource mode m p :
  denies (srv_dataService s) p → speaks_for m p →
  ∃ w' s' r, async_publish (J := J) ρ now w s resource mode m = (w', s', r) ∧ w_mq w' = w_mq w.
Proof using Type.
  intros Hden Hm. unfold async_publish.
  destruct (srv_dataService s) as [d|]; [|by eexists _, _, _].
  edestruct (async_broker_denied ρ now (observe w (Inc RouteDecisionTotal [mode])) s d resource
    m p Hden Hm) as (w' & err & -> & Hw). by eexists _, _, _.
Qed.

(** A check of a message for [p], and what the message is afterwards. *)
Lemma validate_speaks ρ now w s resource msg p :
  speaks_for msg p →
  ∃ w1 m e, validateRequestMeta ρ now w s resource msg = (w1, m, e) ∧ w_mq w1 = w_mq w ∧
    speaks_for m p.
Proof using Type.
  intros Hsp. destruct (validateRequestMeta _ _ _ _ _ _) as [[w1 m] e] eqn:Ev.
  apply validateRequestMeta_msg in Ev as [Hw Hm]. exists w1, m, e. split_and!; [done..|].
  by apply (speaks_for_again msg).
Qed.

(** The direct route of the async handlers: it leaves the peer. *)
Lemma direct_async_speaks ρ now nano dl cfg m p :
  speaks_for m p →
  ∃ m' e, sendDirectAsync NewRequest Do url_Host ResolveUDPAddr Udp ρ now nano dl cfg m =
    Ret (m', e) ∧ speaks_for m' p.
Proof using Type.
  intros Hsp. destruct (sendDirectAsync_ret NewRequest Do url_Host ResolveUDPAddr Udp ρ now nano
    dl cfg m) as (m' & e & E). exists m', e. split; [done|].
  apply sendDirectAsync_msg in E. by apply (speaks_for_again m).
Qed.

Lemma transfer_async_denied ρ now nano dl stamp tr w s req :
  denies (srv_dataService s) (tq_SourcePeerId req) →
  ∃ w' s' r, handleTransferAsync (J := J) NewRequest Do url_Host ResolveUDPAddr Udp ρ now
      nano dl stamp tr w s (Some req) = Ret (w', s', r) ∧ w_mq w' = w_mq w.
Proof using Type.
  intros Hden. unfold handleTransferAsync. case_decide; [by eexists _, _, _|].
  destruct (validate_speaks ρ now w s (tq_Resource req) _ _ (async_message_speaks stamp tr req))
    as (w1 & m & [e|] & -> & Hw & Hsp); [by eexists _, _, _|].
  assert (∀ mode m', speaks_for m' (tq_SourcePeerId req) →
    ∃ w' s' r, async_publish (J := J) ρ now w1 s (tq_Resource req) mode m' = (w', s', r) ∧
      w_mq w' = w_mq w) as Hb.
  { intros mode m' Hm'. rewrite <- Hw. by eapply async_publish_denied. }
  case_decide.
  - destruct (direct_async_speaks ρ now nano dl (srv_cfg s) m _ Hsp) as (m' & [e|] & -> & Hsp');
      cbn [go_bind]; [|by eexists _, _, _].
    destruct (Hb RouteModeBroker m' Hsp') as (w' & s' & r & -> & Hw'). by eexists _, _, _.
  - destruct (Hb (DecideRoute (srv_cfg s) (Some m)) m Hsp) as (w' & s' & r & -> & Hw').
    by eexists _, _, _.
Qed.

Lemma batch_item_denied ρ now nano dl stamp tr w s d idx req w' s' r :
  srv_dataService s = Some d → denies (Some d) (tq_SourcePeerId req) →
  batch_item NewRequest Do url_Host ResolveUDPAddr Udp ρ now nano dl stamp tr w s d idx req =
    Ret (w', s', r) → w_mq w' = w_mq w ∧ srv_dataService s' = Some d.
Proof using Type.
  intros Hd Hden. unfold batch_item.
  case_decide; [by intros (<- & <- & _)%Ret_inj%pair3_inj|].
  destruct (validate_speaks ρ now w s (tq_Resource req) _ _ (async_message_speaks stamp tr req))
    as (w1 & m & [e|] & -> & Hw & Hsp); [by intros (<- & <- & _)%Ret_inj%pair3_inj|].
  assert (∀ w2 m' (ok : itemResult) (f : error → itemResult), w_mq w2 = w_mq w →
    speaks_for m' (tq_SourcePeerId req) →
    (match async_broker ρ now w2 s d (tq_Resource req) m' with
     | (w, s, Some err) => (w, s, f err)
     | (w, s, None) => (w, s, ok)
     end) = (w', s', r) → w_mq w' = w_mq w ∧ srv_dataService s' = Some d) as Hb.
  { intros w2 m' ok f Hw2 Hm'.
    destruct (async_broker_denied ρ now w2 s d (tq_Resource req) m' _ Hden Hm')
      as (w3 & err & -> & Hw3). intros (<- & <- & _)%pair3_inj. split; [congruence|done]. }
  case_decide.
  - destruct (direct_async_speaks ρ now nano dl (srv_cfg s) m _ Hsp) as (m' & [e|] & -> & Hsp');
      cbn [go_bind]; [|by intros (<- & <- & _)%Ret_inj%pair3_inj].
    intros E%Ret_inj. by eapply Hb, E.
  - intros E%Ret_inj. by eapply Hb, E.
Qed.

Lemma batch_loop_denied ρ now nano dl stamp tr d items w s idx a f results w' s' r :
  srv_dataService s = Some d → (∀ req, req ∈ items → denies (Some d) (tq_SourcePeerId req)) →
  batch_loop NewRequest Do url_Host ResolveUDPAddr Udp ρ now nano dl stamp tr w s idx items
    a f results = Ret (w', s', r) → w_mq w' = w_mq w.
Proof using Type.
  revert w s idx a f results. induction items as [|item items IH];
    intros w s idx a f results Hd Hden; cbn [batch_loop].
  { by intros (<- & _)%Ret_inj%pair3_inj. }
  rewrite Hd.
  destruct (batch_item _ _ _ _ _ _ _ _ _ _ _ _ _ _ _ _) as [[[w1 s1] r1]|] eqn:E; [|done].
  cbn [go_bind]. apply batch_item_denied in E as [Hw Hd1]; [|done|apply Hden; by left].
  rewrite <- Hw. case_decide; apply IH; try done; intros req Hin; apply Hden; by right.
Qed.

Lemma transfer_batch_denied ρ now nano dl stamp tr w s d items :
  srv_dataService s = Some d → (∀ req, req ∈ items → denies (Some d) (tq_SourcePeerId req)) →
  ∃ w' s' r, handleTransferAsyncBatch (J := J) NewRequest Do url_Host ResolveUDPAddr Udp ρ now
      nano dl stamp tr w s (Some items) = Ret (w', s', r) ∧ w_mq w' = w_mq w.
Proof using Type.
  intros Hd Hden. unfold handleTransferAsyncBatch. case_decide; [by eexists _, _, _|]. rewrite Hd.
  destruct (batch_loop_ret NewRequest Do url_Host ResolveUDPAddr Udp ρ now nano dl stamp tr items
    w s 0 0 0 []) as (w' & s' & rs & na & nf & E & _); [by eauto|]. rewrite E. cbn [go_bind].
  apply (batch_loop_denied _ _ _ _ _ _ d) in E; [|done..].
  destruct (batch_status _ _). by eexists _, _, _.
Qed.
End acl.

(** * The node *)

Section node_acl.
Context {C J : Type} `{!MqClient C} `{!JsonCodec DdMessage} `{!Gzip}.
Context `{!RegistryCodecs} `{!StreamCodecs} `{!JsonCodec HubBroadcast} `{!JsonCodec AuthBroadcast}.
Context `{!JsonCodec PeerAuthRequest} `{!JsonCodec PeerAuthResponse}.
Context `{!JsonCodec PeerListQuery} `{!JsonCodec PeerListResponse} `{!JsonCodec DlqEvent}.
Context (toMap : ResourceMetaSchema → option J).

(** No rule of the configuration names the peer. *)
Definition unnamed (cfg : Config) (p : string) : Prop :=
  ∀ r, r ∈ ac_Rules (cfg_Acl cfg) → ar_PeerId r ≠ p.

(** The peers for which a request asks the node to send something. *)
Definition transfer_sources (req : api_request) : option (list string) :=
  match req with
  | ApiTransferSync _ (Some r) | ApiTransferAsync _ (Some r) => Some [tq_SourcePeerId r]
  | ApiTransferAsyncBatch _ (Some rs) => Some (tq_SourcePeerId <$> rs)
  | _ => None
  end.

Lemma sim_denies cfg (w0 : World C) (n : NodeState C J) p :
  node_sim cfg w0 n → unnamed cfg p → denies (srv_dataService (ns_server n)) p.
Proof using Type.
  intros Hs Hp d Ed. destruct (sim_calls _ _ _ Hs) as (d1 & ts & f & E1 & Hr & _).
  rewrite Ed in E1. apply Some_inj in E1 as <-. apply sys_reachable_acl in Hr.
  exists (buildAclService cfg). split; [exact Hr|]. intros topic.
  apply Authorize_no_rule. rewrite buildAclService_rules.
  intros rule (r & -> & Hin)%list_elem_of_fmap. by apply Hp.
Qed.

(** C4: the peer id of a configured rule is a literal name, and a node always has an
    access list: whatever has happened since startup, a transfer request (sync, async
    or a batch) for peers that no rule names, as when there are no rules or the rules
    are written for ["*"], publishes nothing on the broker and is answered at once. *)
Theorem node_unnamed_peer_denied now counter w cfg w0 nd evs n e conn req ps :
  main_start now counter w cfg = (w0, Started nd) → Forall (λ ev, e_now ev.1 ≠ 0) evs →
  node_run toMap (node_init w0 nd) evs = Ret n → ns_waiting n !! conn = None →
  transfer_sources req = Some ps → (∀ p, p ∈ ps → unnamed cfg p) →
  ∃ n1 r, node_event toMap e n (EvRequest conn req) = Ret n1 ∧
    w_mq (ns_world n1) = w_mq (ns_world n) ∧
    ns_replies n1 = ns_replies n ++ [(conn, r)] ∧ ns_waiting n1 = ns_waiting n.
Proof using Type.
  intros Hm Hc Hr Hfree Hps Hun. pose proof (started_sim _ _ _ _ _ _ _ _ _ Hm Hc Hr) as Hs.
  destruct (sim_data _ _ _ Hs) as [d Ed].
  assert (∀ p, p ∈ ps → denies (srv_dataService (ns_server n)) p) as Hden
    by (intros p Hp; eapply sim_denies; [exact Hs|by apply Hun]).
  cbn [node_event]. rewrite decide_False by (by apply eq_None_not_Some).
  destruct req as [| | | | | | | | | | | | | | |tr [q|]|tr [q|]|tr [qs|]| | | | |]; try done;
    apply Some_inj in Hps as <-; cbn [node_request].
  - edestruct (transfer_sync_denied (J := J)) as (w1 & s1 & r & -> & Hw); [apply Hden; by left|].
    cbn [go_bind]. by eexists _, _.
  - edestruct (transfer_async_denied (J := J)) as (w1 & s1 & r & -> & Hw);
      [apply Hden; by left|]. cbn [go_bind]. by eexists _, _.
  - edestruct (transfer_batch_denied (J := J)) as (w1 & s1 & r & -> & Hw); [exact Ed| |].
    + intros req Hin. rewrite <- Ed. apply Hden, list_elem_of_fmap. by eexists.
    + cbn [go_bind]. by eexists _, _.
Qed.
End node_acl.

(** * A node with the shipped rules *)

#[local] Existing Instance mock_client.
#[local] Existing Instance store_gzip.
#[local] Existing Instance order_codec.
#[local] Existing Instance sample_codecs.
#[local] Existing Instance stream_codecs.
#[local] Existing Instance list_query_codec.
#[local] Existing Instance list_response_codec.
#[local] Existing Instance auth_request_codec.
#[local] Existing Instance auth_response_codec.
#[local] Existing Instance auth_broadcast_codec.
#[local] Existing Instance EndToEnd.dlq_codec.
#[local] Existing Instance hub_broadcast_codec.

Lemma node_unnamed_peer_denied_witness :
  ∃ w0 nd n1 r,
    main_start 100 0 node_world shipped_config = (w0, Started nd) ∧
    node_event no_schema silent_env (node_init w0 nd)
      (EvRequest 7 (ApiTransferSync "" (Some order_request))) = Ret n1 ∧
    ns_replies n1 = [(7%nat, r)].
Proof.
  destruct (main_start 100 0 node_world shipped_config) as [w0 [nd|]] eqn:E;
    [|by vm_compute in E].
  destruct (node_unnamed_peer_denied no_schema 100 0 node_world shipped_config w0 nd []
    (node_init w0 nd) silent_env 7 (ApiTransferSync "" (Some order_request)) ["app"])
    as (n1 & r & En & _ & Er & _).
  - exact E.
  - constructor.
  - reflexivity.
  - reflexivity.
  - reflexivity.
  - intros p ->%list_elem_of_singleton r.
    change (ac_Rules _) with [star_rule "pub"; star_rule "sub"].
    rewrite !elem_of_cons, elem_of_nil. by intros [->|[->|[]]].
  - exists w0, nd, n1, r. split; [done|]. split; [exact En|exact Er].
Defined.
