(* ===== verification/NodeTransfer.v ===== *)
(** A sync transfer between two running nodes, from the request to the API of one of
    them, through the broker and the HTTP bridge of the other, and back. *)
From S2P Require Import Prelude GoStrings GoTime Errors Metrics TopicFilter Acl Topics.
From S2P Require Import Mq Model Message Codec Registry PeerRegistry PeerRegistryProps.
From S2P Require Import PeerList Catalog DataService DataServiceProps Streams Config Route.
From S2P Require Import Auth Discovery Coap Bridges HttpBridge CoapBridge ProtocolIndex.
From S2P Require Import Api ApiHandlers ApiProps Main EndToEnd.
From S2P Require Import Node NodeCalls NodeServices NodeSim NodeWait NodeProps.
From stdpp Require Import relations fin_map_dom.

Open Scope string_scope.
Open Scope list_scope.
Open Scope Z_scope.

Section transfer.
(** The clients of the two nodes. *)
Context {C B J : Type} `{!MqClient C} `{!MqClientLaws C} `{!MqClient B} `{!MqClientLaws B}.
Context `{!JsonCodec DdMessage} `{!JsonLaws DdMessage} `{!Gzip} `{!GzipLaws}.
Context `{!RegistryCodecs} `{!StreamCodecs} `{!JsonCodec HubBroadcast} `{!JsonCodec AuthBroadcast}.
Context `{!JsonCodec PeerAuthRequest} `{!JsonCodec PeerAuthResponse}.
Context `{!JsonCodec PeerListQuery} `{!JsonCodec PeerListResponse} `{!JsonCodec DlqEvent}.
Context (toMap : ResourceMetaSchema → option J).
Implicit Types (n : NodeState C J) (m : NodeState B J).

(** A request that makes its connection wait has published its message once. *)
Lemma request_published cfg w0 n e conn tr req n1 t :
  node_sim cfg w0 n → e_now e ≠ 0 → ns_waiting n !! conn = None →
  node_event toMap e n (EvRequest conn (ApiTransferSync tr (Some req))) = Ret n1 →
  ns_waiting n1 !! conn = Some t →
  let topics := NewDefaultTopicSet (cfg_Tenant cfg) in
  let id := "req-" +:+ e_stamp e 0 in
  Normalize (wt_msg t) = wt_msg t ∧ envelope_ok (wt_msg t) ∧
  msg_Mode (wt_msg t) = DdTransferModeSync ∧ wt_id t = id ∧
  h_ReplyTo (msg_Header (wt_msg t)) = TransferResponseByRequest topics id ∧
  ∃ data, mq_sent (w_mq (ns_world n1)) = mq_sent (w_mq (ns_world n)) ++
      [(mq_wire (w_mq (ns_world n)) (TransferRequest topics (tq_Resource req)), data)] ∧
    (json_valid (wt_msg t) → DecodeDdMessage data = Ok (wt_msg t)).
Proof using All.
  intros Hs Hn Hfree. cbv zeta. cbn [node_event].
  rewrite decide_False by (by apply eq_None_not_Some). cbn [node_request].
  destruct (handleTransferSync_begin _ _ _ _ _ _ _ _ _ _ _ _ _ _) as [[[w1 s1] r]|] eqn:Eb;
    [|done]. cbn [go_bind]. destruct r as [r|msg ch mode]; intros <-%Ret_inj.
  { cbn. by rewrite Hfree. }
  cbn [with_waiting ns_waiting with_server ns_world]. rewrite lookup_insert_eq.
  intros <-%Some_inj. cbn [wt_msg].
  apply handleTransferSync_begin_waiting in Eb as (d & d1 & w2 & m0 & Hd & Hw2 & Hh & Hb & _).
  apply SendSync_begin_published in Hb as (Hnorm & Hok & Hmode & Hreq & Hrep & data & Hsent & Hdec);
    [|done..].
  destruct (sync_message_id (ns_server n) (e_stamp e 0) tr req) as (Hid & _ & Hto & _).
  rewrite Hh in Hreq, Hrep. rewrite (sim_topics _ _ _ Hs) in *.
  unfold wt_id. cbn [wt_msg]. split_and!; [done..|by rewrite Hreq|by rewrite Hrep|].
  exists data. split; [|done]. by rewrite Hsent, Hw2.
Qed.

(** A node whose HTTP bridge handles a sync request publishes the reply. *)
Lemma bridge_publishes e m b topic data msg raw c' :
  ns_http m = Some b → DecodeDdMessage data = Ok msg → Normalize msg = msg →
  envelope_ok msg → msg_Mode msg = DdTransferModeSync →
  let target := (doHttp (e_clk e) (e_NewRequest e) (e_Do e) (e_range e) (e_now e)
                   (ns_world m) b msg).2 in
  let resp := http_reply (e_now e) b msg target in
  (EncodeDdMessage resp (bool_decide (128 ≤ length (msg_Payload resp))%nat)).2 = Ok raw →
  mq_Publish (w_mq (ns_world m)) (reply_topic b msg) raw = (c', None) →
  ∃ m1, node_event toMap e m (EvMessage hHttpSyncRequest topic data) = Ret m1 ∧
    mq_sent (w_mq (ns_world m1)) = mq_sent (w_mq (ns_world m)) ++
      [(mq_wire (w_mq (ns_world m)) (reply_topic b msg), raw)].
Proof using All.
  intros Hhttp Hdec Hnorm Hok Hmode target resp Hraw Hpub.
  pose proof (Http_handleSyncRequest_reply (e_clk e) (e_NewRequest e) (e_Do e) (e_range e)
    (e_now e) (e_now e) (ns_world m) b topic data msg msg raw c' Hdec) as Hb.
  rewrite http_accepted_id_msg in Hb by done. specialize (Hb (eq_sym Hnorm) Hok Hraw Hpub).
  cbn [node_event node_message]. rewrite Hhttp.
  destruct (Http_handleSyncRequest _ _ _ _ _ _ _ _ _ _) as [w1 b1].
  eexists. split; [reflexivity|]. cbn [with_bridges ns_world]. cbn [fst] in Hb. rewrite Hb.
  by apply mq_publish_ok.
Qed.

(** C1: a sync transfer from end to end, on running nodes.  When a request to the API
    of a node waits, it has published one message, on the request topic of the resource;
    a node whose HTTP bridge handles that message calls its target and publishes one
    reply, on a topic that the first node's response subscription accepts; and whatever
    happens at the first node before the reply, and after it until the wake-up, once
    it has handled the reply the request is answered with 200 and the body that the
    target gave. *)
Theorem node_transfer_end_to_end now counter w cfg w0 nd evs n e conn tr req n1 t
    m b e' topic raw c' evs1 n2 e1 topic' n3 evs2 n4 e2 :
  main_start now counter w cfg = (w0, Started nd) →
  Forall (λ ev, e_now ev.1 ≠ 0) (evs ++ evs1 ++ evs2) → e_now e ≠ 0 → e_now e1 ≠ 0 →
  node_run toMap (node_init w0 nd) evs = Ret n → ns_waiting n !! conn = None →
  node_event toMap e n (EvRequest conn (ApiTransferSync tr (Some req))) = Ret n1 →
  ns_waiting n1 !! conn = Some t →
  ns_http m = Some b →
  let target := (doHttp (e_clk e') (e_NewRequest e') (e_Do e') (e_range e') (e_now e')
                   (ns_world m) b (wt_msg t)).2 in
  let resp := http_reply (e_now e') b (wt_msg t) target in
  json_valid (wt_msg t) → json_valid resp →
  (EncodeDdMessage resp (bool_decide (128 ≤ length (msg_Payload resp))%nat)).2 = Ok raw →
  mq_Publish (w_mq (ns_world m)) (reply_topic b (wt_msg t)) raw = (c', None) →
  plain_level (cfg_Tenant cfg) → level_name ("req-" +:+ e_stamp e 0) →
  node_run toMap n1 evs1 = Ret n2 →
  Forall (λ ev, ∀ why, ev.2 ≠ EvWake conn why) (evs1 ++ evs2) →
  node_event toMap e1 n2 (EvMessage hSyncResponse topic' raw) = Ret n3 →
  node_run toMap n3 evs2 = Ret n4 →
  Forall (λ ev, ∀ resp', ¬ responds ev.2 (wt_id t) resp') evs2 →
  let topics := NewDefaultTopicSet (cfg_Tenant cfg) in
  ∃ data m1 n5,
    mq_sent (w_mq (ns_world n1)) = mq_sent (w_mq (ns_world n)) ++
      [(mq_wire (w_mq (ns_world n)) (TransferRequest topics (tq_Resource req)), data)] ∧
    node_event toMap e' m (EvMessage hHttpSyncRequest topic data) = Ret m1 ∧
    mq_sent (w_mq (ns_world m1)) = mq_sent (w_mq (ns_world m)) ++
      [(mq_wire (w_mq (ns_world m)) (reply_topic b (wt_msg t)), raw)] ∧
    matchMQTTTopic (TransferResponseByRequestStream topics) (reply_topic b (wt_msg t)) = true ∧
    node_event toMap e2 n4 (EvWake conn WakeResponse) = Ret n5 ∧
    ns_replies n5 = ns_replies n4 ++ [(conn, writeJSON 200
      (JObj [("response", JStr (of_bytes target.1)); ("route_mode", JStr (wt_mode t))]))].
Proof using All.
  intros Hm Hc Hn Hn1 Hr Hfree He Ht Hhttp target resp Hvm Hvr Hraw Hpub Hten Hstamp
    Hr1 Hnw He1 Hr2 Hno topics.
  apply Forall_app in Hc as [Hc [Hc1 Hc2]%Forall_app].
  apply Forall_app in Hnw as [Hnw1 Hnw2].
  pose proof (started_sim _ _ _ _ _ _ _ _ _ Hm Hc Hr) as Hs.
  destruct (request_published cfg w0 n e conn tr req n1 t Hs Hn Hfree He Ht)
    as (Hnorm & Hok & Hmode & Hid & Hto & data & Hsent & Hdec). specialize (Hdec Hvm).
  pose proof (sim_event toMap cfg w0 e n _ n1 Hn Hs He) as Hs1.
  destruct (sim_waiting _ _ _ _ _ Hs1 Ht) as [r1 Hw1].
  destruct (run_keeps_waiting toMap cfg w0 evs1 n1 n2 conn t r1 Hc1 Hs1 Hw1 Hnw1 Hr1)
    as [[r2 Hw2] _].
  pose proof (sim_run toMap cfg w0 evs1 n1 n2 Hc1 Hs1 Hr1) as Hs2.
  assert (reply_topic b (wt_msg t) =
    TransferResponseByRequest topics ("req-" +:+ e_stamp e 0)) as Hreply.
  { unfold reply_topic. rewrite Hto. by rewrite decide_False by done. }
  assert (responds (EvMessage hSyncResponse topic' raw) (wt_id t) resp) as Hresp.
  { exists topic', raw. split; [done|]. split.
    - apply Decode_Encode in Hraw; unfold resp, http_reply in *; by rewrite Normalize_idemp in *.
    - apply http_response_id. fold (wt_id t). by rewrite Hid. }
  pose proof (response_waits toMap cfg w0 e1 n2 _ n3 conn t resp r2 Hs2 Hw2 Hresp He1) as Hw3.
  pose proof (sim_event toMap cfg w0 e1 n2 _ n3 Hn1 Hs2 He1) as Hs3.
  assert (Forall (λ ev : env * event, (∀ why, ev.2 ≠ EvWake conn why) ∧
            ∀ resp', ¬ responds ev.2 (wt_id t) resp') evs2) as Hq by (by apply Forall_and).
  pose proof (run_waits toMap cfg w0 evs2 n3 n4 conn t (Some resp) Hc2 Hs3 Hw3 Hq Hr2) as Hw4.
  pose proof (sim_run toMap cfg w0 evs2 n3 n4 Hc2 Hs3 Hr2) as Hs4.
  destruct (wake_answers cfg w0 e2 n4 conn t (Some resp) WakeResponse Hs4 Hw4) as [_ Er];
    [by eauto|].
  destruct (bridge_publishes e' m b topic data (wt_msg t) raw c' Hhttp Hdec Hnorm Hok Hmode
    Hraw Hpub) as (m1 & Em & Hm1).
  exists data, m1, (node_wake e2 n4 conn WakeResponse).
  split; [exact Hsent|]. split; [exact Em|]. split; [exact Hm1|].
  split; [|split; [done|]].
  - rewrite Hreply. apply matchMQTTTopic_accepts. unfold topic_accepts.
    destruct Hten as (Htn & ? & ?). autorewrite with topic_levels. solve_levels.
  - rewrite Er. unfold sync_reply.
    destruct (http_reply_contents (e_now e') b (wt_msg t) target) as [Hp _].
    unfold resp. by rewrite Hp.
Qed.
End transfer.

(** * The round trip at two concrete nodes *)

#[local] Existing Instance mock_client.
#[local] Existing Instance store_gzip.
#[local] Existing Instance store_gzip_laws.
#[local] Existing Instance order_codec.
#[local] Existing Instance order_laws.
#[local] Existing Instance sample_codecs.
#[local] Existing Instance stream_codecs.
#[local] Existing Instance list_query_codec.
#[local] Existing Instance list_response_codec.
#[local] Existing Instance auth_request_codec.
#[local] Existing Instance auth_response_codec.
#[local] Existing Instance auth_broadcast_codec.
#[local] Existing Instance EndToEnd.dlq_codec.
#[local] Existing Instance hub_broadcast_codec.

Definition first_node : NodeState MockClient unit := node_init started.1 started_node.
Definition order_event : event := EvRequest 7 (ApiTransferSync "" (Some order_request)).

(** A node whose HTTP bridge calls a target that gives the text "done". *)
Definition edge_node : NodeState MockClient unit :=
  with_bridges first_node node_world (Some edge_bridge) None.
Definition edge_env : env := {|
  e_range := ranger_std; e_ranges := λ _, ranger_std; e_items := item_order_std;
  e_now := 200; e_nano := 0; e_clk := λ _, 200; e_stamp := λ _, "1"; e_ctx_deadline := None;
  e_NewRequest := λ _ _, None; e_Do := order_target;
  e_DirectDo := λ _ _, DoError (EText ""); e_url_Host := λ _, None;
  e_ResolveUDPAddr := λ _, None; e_Udp := λ _ _ _ _, DialError;
  e_DirectUdp := λ _ _ _, DialError |}.
Definition reply_bytes : bytes :=
  to_bytes (json_text "{'mode':'sync','header':{'correlation_id':'req-1'}}").

Lemma node_transfer_end_to_end_witness :
  ∃ n1 n2 n3 data m1 n5,
    node_event no_schema silent_env first_node order_event = Ret n1 ∧
    node_event no_schema edge_env edge_node
      (EvMessage hHttpSyncRequest "dd/default/transfer/order/request" data) = Ret m1 ∧
    mq_sent (w_mq (ns_world m1)) = mq_sent (w_mq (ns_world edge_node)) ++
      [(mq_wire (w_mq (ns_world edge_node)) "dd/default/transfer/response/req-1", reply_bytes)] ∧
    node_event no_schema silent_env n1 EvSweepIdle = Ret n2 ∧
    node_event no_schema silent_env n2
      (EvMessage hSyncResponse "dd/default/transfer/response/req-1" reply_bytes) = Ret n3 ∧
    node_event no_schema silent_env n3 (EvWake 7 WakeResponse) = Ret n5 ∧
    ns_replies n5 = ns_replies n3 ++ [(7%nat, writeJSON 200
      (JObj [("response", JStr "done"); ("route_mode", JStr "broker")]))].
Proof.
  destruct (node_event no_schema silent_env first_node order_event) as [n1|] eqn:E1;
    [|by vm_compute in E1].
  assert (ns_waiting n1 !! 7%nat = Some waiting7) as Ht.
  { assert (match node_event no_schema silent_env first_node order_event with
      | Ret n => ns_waiting n !! 7%nat | Panic _ => None end = Some waiting7) as Hw
      by (vm_compute; reflexivity). by rewrite E1 in Hw. }
  destruct (node_run no_schema n1 [(silent_env, EvSweepIdle)]) as [n2|] eqn:E2;
    [|cbn [node_run node_event] in E2; discriminate].
  destruct (node_event no_schema silent_env n2
    (EvMessage hSyncResponse "dd/default/transfer/response/req-1" reply_bytes)) as [n3|] eqn:E3.
  2:{ cbn [node_event node_message] in E3. by destruct (srv_dataService (ns_server n2)). }
  destruct (node_transfer_end_to_end no_schema 100 0 node_world app_config started.1 started_node
    [] first_node silent_env 7 "" order_request n1 waiting7 edge_node edge_bridge edge_env
    "dd/default/transfer/order/request" reply_bytes
    (mq_Publish (w_mq node_world) (reply_topic edge_bridge order_msg) reply_bytes).1
    [(silent_env, EvSweepIdle)] n2 silent_env "dd/default/transfer/response/req-1" n3
    [] n3 silent_env)
    as (data & m1 & n5 & _ & Em & Hm & _ & En & Er).
  - exact started_up.
  - exact (all_clocked [EvSweepIdle]).
  - discriminate.
  - discriminate.
  - reflexivity.
  - vm_compute. reflexivity.
  - exact E1.
  - exact Ht.
  - reflexivity.
  - exact I.
  - exact I.
  - vm_compute. reflexivity.
  - vm_compute. reflexivity.
  - by_compute.
  - by_compute.
  - exact E2.
  - apply Forall_singleton. intros why [=].
  - exact E3.
  - reflexivity.
  - apply Forall_nil_2.
  - exists n1, n2, n3, data, m1, n5. split; [exact eq_refl|]. split; [exact Em|].
    split; [exact Hm|]. split; [|split; [exact E3|split; [exact En|exact Er]]].
    cbn [node_run] in E2. destruct (node_event _ _ _ _) as [n|]; [exact E2|discriminate].
Defined.
